(** * firma-json: signing and verifying JSON payloads (main.go)

    A shallow embedding of [signHandler] and [verifyHandler] of main.go,
    together with the parts of the Go standard library they call:
    [encoding/json] (scanner, [Unmarshal], [Marshal], [Decoder.Decode]),
    [unicode/utf8], [strconv] (float parsing and shortest formatting),
    [encoding/base64] and [time.Format].

    Go strings and byte slices are [string]s of 8-bit [ascii] characters.
    A [float64] is a sign, a 53-bit mantissa and a binary exponent.
    A Go map is a list of entries with distinct keys, in no particular
    order: every observer of a map in this program ([json.Marshal]) sorts
    the keys before it looks at them. *)

From Stdlib Require Import ZArith NArith List String Ascii Bool Lia.
From Stdlib Require Import Permutation Sorted.
Import ListNotations.

Local Open Scope string_scope.

(** ** Bytes *)

Definition code (c : ascii) : N := N_of_ascii c.
Definition chr (n : N) : ascii := ascii_of_N n.

Definition dquote : ascii := "034"%char.
Definition backslash : ascii := "092"%char.

(** [js] turns every apostrophe into a double quote, so that JSON texts
    can be written down legibly in examples. *)
Fixpoint js (s : string) : string :=
  match s with
  | EmptyString => EmptyString
  | String c r => String (if (c =? "'")%char then dquote else c) (js r)
  end.

Fixpoint drop (n : nat) (s : string) : string :=
  match n, s with
  | O, _ => s
  | S _, EmptyString => EmptyString
  | S k, String _ r => drop k r
  end.

Fixpoint take (n : nat) (s : string) : string :=
  match n, s with
  | O, _ => EmptyString
  | S _, EmptyString => EmptyString
  | S k, String c r => String c (take k r)
  end.

Fixpoint repeat_string (n : nat) (s : string) : string :=
  match n with
  | O => EmptyString
  | S k => s ++ repeat_string k s
  end.

(** Go's [error] results: a value or an error message. *)
Inductive result (A : Type) : Type :=
| Ok (a : A)
| Err (msg : string).
Arguments Ok {A} a.
Arguments Err {A} msg.

Definition is_digit (c : ascii) : bool := ((48 <=? code c) && (code c <=? 57))%N.

(** Leading digits of a text and what follows them. *)
Fixpoint span_digits (s : string) : string * string :=
  match s with
  | EmptyString => (EmptyString, EmptyString)
  | String c r =>
    if is_digit c then let '(ds, rest) := span_digits r in (String c ds, rest)
    else (EmptyString, s)
  end.

(** ** unicode/utf8 and unicode/utf16 *)

Module utf8.

Definition RuneError : N := 65533.
Definition RuneSelf : N := 128.
Definition MaxRune : N := 1114111.

(** The [first] table of utf8.go: for a leading byte, the length of the
    sequence and the accepted range of the second byte. *)
Definition first (b0 : N) : option (N * N * N) :=
  if (b0 <? 194)%N then None
  else if (b0 <=? 223)%N then Some (2, 128, 191)%N
  else if (b0 =? 224)%N then Some (3, 160, 191)%N
  else if (b0 <=? 236)%N then Some (3, 128, 191)%N
  else if (b0 =? 237)%N then Some (3, 128, 159)%N
  else if (b0 <=? 239)%N then Some (3, 128, 191)%N
  else if (b0 =? 240)%N then Some (4, 144, 191)%N
  else if (b0 <=? 243)%N then Some (4, 128, 191)%N
  else if (b0 =? 244)%N then Some (4, 128, 143)%N
  else None.

Definition continuation (b : N) : bool := ((128 <=? b) && (b <=? 191))%N.

(** [DecodeRune p]: the first rune of [p] and its width in bytes;
    [(RuneError, 1)] on an invalid encoding, [(RuneError, 0)] on the
    empty string. *)
Definition DecodeRune (p : string) : N * nat :=
  match p with
  | EmptyString => (RuneError, 0)
  | String c0 p1 =>
    let b0 := code c0 in
    if (b0 <? RuneSelf)%N then (b0, 1)
    else
      match first b0 with
      | None => (RuneError, 1)
      | Some (sz, lo, hi) =>
        match p1 with
        | EmptyString => (RuneError, 1)
        | String c1 p2 =>
          let b1 := code c1 in
          if ((b1 <? lo) || (hi <? b1))%N then (RuneError, 1)
          else if (sz =? 2)%N then
            (N.lor (N.shiftl (N.land b0 31) 6) (N.land b1 63), 2)
          else
            match p2 with
            | EmptyString => (RuneError, 1)
            | String c2 p3 =>
              let b2 := code c2 in
              if negb (continuation b2) then (RuneError, 1)
              else if (sz =? 3)%N then
                (N.lor (N.lor (N.shiftl (N.land b0 15) 12)
                              (N.shiftl (N.land b1 63) 6))
                       (N.land b2 63), 3)
              else
                match p3 with
                | EmptyString => (RuneError, 1)
                | String c3 _ =>
                  let b3 := code c3 in
                  if negb (continuation b3) then (RuneError, 1)
                  else
                    (N.lor (N.lor (N.lor (N.shiftl (N.land b0 7) 18)
                                         (N.shiftl (N.land b1 63) 12))
                                  (N.shiftl (N.land b2 63) 6))
                           (N.land b3 63), 4)
                end
            end
        end
      end
  end.

Definition surrogate (r : N) : bool := ((55296 <=? r) && (r <=? 57343))%N.

(** Three-byte encoding, shared by the [RuneError] fall-through. *)
Definition encode3 (r : N) : string :=
  String (chr (N.lor 224 (N.shiftr r 12)))
    (String (chr (N.lor 128 (N.land (N.shiftr r 6) 63)))
      (String (chr (N.lor 128 (N.land r 63))) EmptyString)).

(** [EncodeRune r]: the UTF-8 encoding of [r]; a surrogate or a value
    beyond [MaxRune] is encoded as [RuneError]. *)
Definition EncodeRune (r : N) : string :=
  if (r <=? 127)%N then String (chr r) EmptyString
  else if (r <=? 2047)%N then
    String (chr (N.lor 192 (N.shiftr r 6)))
      (String (chr (N.lor 128 (N.land r 63))) EmptyString)
  else if ((MaxRune <? r) || surrogate r)%N then encode3 RuneError
  else if (r <=? 65535)%N then encode3 r
  else
    String (chr (N.lor 240 (N.shiftr r 18)))
      (String (chr (N.lor 128 (N.land (N.shiftr r 12) 63)))
        (String (chr (N.lor 128 (N.land (N.shiftr r 6) 63)))
          (String (chr (N.lor 128 (N.land r 63))) EmptyString))).

End utf8.

Module utf16.

Definition IsSurrogate (r : N) : bool := ((55296 <=? r) && (r <? 57344))%N.

(** [DecodeRune r1 r2]: the rune of a surrogate pair, the replacement
    character when the pair is not valid. *)
Definition DecodeRune (r1 r2 : N) : N :=
  if ((55296 <=? r1) && (r1 <? 56320) && (56320 <=? r2) && (r2 <? 57344))%N
  then (N.lor (N.shiftl (r1 - 55296) 10) (r2 - 56320) + 65536)%N
  else utf8.RuneError.

End utf16.

(** ** strconv: float64, ParseFloat and shortest formatting

    A finite [float64] is [(-1)^neg * mant * 2^exp] in canonical form:
    [2^52 <= mant < 2^53] and [-1074 <= exp <= 971] for a normal number,
    [mant < 2^52] and [exp = -1074] for a subnormal number or zero.
    A decimal number is a pair [(c, x)] standing for [c * 10^x], as the
    digits and decimal point of the [decimal] type of decimal.go. *)

Module strconv.

Local Open Scope Z_scope.

Record float64 : Type := Float { neg : bool; mant : Z; exp : Z }.

Definition digit_char (d : Z) : ascii := chr (Z.to_N (48 + d)).
Definition digit_val (c : ascii) : Z := Z.of_N (code c) - 48.

Fixpoint digits_value (acc : Z) (s : string) : Z :=
  match s with
  | EmptyString => acc
  | String c r => digits_value (10 * acc + digit_val c) r
  end.

Fixpoint digits_of_fuel (fuel : nat) (n : Z) (acc : string) : string :=
  match fuel with
  | O => acc
  | S f =>
    if n <? 10 then String (digit_char n) acc
    else digits_of_fuel f (n / 10) (String (digit_char (n mod 10)) acc)
  end.

(** The decimal digits of [n >= 0], without leading zeros. *)
Definition digits_of (n : Z) : string :=
  digits_of_fuel (S (Z.to_nat (Z.log2 n))) n EmptyString.

Definition num_digits (n : Z) : Z := Z.of_nat (String.length (digits_of n)).

(** [le_scaled q e p]: [q * 2^e <= p], for any sign of [e]. *)
Definition le_scaled (q e p : Z) : bool :=
  if 0 <=? e then q * 2 ^ e <=? p else q <=? p * 2 ^ (- e).

(** The integer [b] with [2^b <= p/q < 2^(b+1)], for positive [p], [q]. *)
Definition floor_log2_ratio (p q : Z) : Z :=
  let e0 := Z.log2 p - Z.log2 q in
  if le_scaled q e0 p then e0 else e0 - 1.

(** [round_ratio p q]: the float64 nearest to [p/q > 0], ties to the even
    mantissa; [None] when the result is beyond the largest float64. *)
Definition round_ratio (p q : Z) : option (Z * Z) :=
  let b := floor_log2_ratio p q in
  let ex := Z.max (b - 52) (-1074) in
  let num := if 0 <=? ex then p else p * 2 ^ (- ex) in
  let den := if 0 <=? ex then q * 2 ^ ex else q in
  let a := num / den in
  let r := num mod den in
  let m := if (den <? 2 * r) || ((den =? 2 * r) && Z.odd a) then a + 1 else a in
  let '(m', ex') := if m =? 2 ^ 53 then (2 ^ 52, ex + 1) else (m, ex) in
  if 971 <? ex' then None else Some (m', ex').

(** [floatBits c x] (decimal.floatBits of atof.go): mantissa and exponent
    of the float64 nearest to [c * 10^x], with the early exits for a
    decimal point beyond 310 or below -330. *)
Definition floatBits (c x : Z) : option (Z * Z) :=
  if c =? 0 then Some (0, -1074)
  else
    let dp := num_digits c + x in
    if 310 <? dp then None
    else if dp <? -330 then Some (0, -1074)
    else if 0 <=? x then round_ratio (c * 10 ^ x) 1
    else round_ratio c (10 ^ (- x)).

(** The exponent of a literal: digits are accumulated only while the
    value is below 10000 (readFloat of atof.go). *)
Fixpoint exp_value (e : Z) (s : string) : Z :=
  match s with
  | EmptyString => e
  | String c r => exp_value (if e <? 10000 then e * 10 + digit_val c else e) r
  end.

Definition read_sign (s : string) : bool * string :=
  match s with
  | String c r =>
    if (c =? "-")%char then (true, r)
    else if (c =? "+")%char then (false, r)
    else (false, s)
  | EmptyString => (false, s)
  end.

Definition read_exponent (s : string) : option Z :=
  match s with
  | EmptyString => Some 0
  | String c r =>
    if ((c =? "e") || (c =? "E"))%char then
      let '(eneg, r1) := read_sign r in
      match span_digits r1 with
      | (EmptyString, _) => None
      | (ds, EmptyString) => Some (if eneg then - exp_value 0 ds else exp_value 0 ds)
      | (_, String _ _) => None
      end
    else None
  end.

(** [read_decimal s]: sign, digits and decimal exponent of a decimal
    floating-point literal; [None] on a syntax error. *)
Definition read_decimal (s : string) : option (bool * Z * Z) :=
  let '(sg, s1) := read_sign s in
  let '(ip, s2) := span_digits s1 in
  let '(fp, s3) :=
    match s2 with
    | String c r => if (c =? ".")%char then span_digits r else (EmptyString, s2)
    | EmptyString => (EmptyString, s2)
    end in
  match (ip ++ fp)%string with
  | EmptyString => None
  | String _ _ =>
    match read_exponent s3 with
    | None => None
    | Some e => Some (sg, digits_value 0 (ip ++ fp), e - Z.of_nat (String.length fp))
    end
  end.

(** [ParseFloat s 64] on a decimal literal. *)
Definition ParseFloat (s : string) : result float64 :=
  match read_decimal s with
  | None => Err "invalid syntax"
  | Some (sg, c, x) =>
    match floatBits c x with
    | None => Err "value out of range"
    | Some (m, e) => Ok (Float sg m e)
    end
  end.

(** Removal of trailing zeros of a decimal number. *)
Fixpoint trim_fuel (fuel : nat) (c x : Z) : Z * Z :=
  match fuel with
  | O => (c, x)
  | S f => if (c mod 10 =? 0) && negb (c =? 0) then trim_fuel f (c / 10) (x + 1) else (c, x)
  end.

Definition trim (c x : Z) : Z * Z := trim_fuel (S (Z.to_nat (Z.log2 c))) c x.

(** The exact decimal value of [m * 2^e]. *)
Definition exact_decimal (m e : Z) : Z * Z :=
  if 0 <=? e then trim (m * 2 ^ e) 0 else trim (m * 5 ^ (- e)) e.

Definition rounds_to (c x m e : Z) : bool :=
  match floatBits c x with
  | Some (m', e') => (m' =? m) && (e' =? e)
  | None => false
  end.

(** [roundShortest k m e D x0] (ftoa.go): [D * 10^x0] is the exact value
    of the float [(m, e)]; starting with all but [k] of the digits of
    [D], take the first prefix that can be rounded down or up to a
    decimal which still reads back as [(m, e)]; when both directions do,
    round to the nearest, halfway to even. *)
Fixpoint roundShortest (k : nat) (m e D x0 : Z) : Z * Z :=
  let p := 10 ^ Z.of_nat k in
  let lo := D / p in
  let rem := D mod p in
  let hi := lo + 1 in
  let x := x0 + Z.of_nat k in
  let okdown := rounds_to lo x m e in
  let okup := rounds_to hi x m e in
  if okdown && okup then
    if (p <? 2 * rem) || ((p =? 2 * rem) && Z.odd lo) then (hi, x) else (lo, x)
  else if okdown then (lo, x)
  else if okup then (hi, x)
  else
    match k with
    | O => (D, x0)
    | S k' => roundShortest k' m e D x0
    end.

(** The shortest decimal that reads back as the nonzero float [(m, e)]. *)
Definition shortest (m e : Z) : Z * Z :=
  let '(D, x0) := exact_decimal m e in
  let '(c, x) := roundShortest (Nat.pred (String.length (digits_of D))) m e D x0 in
  trim c x.

(** Digits and decimal point, as in [decimalSlice]: the value is
    [0.d1d2... * 10^dp]. *)
Definition shortest_digits (f : float64) : string * Z :=
  if mant f =? 0 then (EmptyString, 0)
  else
    let '(c, x) := shortest (mant f) (exp f) in
    (digits_of c, num_digits c + x).

Definition digit_at (digs : string) (j : Z) : ascii :=
  if (0 <=? j) && (j <? Z.of_nat (String.length digs)) then
    match String.get (Z.to_nat j) digs with
    | Some c => c
    | None => "0"%char
    end
  else "0"%char.

Fixpoint digits_from (digs : string) (j : Z) (count : nat) : string :=
  match count with
  | O => EmptyString
  | S k => String (digit_at digs j) (digits_from digs (j + 1) k)
  end.

(** [%e] with the shortest precision: d.ddde±dd. *)
Definition fmtE (digs : string) (dp : Z) : string :=
  let nd := String.length digs in
  let ex := if Nat.eqb nd 0 then 0 else dp - 1 in
  let aex := Z.abs ex in
  let more :=
    match Nat.pred nd with
    | O => EmptyString
    | S _ => String "." (drop 1 digs)
    end in
  let sign := if ex <? 0 then "-"%char else "+"%char in
  let expdigits :=
    if aex <? 10 then String "0" (String (digit_char aex) EmptyString)
    else if aex <? 100 then
      String (digit_char (aex / 10)) (String (digit_char (aex mod 10)) EmptyString)
    else
      String (digit_char (aex / 100))
        (String (digit_char ((aex / 10) mod 10))
          (String (digit_char (aex mod 10)) EmptyString)) in
  String (digit_at digs 0) (String.append more (String "e" (String sign expdigits))).

(** [%f] with the shortest precision. *)
Definition fmtF (digs : string) (dp : Z) : string :=
  let nd := Z.of_nat (String.length digs) in
  let prec := Z.to_nat (Z.max (nd - dp) 0) in
  let intpart :=
    if 0 <? dp then
      String.append (take (Z.to_nat dp) digs)
        (repeat_string (Z.to_nat dp - String.length digs) "0")
    else "0"%string in
  let fracpart :=
    match prec with
    | O => EmptyString
    | S _ => String "." (digits_from digs dp prec)
    end in
  String.append intpart fracpart.

(** [FormatFloat f fmt (-1) 64] for [fmt] one of e and f. *)
Definition FormatFloat (f : float64) (fmt : ascii) : string :=
  let '(digs, dp) := shortest_digits f in
  String.append (if neg f then "-"%string else EmptyString)
    (if (fmt =? "e")%char then fmtE digs dp else fmtF digs dp).

(** Order of the absolute values of two canonical floats. *)
Definition abs_ltb (f g : float64) : bool :=
  (exp f <? exp g) || ((exp f =? exp g) && (mant f <? mant g)).

End strconv.

(** ** encoding/json: the scanner

    [scan_value] reads one JSON value from the front of a text and
    returns its syntax tree and the rest of the text.  Numbers are kept
    as the literal text, strings are already unquoted (unquoteBytes of
    decode.go).  The scanner refuses nesting deeper than
    [maxNestingDepth] (scanner.go). *)

Module json.

#[local] Unset Elimination Schemes.

Inductive ast : Type :=
| ANull
| ABool (b : bool)
| ANum (lit : string)
| AStr (s : string)
| AArr (elems : list ast)
| AObj (members : list (string * ast)).

#[local] Set Elimination Schemes.

Definition maxNestingDepth : N := 10000.

Definition isSpace (c : ascii) : bool :=
  (c =? " ")%char || (c =? "009")%char || (c =? "013")%char || (c =? "010")%char.

Fixpoint skip_space (s : string) : string :=
  match s with
  | EmptyString => EmptyString
  | String c r => if isSpace c then skip_space r else s
  end.

Definition hexval (c : ascii) : option N :=
  let n := code c in
  if ((48 <=? n) && (n <=? 57))%N then Some (n - 48)%N
  else if ((97 <=? n) && (n <=? 102))%N then Some (n - 87)%N
  else if ((65 <=? n) && (n <=? 70))%N then Some (n - 55)%N
  else None.

(** [getu4 s]: the code unit of a [\uXXXX] escape at the front of [s]. *)
Definition getu4 (s : string) : option N :=
  match s with
  | String b (String u (String h1 (String h2 (String h3 (String h4 _))))) =>
    if ((b =? backslash) && (u =? "u"))%char then
      match hexval h1, hexval h2, hexval h3, hexval h4 with
      | Some a, Some b, Some c, Some d => Some (a * 4096 + b * 256 + c * 16 + d)%N
      | _, _, _, _ => None
      end
    else None
  | _ => None
  end.

(** The single-character escapes the scanner accepts after a backslash. *)
Definition simple_escape (e : ascii) : option ascii :=
  if (e =? dquote)%char then Some dquote
  else if (e =? backslash)%char then Some backslash
  else if (e =? "/")%char then Some "/"%char
  else if (e =? "b")%char then Some "008"%char
  else if (e =? "f")%char then Some "012"%char
  else if (e =? "n")%char then Some "010"%char
  else if (e =? "r")%char then Some "013"%char
  else if (e =? "t")%char then Some "009"%char
  else None.

Definition prepend {A : Type} (p : string) (r : option (string * A)) : option (string * A) :=
  match r with
  | Some (s, a) => Some (p ++ s, a)
  | None => None
  end.

(** [scan_string fuel s]: [s] follows an opening quote; the result is the
    unquoted content and the text after the closing quote.  Invalid UTF-8
    and unpaired surrogates are replaced by U+FFFD. *)
Fixpoint scan_string (fuel : nat) (s : string) : option (string * string) :=
  match fuel with
  | O => None
  | S f =>
    match s with
    | EmptyString => None
    | String c r =>
      if (c =? dquote)%char then Some (EmptyString, r)
      else if (c =? backslash)%char then
        match r with
        | EmptyString => None
        | String e r' =>
          match simple_escape e with
          | Some x => prepend (String x EmptyString) (scan_string f r')
          | None =>
            if (e =? "u")%char then
              match getu4 s with
              | None => None
              | Some rr =>
                let s6 := drop 6 s in
                if utf16.IsSurrogate rr then
                  match getu4 s6 with
                  | Some rr1 =>
                    let dec := utf16.DecodeRune rr rr1 in
                    if (dec =? utf8.RuneError)%N
                    then prepend (utf8.EncodeRune utf8.RuneError) (scan_string f s6)
                    else prepend (utf8.EncodeRune dec) (scan_string f (drop 6 s6))
                  | None => prepend (utf8.EncodeRune utf8.RuneError) (scan_string f s6)
                  end
                else prepend (utf8.EncodeRune rr) (scan_string f s6)
              end
            else None
          end
        end
      else if (code c <? 32)%N then None
      else if (code c <? utf8.RuneSelf)%N then prepend (String c EmptyString) (scan_string f r)
      else
        let '(rr, size) := utf8.DecodeRune s in
        prepend (utf8.EncodeRune rr) (scan_string f (drop size s))
    end
  end.

(** The number states of the scanner: an optional minus sign, then 0 or
    a digit 1-9 followed by digits, then optionally a point and at least
    one digit, then optionally e or E, an optional sign and at least one
    digit.  The result is the literal and the rest of the text. *)
Definition scan_int (s : string) : option (string * string) :=
  match s with
  | EmptyString => None
  | String c r =>
    if (c =? "0")%char then Some ("0", r)
    else if is_digit c then let '(ds, rest) := span_digits r in Some (String c ds, rest)
    else None
  end.

Definition scan_frac (s : string) : option (string * string) :=
  match s with
  | String c r =>
    if (c =? ".")%char then
      match span_digits r with
      | (EmptyString, _) => None
      | (ds, rest) => Some (String c ds, rest)
      end
    else Some (EmptyString, s)
  | EmptyString => Some (EmptyString, s)
  end.

Definition scan_exp (s : string) : option (string * string) :=
  match s with
  | String c r =>
    if ((c =? "e") || (c =? "E"))%char then
      let '(sg, r1) :=
        match r with
        | String g r' => if ((g =? "+") || (g =? "-"))%char then (String g EmptyString, r') else (EmptyString, r)
        | EmptyString => (EmptyString, r)
        end in
      match span_digits r1 with
      | (EmptyString, _) => None
      | (ds, rest) => Some (String c (sg ++ ds), rest)
      end
    else Some (EmptyString, s)
  | EmptyString => Some (EmptyString, s)
  end.

Definition scan_number (s : string) : option (string * string) :=
  let '(sg, s1) :=
    match s with
    | String c r => if (c =? "-")%char then ("-", r) else (EmptyString, s)
    | EmptyString => (EmptyString, s)
    end in
  match scan_int s1 with
  | None => None
  | Some (i, s2) =>
    match scan_frac s2 with
    | None => None
    | Some (fr, s3) =>
      match scan_exp s3 with
      | None => None
      | Some (ex, s4) => Some (sg ++ i ++ fr ++ ex, s4)
      end
    end
  end.

(** [strip_prefix p s]: [s] without its prefix [p]. *)
Fixpoint strip_prefix (p s : string) : option string :=
  match p, s with
  | EmptyString, _ => Some s
  | String a p', String b s' => if (a =? b)%char then strip_prefix p' s' else None
  | String _ _, EmptyString => None
  end.

Definition scan_literal (p : string) (v : ast) (s : string) : option (ast * string) :=
  match strip_prefix p s with
  | Some r => Some (v, r)
  | None => None
  end.

(** [scan_value fuel depth s]: [s] starts at the first byte of a value
    (white space already skipped); [depth] is the number of arrays and
    objects open around it. *)
Fixpoint scan_value (fuel : nat) (depth : N) (s : string) {struct fuel}
  : option (ast * string) :=
  match fuel with
  | O => None
  | S f =>
    match s with
    | EmptyString => None
    | String c r =>
      if (c =? "{")%char then
        if (depth <? maxNestingDepth)%N then
          match skip_space r with
          | String c' r' =>
            if (c' =? "}")%char then Some (AObj [], r')
            else
              match scan_members f (depth + 1) (String c' r') with
              | Some (ms, rest) => Some (AObj ms, rest)
              | None => None
              end
          | EmptyString => None
          end
        else None
      else if (c =? "[")%char then
        if (depth <? maxNestingDepth)%N then
          match skip_space r with
          | String c' r' =>
            if (c' =? "]")%char then Some (AArr [], r')
            else
              match scan_elems f (depth + 1) (String c' r') with
              | Some (vs, rest) => Some (AArr vs, rest)
              | None => None
              end
          | EmptyString => None
          end
        else None
      else if (c =? dquote)%char then
        match scan_string (String.length r) r with
        | Some (str, rest) => Some (AStr str, rest)
        | None => None
        end
      else if ((c =? "-")%char || is_digit c) then
        match scan_number s with
        | Some (lit, rest) => Some (ANum lit, rest)
        | None => None
        end
      else if (c =? "t")%char then scan_literal "true" (ABool true) s
      else if (c =? "f")%char then scan_literal "false" (ABool false) s
      else if (c =? "n")%char then scan_literal "null" ANull s
      else None
    end
  end

(** Elements of an array after the opening bracket, up to and including
    the closing bracket. *)
with scan_elems (fuel : nat) (depth : N) (s : string) {struct fuel}
  : option (list ast * string) :=
  match fuel with
  | O => None
  | S f =>
    match scan_value f depth s with
    | None => None
    | Some (v, r) =>
      match skip_space r with
      | String c r' =>
        if (c =? ",")%char then
          match scan_elems f depth (skip_space r') with
          | Some (vs, rest) => Some (v :: vs, rest)
          | None => None
          end
        else if (c =? "]")%char then Some ([v], r')
        else None
      | EmptyString => None
      end
    end
  end

(** Members of an object after the opening brace, up to and including
    the closing brace. *)
with scan_members (fuel : nat) (depth : N) (s : string) {struct fuel}
  : option (list (string * ast) * string) :=
  match fuel with
  | O => None
  | S f =>
    match s with
    | String q r0 =>
      if (q =? dquote)%char then
        match scan_string (String.length r0) r0 with
        | None => None
        | Some (k, r1) =>
          match skip_space r1 with
          | String col r2 =>
            if (col =? ":")%char then
              match scan_value f depth (skip_space r2) with
              | None => None
              | Some (v, r3) =>
                match skip_space r3 with
                | String c r4 =>
                  if (c =? ",")%char then
                    match scan_members f depth (skip_space r4) with
                    | Some (ms, rest) => Some ((k, v) :: ms, rest)
                    | None => None
                    end
                  else if (c =? "}")%char then Some ([(k, v)], r4)
                  else None
                | EmptyString => None
                end
              end
            else None
          | EmptyString => None
          end
        end
      else None
    | EmptyString => None
    end
  end.

(** [checkValid]: the whole text is one value surrounded by white space. *)
Definition scan_text (data : string) : option ast :=
  match scan_value (S (String.length data)) 0 (skip_space data) with
  | Some (a, rest) =>
    match skip_space rest with
    | EmptyString => Some a
    | String _ _ => None
    end
  | None => None
  end.

(** ** encoding/json: Go values, Unmarshal and Marshal

    What [Unmarshal] stores in an [interface{}]: nil, bool, float64,
    string, []interface{} and map[string]interface{}. *)

#[local] Unset Elimination Schemes.

Inductive value : Type :=
| VNil
| VBool (b : bool)
| VFloat64 (f : strconv.float64)
| VString (s : string)
| VSlice (elems : list value)
| VMap (entries : list (string * value)).

#[local] Set Elimination Schemes.

(** [m[k] = v] on a non-nil map. *)
Fixpoint map_set (m : list (string * value)) (k : string) (v : value)
  : list (string * value) :=
  match m with
  | [] => [(k, v)]
  | (k', v') :: r => if (k' =? k)%string then (k, v) :: r else (k', v') :: map_set r k v
  end.

(** [m[k]]. *)
Fixpoint map_get (m : list (string * value)) (k : string) : option value :=
  match m with
  | [] => None
  | (k', v') :: r => if (k' =? k)%string then Some v' else map_get r k
  end.

(** [to_value a] (valueInterface of decode.go): the Go value of a syntax
    tree.  A number that does not fit a float64 is an error; a repeated
    key keeps the last value. *)
Fixpoint to_value (a : ast) : result value :=
  match a with
  | ANull => Ok VNil
  | ABool b => Ok (VBool b)
  | ANum lit =>
    match strconv.ParseFloat lit with
    | Ok f => Ok (VFloat64 f)
    | Err _ => Err ("json: cannot unmarshal number " ++ lit ++ " into Go value of type float64")
    end
  | AStr s => Ok (VString s)
  | AArr xs =>
    match
      (fix to_values (l : list ast) : result (list value) :=
         match l with
         | [] => Ok []
         | x :: r =>
           match to_value x with
           | Err e => Err e
           | Ok v =>
             match to_values r with
             | Err e => Err e
             | Ok vs => Ok (v :: vs)
             end
           end
         end) xs
    with
    | Ok vs => Ok (VSlice vs)
    | Err e => Err e
    end
  | AObj ms =>
    match
      (fix to_entries (l : list (string * ast)) (acc : list (string * value))
         : result (list (string * value)) :=
         match l with
         | [] => Ok acc
         | (k, x) :: r =>
           match to_value x with
           | Err e => Err e
           | Ok v => to_entries r (map_set acc k v)
           end
         end) ms []
    with
    | Ok m => Ok (VMap m)
    | Err e => Err e
    end
  end.

Fixpoint to_values (l : list ast) : result (list value) :=
  match l with
  | [] => Ok []
  | x :: r =>
    match to_value x with
    | Err e => Err e
    | Ok v =>
      match to_values r with
      | Err e => Err e
      | Ok vs => Ok (v :: vs)
      end
    end
  end.

Fixpoint to_entries (l : list (string * ast)) (acc : list (string * value))
  : result (list (string * value)) :=
  match l with
  | [] => Ok acc
  | (k, x) :: r =>
    match to_value x with
    | Err e => Err e
    | Ok v => to_entries r (map_set acc k v)
    end
  end.

(** [json.Unmarshal(data, &v)] for [var v interface{}]. *)
Definition Unmarshal (data : string) : result value :=
  match scan_text data with
  | None => Err "invalid character or unexpected end of JSON input"
  | Some a => to_value a
  end.

(** [json.Unmarshal(data, &m)] for [var m map[string]interface{}], which
    is nil before the call: [Ok None] is the nil map, left in place by
    the JSON value null. *)
Definition Unmarshal_map (data : string) : result (option (list (string * value))) :=
  match scan_text data with
  | None => Err "invalid character or unexpected end of JSON input"
  | Some ANull => Ok None
  | Some (AObj ms) =>
    match to_entries ms [] with
    | Ok m => Ok (Some m)
    | Err e => Err e
    end
  | Some _ => Err "json: cannot unmarshal into Go value of type map[string]interface {}"
  end.

(** *** The encoder *)

Definition hex_digit (n : N) : ascii :=
  if (n <? 10)%N then chr (48 + n) else chr (87 + n).

(** [htmlSafeSet] of tables.go. *)
Definition htmlSafe (c : ascii) : bool :=
  let b := code c in
  ((32 <=? b) && (b <? 128))%N &&
  negb ((c =? dquote) || (c =? "&") || (c =? "<") || (c =? ">") || (c =? backslash))%char.

Definition escape_byte (c : ascii) : string :=
  String backslash
    (if ((c =? backslash) || (c =? dquote))%char then String c EmptyString
     else if (c =? "010")%char then "n"
     else if (c =? "013")%char then "r"
     else if (c =? "009")%char then "t"
     else
       String "u" (String "0" (String "0"
         (String (hex_digit (N.shiftr (code c) 4))
           (String (hex_digit (N.land (code c) 15)) EmptyString))))).

(** The loop of [encodeState.string] with HTML escaping on. *)
Fixpoint encode_string_body (fuel : nat) (s : string) : string :=
  match fuel with
  | O => EmptyString
  | S f =>
    match s with
    | EmptyString => EmptyString
    | String c r =>
      if (code c <? utf8.RuneSelf)%N then
        (if htmlSafe c then String c EmptyString else escape_byte c)
          ++ encode_string_body f r
      else
        let '(rn, size) := utf8.DecodeRune s in
        if ((rn =? utf8.RuneError)%N && Nat.eqb size 1) then
          String backslash "ufffd" ++ encode_string_body f r
        else if ((rn =? 8232) || (rn =? 8233))%N then
          String backslash "u202" ++ String (hex_digit (N.land rn 15)) EmptyString
            ++ encode_string_body f (drop size s)
        else take size s ++ encode_string_body f (drop size s)
    end
  end.

Definition encode_string (s : string) : string :=
  String dquote (encode_string_body (String.length s) s ++ String dquote EmptyString).

(** The float64 nearest to 1e21 and to 1e-6, the cutoffs of the float
    encoder. *)
Definition float_1e21 : strconv.float64 := strconv.Float false 7629394531250000 17.
Definition float_1e_6 : strconv.float64 := strconv.Float false 4722366482869645 (-72).

(** The clean-up of e-09 to e-9. *)
Fixpoint clean_exp (s : string) : string :=
  match s with
  | EmptyString => EmptyString
  | String c r =>
    match r with
    | String m (String z (String d EmptyString)) =>
      if ((c =? "e") && (m =? "-") && (z =? "0"))%char
      then String c (String m (String d EmptyString))
      else String c (clean_exp r)
    | _ => String c (clean_exp r)
    end
  end.

(** [floatEncoder.encode] for 64 bits: as ES6 prints numbers. *)
Definition encode_float (f : strconv.float64) : string :=
  if negb (strconv.mant f =? 0)%Z
     && (strconv.abs_ltb f float_1e_6 || negb (strconv.abs_ltb f float_1e21))
  then clean_exp (strconv.FormatFloat f "e")
  else strconv.FormatFloat f "f".

Fixpoint join (sep : string) (l : list string) : string :=
  match l with
  | [] => EmptyString
  | [x] => x
  | x :: r => x ++ sep ++ join sep r
  end.

(** Insertion of an entry into a list sorted by key ([sv[i].ks <
    sv[j].ks] of mapEncoder.encode). *)
Fixpoint insert_by_key {A : Type} (e : string * A) (l : list (string * A))
  : list (string * A) :=
  match l with
  | [] => [e]
  | e' :: r => if String.ltb (fst e) (fst e') then e :: l else e' :: insert_by_key e r
  end.

Fixpoint sort_by_key {A : Type} (l : list (string * A)) : list (string * A) :=
  match l with
  | [] => []
  | e :: r => insert_by_key e (sort_by_key r)
  end.

Definition encode_member (e : string * string) : string :=
  encode_string (fst e) ++ ":" ++ snd e.

(** [encode v]: the bytes [json.Marshal] produces; the entries of a map
    are written in the order of their keys. *)
Fixpoint encode (v : value) : string :=
  match v with
  | VNil => "null"
  | VBool true => "true"
  | VBool false => "false"
  | VFloat64 f => encode_float f
  | VString s => encode_string s
  | VSlice xs => "[" ++ join "," (List.map encode xs) ++ "]"
  | VMap m =>
    "{" ++ join "," (List.map encode_member
                       (sort_by_key (List.map (fun e => (fst e, encode (snd e))) m)))
        ++ "}"
  end.

(** [json.Marshal]: the only errors of the encoder are for values (NaN,
    infinities, channels, cycles) that [value] does not contain. *)
Definition Marshal (v : value) : result string := Ok (encode v).

(** [json.NewEncoder(w).Encode(v)]: the encoding and a newline. *)
Definition Encode (v : value) : string := encode v ++ String "010" EmptyString.

(** *** Struct fields (fold.go) *)

Definition caseMask (c : ascii) : N := N.land (code c) 223.

(** [simpleLetterEqualFold]: for a field name of letters other than k
    and s. *)
Fixpoint simpleLetterEqualFold (s t : string) : bool :=
  match s, t with
  | EmptyString, EmptyString => true
  | String a s', String b t' => (caseMask a =? caseMask b)%N && simpleLetterEqualFold s' t'
  | _, _ => false
  end.

(** [equalFoldRight]: for an ASCII field name with k or s, which also
    match the Kelvin sign and the long s. *)
Fixpoint equalFoldRight (s t : string) : bool :=
  match s with
  | EmptyString => match t with EmptyString => true | _ => false end
  | String sb s' =>
    match t with
    | EmptyString => false
    | String tb t' =>
      if (code tb <? utf8.RuneSelf)%N then
        (if (sb =? tb)%char then true
         else
           let up := caseMask sb in
           ((65 <=? up) && (up <=? 90))%N && (up =? caseMask tb)%N)
        && equalFoldRight s' t'
      else
        let '(tr, size) := utf8.DecodeRune t in
        (if ((sb =? "s") || (sb =? "S"))%char then (tr =? 383)%N
         else if ((sb =? "k") || (sb =? "K"))%char then (tr =? 8490)%N
         else false)
        && equalFoldRight s' (drop (Nat.pred size) t')
    end
  end.

End json.

(** ** encoding/base64: StdEncoding *)

Module base64.

Definition encodeStd : string :=
  "ABCDEFGHIJKLMNOPQRSTUVWXYZabcdefghijklmnopqrstuvwxyz0123456789+/".

Definition padChar : ascii := "="%char.

(** [enc.encode[v]] *)
Definition encode_char (v : N) : ascii :=
  match String.get (N.to_nat v) encodeStd with
  | Some c => c
  | None => "A"%char
  end.

(** [enc.decodeMap[c]], [None] for 0xff. *)
Definition decodeMap (c : ascii) : option N :=
  let n := code c in
  if ((65 <=? n) && (n <=? 90))%N then Some (n - 65)%N
  else if ((97 <=? n) && (n <=? 122))%N then Some (n - 71)%N
  else if ((48 <=? n) && (n <=? 57))%N then Some (n + 4)%N
  else if (n =? 43)%N then Some 62%N
  else if (n =? 47)%N then Some 63%N
  else None.

Definition sextet (val shift : N) : ascii :=
  encode_char (N.land (N.shiftr val shift) 63).

Fixpoint EncodeToString (src : string) : string :=
  match src with
  | EmptyString => EmptyString
  | String a EmptyString =>
    let val := N.shiftl (code a) 16 in
    String (sextet val 18) (String (sextet val 12)
      (String padChar (String padChar EmptyString)))
  | String a (String b EmptyString) =>
    let val := N.lor (N.shiftl (code a) 16) (N.shiftl (code b) 8) in
    String (sextet val 18) (String (sextet val 12)
      (String (sextet val 6) (String padChar EmptyString)))
  | String a (String b (String c r)) =>
    let val := N.lor (N.lor (N.shiftl (code a) 16) (N.shiftl (code b) 8)) (code c) in
    String (sextet val 18) (String (sextet val 12)
      (String (sextet val 6) (String (sextet val 0) (EncodeToString r))))
  end.

(** The next byte of the input that is not a line break, and what
    follows it. *)
Fixpoint next_byte (s : string) : option (ascii * string) :=
  match s with
  | EmptyString => None
  | String c r => if ((c =? "010") || (c =? "013"))%char then next_byte r else Some (c, r)
  end.

Definition out_byte (val shift : N) : ascii := chr (N.land (N.shiftr val shift) 255).

Definition corrupt : result string := Err "illegal base64 data".

(** [decode fuel s]: the quanta of [Encoding.Decode] (decodeQuantum);
    line breaks are skipped, padding must close the input, surplus bits
    are not checked (the encoding is not strict). *)
Fixpoint decode (fuel : nat) (s : string) : result string :=
  match fuel with
  | O => corrupt
  | S f =>
    match next_byte s with
    | None => Ok EmptyString
    | Some (c0, s1) =>
      match decodeMap c0, next_byte s1 with
      | Some v0, Some (c1, s2) =>
        match decodeMap c1, next_byte s2 with
        | Some v1, Some (c2, s3) =>
          match decodeMap c2 with
          | Some v2 =>
            match next_byte s3 with
            | Some (c3, s4) =>
              match decodeMap c3 with
              | Some v3 =>
                let val := N.lor (N.lor (N.lor (N.shiftl v0 18) (N.shiftl v1 12))
                                        (N.shiftl v2 6)) v3 in
                match decode f s4 with
                | Ok rest =>
                  Ok (String (out_byte val 16) (String (out_byte val 8)
                        (String (out_byte val 0) rest)))
                | Err e => Err e
                end
              | None =>
                if (c3 =? padChar)%char then
                  match next_byte s4 with
                  | None =>
                    let val := N.lor (N.lor (N.shiftl v0 18) (N.shiftl v1 12))
                                     (N.shiftl v2 6) in
                    Ok (String (out_byte val 16) (String (out_byte val 8) EmptyString))
                  | Some _ => corrupt
                  end
                else corrupt
              end
            | None => corrupt
            end
          | None =>
            if (c2 =? padChar)%char then
              match next_byte s3 with
              | Some (c3, s4) =>
                if (c3 =? padChar)%char then
                  match next_byte s4 with
                  | None =>
                    let val := N.lor (N.shiftl v0 18) (N.shiftl v1 12) in
                    Ok (String (out_byte val 16) EmptyString)
                  | Some _ => corrupt
                  end
                else corrupt
              | None => corrupt
              end
            else corrupt
          end
        | _, _ => corrupt
        end
      | _, _ => corrupt
      end
    end
  end.

Definition DecodeString (s : string) : result string := decode (S (String.length s)) s.

End base64.

(** ** time: Format with the layout RFC3339Nano *)

Module time.

(** The calendar fields of an instant in UTC. *)
Record Time : Type := Date {
  Year : N; Month : N; Day : N;
  Hour : N; Minute : N; Second : N; Nanosecond : N }.

(** [appendInt b n width]: decimal digits, padded with zeros. *)
Definition appendInt (n : N) (width : nat) : string :=
  let ds := strconv.digits_of (Z.of_N n) in
  repeat_string (width - String.length ds) "0" ++ ds.

Fixpoint trim_right_zeros (s : string) : string :=
  match s with
  | EmptyString => EmptyString
  | String c r =>
    match trim_right_zeros r with
    | EmptyString => if (c =? "0")%char then EmptyString else String c EmptyString
    | r' => String c r'
    end
  end.

(** The fraction .999999999: nothing for zero, else nine digits without
    the trailing zeros. *)
Definition appendNano (ns : N) : string :=
  if (ns =? 0)%N then EmptyString
  else String "." (trim_right_zeros (appendInt ns 9)).

(** [t.Format(time.RFC3339Nano)] for a time in UTC. *)
Definition RFC3339Nano (t : Time) : string :=
  appendInt (Year t) 4 ++ "-" ++ appendInt (Month t) 2 ++ "-" ++ appendInt (Day t) 2
  ++ "T" ++ appendInt (Hour t) 2 ++ ":" ++ appendInt (Minute t) 2 ++ ":"
  ++ appendInt (Second t) 2 ++ appendNano (Nanosecond t) ++ "Z".

End time.

(** ** net/http: requests, responses and what a handler does

    A handler runs against the two package variables of main.go
    ([kmsClient], [nameVersion]) and the clock.  Besides its outcome it
    leaves a trace of the effects the claims speak about: reading the
    request body and the calls to the key-management service. *)

(** The Cloud KMS client: MacSign(name, data) returns the MAC,
    MacVerify(name, data, mac) returns the Success flag; either call can
    fail with an error. *)
Record KeyManagementClient : Type := {
  MacSign : string -> string -> result string;
  MacVerify : string -> string -> string -> result bool }.

(** A request: the method and the body; [BodyFails] says that the body
    stream ends in a read error instead of the end of the input. *)
Record Request : Type := {
  Method : string;
  Body : string;
  BodyFails : bool }.

Record Response : Type := {
  Status : Z;
  ContentType : string;
  ResponseBody : string }.

(** A handler either writes a response or panics (net/http recovers the
    panic and drops the connection). *)
Inductive outcome : Type :=
| Responded (r : Response)
| Panicked (msg : string).

Inductive event : Type :=
| EvReadBody
| EvMacSign (name data : string)
| EvMacVerify (name data mac : string).

Inductive step (A : Type) : Type :=
| Next (a : A)
| Done (o : outcome).
Arguments Next {A} a.
Arguments Done {A} o.

(** Handler code: the events so far go in, the events so far come out,
    with the next value or the final outcome. *)
Definition handler (A : Type) : Type := list event -> step A * list event.

Definition ret {A : Type} (a : A) : handler A := fun t => (Next a, t).

Definition bind {A B : Type} (m : handler A) (k : A -> handler B) : handler B :=
  fun t =>
    match m t with
    | (Next a, t') => k a t'
    | (Done o, t') => (Done o, t')
    end.

Notation "x <- m ;; k" := (bind m (fun x => k))
  (at level 61, m at next level, right associativity).

Definition emit (e : event) : handler unit := fun t => (Next tt, (t ++ [e])%list).

Definition finish {A : Type} (o : outcome) : handler A := fun t => (Done o, t).

(** A handler that returns without writing gets an empty 200 response. *)
Definition run (m : handler unit) : outcome * list event :=
  match m [] with
  | (Done o, t) => (o, t)
  | (Next _, t) => (Responded {| Status := 200; ContentType := ""; ResponseBody := "" |}, t)
  end.

Definition StatusOK : Z := 200.
Definition StatusBadRequest : Z := 400.
Definition StatusMethodNotAllowed : Z := 405.
Definition StatusInternalServerError : Z := 500.
Definition MethodPost : string := "POST".

(** [writeJSON(w, status, v); return] *)
Definition writeJSON {A : Type} (status : Z) (v : json.value) : handler A :=
  finish (Responded {| Status := status;
                       ContentType := "application/json";
                       ResponseBody := json.Encode v |}).

(** [map[string]string{"error": msg}] *)
Definition error_body (msg : string) : json.value :=
  json.VMap [("error", json.VString msg)].

(** [io.ReadAll(r.Body)] *)
Definition io_ReadAll (r : Request) : handler (result string) :=
  _ <- emit EvReadBody ;;
  ret (if BodyFails r then Err "read error" else Ok (Body r)).

(** The request of verifyHandler:
    [struct { Payload json.RawMessage; Signature string }]. *)
Record verifyRequest : Type := {
  Payload : string;
  Signature : string }.

Definition is_payload_field (key : string) : bool :=
  json.simpleLetterEqualFold "payload" key.

Definition is_signature_field (key : string) : bool :=
  json.equalFoldRight "signature" key.

(** One member of the request object stored into the struct: the raw
    text for [payload], a JSON string for [signature] (null leaves the
    field alone, any other value is an UnmarshalTypeError), nothing for
    an unknown key. *)
Definition store_field (req : verifyRequest) (key raw : string) (a : json.ast)
  : result verifyRequest :=
  if is_payload_field key then
    Ok {| Payload := raw; Signature := Signature req |}
  else if is_signature_field key then
    match a with
    | json.AStr s => Ok {| Payload := Payload req; Signature := s |}
    | json.ANull => Ok req
    | _ => Err "json: cannot unmarshal into Go struct field .signature of type string"
    end
  else Ok req.

Definition syntax_error : result verifyRequest :=
  Err "invalid character or unexpected end of JSON input".

(** The members of the request object, from the first key to the closing
    brace.  The member values are one level deep.  A type error and a
    later syntax error are both an error of [Decode]; the first one met
    is reported. *)
Fixpoint decode_members (fuel : nat) (s : string) (req : verifyRequest)
  : result verifyRequest :=
  match fuel with
  | O => syntax_error
  | S f =>
    match s with
    | String q r0 =>
      if (q =? dquote)%char then
        match json.scan_string (String.length r0) r0 with
        | None => syntax_error
        | Some (key, r1) =>
          match json.skip_space r1 with
          | String col r2 =>
            if (col =? ":")%char then
              let s2 := json.skip_space r2 in
              match json.scan_value (S (String.length s2)) 1 s2 with
              | None => syntax_error
              | Some (a, r3) =>
                let raw := take (String.length s2 - String.length r3) s2 in
                match json.skip_space r3 with
                | String c r4 =>
                  if (c =? ",")%char then
                    match store_field req key raw a with
                    | Err e => Err e
                    | Ok req' => decode_members f (json.skip_space r4) req'
                    end
                  else if (c =? "}")%char then store_field req key raw a
                  else syntax_error
                | EmptyString => syntax_error
                end
              end
            else syntax_error
          | EmptyString => syntax_error
          end
        end
      else syntax_error
    | EmptyString => syntax_error
    end
  end.

(** [json.NewDecoder(r.Body).Decode(&req)]: the first JSON value of the
    body is decoded, what follows it is not looked at.  null leaves the
    struct at its zero value; any other value than an object is an
    UnmarshalTypeError.  A value that is not closed by its own last byte
    (null, a number) needs one more read, which fails when the body
    does. *)
Definition zero_request : verifyRequest :=
  {| Payload := EmptyString; Signature := EmptyString |}.

Definition decode_request (r : Request) : result verifyRequest :=
  let s := json.skip_space (Body r) in
  match s with
  | String c r0 =>
    if (c =? "{")%char then
      match json.skip_space r0 with
      | String c' r1 =>
        if (c' =? "}")%char then Ok zero_request
        else decode_members (String.length r0) (String c' r1) zero_request
      | EmptyString => syntax_error
      end
    else
      match json.scan_value (S (String.length s)) 0 s with
      | None => syntax_error
      | Some (json.ANull, rest) =>
        match rest with
        | EmptyString => if BodyFails r then Err "read error" else Ok zero_request
        | String _ _ => Ok zero_request
        end
      | Some (_, _) => Err "json: cannot unmarshal into Go value of type struct"
      end
  | EmptyString => Err "EOF"
  end.

Definition Decode (r : Request) : handler (result verifyRequest) :=
  _ <- emit EvReadBody ;;
  ret (decode_request r).

(** ** main.go *)

Section Handlers.

(** The package variables, set once by [init]. *)
Variable kmsClient : KeyManagementClient.
Variable nameVersion : string.

(** [time.Now().UTC()] at the moment of the request. *)
Variable now : time.Time.

(** signHandler accepts any JSON, injects "timestamp" and signs it. *)
Definition signHandler (r : Request) : outcome * list event :=
  run (
    if negb (Method r =? MethodPost)%string then
      writeJSON StatusMethodNotAllowed (error_body "Sólo POST permitido")
    else
      body <- io_ReadAll r ;;
      match body with
      | Err _ => writeJSON StatusBadRequest (error_body "No se pudo leer el body")
      | Ok body =>
        match json.Unmarshal_map body with
        | Err _ => writeJSON StatusBadRequest (error_body "JSON inválido")
        | Ok None => finish (Panicked "assignment to entry in nil map")
        | Ok (Some payloadMap) =>
          let payloadMap :=
            json.map_set payloadMap "timestamp" (json.VString (time.RFC3339Nano now)) in
          match json.Marshal (json.VMap payloadMap) with
          | Err _ =>
            writeJSON StatusInternalServerError
              (error_body "Error interno al serializar payload")
          | Ok data =>
            _ <- emit (EvMacSign nameVersion data) ;;
            match MacSign kmsClient nameVersion data with
            | Err err =>
              writeJSON StatusInternalServerError (error_body ("Error firmando: " ++ err))
            | Ok mac =>
              let signature := base64.EncodeToString mac in
              writeJSON StatusOK
                (json.VMap [("payload", json.VMap payloadMap);
                            ("signature", json.VString signature)])
            end
          end
        end
      end).

(** verifyHandler rebuilds the payload canonically and verifies the
    signature. *)
Definition verifyHandler (r : Request) : outcome * list event :=
  run (
    if negb (Method r =? MethodPost)%string then
      writeJSON StatusMethodNotAllowed (error_body "Sólo POST permitido")
    else
      req <- Decode r ;;
      match req with
      | Err _ => writeJSON StatusBadRequest (error_body "JSON inválido")
      | Ok req =>
        match json.Unmarshal (Payload req) with
        | Err _ => writeJSON StatusBadRequest (error_body "Payload inválido")
        | Ok obj =>
          match json.Marshal obj with
          | Err _ =>
            writeJSON StatusInternalServerError
              (error_body "Error interno al serializar payload")
          | Ok canonicalData =>
            match base64.DecodeString (Signature req) with
            | Err _ => writeJSON StatusBadRequest (error_body "Firma Base64 inválida")
            | Ok mac =>
              _ <- emit (EvMacVerify nameVersion canonicalData mac) ;;
              match MacVerify kmsClient nameVersion canonicalData mac with
              | Err err =>
                writeJSON StatusInternalServerError
                  (error_body ("Error verificando: " ++ err))
              | Ok success => writeJSON StatusOK (json.VMap [("valid", json.VBool success)])
              end
            end
          end
        end
      end).

End Handlers.

(** [getEnv] over an environment given as a function; an unset variable
    reads as the empty string. *)
Definition getEnv (environ : string -> string) (key def : string) : string :=
  match environ key with
  | EmptyString => def
  | v => v
  end.

(** [init], from the client on.  [newClient] is what
    [kms.NewKeyManagementClient] returned and [environ] the environment
    after the optional .env file was loaded; [Err] stands for the exit
    of the process by [log.Fatal].  The result is the pair of the
    package variables [kmsClient] and [nameVersion]. *)
Definition init (environ : string -> string) (newClient : result KeyManagementClient)
  : result (KeyManagementClient * string) :=
  match newClient with
  | Err err => Err ("kms.NewKeyManagementClient: " ++ err)
  | Ok client =>
    let projectID := environ "GOOGLE_CLOUD_PROJECT" in
    if (projectID =? "")%string then Err "❌ GOOGLE_CLOUD_PROJECT no está definido"
    else
      let locationID := getEnv environ "KMS_LOCATION" "global" in
      let keyRingID := getEnv environ "KMS_KEY_RING" "EzeKeyRing" in
      let keyID := getEnv environ "KMS_KEY" "EzeKey" in
      let keyVersionID := getEnv environ "KMS_KEY_VERSION" "1" in
      Ok (client,
          "projects/" ++ projectID ++ "/locations/" ++ locationID
          ++ "/keyRings/" ++ keyRingID ++ "/cryptoKeys/" ++ keyID
          ++ "/cryptoKeyVersions/" ++ keyVersionID)
  end.

(** ** Valid UTF-8

    [utf8_valid s]: [s] is a sequence of ASCII bytes and of encodings of
    runes from 128 on that are not surrogates.  This is what the scanner
    leaves in an unquoted string. *)
Definition scalar (r : N) : bool :=
  ((128 <=? r) && (r <=? utf8.MaxRune))%N && negb (utf8.surrogate r).

Inductive utf8_valid : string -> Prop :=
| utf8_valid_nil : utf8_valid EmptyString
| utf8_valid_ascii c s :
    (code c < 128)%N -> utf8_valid s -> utf8_valid (String c s)
| utf8_valid_rune r s :
    scalar r = true -> utf8_valid s -> utf8_valid (utf8.EncodeRune r ++ s).

(** ** Numbers: predicates of the development

    [all_digits s]: every byte of [s] is a decimal digit.
    [scaled_le q e p]: [q * 2^e <= p] for an exponent [e] of any sign.
    [canonical m e]: mantissa and exponent of a finite float64 in the
    representation of [strconv.float64]. *)
Definition all_digits (s : string) : Prop :=
  forall c, In c (list_ascii_of_string s) -> is_digit c = true.

Definition scaled_le (q e p : Z) : Prop :=
  (q * 2 ^ Z.max e 0 <= p * 2 ^ Z.max (- e) 0)%Z.

Definition canonical (m e : Z) : Prop :=
  (0 <= m < 2 ^ 53 /\ -1074 <= e <= 971 /\ (m < 2 ^ 52 -> e = -1074))%Z.

Definition valid_float (f : strconv.float64) : Prop :=
  canonical (strconv.mant f) (strconv.exp f).

(** ** Number literals

    [number_text sg ip fp ex]: the literal with the sign [sg], the
    integer digits [ip], the fraction digits [fp] (no point when there
    are none) and the exponent [ex] (its sign and digits), of value
    [exponent_of ex].  [well_formed_number]: the parts are digits, the
    integer part is 0 or starts with another digit than 0, an exponent
    has at least one digit.  [ends_number rest]: a number that is
    followed by [rest] ends there.  [value_start c]: a JSON value can
    start with the byte [c]. *)
Definition number_text (sg : bool) (ip fp : string) (ex : option (bool * string))
  : string :=
  (if sg then "-" else "")
  ++ ip
  ++ match fp with
     | EmptyString => EmptyString
     | String _ _ => String "." fp
     end
  ++ match ex with
     | None => EmptyString
     | Some (eneg, ed) => String "e" (String (if eneg then "-" else "+")%char ed)
     end.

Definition exponent_of (ex : option (bool * string)) : Z :=
  match ex with
  | None => 0%Z
  | Some (eneg, ed) =>
    if eneg then (- strconv.exp_value 0 ed)%Z else strconv.exp_value 0 ed
  end.

Definition well_formed_number (ip fp : string) (ex : option (bool * string)) : Prop :=
  all_digits ip
  /\ (ip = "0" \/ exists c r, ip = String c r /\ c <> "0"%char)
  /\ all_digits fp
  /\ match ex with
     | None => True
     | Some (_, ed) => all_digits ed /\ ed <> EmptyString
     end.

Definition ends_number (rest : string) : bool :=
  match rest with
  | EmptyString => true
  | String c _ => negb (is_digit c || (c =? ".") || (c =? "e") || (c =? "E"))%char
  end.

Definition value_start (c : ascii) : bool :=
  (is_digit c || (c =? "-") || (c =? dquote) || (c =? "[") || (c =? "{")
   || (c =? "t") || (c =? "f") || (c =? "n"))%char.

(** ** Values that Unmarshal produces

    [valid_ast]: the strings and keys of a syntax tree are valid UTF-8.
    [valid_value]: the strings and keys of a value are valid UTF-8, its
    numbers are float64 in canonical form, the keys of every map are
    distinct.  [nesting v]: how deep arrays and objects are nested in
    [v]; a scalar has nesting 0. *)
#[local] Unset Elimination Schemes.

Inductive valid_ast : json.ast -> Prop :=
| valid_ANull : valid_ast json.ANull
| valid_ABool b : valid_ast (json.ABool b)
| valid_ANum lit : valid_ast (json.ANum lit)
| valid_AStr s : utf8_valid s -> valid_ast (json.AStr s)
| valid_AArr xs : Forall valid_ast xs -> valid_ast (json.AArr xs)
| valid_AObj ms :
    Forall (fun e => utf8_valid (fst e) /\ valid_ast (snd e)) ms ->
    valid_ast (json.AObj ms).

Inductive valid_value : json.value -> Prop :=
| valid_nil : valid_value json.VNil
| valid_bool b : valid_value (json.VBool b)
| valid_float64 f : valid_float f -> valid_value (json.VFloat64 f)
| valid_string s : utf8_valid s -> valid_value (json.VString s)
| valid_slice xs : Forall valid_value xs -> valid_value (json.VSlice xs)
| valid_map m :
    NoDup (List.map fst m) ->
    Forall (fun e => utf8_valid (fst e) /\ valid_value (snd e)) m ->
    valid_value (json.VMap m).

#[local] Set Elimination Schemes.

Fixpoint nesting (v : json.value) : N :=
  match v with
  | json.VSlice xs => 1 + fold_right (fun x acc => N.max (nesting x) acc) 0%N xs
  | json.VMap m => 1 + fold_right (fun e acc => N.max (nesting (snd e)) acc) 0%N m
  | _ => 0
  end.

(** The nesting of a syntax tree, as [nesting] for values. *)
Fixpoint ast_nesting (a : json.ast) : N :=
  match a with
  | json.AArr xs => 1 + fold_right (fun x acc => N.max (ast_nesting x) acc) 0%N xs
  | json.AObj ms => 1 + fold_right (fun e acc => N.max (ast_nesting (snd e)) acc) 0%N ms
  | _ => 0
  end.

(** [norm v]: the value [v] with the entries of each of its maps in the
    order of their keys. *)
Fixpoint norm (v : json.value) : json.value :=
  match v with
  | json.VSlice xs => json.VSlice (List.map norm xs)
  | json.VMap m =>
    json.VMap (json.sort_by_key (List.map (fun e => (fst e, norm (snd e))) m))
  | _ => v
  end.

(** [reads_back v]: the scanner reads the encoding of [v], wherever it
    stands and whatever follows it, as far as the nesting limit allows,
    and the value read is [v] with its maps in key order. *)
Definition reads_back (v : json.value) : Prop :=
  forall d rest,
    (d + nesting v <= json.maxNestingDepth)%N -> ends_number rest = true ->
    exists f a,
      json.scan_value f d (json.encode v ++ rest) = Some (a, rest)
      /\ json.to_value a = Ok (norm v).

(** ** Members of a verify request

    [field_type_ok e]: the member [e] of the request object can be stored
    into the request struct, that is, it is not a signature member of
    another type than string or null.  [expected_payload ms p]: the raw
    payload after the members [ms], as far as it is known: the text
    null after a payload member that is null, unknown ([None]) after
    another payload member, [p] when there is none. *)
Definition field_type_ok (e : string * json.ast) : bool :=
  if is_payload_field (fst e) then true
  else if is_signature_field (fst e) then
    match snd e with
    | json.AStr _ | json.ANull => true
    | _ => false
    end
  else true.

Fixpoint expected_payload (ms : list (string * json.ast)) (p : option string)
  : option string :=
  match ms with
  | [] => p
  | (k, a) :: r =>
    expected_payload r
      (if is_payload_field k then
         match a with
         | json.ANull => Some "null"
         | _ => None
         end
       else p)
  end.

(** [expected_signature ms s]: the signature field after the members
    [ms], when it was [s] before them: the last signature member that
    is a string; null and the other members leave it alone. *)
Fixpoint expected_signature (ms : list (string * json.ast)) (s : string) : string :=
  match ms with
  | [] => s
  | (k, a) :: r =>
    expected_signature r
      (if is_payload_field k then s
       else if is_signature_field k then
         match a with
         | json.AStr x => x
         | _ => s
         end
       else s)
  end.

(** [html_free s]: none of the bytes of [s] is one of the characters
    <, > and &, which the encoder escapes in strings. *)
Definition html_free (s : string) : bool :=
  forallb (fun c => negb ((c =? "<") || (c =? ">") || (c =? "&"))%char)
    (list_ascii_of_string s).

(** ** What a JSON text says

    [denotes a v]: the Go value [v] is the JSON value written as the
    syntax tree [a].  null, the booleans and the strings are themselves;
    a number is the float64 nearest to its literal; an array is its
    elements in order; an object is a map with distinct keys that holds,
    under each key of the object, the value of the last member with that
    key, and nothing else.  The relation follows the data model of JSON
    read into float64, not the code of the decoder.

    [same_numbers a1 a2]: two syntax trees are the same but for the
    spelling of their numbers: null, booleans, strings, keys and the
    order of elements and members agree, and where one has a number the
    other has a number that is read as the same float64. *)
#[local] Unset Elimination Schemes.

Inductive denotes : json.ast -> json.value -> Prop :=
| denotes_null : denotes json.ANull json.VNil
| denotes_bool b : denotes (json.ABool b) (json.VBool b)
| denotes_num lit f :
    strconv.ParseFloat lit = Ok f -> denotes (json.ANum lit) (json.VFloat64 f)
| denotes_str s : denotes (json.AStr s) (json.VString s)
| denotes_arr xs vs :
    Forall2 denotes xs vs -> denotes (json.AArr xs) (json.VSlice vs)
| denotes_obj ms m :
    NoDup (List.map fst m) ->
    (forall k, ~ In k (List.map fst ms) -> json.map_get m k = None) ->
    (forall ms1 k a ms2,
       ms = (ms1 ++ (k, a) :: ms2)%list -> ~ In k (List.map fst ms2) ->
       exists v, json.map_get m k = Some v /\ denotes a v) ->
    denotes (json.AObj ms) (json.VMap m).

Inductive same_numbers : json.ast -> json.ast -> Prop :=
| same_numbers_null : same_numbers json.ANull json.ANull
| same_numbers_bool b : same_numbers (json.ABool b) (json.ABool b)
| same_numbers_num l1 l2 f :
    strconv.ParseFloat l1 = Ok f -> strconv.ParseFloat l2 = Ok f ->
    same_numbers (json.ANum l1) (json.ANum l2)
| same_numbers_str s : same_numbers (json.AStr s) (json.AStr s)
| same_numbers_arr xs ys :
    Forall2 same_numbers xs ys -> same_numbers (json.AArr xs) (json.AArr ys)
| same_numbers_obj ms1 ms2 :
    Forall2 (fun e1 e2 => fst e1 = fst e2 /\ same_numbers (snd e1) (snd e2)) ms1 ms2 ->
    same_numbers (json.AObj ms1) (json.AObj ms2).

#[local] Set Elimination Schemes.

(** ** An instant in the layout RFC3339 with nanoseconds

    [rfc3339nano t s]: the text [s] is the instant [t] written as
    YYYY-MM-DDTHH:MM:SS, a fraction of the second and Z.  Each of the
    six fields is decimal digits of its fixed width that read as the
    field of [t] ([digits_field]); the fraction is empty when the
    nanoseconds are zero, otherwise a point and one to nine digits that
    do not end in 0 and read, padded with zeros to nine digits, as the
    nanoseconds ([second_fraction]). *)
Definition digits_field (s : string) (w : nat) (n : N) : Prop :=
  all_digits s /\ String.length s = w /\ strconv.digits_value 0 s = Z.of_N n.

Definition second_fraction (s : string) (ns : N) : Prop :=
  (ns = 0%N -> s = EmptyString)
  /\ (ns <> 0%N ->
      exists ds,
        s = String "." ds
        /\ all_digits ds
        /\ (1 <= String.length ds <= 9)%nat
        /\ (strconv.digits_value 0 ds * 10 ^ (9 - Z.of_nat (String.length ds))
            = Z.of_N ns)%Z
        /\ forall p, ds <> p ++ "0").

Definition rfc3339nano (t : time.Time) (s : string) : Prop :=
  exists y mo d h mi sec frac,
    s = y ++ "-" ++ mo ++ "-" ++ d ++ "T" ++ h ++ ":" ++ mi ++ ":" ++ sec ++ frac ++ "Z"
    /\ digits_field y 4 (time.Year t)
    /\ digits_field mo 2 (time.Month t)
    /\ digits_field d 2 (time.Day t)
    /\ digits_field h 2 (time.Hour t)
    /\ digits_field mi 2 (time.Minute t)
    /\ digits_field sec 2 (time.Second t)
    /\ second_fraction frac (time.Nanosecond t).

(** ** Equality of Go values

    [wf_value]: the keys of every map are distinct.  [same_value]: two
    values are structurally equal: the same scalars (for a float64 the
    same sign, mantissa and exponent), the same elements in the same
    order, the same keys with the same values in any order. *)
#[local] Unset Elimination Schemes.

Inductive wf_value : json.value -> Prop :=
| wf_nil : wf_value json.VNil
| wf_bool b : wf_value (json.VBool b)
| wf_float f : wf_value (json.VFloat64 f)
| wf_string s : wf_value (json.VString s)
| wf_slice xs : Forall wf_value xs -> wf_value (json.VSlice xs)
| wf_map m :
    NoDup (List.map fst m) ->
    Forall (fun e => wf_value (snd e)) m ->
    wf_value (json.VMap m).

Inductive same_value : json.value -> json.value -> Prop :=
| same_nil : same_value json.VNil json.VNil
| same_bool b : same_value (json.VBool b) (json.VBool b)
| same_float f : same_value (json.VFloat64 f) (json.VFloat64 f)
| same_string s : same_value (json.VString s) (json.VString s)
| same_slice xs ys :
    Forall2 same_value xs ys ->
    same_value (json.VSlice xs) (json.VSlice ys)
| same_map m1 m2 :
    List.length m1 = List.length m2 ->
    Forall (fun e => exists v2, json.map_get m2 (fst e) = Some v2
                                /\ same_value (snd e) v2) m1 ->
    same_value (json.VMap m1) (json.VMap m2).

#[local] Set Elimination Schemes.

(** What a handler answered, when it did. *)
Definition status_of (o : outcome) : option Z :=
  match o with
  | Responded r => Some (Status r)
  | Panicked _ => None
  end.

Definition body_of (o : outcome) : option string :=
  match o with
  | Responded r => Some (ResponseBody r)
  | Panicked _ => None
  end.

(** ** Requests and a key-management service for examples

    [toy_kms] signs with the key name and the data themselves and
    verifies by comparison: it accepts exactly what it signed.
    [failing_kms] fails every call. *)
Definition toy_mac (name data : string) : string := name ++ ":" ++ data.

Definition toy_kms : KeyManagementClient :=
  {| MacSign := fun name data => Ok (toy_mac name data);
     MacVerify := fun name data mac => Ok (mac =? toy_mac name data)%string |}.

Definition failing_kms : KeyManagementClient :=
  {| MacSign := fun _ _ => Err "rpc error: unavailable";
     MacVerify := fun _ _ _ => Err "rpc error: unavailable" |}.

Definition toy_name : string :=
  "projects/p/locations/global/keyRings/EzeKeyRing/cryptoKeys/EzeKey/cryptoKeyVersions/1".

Definition toy_now : time.Time := time.Date 2024 1 2 15 4 5 123456000.

Definition post (body : string) : Request :=
  {| Method := "POST"; Body := body; BodyFails := false |}.

Definition get (body : string) : Request :=
  {| Method := "GET"; Body := body; BodyFails := false |}.

Definition newline : string := String "010" EmptyString.

(** The canonical bytes of a JSON text: parse, then marshal again.  This
    is what verifyHandler does with the payload (steps 1 and 2). *)
Definition canonicalize (text : string) : result string :=
  match json.Unmarshal text with
  | Ok v => json.Marshal v
  | Err e => Err e
  end.

(** * Properties *)

(** ** The handlers, case by case *)

Definition response (status : Z) (v : json.value) : outcome :=
  Responded {| Status := status;
               ContentType := "application/json";
               ResponseBody := json.Encode v |}.

Lemma signHandler_eq kms name now r :
  signHandler kms name now r =
  if negb (Method r =? MethodPost)%string then
    (response 405 (error_body "Sólo POST permitido"), [])
  else if BodyFails r then
    (response 400 (error_body "No se pudo leer el body"), [EvReadBody])
  else
    match json.Unmarshal_map (Body r) with
    | Err _ => (response 400 (error_body "JSON inválido"), [EvReadBody])
    | Ok None => (Panicked "assignment to entry in nil map", [EvReadBody])
    | Ok (Some m) =>
      let m' := json.map_set m "timestamp" (json.VString (time.RFC3339Nano now)) in
      let data := json.encode (json.VMap m') in
      match MacSign kms name data with
      | Err err =>
        (response 500 (error_body ("Error firmando: " ++ err)),
         [EvReadBody; EvMacSign name data])
      | Ok mac =>
        (response 200 (json.VMap [("payload", json.VMap m');
                                  ("signature", json.VString (base64.EncodeToString mac))]),
         [EvReadBody; EvMacSign name data])
      end
    end.
Proof.
  unfold signHandler, run, bind, io_ReadAll, emit, ret, writeJSON, finish, response, bind.
  destruct (negb (Method r =? MethodPost)%string); [reflexivity|].
  cbn [app].
  destruct (BodyFails r); [reflexivity|].
  destruct (json.Unmarshal_map (Body r)) as [[m|]|e]; try reflexivity.
  unfold json.Marshal. cbn [app].
  destruct (MacSign kms name _); reflexivity.
Qed.

Lemma verifyHandler_eq kms name r :
  verifyHandler kms name r =
  if negb (Method r =? MethodPost)%string then
    (response 405 (error_body "Sólo POST permitido"), [])
  else
    match decode_request r with
    | Err _ => (response 400 (error_body "JSON inválido"), [EvReadBody])
    | Ok req =>
      match json.Unmarshal (Payload req) with
      | Err _ => (response 400 (error_body "Payload inválido"), [EvReadBody])
      | Ok obj =>
        match base64.DecodeString (Signature req) with
        | Err _ => (response 400 (error_body "Firma Base64 inválida"), [EvReadBody])
        | Ok mac =>
          match MacVerify kms name (json.encode obj) mac with
          | Err err =>
            (response 500 (error_body ("Error verificando: " ++ err)),
             [EvReadBody; EvMacVerify name (json.encode obj) mac])
          | Ok success =>
            (response 200 (json.VMap [("valid", json.VBool success)]),
             [EvReadBody; EvMacVerify name (json.encode obj) mac])
          end
        end
      end
    end.
Proof.
  unfold verifyHandler, run, bind, Decode, emit, ret, writeJSON, finish, response, bind.
  destruct (negb (Method r =? MethodPost)%string); [reflexivity|].
  cbn [app].
  destruct (decode_request r) as [req|e]; [|reflexivity].
  destruct (json.Unmarshal (Payload req)) as [obj|e]; [|reflexivity].
  unfold json.Marshal.
  destruct (base64.DecodeString (Signature req)) as [mac|e]; [|reflexivity].
  cbn [app].
  destruct (MacVerify kms name _ mac); reflexivity.
Qed.

(** ** Method enforcement *)

(** C8. A request to /sign or /verify whose method is not POST is
    answered with status 405 and the JSON error body
    {"error":"Sólo POST permitido"}; the trace of effects is empty: the
    body is not read and the key-management service is not called. *)
Theorem method_enforcement kms name now r :
  Method r <> MethodPost ->
  signHandler kms name now r
    = (response StatusMethodNotAllowed (error_body "Sólo POST permitido"), [])
  /\ verifyHandler kms name r
    = (response StatusMethodNotAllowed (error_body "Sólo POST permitido"), [])
  /\ json.Encode (error_body "Sólo POST permitido")
    = js "{'error':'Sólo POST permitido'}" ++ newline.
Proof.
  intros Hm. apply String.eqb_neq in Hm.
  rewrite signHandler_eq, verifyHandler_eq, Hm. cbn [negb].
  repeat split; reflexivity.
Qed.

Lemma method_enforcement_witness :
  Method (get (js "{'x':1}")) <> MethodPost
  /\ signHandler toy_kms toy_name toy_now (get (js "{'x':1}"))
     = (response 405 (error_body "Sólo POST permitido"), []).
Proof.
  assert (H : Method (get (js "{'x':1}")) <> MethodPost) by discriminate.
  split; [exact H|].
  exact (proj1 (method_enforcement toy_kms toy_name toy_now _ H)).
Defined.

(** ** Verification outcomes *)

(** C5. When the payload of a verify request parses and its signature is
    valid base64, the answer is decided by the MacVerify call alone: a
    call that succeeds and reports a mismatch is answered with status 200
    and {"valid":false}; the status is 500 exactly when the call itself
    fails. *)
Theorem mac_mismatch_is_not_an_error kms name r req obj mac :
  Method r = MethodPost ->
  decode_request r = Ok req ->
  json.Unmarshal (Payload req) = Ok obj ->
  base64.DecodeString (Signature req) = Ok mac ->
  (MacVerify kms name (json.encode obj) mac = Ok false ->
   verifyHandler kms name r
     = (response StatusOK (json.VMap [("valid", json.VBool false)]),
        [EvReadBody; EvMacVerify name (json.encode obj) mac])
   /\ json.Encode (json.VMap [("valid", json.VBool false)])
     = js "{'valid':false}" ++ newline)
  /\ (status_of (fst (verifyHandler kms name r)) = Some StatusInternalServerError
      <-> exists err, MacVerify kms name (json.encode obj) mac = Err err).
Proof.
  intros Hm Hd Hu Hb.
  rewrite verifyHandler_eq, Hm, Hd, Hu, Hb. cbn [String.eqb negb].
  rewrite String.eqb_refl. cbn [negb].
  split.
  - intros ->. split; reflexivity.
  - destruct (MacVerify kms name (json.encode obj) mac) as [b|err]; cbn.
    + split; [discriminate|]. intros [err H]; discriminate.
    + split; [eauto|reflexivity].
Qed.

Lemma mac_mismatch_is_not_an_error_witness :
  verifyHandler toy_kms toy_name (post (js "{'payload':{'x':1},'signature':'AAAA'}"))
  = (response 200 (json.VMap [("valid", json.VBool false)]),
     [EvReadBody;
      EvMacVerify toy_name (js "{'x':1}") (String zero (String zero (String zero "")))]).
Proof.
  refine (proj1 (proj1 (mac_mismatch_is_not_an_error toy_kms toy_name
            (post (js "{'payload':{'x':1},'signature':'AAAA'}"))
            {| Payload := js "{'x':1}"; Signature := "AAAA" |}
            (json.VMap [("x", json.VFloat64 (strconv.Float false 4503599627370496 (-52)))])
            (String zero (String zero (String zero "")))
            _ _ _ _) _)); vm_compute; reflexivity.
Defined.

(** C6. When the payload of a verify request parses but its signature is
    not valid standard base64, the answer is status 400 with the error
    "Firma Base64 inválida", and the trace holds the read of the body
    only: MacVerify is not called. *)
Theorem invalid_base64_signature kms name r req obj e :
  Method r = MethodPost ->
  decode_request r = Ok req ->
  json.Unmarshal (Payload req) = Ok obj ->
  base64.DecodeString (Signature req) = Err e ->
  verifyHandler kms name r
    = (response StatusBadRequest (error_body "Firma Base64 inválida"), [EvReadBody]).
Proof.
  intros Hm Hd Hu Hb.
  rewrite verifyHandler_eq, Hm, Hd, Hu, Hb.
  rewrite String.eqb_refl. reflexivity.
Qed.

Lemma invalid_base64_signature_witness :
  verifyHandler toy_kms toy_name (post (js "{'payload':{'x':1},'signature':'not base64!'}"))
  = (response 400 (error_body "Firma Base64 inválida"), [EvReadBody]).
Proof.
  refine (invalid_base64_signature toy_kms toy_name
            (post (js "{'payload':{'x':1},'signature':'not base64!'}"))
            {| Payload := js "{'x':1}"; Signature := "not base64!" |}
            (json.VMap [("x", json.VFloat64 (strconv.Float false 4503599627370496 (-52)))])
            "illegal base64 data" _ _ _ _); vm_compute; reflexivity.
Defined.

(** ** The top-level value of a sign request *)

(** C4, at the failing input.  The body null is valid JSON and not an
    object: [json.Unmarshal] leaves the map nil and reports no error, so
    the handler goes on to the timestamp assignment, which panics; no
    400 response is written (the service is not called either). *)
Theorem sign_null_body_panics kms name now :
  signHandler kms name now (post "null")
  = (Panicked "assignment to entry in nil map", [EvReadBody]).
Proof. rewrite signHandler_eq. reflexivity. Qed.

(** Every other top-level value than an object or null is refused with
    status 400 before the timestamp and the service come into play. *)
Lemma sign_non_object_rejected kms name now r a :
  Method r = MethodPost ->
  BodyFails r = false ->
  json.scan_text (Body r) = Some a ->
  (forall ms, a <> json.AObj ms) ->
  a <> json.ANull ->
  signHandler kms name now r
    = (response StatusBadRequest (error_body "JSON inválido"), [EvReadBody]).
Proof.
  intros Hm Hf Hs Hobj Hnull.
  rewrite signHandler_eq, Hm, Hf, String.eqb_refl. cbn [negb].
  unfold json.Unmarshal_map. rewrite Hs.
  destruct a; try reflexivity.
  - contradiction.
  - exfalso. eapply Hobj. reflexivity.
Qed.

(** ** Induction on values and syntax trees *)

Lemma value_ind' (P : json.value -> Prop)
  (Hnil : P json.VNil)
  (Hbool : forall b, P (json.VBool b))
  (Hfloat : forall f, P (json.VFloat64 f))
  (Hstring : forall s, P (json.VString s))
  (Hslice : forall xs, Forall P xs -> P (json.VSlice xs))
  (Hmap : forall m, Forall (fun e => P (snd e)) m -> P (json.VMap m)) :
  forall v, P v.
Proof.
  fix IH 1. intros [ | b | f | s | xs | m].
  - exact Hnil.
  - apply Hbool.
  - apply Hfloat.
  - apply Hstring.
  - apply Hslice. induction xs as [|x xs IHxs]; constructor; [apply IH | exact IHxs].
  - apply Hmap. induction m as [|[k x] m IHm]; constructor; [apply IH | exact IHm].
Qed.

Lemma ast_ind' (P : json.ast -> Prop)
  (Hnull : P json.ANull)
  (Hbool : forall b, P (json.ABool b))
  (Hnum : forall l, P (json.ANum l))
  (Hstr : forall s, P (json.AStr s))
  (Harr : forall xs, Forall P xs -> P (json.AArr xs))
  (Hobj : forall ms, Forall (fun e => P (snd e)) ms -> P (json.AObj ms)) :
  forall a, P a.
Proof.
  fix IH 1. intros [ | b | l | s | xs | ms].
  - exact Hnull.
  - apply Hbool.
  - apply Hnum.
  - apply Hstr.
  - apply Harr. induction xs as [|x xs IHxs]; constructor; [apply IH | exact IHxs].
  - apply Hobj. induction ms as [|[k x] ms IHms]; constructor; [apply IH | exact IHms].
Qed.

(** ** Maps *)

Lemma map_get_set_eq m k v : json.map_get (json.map_set m k v) k = Some v.
Proof.
  induction m as [|[k' v'] m IH]; cbn.
  - now rewrite String.eqb_refl.
  - destruct (k' =? k)%string eqn:E; cbn.
    + now rewrite String.eqb_refl.
    + now rewrite E.
Qed.

Lemma map_get_set_neq m k v k' :
  k' <> k -> json.map_get (json.map_set m k v) k' = json.map_get m k'.
Proof.
  intros Hne. induction m as [|[k0 v0] m IH]; cbn.
  - destruct (k =? k')%string eqn:E; [|reflexivity].
    apply String.eqb_eq in E. congruence.
  - destruct (k0 =? k)%string eqn:E; cbn.
    + apply String.eqb_eq in E. subst k0.
      destruct (k =? k')%string eqn:E'; [|reflexivity].
      apply String.eqb_eq in E'. congruence.
    + destruct (k0 =? k')%string; [reflexivity|exact IH].
Qed.

Lemma map_set_keys m k v :
  List.map fst (json.map_set m k v)
  = if existsb (String.eqb k) (List.map fst m) then List.map fst m
    else (List.map fst m ++ [k])%list.
Proof.
  induction m as [|[k0 v0] m IH]; cbn; [reflexivity|].
  rewrite (String.eqb_sym k k0).
  destruct (k0 =? k)%string eqn:E; cbn.
  - apply String.eqb_eq in E. now subst.
  - rewrite IH. now destruct (existsb _ _).
Qed.

Lemma map_set_nodup m k v :
  NoDup (List.map fst m) -> NoDup (List.map fst (json.map_set m k v)).
Proof.
  intros Hnd. rewrite map_set_keys.
  destruct (existsb (String.eqb k) (List.map fst m)) eqn:E; [exact Hnd|].
  apply NoDup_app; [exact Hnd | repeat constructor; intros [] | ].
  intros x Hx [Hk|[]]. subst x.
  assert (existsb (String.eqb k) (List.map fst m) = true); [|congruence].
  apply existsb_exists. exists k. split; [exact Hx | apply String.eqb_refl].
Qed.

Lemma map_set_forall (P : json.value -> Prop) m k v :
  Forall (fun e => P (snd e)) m -> P v ->
  Forall (fun e => P (snd e)) (json.map_set m k v).
Proof.
  intros Hm Hv. induction Hm as [|[k0 v0] m H0 Hm IH]; cbn.
  - repeat constructor. exact Hv.
  - destruct (k0 =? k)%string; constructor; auto.
Qed.

Lemma map_get_in m k v : json.map_get m k = Some v -> In (k, v) m.
Proof.
  induction m as [|[k0 v0] m IH]; cbn; [discriminate|].
  destruct (k0 =? k)%string eqn:E.
  - apply String.eqb_eq in E. intros [= ->]. left. now subst.
  - intros H. right. auto.
Qed.


(** ** The order of keys *)

Lemma ascii_compare_lt_trans a b c :
  Ascii.compare a b = Lt -> Ascii.compare b c = Lt -> Ascii.compare a c = Lt.
Proof.
  unfold Ascii.compare. rewrite !N.compare_lt_iff. lia.
Qed.

Lemma string_compare_lt_trans s1 : forall s2 s3,
  String.compare s1 s2 = Lt -> String.compare s2 s3 = Lt -> String.compare s1 s3 = Lt.
Proof.
  induction s1 as [|a s1 IH]; intros [|b s2] [|c s3]; cbn; try discriminate; auto.
  destruct (Ascii.compare a b) eqn:Eab; try discriminate;
    destruct (Ascii.compare b c) eqn:Ebc; try discriminate; intros H1 H2.
  - apply Ascii.compare_eq_iff in Eab, Ebc. subst.
    assert (E : Ascii.compare c c = Eq).
    { unfold Ascii.compare. apply N.compare_refl. }
    rewrite E. eauto.
  - apply Ascii.compare_eq_iff in Eab. subst. now rewrite Ebc.
  - apply Ascii.compare_eq_iff in Ebc. subst. now rewrite Eab.
  - now rewrite (ascii_compare_lt_trans _ _ _ Eab Ebc).
Qed.

Lemma string_compare_refl s : String.compare s s = Eq.
Proof.
  induction s as [|a s IH]; cbn; [reflexivity|].
  unfold Ascii.compare. now rewrite N.compare_refl.
Qed.

Lemma ltb_irrefl s : String.ltb s s = false.
Proof. unfold String.ltb. now rewrite string_compare_refl. Qed.

Lemma ltb_trans s1 s2 s3 :
  String.ltb s1 s2 = true -> String.ltb s2 s3 = true -> String.ltb s1 s3 = true.
Proof.
  unfold String.ltb.
  destruct (String.compare s1 s2) eqn:E1; try discriminate.
  destruct (String.compare s2 s3) eqn:E2; try discriminate.
  now rewrite (string_compare_lt_trans _ _ _ E1 E2).
Qed.

Lemma ltb_asym s1 s2 : String.ltb s1 s2 = true -> String.ltb s2 s1 = false.
Proof.
  intros H. destruct (String.ltb s2 s1) eqn:E; [|reflexivity].
  pose proof (ltb_trans _ _ _ H E) as Hc. rewrite ltb_irrefl in Hc. discriminate.
Qed.

Lemma ltb_total s1 s2 :
  String.ltb s1 s2 = false -> s1 <> s2 -> String.ltb s2 s1 = true.
Proof.
  unfold String.ltb. intros H Hne.
  rewrite String.compare_antisym.
  destruct (String.compare s1 s2) eqn:E; cbn; try discriminate; [|reflexivity].
  apply String.compare_eq_iff in E. contradiction.
Qed.

(** ** Sorting the entries of a map *)

Section Sorting.

Context {A : Type}.

Definition key_lt (a b : string * A) : Prop := String.ltb (fst a) (fst b) = true.

Lemma insert_by_key_perm (e : string * A) l :
  Permutation (json.insert_by_key e l) (e :: l).
Proof.
  induction l as [|e' l IH]; cbn; [reflexivity|].
  destruct (String.ltb (fst e) (fst e')); [reflexivity|].
  rewrite IH. apply perm_swap.
Qed.

Lemma sort_by_key_perm (l : list (string * A)) : Permutation (json.sort_by_key l) l.
Proof.
  induction l as [|e l IH]; cbn; [reflexivity|].
  rewrite insert_by_key_perm. now constructor.
Qed.

Lemma insert_by_key_sorted (e : string * A) l :
  ~ In (fst e) (List.map fst l) ->
  StronglySorted key_lt l ->
  StronglySorted key_lt (json.insert_by_key e l).
Proof.
  intros Hnin Hs. induction Hs as [|e' l Hs IH Hall]; cbn.
  - repeat constructor.
  - destruct (String.ltb (fst e) (fst e')) eqn:E.
    + constructor; [now constructor|].
      constructor; [exact E|].
      eapply Forall_impl; [|exact Hall].
      intros x Hx. unfold key_lt in *. eapply ltb_trans; eauto.
    + assert (He' : key_lt e' e).
      { apply ltb_total; [exact E|]. intros Heq. apply Hnin. left. now symmetry. }
      constructor.
      * apply IH. intros Hin. apply Hnin. now right.
      * rewrite (Forall_forall (key_lt e')). intros x Hx.
        apply (Permutation_in _ (insert_by_key_perm e l)) in Hx.
        destruct Hx as [<-|Hx]; [exact He'|].
        rewrite Forall_forall in Hall. auto.
Qed.

Lemma sort_by_key_sorted (l : list (string * A)) :
  NoDup (List.map fst l) -> StronglySorted key_lt (json.sort_by_key l).
Proof.
  induction l as [|e l IH]; cbn; intros Hnd; [constructor|].
  inversion Hnd as [|? ? Hnin Hnd']; subst.
  apply insert_by_key_sorted; [|auto].
  intros Hin. apply Hnin.
  eapply Permutation_in; [|exact Hin].
  apply Permutation_map, sort_by_key_perm.
Qed.

Lemma sorted_perm_eq (l1 : list (string * A)) : forall l2,
  StronglySorted key_lt l1 -> StronglySorted key_lt l2 ->
  Permutation l1 l2 -> l1 = l2.
Proof.
  induction l1 as [|a l1 IH]; intros l2 H1 H2 Hp.
  - apply Permutation_nil in Hp. now subst.
  - destruct l2 as [|b l2].
    { symmetry in Hp. apply Permutation_nil in Hp. discriminate. }
    inversion H1 as [|? ? H1' Ha]; subst.
    inversion H2 as [|? ? H2' Hb]; subst.
    rewrite Forall_forall in Ha, Hb.
    assert (Hab : a = b).
    { assert (Hin1 : In a (b :: l2)) by (eapply Permutation_in; [exact Hp|now left]).
      assert (Hin2 : In b (a :: l1)).
      { eapply Permutation_in; [symmetry; exact Hp|now left]. }
      destruct Hin1 as [->|Hin1]; [reflexivity|].
      destruct Hin2 as [->|Hin2]; [reflexivity|].
      pose proof (Ha _ Hin2) as L1. pose proof (Hb _ Hin1) as L2.
      unfold key_lt in *. rewrite (ltb_asym _ _ L1) in L2. discriminate. }
    subst b. f_equal. apply IH; auto.
    eapply Permutation_cons_inv; eauto.
Qed.

(** The sorted entries do not depend on the order of the entries. *)
Lemma sort_by_key_unique (l1 l2 : list (string * A)) :
  NoDup (List.map fst l1) -> Permutation l1 l2 ->
  json.sort_by_key l1 = json.sort_by_key l2.
Proof.
  intros Hnd Hp. apply sorted_perm_eq.
  - now apply sort_by_key_sorted.
  - apply sort_by_key_sorted.
    eapply Permutation_NoDup; [|exact Hnd]. now apply Permutation_map.
  - rewrite !sort_by_key_perm. exact Hp.
Qed.

End Sorting.

(** ** What Unmarshal produces *)

Lemma to_value_arr xs :
  json.to_value (json.AArr xs)
  = match json.to_values xs with Ok vs => Ok (json.VSlice vs) | Err e => Err e end.
Proof. reflexivity. Qed.

Lemma to_value_obj ms :
  json.to_value (json.AObj ms)
  = match json.to_entries ms [] with Ok m => Ok (json.VMap m) | Err e => Err e end.
Proof. reflexivity. Qed.

Lemma to_values_wf xs :
  Forall (fun a => forall v, json.to_value a = Ok v -> wf_value v) xs ->
  forall vs, json.to_values xs = Ok vs -> Forall wf_value vs.
Proof.
  induction 1 as [|a xs Ha Hxs IH]; cbn; intros vs H.
  - injection H as <-. constructor.
  - destruct (json.to_value a) as [v|] eqn:Ev; [|discriminate].
    destruct (json.to_values xs) as [vs'|]; [|discriminate].
    injection H as <-. constructor; auto.
Qed.

Lemma to_entries_wf ms :
  Forall (fun e => forall v, json.to_value (snd e) = Ok v -> wf_value v) ms ->
  forall acc m,
    NoDup (List.map fst acc) -> Forall (fun e => wf_value (snd e)) acc ->
    json.to_entries ms acc = Ok m ->
    NoDup (List.map fst m) /\ Forall (fun e => wf_value (snd e)) m.
Proof.
  induction 1 as [|[k a] ms Ha Hms IH]; cbn; intros acc m Hnd Hwf H.
  - injection H as <-. auto.
  - destruct (json.to_value a) as [v|] eqn:Ev; [|discriminate].
    eapply IH; [| |exact H].
    + now apply map_set_nodup.
    + apply map_set_forall; auto.
Qed.

Lemma to_value_wf a : forall v, json.to_value a = Ok v -> wf_value v.
Proof.
  induction a as [ | b | l | s | xs IH | ms IH] using ast_ind'; intros v H.
  - injection H as <-. constructor.
  - injection H as <-. constructor.
  - cbn in H. destruct (strconv.ParseFloat l); [|discriminate].
    injection H as <-. constructor.
  - injection H as <-. constructor.
  - rewrite to_value_arr in H.
    destruct (json.to_values xs) as [vs|] eqn:E; [|discriminate].
    injection H as <-. constructor. eapply to_values_wf; eauto.
  - rewrite to_value_obj in H.
    destruct (json.to_entries ms []) as [m|] eqn:E; [|discriminate].
    injection H as <-.
    destruct (to_entries_wf ms IH [] m) as [Hnd Hwf]; auto; try constructor; auto.
Qed.

Lemma Unmarshal_wf text v : json.Unmarshal text = Ok v -> wf_value v.
Proof.
  unfold json.Unmarshal. destruct (json.scan_text text); [|discriminate].
  apply to_value_wf.
Qed.

(** A text that [Unmarshal_map] accepts as a map is the same map for
    [Unmarshal]. *)
Lemma Unmarshal_map_Unmarshal text m :
  json.Unmarshal_map text = Ok (Some m) -> json.Unmarshal text = Ok (json.VMap m).
Proof.
  unfold json.Unmarshal_map, json.Unmarshal.
  destruct (json.scan_text text) as [[ | | | | | ms]|]; try discriminate.
  rewrite to_value_obj.
  destruct (json.to_entries ms []); [|discriminate].
  now intros [= ->].
Qed.

(** ** Canonical bytes do not depend on the order of the entries *)

Lemma encode_map m :
  json.encode (json.VMap m)
  = "{" ++ json.join ","
             (List.map json.encode_member
                (json.sort_by_key (List.map (fun e => (fst e, json.encode (snd e))) m)))
        ++ "}".
Proof. reflexivity. Qed.

Lemma encode_slice xs :
  json.encode (json.VSlice xs) = "[" ++ json.join "," (List.map json.encode xs) ++ "]".
Proof. reflexivity. Qed.

Lemma encode_same v1 : forall v2,
  wf_value v1 -> wf_value v2 -> same_value v1 v2 -> json.encode v1 = json.encode v2.
Proof.
  induction v1 as [ | b | f | s | xs IH | m IH] using value_ind';
    intros v2 W1 W2 S;
    inversion S as [ | | | | ? ys F | ? m2 Hlen Hall]; subst; try reflexivity.
  - (* slices *)
    rewrite !encode_slice. do 3 f_equal.
    inversion W1 as [ | | | | ? W1' | ]; subst.
    inversion W2 as [ | | | | ? W2' | ]; subst.
    clear S W1 W2.
    induction F as [|x y xs ys Hxy F IHF]; cbn; [reflexivity|].
    inversion IH; inversion W1'; inversion W2'; subst.
    f_equal; auto.
  - (* maps *)
    rewrite !encode_map. do 4 f_equal.
    inversion W1 as [ | | | | | ? N1 W1' ]; subst.
    inversion W2 as [ | | | | | ? N2 W2' ]; subst.
    apply sort_by_key_unique.
    { rewrite List.map_map. exact N1. }
    apply NoDup_Permutation_bis.
    + apply (NoDup_map_inv fst). rewrite List.map_map. exact N1.
    + rewrite !List.length_map. lia.
    + intros e He. apply in_map_iff in He. destruct He as [[k v] [<- Hin]]. cbn.
      rewrite Forall_forall in IH, W1', W2', Hall.
      destruct (Hall _ Hin) as [v2 [G Sv]].
      cbn in G, Sv. apply map_get_in in G.
      pose proof (IH _ Hin v2 (W1' _ Hin) (W2' _ G) Sv) as E. cbn in E.
      rewrite E. apply in_map_iff. exists (k, v2). auto.
Qed.

(** C1. Canonical determinism.  Two JSON texts that decode to
    structurally equal values (keys in any order, any white space, the
    same elements and scalars) have identical canonical bytes.  Both
    handlers canonicalize in this way: the data signHandler hands to
    MacSign are the encoding of the decoded body with its timestamp, the
    data verifyHandler hands to MacVerify are the canonical bytes of the
    payload. *)
Theorem canonical_determinism :
  (forall t1 t2 v1 v2,
     json.Unmarshal t1 = Ok v1 -> json.Unmarshal t2 = Ok v2 ->
     same_value v1 v2 ->
     canonicalize t1 = canonicalize t2)
  /\ (forall kms name now r m,
        Method r = MethodPost -> BodyFails r = false ->
        json.Unmarshal_map (Body r) = Ok (Some m) ->
        json.Unmarshal (Body r) = Ok (json.VMap m)
        /\ snd (signHandler kms name now r)
           = [EvReadBody;
              EvMacSign name
                (json.encode
                   (json.VMap (json.map_set m "timestamp"
                                 (json.VString (time.RFC3339Nano now)))))])
  /\ (forall kms name r req obj mac,
        Method r = MethodPost -> decode_request r = Ok req ->
        json.Unmarshal (Payload req) = Ok obj ->
        base64.DecodeString (Signature req) = Ok mac ->
        canonicalize (Payload req) = Ok (json.encode obj)
        /\ snd (verifyHandler kms name r)
           = [EvReadBody; EvMacVerify name (json.encode obj) mac]).
Proof.
  split; [|split].
  - intros t1 t2 v1 v2 H1 H2 S. unfold canonicalize, json.Marshal.
    rewrite H1, H2. f_equal.
    apply encode_same; eauto using Unmarshal_wf.
  - intros kms name now r m Hm Hf Hu. split.
    + now apply Unmarshal_map_Unmarshal.
    + rewrite signHandler_eq, Hm, Hf, Hu, String.eqb_refl. cbn [negb].
      cbv zeta. destruct (MacSign kms name _); reflexivity.
  - intros kms name r req obj mac Hm Hd Hu Hb. split.
    + unfold canonicalize. now rewrite Hu.
    + rewrite verifyHandler_eq, Hm, Hd, Hu, Hb, String.eqb_refl. cbn [negb].
      destruct (MacVerify kms name _ mac); reflexivity.
Qed.

Lemma canonical_determinism_witness :
  canonicalize (js "{'b':2, 'a':[1,true]}") = canonicalize (js " { 'a' : [ 1 , true ] , 'b' : 2.0 }").
Proof.
  refine (proj1 canonical_determinism _ _
            (json.VMap [("b", json.VFloat64 (strconv.Float false 4503599627370496 (-51)));
                        ("a", json.VSlice
                                [json.VFloat64 (strconv.Float false 4503599627370496 (-52));
                                 json.VBool true])])
            (json.VMap [("a", json.VSlice
                                [json.VFloat64 (strconv.Float false 4503599627370496 (-52));
                                 json.VBool true]);
                        ("b", json.VFloat64 (strconv.Float false 4503599627370496 (-51)))])
            _ _ _).
  - vm_compute. reflexivity.
  - vm_compute. reflexivity.
  - apply same_map; [reflexivity|].
    repeat constructor; eexists; (split; [vm_compute; reflexivity|]);
      repeat constructor.
Defined.

(** The example of the specification: the two key orders of an object
    canonicalize to the same bytes. *)
Example canonical_example :
  canonicalize (js "{'b':2,'a':1}") = Ok (js "{'a':1,'b':2}")
  /\ canonicalize (js "{'a':1,'b':2}") = Ok (js "{'a':1,'b':2}").
Proof. split; vm_compute; reflexivity. Qed.

(** ** Lengths *)

Lemma length_append s1 s2 : String.length (s1 ++ s2) = String.length s1 + String.length s2.
Proof. induction s1; cbn; auto. Qed.

Lemma append_assoc (s1 s2 s3 : string) : (s1 ++ s2) ++ s3 = s1 ++ (s2 ++ s3).
Proof. induction s1; cbn; congruence. Qed.

Lemma append_nil_r (s : string) : s ++ "" = s.
Proof. induction s; cbn; congruence. Qed.

Lemma length_drop n : forall s, String.length (drop n s) = String.length s - n.
Proof. induction n; intros [|c s]; cbn; auto. Qed.

Lemma take_drop n : forall s, take n s ++ drop n s = s.
Proof. induction n; intros [|c s]; cbn; auto. now rewrite IHn. Qed.

Lemma take_app s1 s2 : take (String.length s1) (s1 ++ s2) = s1.
Proof. induction s1; cbn; [now destruct s2|congruence]. Qed.

Lemma drop_app s1 s2 : drop (String.length s1) (s1 ++ s2) = s2.
Proof. induction s1; cbn; auto. Qed.

Lemma skip_space_length s : String.length (json.skip_space s) <= String.length s.
Proof. induction s as [|c s IH]; cbn; [lia|]. destruct (json.isSpace c); cbn; lia. Qed.

Lemma span_digits_app s ds rest :
  span_digits s = (ds, rest) -> s = ds ++ rest.
Proof.
  revert ds rest. induction s as [|c s IH]; cbn; intros ds rest H.
  - now injection H as <- <-.
  - destruct (is_digit c).
    + destruct (span_digits s) as [ds' rest'] eqn:E. injection H as <- <-.
      cbn. f_equal. now apply IH.
    + now injection H as <- <-.
Qed.

Lemma strip_prefix_app p : forall s r, json.strip_prefix p s = Some r -> s = p ++ r.
Proof.
  induction p as [|a p IH]; intros [|b s] r; cbn; try discriminate.
  - now intros [= <-].
  - now intros [= <-].
  - destruct (a =? b)%char eqn:E; [|discriminate].
    apply Ascii.eqb_eq in E. subst. intros H. f_equal. auto.
Qed.

Lemma prepend_some {A : Type} p (x : option (string * A)) str rest :
  json.prepend p x = Some (str, rest) ->
  exists str', x = Some (str', rest) /\ str = p ++ str'.
Proof.
  destruct x as [[s a]|]; cbn; [|discriminate].
  intros [= <- <-]. eauto.
Qed.

Lemma getu4_length s n : json.getu4 s = Some n -> 6 <= String.length s.
Proof.
  destruct s as [|c0 [|c1 [|c2 [|c3 [|c4 [|c5 s]]]]]]; cbn; try discriminate.
  intros _. lia.
Qed.

Lemma DecodeRune_size s : s <> "" -> 1 <= snd (utf8.DecodeRune s) <= String.length s.
Proof.
  destruct s as [|c0 s]; [congruence|]. intros _. unfold utf8.DecodeRune.
  destruct (code c0 <? utf8.RuneSelf)%N; [cbn; lia|].
  destruct (utf8.first (code c0)) as [[[sz lo] hi]|]; [|cbn; lia].
  destruct s as [|c1 s]; [cbn; lia|].
  destruct ((code c1 <? lo) || (hi <? code c1))%N; [cbn; lia|].
  destruct (sz =? 2)%N; [cbn; lia|].
  destruct s as [|c2 s]; [cbn; lia|].
  destruct (negb (utf8.continuation (code c2))); [cbn; lia|].
  destruct (sz =? 3)%N; [cbn; lia|].
  destruct s as [|c3 s]; [cbn; lia|].
  destruct (negb (utf8.continuation (code c3))); cbn; lia.
Qed.

Lemma scan_string_length fuel : forall s str rest,
  json.scan_string fuel s = Some (str, rest) -> String.length rest < String.length s.
Proof.
  induction fuel as [|f IH]; intros s str rest H; [discriminate|].
  cbn [json.scan_string] in H.
  destruct s as [|c r]; [discriminate|].
  destruct (c =? dquote)%char.
  { injection H as <- <-. cbn. lia. }
  destruct (c =? backslash)%char.
  { destruct r as [|e r']; [discriminate|].
    destruct (json.simple_escape e).
    { apply prepend_some in H. destruct H as [str' [H _]].
      apply IH in H. cbn in *. lia. }
    destruct (e =? "u")%char; [|discriminate].
    destruct (json.getu4 (String c (String e r'))) as [rr|] eqn:G; [|discriminate].
    apply getu4_length in G.
    assert (L6 : String.length (drop 6 (String c (String e r')))
                 = String.length (String c (String e r')) - 6) by apply length_drop.
    destruct (utf16.IsSurrogate rr).
    - destruct (json.getu4 (drop 6 (String c (String e r')))) as [rr1|] eqn:G1.
      + destruct (utf16.DecodeRune rr rr1 =? utf8.RuneError)%N;
          apply prepend_some in H; destruct H as [str' [H _]]; apply IH in H.
        * lia.
        * rewrite length_drop in H. lia.
      + apply prepend_some in H. destruct H as [str' [H _]]. apply IH in H. lia.
    - apply prepend_some in H. destruct H as [str' [H _]]. apply IH in H. lia. }
  destruct (code c <? 32)%N; [discriminate|].
  destruct (code c <? utf8.RuneSelf)%N.
  { apply prepend_some in H. destruct H as [str' [H _]]. apply IH in H. cbn. lia. }
  destruct (utf8.DecodeRune (String c r)) as [rr size] eqn:D.
  apply prepend_some in H. destruct H as [str' [H _]]. apply IH in H.
  rewrite length_drop in H.
  pose proof (DecodeRune_size (String c r)) as Hs. rewrite D in Hs. cbn [snd] in Hs.
  assert (String c r <> "") by discriminate. lia.
Qed.

Lemma scan_int_app s i rest :
  json.scan_int s = Some (i, rest) -> s = i ++ rest /\ i <> "".
Proof.
  unfold json.scan_int. destruct s as [|c r]; [discriminate|].
  destruct (c =? "0")%char eqn:E0.
  - apply Ascii.eqb_eq in E0. subst. intros [= <- <-]. split; [reflexivity|discriminate].
  - destruct (is_digit c); [|discriminate].
    destruct (span_digits r) as [ds rest'] eqn:E. intros [= <- <-].
    apply span_digits_app in E. subst. split; [reflexivity|discriminate].
Qed.

Lemma scan_frac_app s fr rest : json.scan_frac s = Some (fr, rest) -> s = fr ++ rest.
Proof.
  unfold json.scan_frac. destruct s as [|c r]; [now intros [= <- <-]|].
  destruct (c =? ".")%char; [|now intros [= <- <-]].
  destruct (span_digits r) as [ds rest'] eqn:E.
  apply span_digits_app in E. subst.
  destruct ds; [discriminate|]. now intros [= <- <-].
Qed.

Lemma scan_exp_app s ex rest : json.scan_exp s = Some (ex, rest) -> s = ex ++ rest.
Proof.
  unfold json.scan_exp. destruct s as [|c r]; [now intros [= <- <-]|].
  destruct ((c =? "e") || (c =? "E"))%char; [|now intros [= <- <-]].
  destruct r as [|g r'].
  - cbn. discriminate.
  - destruct ((g =? "+") || (g =? "-"))%char.
    + destruct (span_digits r') as [ds rest'] eqn:E.
      apply span_digits_app in E. subst.
      destruct ds; [discriminate|]. now intros [= <- <-].
    + destruct (span_digits (String g r')) as [ds rest'] eqn:E.
      apply span_digits_app in E. rewrite E.
      destruct ds; [discriminate|]. now intros [= <- <-].
Qed.

Lemma scan_number_app s lit rest :
  json.scan_number s = Some (lit, rest) -> s = lit ++ rest /\ lit <> "".
Proof.
  unfold json.scan_number.
  assert (G : forall sg s1 : string,
             match json.scan_int s1 with
             | Some (i, s2) =>
               match json.scan_frac s2 with
               | Some (fr, s3) =>
                 match json.scan_exp s3 with
                 | Some (ex, s4) => Some (sg ++ i ++ fr ++ ex, s4)
                 | None => None
                 end
               | None => None
               end
             | None => None
             end = Some (lit, rest) ->
             sg ++ s1 = lit ++ rest /\ lit <> "").
  { intros sg s1.
    destruct (json.scan_int s1) as [[i s2]|] eqn:Ei; [|discriminate].
    destruct (json.scan_frac s2) as [[fr s3]|] eqn:Ef; [|discriminate].
    destruct (json.scan_exp s3) as [[ex s4]|] eqn:Ee; [|discriminate].
    intros [= <- <-].
    apply scan_int_app in Ei. destruct Ei as [-> Hi].
    apply scan_frac_app in Ef. apply scan_exp_app in Ee. subst.
    rewrite !append_assoc. split; [reflexivity|].
    destruct sg; [|discriminate]. destruct i; [congruence|discriminate]. }
  destruct s as [|c r].
  - intros H. apply (G "" "") in H. exact H.
  - destruct (c =? "-")%char eqn:E.
    + apply Ascii.eqb_eq in E. subst. intros H. apply (G "-" r) in H. exact H.
    + intros H. apply (G "" (String c r)) in H. exact H.
Qed.

(** ** Fuel of the scanner

    More fuel never changes a result, and the length of the text is
    always enough. *)

Lemma scan_mono f :
  (forall d s r, json.scan_value f d s = Some r ->
     forall f', f <= f' -> json.scan_value f' d s = Some r)
  /\ (forall d s r, json.scan_elems f d s = Some r ->
        forall f', f <= f' -> json.scan_elems f' d s = Some r)
  /\ (forall d s r, json.scan_members f d s = Some r ->
        forall f', f <= f' -> json.scan_members f' d s = Some r).
Proof.
  induction f as [|f [IHv [IHe IHm]]]; [repeat split; discriminate|].
  repeat split; intros d s r H [|f'] Hle; try lia;
    assert (Hf : f <= f') by lia;
    cbn [json.scan_value json.scan_elems json.scan_members] in H |- *.
  - (* value *)
    destruct s as [|c s0]; [discriminate|].
    destruct (c =? "{")%char.
    { destruct (N.ltb d json.maxNestingDepth); [|discriminate].
      destruct (json.skip_space s0) as [|c' r']; [discriminate|].
      destruct (c' =? "}")%char; [exact H|].
      destruct (json.scan_members f (d + 1) (String c' r')) as [[ms rest]|] eqn:E;
        [|discriminate].
      now rewrite (IHm _ _ _ E f' Hf). }
    destruct (c =? "[")%char.
    { destruct (N.ltb d json.maxNestingDepth); [|discriminate].
      destruct (json.skip_space s0) as [|c' r']; [discriminate|].
      destruct (c' =? "]")%char; [exact H|].
      destruct (json.scan_elems f (d + 1) (String c' r')) as [[vs rest]|] eqn:E;
        [|discriminate].
      now rewrite (IHe _ _ _ E f' Hf). }
    exact H.
  - (* elements *)
    destruct (json.scan_value f d s) as [[v r0]|] eqn:E; [|discriminate].
    rewrite (IHv _ _ _ E f' Hf).
    destruct (json.skip_space r0) as [|c r']; [discriminate|].
    destruct (c =? ",")%char; [|exact H].
    destruct (json.scan_elems f d (json.skip_space r')) as [[vs rest]|] eqn:E';
      [|discriminate].
    now rewrite (IHe _ _ _ E' f' Hf).
  - (* members *)
    destruct s as [|q r0]; [discriminate|].
    destruct (q =? dquote)%char; [|discriminate].
    destruct (json.scan_string (String.length r0) r0) as [[k r1]|]; [|discriminate].
    destruct (json.skip_space r1) as [|col r2]; [discriminate|].
    destruct (col =? ":")%char; [|discriminate].
    destruct (json.scan_value f d (json.skip_space r2)) as [[v r3]|] eqn:E; [|discriminate].
    rewrite (IHv _ _ _ E f' Hf).
    destruct (json.skip_space r3) as [|c r4]; [discriminate|].
    destruct (c =? ",")%char; [|exact H].
    destruct (json.scan_members f d (json.skip_space r4)) as [[ms rest]|] eqn:E';
      [|discriminate].
    now rewrite (IHm _ _ _ E' f' Hf).
Qed.

Lemma scan_value_mono f f' d s r :
  json.scan_value f d s = Some r -> f <= f' -> json.scan_value f' d s = Some r.
Proof. intros H Hle. exact (proj1 (scan_mono f) d s r H f' Hle). Qed.

Lemma scan_elems_mono f f' d s r :
  json.scan_elems f d s = Some r -> f <= f' -> json.scan_elems f' d s = Some r.
Proof. intros H Hle. exact (proj1 (proj2 (scan_mono f)) d s r H f' Hle). Qed.

Lemma scan_members_mono f f' d s r :
  json.scan_members f d s = Some r -> f <= f' -> json.scan_members f' d s = Some r.
Proof. intros H Hle. exact (proj2 (proj2 (scan_mono f)) d s r H f' Hle). Qed.

Lemma scan_consumed f :
  (forall d s a rest, json.scan_value f d s = Some (a, rest) ->
     String.length rest < String.length s
     /\ json.scan_value (String.length s - String.length rest) d s = Some (a, rest))
  /\ (forall d s a rest, json.scan_elems f d s = Some (a, rest) ->
        String.length rest < String.length s
        /\ json.scan_elems (String.length s - String.length rest) d s = Some (a, rest))
  /\ (forall d s a rest, json.scan_members f d s = Some (a, rest) ->
        String.length rest < String.length s
        /\ json.scan_members (String.length s - String.length rest) d s = Some (a, rest)).
Proof.
  induction f as [|f [IHv [IHe IHm]]]; [repeat split; discriminate|].
  repeat apply conj; intros d s a rest H.
  - (* value *)
    assert (L : String.length rest < String.length s).
    { cbn [json.scan_value] in H.
      destruct s as [|c s0]; [discriminate|].
      pose proof (skip_space_length s0) as Hsp.
      destruct (c =? "{")%char.
      { destruct (N.ltb d json.maxNestingDepth); [|discriminate].
        destruct (json.skip_space s0) as [|c' r'] eqn:Es; [discriminate|].
        destruct (c' =? "}")%char.
        { injection H as <- <-. cbn [String.length] in *. lia. }
        destruct (json.scan_members f (d + 1) (String c' r')) as [[ms rest']|] eqn:E;
          [|discriminate].
        injection H as <- <-. apply IHm in E. cbn [String.length] in *. lia. }
      destruct (c =? "[")%char.
      { destruct (N.ltb d json.maxNestingDepth); [|discriminate].
        destruct (json.skip_space s0) as [|c' r'] eqn:Es; [discriminate|].
        destruct (c' =? "]")%char.
        { injection H as <- <-. cbn [String.length] in *. lia. }
        destruct (json.scan_elems f (d + 1) (String c' r')) as [[vs rest']|] eqn:E;
          [|discriminate].
        injection H as <- <-. apply IHe in E. cbn [String.length] in *. lia. }
      destruct (c =? dquote)%char.
      { destruct (json.scan_string (String.length s0) s0) as [[str rest']|] eqn:E;
          [|discriminate].
        injection H as <- <-. apply scan_string_length in E. cbn. lia. }
      destruct ((c =? "-")%char || is_digit c).
      { destruct (json.scan_number (String c s0)) as [[lit rest']|] eqn:E; [|discriminate].
        injection H as <- <-. apply scan_number_app in E. destruct E as [E Hl].
        rewrite E, length_append. destruct lit; [congruence|cbn; lia]. }
      unfold json.scan_literal in H.
      destruct (c =? "t")%char.
      { destruct (json.strip_prefix "true" (String c s0)) eqn:E; [|discriminate].
        injection H as <- <-. apply strip_prefix_app in E. rewrite E. cbn. lia. }
      destruct (c =? "f")%char.
      { destruct (json.strip_prefix "false" (String c s0)) eqn:E; [|discriminate].
        injection H as <- <-. apply strip_prefix_app in E. rewrite E. cbn. lia. }
      destruct (c =? "n")%char; [|discriminate].
      destruct (json.strip_prefix "null" (String c s0)) eqn:E; [|discriminate].
      injection H as <- <-. apply strip_prefix_app in E. rewrite E. cbn. lia. }
    split; [exact L|].
    destruct (String.length s - String.length rest) as [|n] eqn:En; [lia|].
    cbn [json.scan_value] in H |- *.
    destruct s as [|c s0]; [discriminate|].
    pose proof (skip_space_length s0) as Hsp.
    destruct (c =? "{")%char.
    { destruct (N.ltb d json.maxNestingDepth); [|discriminate].
      destruct (json.skip_space s0) as [|c' r'] eqn:Es; [discriminate|].
      destruct (c' =? "}")%char; [exact H|].
      destruct (json.scan_members f (d + 1) (String c' r')) as [[ms rest']|] eqn:E;
        [|discriminate].
      injection H as <- <-. apply IHm in E. destruct E as [L' E].
      rewrite (scan_members_mono _ n _ _ _ E); [reflexivity|]. cbn [String.length] in *. lia. }
    destruct (c =? "[")%char.
    { destruct (N.ltb d json.maxNestingDepth); [|discriminate].
      destruct (json.skip_space s0) as [|c' r'] eqn:Es; [discriminate|].
      destruct (c' =? "]")%char; [exact H|].
      destruct (json.scan_elems f (d + 1) (String c' r')) as [[vs rest']|] eqn:E;
        [|discriminate].
      injection H as <- <-. apply IHe in E. destruct E as [L' E].
      rewrite (scan_elems_mono _ n _ _ _ E); [reflexivity|]. cbn [String.length] in *. lia. }
    exact H.
  - (* elements *)
    cbn [json.scan_elems] in H.
    destruct (json.scan_value f d s) as [[v r0]|] eqn:E; [|discriminate].
    apply IHv in E. destruct E as [L0 E].
    pose proof (skip_space_length r0) as Hsp.
    destruct (json.skip_space r0) as [|c r'] eqn:Es; [discriminate|].
    destruct (c =? ",")%char eqn:Ec.
    + pose proof (skip_space_length r') as Hsp'.
      destruct (json.scan_elems f d (json.skip_space r')) as [[vs rest']|] eqn:E';
        [|discriminate].
      injection H as <- ->. apply IHe in E'. destruct E' as [L' E'].
      cbn [String.length] in Hsp. split; [lia|].
      destruct (String.length s - String.length rest) as [|n] eqn:En; [lia|].
      cbn [json.scan_elems].
      rewrite (scan_value_mono _ n _ _ _ E) by lia.
      rewrite Es, Ec.
      rewrite (scan_elems_mono _ n _ _ _ E') by lia. reflexivity.
    + destruct (c =? "]")%char eqn:Ec'; [|discriminate].
      injection H as <- ->. cbn [String.length] in Hsp. split; [lia|].
      destruct (String.length s - String.length rest) as [|n] eqn:En; [lia|].
      cbn [json.scan_elems].
      rewrite (scan_value_mono _ n _ _ _ E) by lia.
      rewrite Es, Ec, Ec'. reflexivity.
  - (* members *)
    cbn [json.scan_members] in H.
    destruct s as [|q r0]; [discriminate|].
    destruct (q =? dquote)%char eqn:Eq; [|discriminate].
    destruct (json.scan_string (String.length r0) r0) as [[k r1]|] eqn:Ek; [|discriminate].
    pose proof (scan_string_length _ _ _ _ Ek) as Lk.
    pose proof (skip_space_length r1) as Hsp1.
    destruct (json.skip_space r1) as [|col r2] eqn:Es1; [discriminate|].
    destruct (col =? ":")%char eqn:Ecol; [|discriminate].
    pose proof (skip_space_length r2) as Hsp2.
    destruct (json.scan_value f d (json.skip_space r2)) as [[v r3]|] eqn:E; [|discriminate].
    apply IHv in E. destruct E as [L0 E].
    pose proof (skip_space_length r3) as Hsp3.
    destruct (json.skip_space r3) as [|c r4] eqn:Es3; [discriminate|].
    cbn [String.length] in Hsp1, Hsp3.
    destruct (c =? ",")%char eqn:Ec.
    + pose proof (skip_space_length r4) as Hsp4.
      destruct (json.scan_members f d (json.skip_space r4)) as [[ms rest']|] eqn:E';
        [|discriminate].
      injection H as <- ->. apply IHm in E'. destruct E' as [L' E'].
      cbn [String.length]. split; [lia|].
      destruct (S (String.length r0) - String.length rest) as [|n] eqn:En; [lia|].
      cbn [json.scan_members]. rewrite Eq, Ek, Es1, Ecol.
      rewrite (scan_value_mono _ n _ _ _ E) by lia.
      rewrite Es3, Ec.
      rewrite (scan_members_mono _ n _ _ _ E') by lia. reflexivity.
    + destruct (c =? "}")%char eqn:Ec'; [|discriminate].
      injection H as <- ->. cbn [String.length]. split; [lia|].
      destruct (S (String.length r0) - String.length rest) as [|n] eqn:En; [lia|].
      cbn [json.scan_members]. rewrite Eq, Ek, Es1, Ecol.
      rewrite (scan_value_mono _ n _ _ _ E) by lia.
      rewrite Es3, Ec, Ec'. reflexivity.
Qed.

(** Fuel as long as the text is as good as any fuel. *)
Lemma scan_value_length_fuel f d s r :
  json.scan_value f d s = Some r ->
  forall f', String.length s <= f' -> json.scan_value f' d s = Some r.
Proof.
  destruct r as [a rest]. intros H f' Hle.
  destruct (proj1 (scan_consumed f) d s a rest H) as [L E].
  eapply scan_value_mono; [exact E|lia].
Qed.

Lemma scan_members_length_fuel f d s r :
  json.scan_members f d s = Some r ->
  forall f', String.length s <= f' -> json.scan_members f' d s = Some r.
Proof.
  destruct r as [a rest]. intros H f' Hle.
  destruct (proj2 (proj2 (scan_consumed f)) d s a rest H) as [L E].
  eapply scan_members_mono; [exact E|lia].
Qed.

(** ** Decoding the verify request *)

Lemma scan_null_raw f d s rest :
  json.scan_value f d s = Some (json.ANull, rest) ->
  take (String.length s - String.length rest) s = "null".
Proof.
  destruct f as [|f]; [discriminate|]. cbn [json.scan_value].
  destruct s as [|c s0]; [discriminate|].
  destruct (c =? "{")%char.
  { destruct (N.ltb d json.maxNestingDepth); [|discriminate].
    destruct (json.skip_space s0) as [|c' r']; [discriminate|].
    destruct (c' =? "}")%char; [discriminate|].
    destruct (json.scan_members f (d + 1) (String c' r')) as [[ms rest']|]; discriminate. }
  destruct (c =? "[")%char.
  { destruct (N.ltb d json.maxNestingDepth); [|discriminate].
    destruct (json.skip_space s0) as [|c' r']; [discriminate|].
    destruct (c' =? "]")%char; [discriminate|].
    destruct (json.scan_elems f (d + 1) (String c' r')) as [[ms rest']|]; discriminate. }
  destruct (c =? dquote)%char.
  { destruct (json.scan_string (String.length s0) s0) as [[str rest']|]; discriminate. }
  destruct ((c =? "-")%char || is_digit c).
  { destruct (json.scan_number (String c s0)) as [[lit rest']|]; discriminate. }
  unfold json.scan_literal.
  destruct (c =? "t")%char.
  { destruct (json.strip_prefix "true" (String c s0)); discriminate. }
  destruct (c =? "f")%char.
  { destruct (json.strip_prefix "false" (String c s0)); discriminate. }
  destruct (c =? "n")%char; [|discriminate].
  destruct (json.strip_prefix "null" (String c s0)) eqn:E; [|discriminate].
  intros [= ->]. apply strip_prefix_app in E. rewrite E.
  replace (String.length ("null" ++ rest) - String.length rest) with (String.length "null").
  - apply take_app.
  - rewrite length_append. lia.
Qed.

Lemma store_field_ok req k raw a :
  field_type_ok (k, a) = true ->
  exists req', store_field req k raw a = Ok req'
    /\ forall p, (forall x, p = Some x -> Payload req = x) ->
         forall x, (if is_payload_field k then
                      match a with json.ANull => Some "null" | _ => None end
                    else p) = Some x ->
                   raw = "null" \/ a <> json.ANull ->
                   Payload req' = x.
Proof.
  unfold field_type_ok, store_field. cbn [fst snd].
  destruct (is_payload_field k).
  - intros _. eexists. split; [reflexivity|]. cbn.
    intros p Hp x Hx [Hr|Hr]; destruct a; try discriminate; try congruence.
  - destruct (is_signature_field k).
    + destruct a; try discriminate; intros _; eexists; (split; [reflexivity|]); cbn; auto.
    + intros _. eexists. split; [reflexivity|]. auto.
Qed.

Lemma decode_members_scan f : forall s ms rest,
  json.scan_members f 1 s = Some (ms, rest) ->
  forallb field_type_ok ms = true ->
  forall f' req p,
    String.length s <= f' ->
    (forall x, p = Some x -> Payload req = x) ->
    exists req', decode_members f' s req = Ok req'
      /\ forall x, expected_payload ms p = Some x -> Payload req' = x.
Proof.
  induction f as [|f IH]; intros s ms rest H Hty f' req p Hf Hp; [discriminate|].
  cbn [json.scan_members] in H.
  destruct s as [|q r0]; [discriminate|].
  destruct f' as [|f']; [cbn in Hf; lia|].
  cbn [decode_members].
  destruct (q =? dquote)%char; [|discriminate].
  destruct (json.scan_string (String.length r0) r0) as [[k r1]|] eqn:Ek; [|discriminate].
  pose proof (scan_string_length _ _ _ _ Ek) as Lk.
  pose proof (skip_space_length r1) as Hsp1.
  destruct (json.skip_space r1) as [|col r2] eqn:Es1; [discriminate|].
  destruct (col =? ":")%char; [|discriminate].
  pose proof (skip_space_length r2) as Hsp2.
  destruct (json.scan_value f 1 (json.skip_space r2)) as [[v r3]|] eqn:E; [|discriminate].
  destruct (proj1 (scan_consumed f) _ _ _ _ E) as [L3 _].
  rewrite (scan_value_length_fuel _ _ _ _ E (S (String.length (json.skip_space r2))))
    by lia.
  pose proof (skip_space_length r3) as Hsp3.
  destruct (json.skip_space r3) as [|c r4] eqn:Es3; [discriminate|].
  cbn [String.length] in *.
  assert (Hraw : take (String.length (json.skip_space r2) - String.length r3)
                   (json.skip_space r2) = "null" \/ v <> json.ANull).
  { destruct v; try (right; discriminate). left. eapply scan_null_raw; eauto. }
  destruct (c =? ",")%char.
  - destruct (json.scan_members f 1 (json.skip_space r4)) as [[ms' rest']|] eqn:E';
      [|discriminate].
    injection H as <- <-. cbn [forallb] in Hty. apply andb_prop in Hty.
    destruct Hty as [Hty1 Hty2].
    destruct (store_field_ok req k
                (take (String.length (json.skip_space r2) - String.length r3)
                   (json.skip_space r2)) v Hty1) as [req1 [-> Hreq1]].
    pose proof (skip_space_length r4) as Hsp4.
    cbn [expected_payload].
    eapply (IH _ _ _ E' Hty2 f' req1); [lia|].
    intros x Hx. eapply Hreq1; eauto.
  - destruct (c =? "}")%char; [|discriminate].
    injection H as <- <-. cbn [forallb] in Hty. apply andb_prop in Hty.
    destruct Hty as [Hty1 _].
    destruct (store_field_ok req k
                (take (String.length (json.skip_space r2) - String.length r3)
                   (json.skip_space r2)) v Hty1) as [req1 [-> Hreq1]].
    eexists. split; [reflexivity|].
    cbn [expected_payload]. intros x Hx. eapply Hreq1; eauto.
Qed.

Lemma scan_object_shape f d s ms rest :
  json.scan_value f d s = Some (json.AObj ms, rest) ->
  exists f0 r0, f = S f0 /\ s = String "{" r0
    /\ match json.skip_space r0 with
       | String c' r' =>
         if (c' =? "}")%char then ms = [] /\ rest = r'
         else json.scan_members f0 (d + 1) (String c' r') = Some (ms, rest)
       | EmptyString => False
       end.
Proof.
  destruct f as [|f]; [discriminate|]. cbn [json.scan_value].
  destruct s as [|c s0]; [discriminate|].
  destruct (c =? "{")%char eqn:Ec.
  { apply Ascii.eqb_eq in Ec. subst c.
    destruct (N.ltb d json.maxNestingDepth); [|discriminate].
    intros H. exists f, s0. split; [reflexivity|]. split; [reflexivity|].
    destruct (json.skip_space s0) as [|c' r']; [discriminate|].
    destruct (c' =? "}")%char.
    - injection H as <- <-. auto.
    - destruct (json.scan_members f (d + 1) (String c' r')) as [[ms' rest']|];
        [|discriminate].
      now injection H as <- <-. }
  destruct (c =? "[")%char.
  { destruct (N.ltb d json.maxNestingDepth); [|discriminate].
    destruct (json.skip_space s0) as [|c' r']; [discriminate|].
    destruct (c' =? "]")%char; [discriminate|].
    destruct (json.scan_elems f (d + 1) (String c' r')) as [[ms' rest']|]; discriminate. }
  destruct (c =? dquote)%char.
  { destruct (json.scan_string (String.length s0) s0) as [[str rest']|]; discriminate. }
  destruct ((c =? "-")%char || is_digit c).
  { destruct (json.scan_number (String c s0)) as [[lit rest']|]; discriminate. }
  unfold json.scan_literal.
  destruct (c =? "t")%char.
  { destruct (json.strip_prefix "true" (String c s0)); discriminate. }
  destruct (c =? "f")%char.
  { destruct (json.strip_prefix "false" (String c s0)); discriminate. }
  destruct (c =? "n")%char; [|discriminate].
  destruct (json.strip_prefix "null" (String c s0)); discriminate.
Qed.

(** The request struct after decoding a body that is one JSON object. *)
Lemma decode_request_object r ms :
  json.scan_text (Body r) = Some (json.AObj ms) ->
  forallb field_type_ok ms = true ->
  exists req, decode_request r = Ok req
    /\ forall x, expected_payload ms (Some EmptyString) = Some x -> Payload req = x.
Proof.
  unfold json.scan_text, decode_request. intros H Hty.
  destruct (json.scan_value _ 0 (json.skip_space (Body r))) as [[a rest]|] eqn:E;
    [|discriminate].
  destruct (json.skip_space rest); [|discriminate].
  injection H as ->.
  pose proof (skip_space_length (Body r)) as Hsp.
  apply scan_object_shape in E.
  destruct E as [f0 [r0 [Hf [Hs E]]]]. rewrite Hs in *.
  rewrite Ascii.eqb_refl.
  pose proof (skip_space_length r0) as Hsp0.
  destruct (json.skip_space r0) as [|c' r'] eqn:Es; [contradiction|].
  destruct (c' =? "}")%char.
  - destruct E as [-> _]. exists zero_request. split; [reflexivity|].
    cbn. now intros x [= <-].
  - eapply decode_members_scan; eauto.
    now intros x [= <-].
Qed.

Lemma expected_payload_none ms p :
  forallb (fun e => negb (is_payload_field (fst e))) ms = true ->
  expected_payload ms p = p.
Proof.
  revert p.
  induction ms as [|[k a] ms IH]; cbn [forallb expected_payload fst]; intros p H;
    [reflexivity|].
  apply andb_prop in H. destruct H as [Hk H].
  destruct (is_payload_field k); [discriminate|]. auto.
Qed.

Lemma expected_payload_null ms1 k ms2 p :
  is_payload_field k = true ->
  forallb (fun e => negb (is_payload_field (fst e))) ms2 = true ->
  expected_payload (ms1 ++ (k, json.ANull) :: ms2) p = Some "null".
Proof.
  intros Hk H2. revert p.
  induction ms1 as [|[k1 a1] ms1 IH]; cbn [app expected_payload]; intros p.
  - rewrite Hk. now apply expected_payload_none.
  - apply IH.
Qed.

(** C9, as the code has it.  Take a POST /verify request whose body is
    one JSON object, none of whose members is a signature of another
    type than string or null.  When no member has the key payload (in
    any letter case), the raw payload is empty, parsing it again fails
    and the answer is status 400 with "Payload inválido"; the service is
    not called.  When the last member with the key payload (in any
    letter case) is null, that is when a payload member is null and no
    member after it has the key payload, the raw payload is the text
    null, it is accepted and its canonical bytes are null: these are the
    data given to MacVerify once the signature decodes. *)
Theorem missing_payload_field kms name r ms :
  Method r = MethodPost ->
  json.scan_text (Body r) = Some (json.AObj ms) ->
  forallb field_type_ok ms = true ->
  (forallb (fun e => negb (is_payload_field (fst e))) ms = true ->
   verifyHandler kms name r
     = (response StatusBadRequest (error_body "Payload inválido"), [EvReadBody]))
  /\ (forall ms1 k ms2,
        ms = (ms1 ++ (k, json.ANull) :: ms2)%list ->
        is_payload_field k = true ->
        forallb (fun e => negb (is_payload_field (fst e))) ms2 = true ->
        exists req,
          decode_request r = Ok req
          /\ Payload req = "null"
          /\ canonicalize (Payload req) = Ok "null"
          /\ forall mac, base64.DecodeString (Signature req) = Ok mac ->
               snd (verifyHandler kms name r) = [EvReadBody; EvMacVerify name "null" mac]).
Proof.
  intros Hm Hs Hty.
  destruct (decode_request_object r ms Hs Hty) as [req [Hd Hp]].
  split.
  - intros Hno. rewrite verifyHandler_eq, Hm, Hd, String.eqb_refl. cbn [negb].
    rewrite (Hp EmptyString) by now apply expected_payload_none.
    reflexivity.
  - intros ms1 k ms2 -> Hk Hno. exists req.
    assert (E : Payload req = "null") by (apply Hp; now apply expected_payload_null).
    split; [exact Hd|]. split; [exact E|]. split; [now rewrite E|].
    intros mac Hb.
    rewrite verifyHandler_eq, Hm, Hd, String.eqb_refl, E. cbn [negb].
    change (json.Unmarshal "null") with (Ok json.VNil).
    rewrite Hb. change (json.encode json.VNil) with "null".
    destruct (MacVerify kms name "null" mac); reflexivity.
Qed.

Lemma missing_payload_field_witness :
  verifyHandler toy_kms toy_name (post (js "{'signature':'AAAA','other':[1,2]}"))
  = (response 400 (error_body "Payload inválido"), [EvReadBody])
  /\ exists req,
       decode_request (post (js "{'payload':{'a':1},'PAYLOAD':null,'signature':'AAAA'}"))
       = Ok req
       /\ Payload req = "null"
       /\ canonicalize (Payload req) = Ok "null"
       /\ forall mac, base64.DecodeString (Signature req) = Ok mac ->
            snd (verifyHandler toy_kms toy_name
                   (post (js "{'payload':{'a':1},'PAYLOAD':null,'signature':'AAAA'}")))
            = [EvReadBody; EvMacVerify toy_name "null" mac].
Proof.
  split.
  - refine (proj1 (missing_payload_field toy_kms toy_name
                     (post (js "{'signature':'AAAA','other':[1,2]}"))
                     [("signature", json.AStr "AAAA");
                      ("other", json.AArr [json.ANum "1"; json.ANum "2"])] _ _ _) _);
      vm_compute; reflexivity.
  - refine (proj2 (missing_payload_field toy_kms toy_name
                     (post (js "{'payload':{'a':1},'PAYLOAD':null,'signature':'AAAA'}"))
                     [("payload", json.AObj [("a", json.ANum "1")]);
                      ("PAYLOAD", json.ANull);
                      ("signature", json.AStr "AAAA")] _ _ _)
                  [("payload", json.AObj [("a", json.ANum "1")])] "PAYLOAD"
                  [("signature", json.AStr "AAAA")] _ _ _);
      vm_compute; reflexivity.
Defined.

(** C9 as it is stated fails for an object without payload whose
    signature is not a string: [Decode] reports the type error, and the
    answer is "JSON inválido", before the payload is parsed again.  And
    a payload member equal to null is not what counts when a later
    member has the key payload too: the later member replaces it, here
    with a number that is no float64, and the answer is "Payload
    inválido". *)
Lemma missing_payload_field_counterexample :
  Method (post (js "{'signature':5}")) = MethodPost
  /\ json.scan_text (Body (post (js "{'signature':5}")))
     = Some (json.AObj [("signature", json.ANum "5")])
  /\ is_payload_field "signature" = false
  /\ verifyHandler toy_kms toy_name (post (js "{'signature':5}"))
     = (response 400 (error_body "JSON inválido"), [EvReadBody])
  /\ verifyHandler toy_kms toy_name (post (js "{'signature':5}"))
     <> (response 400 (error_body "Payload inválido"), [EvReadBody])
  /\ json.scan_text (Body (post (js "{'payload':null,'payload':1e999,'signature':'AAAA'}")))
     = Some (json.AObj [("payload", json.ANull); ("payload", json.ANum "1e999");
                        ("signature", json.AStr "AAAA")])
  /\ verifyHandler toy_kms toy_name
       (post (js "{'payload':null,'payload':1e999,'signature':'AAAA'}"))
     = (response 400 (error_body "Payload inválido"), [EvReadBody]).
Proof.
  repeat split; try (vm_compute; reflexivity).
  vm_compute. discriminate.
Qed.

(** The null payload of C9 on an example. *)
Example null_payload_accepted :
  verifyHandler toy_kms toy_name (post (js "{'payload':null,'signature':'AAAA'}"))
  = (response 200 (json.VMap [("valid", json.VBool false)]),
     [EvReadBody; EvMacVerify toy_name "null" (String zero (String zero (String zero "")))]).
Proof. vm_compute. reflexivity. Qed.

(** ** Bits as arithmetic *)

Local Open Scope N_scope.

Lemma land_disjoint x y k : y < 2 ^ k -> N.land (x * 2 ^ k) y = 0.
Proof.
  intros Hy. apply N.bits_inj. intros n.
  rewrite N.land_spec, N.bits_0.
  destruct (N.lt_ge_cases n k) as [Hn|Hn].
  - rewrite N.mul_pow2_bits_low by exact Hn. reflexivity.
  - destruct (N.eq_dec y 0) as [->|Hy0].
    + rewrite N.bits_0. apply andb_false_r.
    + rewrite (N.bits_above_log2 y n), andb_false_r; [reflexivity|].
      apply N.lt_le_trans with k; [|exact Hn].
      apply N.log2_lt_pow2; lia.
Qed.

Lemma lor_add x y k : x mod 2 ^ k = 0 -> y < 2 ^ k -> N.lor x y = x + y.
Proof.
  intros Hx Hy.
  assert (E : x = x / 2 ^ k * 2 ^ k).
  { pose proof (N.div_mod x (2 ^ k)) as D.
    assert (2 ^ k <> 0) by (apply N.pow_nonzero; lia). lia. }
  generalize dependent (x / 2 ^ k). intros q ->. clear Hx.
  rewrite <- N.lxor_lor by (now apply land_disjoint).
  symmetry. apply N.add_nocarry_lxor. now apply land_disjoint.
Qed.

Lemma land_63 a : N.land a 63 = a mod 64.
Proof. change 63 with (N.ones 6). apply N.land_ones. Qed.

Lemma land_255 a : N.land a 255 = a mod 256.
Proof. change 255 with (N.ones 8). apply N.land_ones. Qed.

Ltac euclid := zify; Z.to_euclidean_division_equations; lia.

Lemma code_lt c : code c < 256.
Proof. apply N_ascii_bounded. Qed.

Lemma chr_code c : chr (code c) = c.
Proof. apply ascii_N_embedding. Qed.

Lemma code_chr n : n < 256 -> code (chr n) = n.
Proof. apply N_ascii_embedding. Qed.

(** Quantification over the numbers below a bound, by enumeration. *)
Lemma N_forall_below (P : N -> bool) (n : nat) :
  forallb P (List.map N.of_nat (seq 0 n)) = true ->
  forall v, v < N.of_nat n -> P v = true.
Proof.
  intros H v Hv. rewrite forallb_forall in H. apply H.
  apply in_map_iff. exists (N.to_nat v). split; [apply N2Nat.id|].
  apply in_seq. lia.
Qed.

(** ** base64: decoding what was encoded *)

Lemma base64_char_ok v :
  v < 64 ->
  base64.decodeMap (base64.encode_char v) = Some v
  /\ base64.next_byte (String (base64.encode_char v) "")
     = Some (base64.encode_char v, EmptyString).
Proof.
  intros Hv.
  pose (P := fun v =>
    match base64.decodeMap (base64.encode_char v) with
    | Some w => N.eqb w v
    | None => false
    end
    && match base64.next_byte (String (base64.encode_char v) "") with
       | Some (c, EmptyString) => Ascii.eqb c (base64.encode_char v)
       | _ => false
       end).
  assert (H : P v = true).
  { apply (N_forall_below P 64); [vm_compute; reflexivity|exact Hv]. }
  unfold P in H. apply andb_prop in H. destruct H as [H1 H2].
  split.
  - destruct (base64.decodeMap (base64.encode_char v)); [|discriminate].
    apply N.eqb_eq in H1. now subst.
  - destruct (base64.next_byte _) as [[c [|]]|]; try discriminate.
    apply Ascii.eqb_eq in H2. now subst.
Qed.

Lemma next_byte_char v r :
  v < 64 ->
  base64.next_byte (String (base64.encode_char v) r) = Some (base64.encode_char v, r).
Proof.
  intros Hv. destruct (base64_char_ok v Hv) as [_ H].
  cbn [base64.next_byte] in *.
  destruct ((base64.encode_char v =? "010")%char || (base64.encode_char v =? "013")%char);
    [discriminate|reflexivity].
Qed.

Lemma sextet_ok val shift r :
  base64.next_byte (String (base64.sextet val shift) r) = Some (base64.sextet val shift, r)
  /\ base64.decodeMap (base64.sextet val shift) = Some (N.shiftr val shift mod 64).
Proof.
  unfold base64.sextet. rewrite land_63.
  assert (H : N.shiftr val shift mod 64 < 64) by (apply N.mod_lt; lia).
  split; [now apply next_byte_char | now apply base64_char_ok].
Qed.

Lemma join3 a b c :
  a < 256 -> b < 256 -> c < 256 ->
  N.lor (N.lor (N.shiftl a 16) (N.shiftl b 8)) c = a * 65536 + b * 256 + c.
Proof.
  intros Ha Hb Hc. rewrite !N.shiftl_mul_pow2.
  change (2 ^ 16) with 65536. change (2 ^ 8) with 256.
  rewrite (lor_add (a * 65536) _ 16); [| change (2 ^ 16) with 65536; euclid
                                        | change (2 ^ 16) with 65536; lia].
  rewrite (lor_add _ c 8); [reflexivity | change (2 ^ 8) with 256; euclid
                                        | change (2 ^ 8) with 256; lia].
Qed.

Lemma join4 v0 v1 v2 v3 :
  v0 < 64 -> v1 < 64 -> v2 < 64 -> v3 < 64 ->
  N.lor (N.lor (N.lor (N.shiftl v0 18) (N.shiftl v1 12)) (N.shiftl v2 6)) v3
  = ((v0 * 64 + v1) * 64 + v2) * 64 + v3.
Proof.
  intros H0 H1 H2 H3. rewrite !N.shiftl_mul_pow2.
  change (2 ^ 18) with 262144. change (2 ^ 12) with 4096. change (2 ^ 6) with 64.
  rewrite (lor_add (v0 * 262144) _ 18); [| change (2 ^ 18) with 262144; euclid
                                          | change (2 ^ 18) with 262144; lia].
  rewrite (lor_add _ (v2 * 64) 12); [| change (2 ^ 12) with 4096; euclid
                                      | change (2 ^ 12) with 4096; lia].
  rewrite (lor_add _ v3 6); [lia | change (2 ^ 6) with 64; euclid
                                  | change (2 ^ 6) with 64; lia].
Qed.

Lemma out_byte_eq val shift :
  base64.out_byte val shift = chr (N.shiftr val shift mod 256).
Proof. unfold base64.out_byte. now rewrite land_255. Qed.

Lemma sextets_join val :
  val < 16777216 ->
  (((val / 262144) mod 64 * 64 + (val / 4096) mod 64) * 64 + (val / 64) mod 64) * 64
  + val mod 64 = val.
Proof. intros H. euclid. Qed.

Lemma bytes_split a b c :
  a < 256 -> b < 256 -> c < 256 ->
  ((a * 65536 + b * 256 + c) / 65536) mod 256 = a
  /\ ((a * 65536 + b * 256 + c) / 256) mod 256 = b
  /\ (a * 65536 + b * 256 + c) mod 256 = c.
Proof. intros Ha Hb Hc. euclid. Qed.

Lemma quantum_value a b c :
  a < 256 -> b < 256 -> c < 256 ->
  let val := a * 65536 + b * 256 + c in
  N.lor (N.lor (N.lor (N.shiftl (N.shiftr val 18 mod 64) 18)
                      (N.shiftl (N.shiftr val 12 mod 64) 12))
               (N.shiftl (N.shiftr val 6 mod 64) 6))
        (N.shiftr val 0 mod 64) = val.
Proof.
  intros Ha Hb Hc val.
  rewrite join4 by (apply N.mod_lt; lia).
  rewrite N.shiftr_0_r, !N.shiftr_div_pow2.
  change (2 ^ 18) with 262144. change (2 ^ 12) with 4096. change (2 ^ 6) with 64.
  apply sextets_join. subst val. lia.
Qed.

Lemma out_bytes a b c :
  a < 256 -> b < 256 -> c < 256 ->
  let val := a * 65536 + b * 256 + c in
  base64.out_byte val 16 = chr a /\ base64.out_byte val 8 = chr b
  /\ base64.out_byte val 0 = chr c.
Proof.
  intros Ha Hb Hc val. rewrite !out_byte_eq, N.shiftr_0_r, !N.shiftr_div_pow2.
  change (2 ^ 16) with 65536. change (2 ^ 8) with 256.
  destruct (bytes_split a b c Ha Hb Hc) as [E1 [E2 E3]].
  subst val. now rewrite E1, E2, E3.
Qed.

Lemma string_ind3 (P : string -> Prop) :
  P EmptyString ->
  (forall a, P (String a EmptyString)) ->
  (forall a b, P (String a (String b EmptyString))) ->
  (forall a b c r, P r -> P (String a (String b (String c r)))) ->
  forall s, P s.
Proof.
  intros H0 H1 H2 H3. fix IH 1.
  intros [|a [|b [|c r]]]; [exact H0|apply H1|apply H2|apply H3, IH].
Qed.

Lemma decode_encode m : forall f,
  (String.length m < f)%nat -> base64.decode f (base64.EncodeToString m) = Ok m.
Proof.
  induction m as [|a|a b|a b c r IH] using string_ind3; intros [|f] Hf;
    try (cbn in Hf; lia).
  - reflexivity.
  - (* one byte left *)
    cbn [base64.EncodeToString base64.decode].
    pose proof (code_lt a) as Ha.
    replace (N.shiftl (code a) 16) with (code a * 65536 + 0 * 256 + 0)
      by (rewrite N.shiftl_mul_pow2; change (2 ^ 16) with 65536; lia).
    set (val := code a * 65536 + 0 * 256 + 0).
    rewrite (proj1 (sextet_ok val 18 _)), (proj2 (sextet_ok val 18 EmptyString)).
    rewrite (proj1 (sextet_ok val 12 _)), (proj2 (sextet_ok val 12 EmptyString)).
    cbn [base64.next_byte base64.decodeMap base64.padChar Ascii.eqb Bool.eqb orb andb].
    change (base64.decodeMap "=") with (@None N).
    assert (E : N.lor (N.shiftl (N.shiftr val 18 mod 64) 18)
                      (N.shiftl (N.shiftr val 12 mod 64) 12) = val).
    { pose proof (quantum_value (code a) 0 0 Ha eq_refl eq_refl) as Q.
      fold val in Q. cbv zeta in Q. rewrite <- Q at 3.
      replace (N.shiftr val 6 mod 64) with 0.
      - replace (N.shiftr val 0 mod 64) with 0.
        + now rewrite N.shiftl_0_l, !N.lor_0_r.
        + rewrite N.shiftr_0_r. subst val. euclid.
      - rewrite N.shiftr_div_pow2. change (2 ^ 6) with 64. subst val. euclid. }
    rewrite E.
    destruct (out_bytes (code a) 0 0 Ha eq_refl eq_refl) as [O1 _].
    fold val in O1. rewrite O1, chr_code. reflexivity.
  - (* two bytes left *)
    cbn [base64.EncodeToString base64.decode].
    pose proof (code_lt a) as Ha. pose proof (code_lt b) as Hb.
    replace (N.lor (N.shiftl (code a) 16) (N.shiftl (code b) 8))
      with (code a * 65536 + code b * 256 + 0)
      by (rewrite <- (join3 (code a) (code b) 0) by (auto; lia); now rewrite N.lor_0_r).
    set (val := code a * 65536 + code b * 256 + 0).
    rewrite (proj1 (sextet_ok val 18 _)), (proj2 (sextet_ok val 18 EmptyString)).
    rewrite (proj1 (sextet_ok val 12 _)), (proj2 (sextet_ok val 12 EmptyString)).
    rewrite (proj1 (sextet_ok val 6 _)), (proj2 (sextet_ok val 6 EmptyString)).
    cbn [base64.next_byte base64.decodeMap base64.padChar Ascii.eqb Bool.eqb orb andb].
    change (base64.decodeMap "=") with (@None N).
    assert (E : N.lor (N.lor (N.shiftl (N.shiftr val 18 mod 64) 18)
                             (N.shiftl (N.shiftr val 12 mod 64) 12))
                      (N.shiftl (N.shiftr val 6 mod 64) 6) = val).
    { pose proof (quantum_value (code a) (code b) 0 Ha Hb eq_refl) as Q.
      fold val in Q. cbv zeta in Q. rewrite <- Q at 4.
      replace (N.shiftr val 0 mod 64) with 0.
      - now rewrite N.lor_0_r.
      - rewrite N.shiftr_0_r. subst val. euclid. }
    rewrite E.
    destruct (out_bytes (code a) (code b) 0 Ha Hb eq_refl) as [O1 [O2 _]].
    fold val in O1, O2. rewrite O1, O2, !chr_code. reflexivity.
  - (* a full quantum *)
    cbn [base64.EncodeToString base64.decode].
    pose proof (code_lt a) as Ha. pose proof (code_lt b) as Hb.
    pose proof (code_lt c) as Hc.
    rewrite (join3 (code a) (code b) (code c) Ha Hb Hc).
    set (val := code a * 65536 + code b * 256 + code c).
    rewrite (proj1 (sextet_ok val 18 _)), (proj2 (sextet_ok val 18 EmptyString)).
    rewrite (proj1 (sextet_ok val 12 _)), (proj2 (sextet_ok val 12 EmptyString)).
    rewrite (proj1 (sextet_ok val 6 _)), (proj2 (sextet_ok val 6 EmptyString)).
    rewrite (proj1 (sextet_ok val 0 _)), (proj2 (sextet_ok val 0 EmptyString)).
    pose proof (quantum_value (code a) (code b) (code c) Ha Hb Hc) as Q.
    fold val in Q. cbv zeta in Q. rewrite Q.
    rewrite IH by (cbn in Hf; lia).
    destruct (out_bytes (code a) (code b) (code c) Ha Hb Hc) as [O1 [O2 O3]].
    fold val in O1, O2, O3. rewrite O1, O2, O3, !chr_code. reflexivity.
Qed.

Lemma length_EncodeToString m :
  (String.length m <= String.length (base64.EncodeToString m))%nat.
Proof.
  induction m as [|a|a b|a b c r IH] using string_ind3; cbn [base64.EncodeToString String.length];
    lia.
Qed.

(** What [EncodeToString] wrote, [DecodeString] reads back. *)
Lemma DecodeString_EncodeToString m :
  base64.DecodeString (base64.EncodeToString m) = Ok m.
Proof.
  unfold base64.DecodeString. apply decode_encode.
  pose proof (length_EncodeToString m). lia.
Qed.

Local Close Scope N_scope.

(** ** Tamper detection *)

Lemma append_inj_l (s a b : string) : s ++ a = s ++ b -> a = b.
Proof. induction s as [|c s IH]; cbn; [auto|]. intros [= H]. auto. Qed.

(** [toy_kms] reports false on any other data than the signed ones and
    true on the signed ones. *)
Lemma toy_kms_rejects_other_data name data data' mac :
  MacSign toy_kms name data = Ok mac -> data' <> data ->
  MacVerify toy_kms name data' mac = Ok false.
Proof.
  cbn. intros [= <-] Hne. f_equal. apply String.eqb_neq.
  unfold toy_mac. intros H. apply append_inj_l in H. injection H as H. congruence.
Qed.

Lemma toy_kms_accepts_signed_data name data mac :
  MacSign toy_kms name data = Ok mac -> MacVerify toy_kms name data mac = Ok true.
Proof. cbn. intros [= <-]. now rewrite String.eqb_refl. Qed.

(** C3. Let the service report false on any data other than the signed
    ones.  Take an envelope produced by signHandler (canonical payload
    [data], signature the base64 of the MAC) and a verify request that
    carries this signature with a payload whose canonical bytes [data']
    differ from [data].  Then verifyHandler answers status 200 with
    {"valid":false}, not an error. *)
Theorem tamper_detection kms name now r m mac r' req' data' :
  (forall d d' mc, MacSign kms name d = Ok mc -> d' <> d ->
                   MacVerify kms name d' mc = Ok false) ->
  Method r = MethodPost -> BodyFails r = false ->
  json.Unmarshal_map (Body r) = Ok (Some m) ->
  let m' := json.map_set m "timestamp" (json.VString (time.RFC3339Nano now)) in
  let data := json.encode (json.VMap m') in
  MacSign kms name data = Ok mac ->
  Method r' = MethodPost ->
  decode_request r' = Ok req' ->
  Signature req' = base64.EncodeToString mac ->
  canonicalize (Payload req') = Ok data' ->
  data' <> data ->
  fst (signHandler kms name now r)
    = response StatusOK
        (json.VMap [("payload", json.VMap m');
                    ("signature", json.VString (base64.EncodeToString mac))])
  /\ verifyHandler kms name r'
     = (response StatusOK (json.VMap [("valid", json.VBool false)]),
        [EvReadBody; EvMacVerify name data' mac]).
Proof.
  intros Hkms Hm Hf Hu m' data Hs Hm' Hd Hsig Hc Hne.
  split.
  - rewrite signHandler_eq, Hm, Hf, Hu, String.eqb_refl. cbn [negb]. cbv zeta.
    fold m'. fold data. rewrite Hs. reflexivity.
  - rewrite verifyHandler_eq, Hm', Hd, String.eqb_refl. cbn [negb].
    unfold canonicalize, json.Marshal in Hc.
    destruct (json.Unmarshal (Payload req')) as [obj|]; [|discriminate].
    injection Hc as Hc. rewrite Hsig, DecodeString_EncodeToString, Hc.
    rewrite (Hkms _ _ _ Hs Hne). reflexivity.
Qed.

Lemma tamper_detection_witness :
  verifyHandler toy_kms toy_name
    (post (js "{'payload':{'timestamp':'2024-01-02T15:04:05.123456Z','x':2},'signature':'"
           ++ base64.EncodeToString
                (toy_mac toy_name (js "{'timestamp':'2024-01-02T15:04:05.123456Z','x':1}"))
           ++ js "'}"))
  = (response 200 (json.VMap [("valid", json.VBool false)]),
     [EvReadBody;
      EvMacVerify toy_name (js "{'timestamp':'2024-01-02T15:04:05.123456Z','x':2}")
        (toy_mac toy_name (js "{'timestamp':'2024-01-02T15:04:05.123456Z','x':1}"))]).
Proof.
  refine (proj2 (tamper_detection toy_kms toy_name toy_now (post (js "{'x':1}"))
                   [("x", json.VFloat64 (strconv.Float false 4503599627370496 (-52)))]
                   (toy_mac toy_name (js "{'timestamp':'2024-01-02T15:04:05.123456Z','x':1}"))
                   _
                   {| Payload := js "{'timestamp':'2024-01-02T15:04:05.123456Z','x':2}";
                      Signature := base64.EncodeToString
                        (toy_mac toy_name
                           (js "{'timestamp':'2024-01-02T15:04:05.123456Z','x':1}")) |}
                   (js "{'timestamp':'2024-01-02T15:04:05.123456Z','x':2}")
                   (toy_kms_rejects_other_data toy_name) _ _ _ _ _ _ _ _ _));
    try (vm_compute; reflexivity).
  vm_compute. discriminate.
Defined.

(** ** UTF-8: decoding what was encoded *)

Local Open Scope N_scope.

Lemma land_ones_mod a k : N.land a (N.ones k) = a mod 2 ^ k.
Proof. apply N.land_ones. Qed.

Lemma continuation_byte x : N.lor 128 (N.land x 63) = 128 + x mod 64.
Proof.
  rewrite land_63. apply (lor_add 128 _ 7); [reflexivity|].
  change (2 ^ 7) with 128. assert (x mod 64 < 64) by (apply N.mod_lt; lia). lia.
Qed.

Lemma lead_byte base k y :
  base mod 2 ^ k = 0 -> y < 2 ^ k -> N.lor base y = base + y.
Proof. apply lor_add. Qed.

Ltac decide_cmp :=
  unfold utf8.MaxRune, utf8.RuneSelf, utf8.RuneError in *;
  repeat match goal with
  | |- context [(?a <? ?b)%N] =>
    let H := fresh in
    destruct (N.ltb_spec a b) as [H|H]; try (exfalso; euclid); cbv iota
  | |- context [(?a <=? ?b)%N] =>
    let H := fresh in
    destruct (N.leb_spec a b) as [H|H]; try (exfalso; euclid); cbv iota
  | |- context [(?a =? ?b)%N] =>
    let H := fresh in
    destruct (N.eqb_spec a b) as [H|H]; try (exfalso; euclid); cbv iota
  end.

Lemma decode_encode_2 r s :
  128 <= r <= 2047 ->
  utf8.EncodeRune r = String (chr (192 + r / 64)) (String (chr (128 + r mod 64)) "")
  /\ utf8.DecodeRune (utf8.EncodeRune r ++ s) = (r, 2%nat).
Proof.
  intros Hr.
  assert (E : utf8.EncodeRune r
              = String (chr (192 + r / 64)) (String (chr (128 + r mod 64)) "")).
  { unfold utf8.EncodeRune. decide_cmp.
    rewrite continuation_byte, N.shiftr_div_pow2. change (2 ^ 6) with 64.
    rewrite (lead_byte 192 6); [reflexivity|reflexivity|]. change (2 ^ 6) with 64. euclid. }
  split; [exact E|]. rewrite E. cbn [String.append]. unfold utf8.DecodeRune.
  rewrite !code_chr by euclid.
  unfold utf8.first. decide_cmp. cbn [negb andb orb].
  f_equal.
  change 31 with (N.ones 5). rewrite land_ones_mod, land_63, N.shiftl_mul_pow2.
  change (2 ^ 5) with 32. change (2 ^ 6) with 64.
  rewrite (lor_add _ _ 6); [| change (2 ^ 6) with 64; euclid | change (2 ^ 6) with 64; euclid].
  euclid.
Qed.

Lemma surrogate_false r : utf8.surrogate r = false <-> r < 55296 \/ 57343 < r.
Proof.
  unfold utf8.surrogate.
  destruct (N.leb_spec 55296 r); destruct (N.leb_spec r 57343); cbn; split; intros;
    try lia; try discriminate; reflexivity.
Qed.

Lemma join_lor3 x y z :
  y < 64 -> z < 64 ->
  N.lor (N.lor (N.shiftl x 12) (N.shiftl y 6)) z = x * 4096 + y * 64 + z.
Proof.
  intros Hy Hz. rewrite !N.shiftl_mul_pow2.
  change (2 ^ 12) with 4096. change (2 ^ 6) with 64.
  rewrite (lor_add (x * 4096) _ 12); [| change (2 ^ 12) with 4096; euclid
                                      | change (2 ^ 12) with 4096; lia].
  rewrite (lor_add _ z 6); [reflexivity | change (2 ^ 6) with 64; euclid
                                        | change (2 ^ 6) with 64; lia].
Qed.

Lemma join_lor4 w x y z :
  x < 64 -> y < 64 -> z < 64 ->
  N.lor (N.lor (N.lor (N.shiftl w 18) (N.shiftl x 12)) (N.shiftl y 6)) z
  = w * 262144 + x * 4096 + y * 64 + z.
Proof.
  intros Hx Hy Hz. rewrite !N.shiftl_mul_pow2.
  change (2 ^ 18) with 262144. change (2 ^ 12) with 4096. change (2 ^ 6) with 64.
  rewrite (lor_add (w * 262144) _ 18); [| change (2 ^ 18) with 262144; euclid
                                        | change (2 ^ 18) with 262144; lia].
  rewrite (lor_add _ (y * 64) 12); [| change (2 ^ 12) with 4096; euclid
                                     | change (2 ^ 12) with 4096; lia].
  rewrite (lor_add _ z 6); [reflexivity | change (2 ^ 6) with 64; euclid
                                        | change (2 ^ 6) with 64; lia].
Qed.

Lemma decode_encode_3 r s :
  2048 <= r <= 65535 -> utf8.surrogate r = false ->
  utf8.EncodeRune r
  = String (chr (224 + r / 4096))
      (String (chr (128 + (r / 64) mod 64)) (String (chr (128 + r mod 64)) ""))
  /\ utf8.DecodeRune (utf8.EncodeRune r ++ s) = (r, 3%nat).
Proof.
  intros Hr Hs.
  assert (E : utf8.EncodeRune r
              = String (chr (224 + r / 4096))
                  (String (chr (128 + (r / 64) mod 64))
                     (String (chr (128 + r mod 64)) ""))).
  { unfold utf8.EncodeRune. rewrite Hs. decide_cmp. cbn [orb]. unfold utf8.encode3.
    rewrite !continuation_byte, !N.shiftr_div_pow2.
    change (2 ^ 6) with 64. change (2 ^ 12) with 4096.
    rewrite (lead_byte 224 5); [reflexivity|reflexivity|]. change (2 ^ 5) with 32. euclid. }
  split; [exact E|]. rewrite E. cbn [String.append]. unfold utf8.DecodeRune.
  apply surrogate_false in Hs.
  rewrite !code_chr by euclid.
  unfold utf8.first, utf8.continuation. decide_cmp; cbn [negb andb orb];
    (f_equal;
     change 15 with (N.ones 4); rewrite land_ones_mod, !land_63;
     change (2 ^ 4) with 16;
     rewrite join_lor3 by (apply N.mod_lt; lia);
     euclid).
Qed.

Lemma decode_encode_4 r s :
  65536 <= r <= 1114111 ->
  utf8.EncodeRune r
  = String (chr (240 + r / 262144))
      (String (chr (128 + (r / 4096) mod 64))
         (String (chr (128 + (r / 64) mod 64)) (String (chr (128 + r mod 64)) "")))
  /\ utf8.DecodeRune (utf8.EncodeRune r ++ s) = (r, 4%nat).
Proof.
  intros Hr.
  assert (Hs : utf8.surrogate r = false) by (apply surrogate_false; lia).
  assert (E : utf8.EncodeRune r
              = String (chr (240 + r / 262144))
                  (String (chr (128 + (r / 4096) mod 64))
                     (String (chr (128 + (r / 64) mod 64))
                        (String (chr (128 + r mod 64)) "")))).
  { unfold utf8.EncodeRune. rewrite Hs. decide_cmp. cbn [orb].
    rewrite !continuation_byte, !N.shiftr_div_pow2.
    change (2 ^ 6) with 64. change (2 ^ 12) with 4096. change (2 ^ 18) with 262144.
    rewrite (lead_byte 240 4); [reflexivity|reflexivity|]. change (2 ^ 4) with 16. euclid. }
  split; [exact E|]. rewrite E. cbn [String.append]. unfold utf8.DecodeRune.
  rewrite !code_chr by euclid.
  unfold utf8.first, utf8.continuation. decide_cmp; cbn [negb andb orb];
    (f_equal;
     change 7 with (N.ones 3); rewrite land_ones_mod, !land_63;
     change (2 ^ 3) with 8;
     rewrite join_lor4 by (apply N.mod_lt; lia);
     euclid).
Qed.

(** The facts about an encoded rune the encoder and the scanner use. *)
Lemma EncodeRune_decode r s :
  scalar r = true ->
  exists c p n,
    utf8.EncodeRune r = String c p
    /\ 128 <= code c
    /\ n = String.length (utf8.EncodeRune r)
    /\ (2 <= n)%nat
    /\ utf8.DecodeRune (utf8.EncodeRune r ++ s) = (r, n).
Proof.
  unfold scalar. intros H.
  apply andb_prop in H. destruct H as [H Hs]. apply negb_true_iff in Hs.
  apply andb_prop in H. destruct H as [H1 H2].
  apply N.leb_le in H1, H2. unfold utf8.MaxRune in H2.
  destruct (N.le_gt_cases r 2047) as [L2|L2].
  { destruct (decode_encode_2 r s) as [E D]; [lia|].
    rewrite E in *. do 3 eexists. split; [reflexivity|].
    rewrite code_chr by euclid. repeat split; [euclid | cbn; lia | exact D]. }
  destruct (N.le_gt_cases r 65535) as [L3|L3].
  { destruct (decode_encode_3 r s) as [E D]; [lia|exact Hs|].
    rewrite E in *. do 3 eexists. split; [reflexivity|].
    rewrite code_chr by euclid. repeat split; [euclid | cbn; lia | exact D]. }
  destruct (decode_encode_4 r s) as [E D]; [lia|].
  rewrite E in *. do 3 eexists. split; [reflexivity|].
  rewrite code_chr by euclid. repeat split; [euclid | cbn; lia | exact D].
Qed.

Local Close Scope N_scope.

(** ** Strings: the scanner leaves valid UTF-8 *)

Lemma utf8_valid_app a b : utf8_valid a -> utf8_valid b -> utf8_valid (a ++ b).
Proof.
  induction 1 as [|c s Hc Hs IH|r s Hr Hs IH]; intros Hb; cbn.
  - exact Hb.
  - constructor; auto.
  - rewrite append_assoc. constructor; auto.
Qed.

Lemma RuneError_encoding : utf8.encode3 utf8.RuneError = utf8.EncodeRune utf8.RuneError.
Proof. reflexivity. Qed.

Lemma EncodeRune_valid r s : utf8_valid s -> utf8_valid (utf8.EncodeRune r ++ s).
Proof.
  intros Hs.
  destruct (scalar r) eqn:Sc; [now constructor|].
  unfold utf8.EncodeRune.
  destruct (N.leb_spec r 127) as [L1|L1].
  { cbn. constructor; [|exact Hs]. rewrite code_chr; lia. }
  assert (Bad : ((utf8.MaxRune <? r)%N || utf8.surrogate r) = true).
  { unfold scalar in Sc.
    destruct (N.leb_spec 128 r); [|lia].
    destruct (N.leb_spec r utf8.MaxRune) as [L|L]; cbn in Sc.
    - apply negb_false_iff in Sc. rewrite Sc. apply orb_true_r.
    - apply N.ltb_lt in L. now rewrite L. }
  destruct (N.leb_spec r 2047) as [L2|L2].
  { exfalso. apply orb_prop in Bad. destruct Bad as [B|B].
    - apply N.ltb_lt in B. unfold utf8.MaxRune in B. lia.
    - unfold utf8.surrogate in B. apply andb_prop in B. destruct B as [B _].
      apply N.leb_le in B. lia. }
  rewrite Bad, RuneError_encoding. now constructor.
Qed.

Lemma simple_escape_ascii e x : json.simple_escape e = Some x -> (code x < 128)%N.
Proof.
  unfold json.simple_escape.
  repeat match goal with
         | |- context [if ?b then _ else _] => destruct b
         end; intros [= <-]; try discriminate; vm_compute; reflexivity.
Qed.

Lemma scan_string_valid f : forall s str rest,
  json.scan_string f s = Some (str, rest) -> utf8_valid str.
Proof.
  induction f as [|f IH]; intros s str rest H; [discriminate|].
  cbn [json.scan_string] in H.
  destruct s as [|c r]; [discriminate|].
  destruct (c =? dquote)%char.
  { injection H as <- <-. constructor. }
  destruct (c =? backslash)%char.
  { destruct r as [|e r']; [discriminate|].
    destruct (json.simple_escape e) as [x|] eqn:Ex.
    { apply prepend_some in H. destruct H as [str' [H ->]].
      cbn. constructor; [eapply simple_escape_ascii; eauto|eauto]. }
    destruct (e =? "u")%char; [|discriminate].
    destruct (json.getu4 (String c (String e r'))) as [rr|]; [|discriminate].
    destruct (utf16.IsSurrogate rr).
    - destruct (json.getu4 (drop 6 (String c (String e r')))) as [rr1|].
      + destruct (utf16.DecodeRune rr rr1 =? utf8.RuneError)%N;
          apply prepend_some in H; destruct H as [str' [H ->]];
          apply EncodeRune_valid; eauto.
      + apply prepend_some in H. destruct H as [str' [H ->]].
        apply EncodeRune_valid; eauto.
    - apply prepend_some in H. destruct H as [str' [H ->]].
      apply EncodeRune_valid; eauto. }
  destruct (code c <? 32)%N; [discriminate|].
  destruct (code c <? utf8.RuneSelf)%N eqn:Ec.
  { apply prepend_some in H. destruct H as [str' [H ->]].
    cbn. constructor; [now apply N.ltb_lt in Ec|eauto]. }
  destruct (utf8.DecodeRune (String c r)) as [rr size].
  apply prepend_some in H. destruct H as [str' [H ->]].
  apply EncodeRune_valid; eauto.
Qed.

(** ** Strings: scanning what was encoded *)

Lemma scan_ascii_piece c : (code c < 128)%N ->
  forall f t,
    json.scan_string (S f)
      ((if json.htmlSafe c then String c EmptyString else json.escape_byte c) ++ t)
    = json.prepend (String c EmptyString) (json.scan_string f t).
Proof.
  destruct c as [b0 b1 b2 b3 b4 b5 b6 b7]. intros Hc f t.
  destruct b7.
  - exfalso. destruct b0, b1, b2, b3, b4, b5, b6; vm_compute in Hc; discriminate.
  - destruct b0, b1, b2, b3, b4, b5, b6; reflexivity.
Qed.

Lemma not_ascii_char c x : (128 <= code c)%N -> (code x < 128)%N -> (c =? x)%char = false.
Proof. intros Hc Hx. apply Ascii.eqb_neq. intros ->. lia. Qed.

Lemma scan_rune_piece r f t :
  scalar r = true ->
  json.scan_string (S f) (utf8.EncodeRune r ++ t)
  = json.prepend (utf8.EncodeRune r) (json.scan_string f t).
Proof.
  intros Hr.
  destruct (EncodeRune_decode r t Hr) as [c [p [n [E [Hc [Hn [H2 D]]]]]]].
  rewrite E in *. cbn [String.append json.scan_string].
  rewrite (not_ascii_char c dquote Hc) by (vm_compute; reflexivity).
  rewrite (not_ascii_char c backslash Hc) by (vm_compute; reflexivity).
  replace (code c <? 32)%N with false by (symmetry; apply N.ltb_ge; lia).
  replace (code c <? utf8.RuneSelf)%N with false
    by (symmetry; apply N.ltb_ge; unfold utf8.RuneSelf; lia).
  cbn [String.append] in D. rewrite D.
  change (String c (p ++ t)) with (String c p ++ t).
  rewrite Hn, drop_app, ?E. reflexivity.
Qed.

Lemma encode_rune_piece r fe s :
  scalar r = true ->
  json.encode_string_body (S fe) (utf8.EncodeRune r ++ s)
  = (if ((r =? 8232) || (r =? 8233))%N
     then String backslash "u202" ++ String (json.hex_digit (N.land r 15)) EmptyString
     else utf8.EncodeRune r)
    ++ json.encode_string_body fe s.
Proof.
  intros Hr.
  destruct (EncodeRune_decode r s Hr) as [c [p [n [E [Hc [Hn [H2 D]]]]]]].
  rewrite E in *. cbn [String.append json.encode_string_body].
  replace (code c <? utf8.RuneSelf)%N with false
    by (symmetry; apply N.ltb_ge; unfold utf8.RuneSelf; lia).
  cbn [String.append] in D. rewrite D.
  replace (Nat.eqb n 1) with false by (symmetry; apply Nat.eqb_neq; lia).
  rewrite andb_false_r.
  change (String c (p ++ s)) with (String c p ++ s).
  rewrite Hn, drop_app, take_app, ?E.
  destruct ((r =? 8232) || (r =? 8233))%N; reflexivity.
Qed.

Lemma scan_encoded_string s :
  utf8_valid s ->
  forall fe f rest,
    String.length s <= fe -> String.length s < f ->
    json.scan_string f (json.encode_string_body fe s ++ String dquote rest)
    = Some (s, rest).
Proof.
  induction 1 as [|c s Hc Hs IH|r s Hr Hs IH]; intros fe f rest Hfe Hf.
  - destruct f as [|f]; [cbn in Hf; lia|].
    destruct fe; reflexivity.
  - destruct f as [|f]; [lia|]. destruct fe as [|fe]; [cbn in Hfe; lia|].
    cbn [String.length] in Hfe, Hf.
    cbn [json.encode_string_body].
    replace (code c <? utf8.RuneSelf)%N with true by (symmetry; now apply N.ltb_lt).
    rewrite append_assoc, (scan_ascii_piece c Hc), IH by lia. reflexivity.
  - destruct (EncodeRune_decode r s Hr) as [c [p [n [E [Hc [Hn [H2 D]]]]]]].
    rewrite length_append in Hfe, Hf.
    destruct f as [|f]; [lia|]. destruct fe as [|fe]; [lia|].
    rewrite (encode_rune_piece r fe s Hr), append_assoc.
    destruct ((r =? 8232) || (r =? 8233))%N eqn:Eu.
    + assert (Er : r = 8232%N \/ r = 8233%N).
      { apply orb_prop in Eu. destruct Eu as [Eu|Eu]; apply N.eqb_eq in Eu; auto. }
      assert (Sc : json.scan_string (S f)
                     ((String backslash "u202"
                       ++ String (json.hex_digit (N.land r 15)) EmptyString)
                      ++ json.encode_string_body fe s ++ String dquote rest)
                   = json.prepend (utf8.EncodeRune r)
                       (json.scan_string f
                          (json.encode_string_body fe s ++ String dquote rest))).
      { destruct Er as [-> | ->]; reflexivity. }
      rewrite Sc, IH by lia. reflexivity.
    + rewrite (scan_rune_piece r f _ Hr), IH by lia. reflexivity.
Qed.

(** ** Decimal digits *)

Local Open Scope Z_scope.

Lemma all_digits_nil : all_digits "".
Proof. intros c []. Qed.

Lemma all_digits_cons c s : is_digit c = true -> all_digits s -> all_digits (String c s).
Proof. intros Hc Hs x [<-|Hx]; auto. Qed.

Lemma all_digits_inv c s : all_digits (String c s) -> is_digit c = true /\ all_digits s.
Proof. intros H. split; [apply H; now left|]. intros x Hx. apply H. now right. Qed.

Lemma list_ascii_app s t :
  list_ascii_of_string (s ++ t) = (list_ascii_of_string s ++ list_ascii_of_string t)%list.
Proof. induction s as [|c s IH]; cbn; congruence. Qed.

Lemma all_digits_app s t : all_digits s -> all_digits t -> all_digits (s ++ t).
Proof.
  intros Hs Ht c Hc. rewrite list_ascii_app in Hc. apply in_app_or in Hc.
  destruct Hc; auto.
Qed.

Lemma all_digits_app_inv s t : all_digits (s ++ t) -> all_digits s /\ all_digits t.
Proof.
  intros H. split; intros c Hc; apply H; rewrite list_ascii_app; apply in_or_app; auto.
Qed.

Lemma digit_char_is_digit d : 0 <= d <= 9 -> is_digit (strconv.digit_char d) = true.
Proof.
  intros Hd. unfold is_digit, strconv.digit_char.
  rewrite code_chr by lia.
  apply andb_true_intro. split; apply N.leb_le; lia.
Qed.

Lemma digit_val_char d : 0 <= d <= 9 -> strconv.digit_val (strconv.digit_char d) = d.
Proof.
  intros Hd. unfold strconv.digit_val, strconv.digit_char. rewrite code_chr by lia. lia.
Qed.

Lemma digit_val_range c : is_digit c = true -> 0 <= strconv.digit_val c <= 9.
Proof.
  unfold is_digit, strconv.digit_val. intros H. apply andb_prop in H. destruct H as [H1 H2].
  apply N.leb_le in H1, H2. lia.
Qed.

Lemma digit_char_val c : is_digit c = true -> strconv.digit_char (strconv.digit_val c) = c.
Proof.
  intros H. pose proof (digit_val_range c H) as R.
  unfold strconv.digit_char, strconv.digit_val in *.
  replace (Z.to_N (48 + (Z.of_N (code c) - 48))) with (code c) by lia.
  apply chr_code.
Qed.

Lemma digits_value_acc s : forall acc,
  strconv.digits_value acc s
  = acc * 10 ^ Z.of_nat (String.length s) + strconv.digits_value 0 s.
Proof.
  induction s as [|c s IH]; intros acc; cbn [strconv.digits_value String.length].
  - change (10 ^ Z.of_nat 0) with 1. lia.
  - rewrite IH, (IH (10 * 0 + _)), Nat2Z.inj_succ, Z.pow_succ_r by lia. lia.
Qed.

Lemma digits_value_app s t :
  strconv.digits_value 0 (s ++ t)
  = strconv.digits_value 0 s * 10 ^ Z.of_nat (String.length t) + strconv.digits_value 0 t.
Proof.
  revert t. generalize 0 at 1 2 as acc.
  induction s as [|c s IH]; intros acc t; cbn [String.append strconv.digits_value].
  - apply digits_value_acc.
  - apply IH.
Qed.

Lemma digits_value_nonneg s : all_digits s -> 0 <= strconv.digits_value 0 s.
Proof.
  intros H. assert (G : forall acc, 0 <= acc -> 0 <= strconv.digits_value acc s).
  { induction s as [|c s IH]; intros acc Ha; cbn [strconv.digits_value]; [exact Ha|].
    apply all_digits_inv in H. destruct H as [Hc Hs].
    apply IH; [exact Hs|]. pose proof (digit_val_range c Hc). lia. }
  apply G. lia.
Qed.

Lemma digits_value_zeros n : strconv.digits_value 0 (repeat_string n "0") = 0.
Proof. induction n as [|n IH]; cbn; [reflexivity|exact IH]. Qed.

Lemma length_repeat_string n c :
  String.length (repeat_string n (String c "")) = n.
Proof. induction n as [|n IH]; cbn; congruence. Qed.

Lemma all_digits_zeros n : all_digits (repeat_string n "0").
Proof.
  induction n as [|n IH]; cbn; [apply all_digits_nil|].
  apply all_digits_cons; [reflexivity|exact IH].
Qed.

(** [digits_of_fuel] with enough fuel. *)
Lemma digits_of_fuel_spec fuel : forall n acc,
  0 <= n < 10 ^ Z.of_nat (S fuel) -> all_digits acc ->
  let s := strconv.digits_of_fuel (S fuel) n acc in
  all_digits s
  /\ strconv.digits_value 0 s
     = n * 10 ^ Z.of_nat (String.length acc) + strconv.digits_value 0 acc
  /\ exists p, s = p ++ acc /\ p <> ""
       /\ (0 < n -> 10 ^ (Z.of_nat (String.length p) - 1) <= n
                    < 10 ^ Z.of_nat (String.length p))
       /\ (n = 0 -> p = "0").
Proof.
  assert (Small : forall f n acc, 0 <= n < 10 -> all_digits acc ->
            let s := strconv.digits_of_fuel (S f) n acc in
            all_digits s
            /\ strconv.digits_value 0 s
               = n * 10 ^ Z.of_nat (String.length acc) + strconv.digits_value 0 acc
            /\ exists p, s = p ++ acc /\ p <> ""
                 /\ (0 < n -> 10 ^ (Z.of_nat (String.length p) - 1) <= n
                              < 10 ^ Z.of_nat (String.length p))
                 /\ (n = 0 -> p = "0")).
  { intros f n acc L Hacc. cbn zeta. cbn [strconv.digits_of_fuel].
    destruct (Z.ltb_spec n 10) as [_|L']; [|lia].
    split; [|split].
    - apply all_digits_cons; [apply digit_char_is_digit; lia|exact Hacc].
    - cbn [strconv.digits_value]. rewrite digits_value_acc, digit_val_char by lia. lia.
    - exists (String (strconv.digit_char n) ""). repeat split.
      + discriminate.
      + cbn. lia.
      + cbn. lia.
      + now intros ->. }
  induction fuel as [|fuel IH]; intros n acc Hn Hacc.
  - apply Small; [|exact Hacc]. change (10 ^ Z.of_nat 1) with 10 in Hn. exact Hn.
  - destruct (Z.ltb_spec n 10) as [L|L]; [apply Small; [lia|exact Hacc]|].
    cbn zeta. change (strconv.digits_of_fuel (S (S fuel)) n acc)
      with (if n <? 10 then String (strconv.digit_char n) acc
            else strconv.digits_of_fuel (S fuel) (n / 10)
                   (String (strconv.digit_char (n mod 10)) acc)).
    destruct (Z.ltb_spec n 10) as [L'|_]; [lia|].
    rewrite (Nat2Z.inj_succ (S fuel)), Z.pow_succ_r in Hn by lia.
    assert (Hd : 0 <= n mod 10 <= 9) by (pose proof (Z.mod_pos_bound n 10); lia).
    destruct (IH (n / 10) (String (strconv.digit_char (n mod 10)) acc))
      as [A [V [p [E [Pn [B Z0]]]]]].
    { split; [apply Z.div_pos; lia|]. apply Z.div_lt_upper_bound; lia. }
    { apply all_digits_cons; [now apply digit_char_is_digit|exact Hacc]. }
    split; [exact A|]. split.
    + rewrite V. cbn [String.length strconv.digits_value].
      rewrite digits_value_acc, digit_val_char, Nat2Z.inj_succ, Z.pow_succ_r by lia.
      pose proof (Z.div_mod n 10). nia.
    + exists (p ++ String (strconv.digit_char (n mod 10)) "").
      rewrite append_assoc. split; [exact E|]. split.
      { destruct p; discriminate. }
      split; [|lia]. intros _.
      rewrite length_append. cbn [String.length].
      assert (Hq : 0 < n / 10) by (apply Z.div_str_pos; lia).
      specialize (B Hq).
      assert (Hp1 : 1 <= Z.of_nat (String.length p)).
      { destruct p; [congruence|cbn [String.length]; lia]. }
      replace (Z.of_nat (String.length p + 1) - 1) with (Z.of_nat (String.length p)) by lia.
      replace (Z.of_nat (String.length p + 1)) with (Z.succ (Z.of_nat (String.length p)))
        by lia.
      rewrite Z.pow_succ_r by lia.
      replace (10 ^ Z.of_nat (String.length p))
        with (10 * 10 ^ (Z.of_nat (String.length p) - 1)) in *
        by (rewrite <- Z.pow_succ_r by lia; f_equal; lia).
      pose proof (Z.div_mod n 10). lia.
Qed.

Lemma pow2_le_pow10 k : 0 <= k -> 2 ^ k <= 10 ^ k.
Proof. intros Hk. apply Z.pow_le_mono_l. lia. Qed.

Lemma digits_of_spec n :
  0 <= n ->
  all_digits (strconv.digits_of n)
  /\ strconv.digits_value 0 (strconv.digits_of n) = n
  /\ strconv.digits_of n <> ""
  /\ (0 < n -> 10 ^ (strconv.num_digits n - 1) <= n < 10 ^ strconv.num_digits n)
  /\ (n = 0 -> strconv.digits_of n = "0").
Proof.
  intros Hn. unfold strconv.num_digits, strconv.digits_of.
  destruct (digits_of_fuel_spec (Z.to_nat (Z.log2 n)) n "") as [A [V [p [E [Pn [B Z0]]]]]].
  - split; [exact Hn|].
    destruct (Z.eq_dec n 0) as [->|Hz]; [apply Z.pow_pos_nonneg; lia|].
    rewrite Nat2Z.inj_succ, Z2Nat.id by apply Z.log2_nonneg.
    pose proof (Z.log2_spec n ltac:(lia)) as [_ L].
    eapply Z.lt_le_trans; [exact L|]. apply pow2_le_pow10. pose proof (Z.log2_nonneg n). lia.
  - apply all_digits_nil.
  - cbn zeta in *. rewrite append_nil_r in E. rewrite E in *.
    split; [exact A|]. split; [cbn in V; lia|]. split; [exact Pn|]. split; [exact B|exact Z0].
Qed.

Lemma num_digits_unique n k :
  0 < n -> 10 ^ (k - 1) <= n < 10 ^ k -> strconv.num_digits n = k.
Proof.
  intros Hn Hk.
  destruct (digits_of_spec n ltac:(lia)) as [_ [_ [_ [B _]]]]. specialize (B Hn).
  set (d := strconv.num_digits n) in *.
  assert (Hd : 0 <= d) by (unfold d, strconv.num_digits; lia).
  destruct (Z.lt_trichotomy d k) as [L|[E|L]]; [|exact E|]; exfalso.
  - assert (10 ^ d <= 10 ^ (k - 1)) by (apply Z.pow_le_mono_r; lia). lia.
  - assert (0 <= k).
    { destruct (Z.le_gt_cases 0 k); [assumption|].
      rewrite (Z.pow_neg_r 10 k) in Hk by lia. lia. }
    assert (10 ^ k <= 10 ^ (d - 1)) by (apply Z.pow_le_mono_r; lia). lia.
Qed.

Lemma num_digits_pos n : 0 <= n -> 1 <= strconv.num_digits n.
Proof.
  intros Hn. destruct (digits_of_spec n Hn) as [_ [_ [Ne _]]].
  unfold strconv.num_digits. destruct (strconv.digits_of n); [congruence|cbn; lia].
Qed.

Lemma num_digits_scale n j :
  0 < n -> 0 <= j -> strconv.num_digits (n * 10 ^ j) = strconv.num_digits n + j.
Proof.
  intros Hn Hj.
  destruct (digits_of_spec n ltac:(lia)) as [_ [_ [_ [B _]]]]. specialize (B Hn).
  pose proof (num_digits_pos n ltac:(lia)) as P.
  assert (0 < 10 ^ j) by (apply Z.pow_pos_nonneg; lia).
  apply num_digits_unique; [nia|].
  replace (strconv.num_digits n + j - 1) with ((strconv.num_digits n - 1) + j) by lia.
  rewrite !Z.pow_add_r by lia. nia.
Qed.

Lemma digits_value_bound s :
  all_digits s -> strconv.digits_value 0 s < 10 ^ Z.of_nat (String.length s).
Proof.
  induction s as [|c s IH]; intros H.
  - cbn. lia.
  - apply all_digits_inv in H. destruct H as [Hc Hs]. specialize (IH Hs).
    cbn [strconv.digits_value String.length].
    rewrite digits_value_acc, Nat2Z.inj_succ, Z.pow_succ_r by lia.
    pose proof (digit_val_range c Hc). nia.
Qed.

Lemma digits_of_head n :
  0 < n -> exists c r, strconv.digits_of n = String c r /\ c <> "0"%char.
Proof.
  intros Hn.
  destruct (digits_of_spec n ltac:(lia)) as [A [V [Ne [B _]]]]. specialize (B Hn).
  unfold strconv.num_digits in B.
  destruct (strconv.digits_of n) as [|c r]; [congruence|].
  exists c, r. split; [reflexivity|]. intros ->.
  apply all_digits_inv in A. destruct A as [_ Ar].
  pose proof (digits_value_bound r Ar) as Br.
  cbn [strconv.digits_value String.length] in V, B.
  change (10 * 0 + strconv.digit_val "0") with 0 in V.
  replace (Z.of_nat (S (String.length r)) - 1) with (Z.of_nat (String.length r)) in B by lia.
  lia.
Qed.

(** ** Rounding to float64 *)

Lemma le_scaled_spec q e p : strconv.le_scaled q e p = true <-> scaled_le q e p.
Proof.
  unfold strconv.le_scaled, scaled_le.
  destruct (Z.leb_spec 0 e) as [He|He].
  - rewrite Z.max_l, Z.max_r by lia. change (2 ^ 0) with 1. rewrite Z.mul_1_r.
    apply Z.leb_le.
  - rewrite Z.max_r, Z.max_l by lia. change (2 ^ 0) with 1. rewrite Z.mul_1_r.
    apply Z.leb_le.
Qed.

Lemma pow2_pos k : 0 < 2 ^ k \/ k < 0.
Proof. destruct (Z.le_gt_cases 0 k); [left; apply Z.pow_pos_nonneg; lia|now right]. Qed.

Lemma scaled_le_mono q e e' p :
  0 < q -> 0 < p -> scaled_le q e p -> e' <= e -> scaled_le q e' p.
Proof.
  unfold scaled_le. intros Hq Hp H Hle.
  destruct (Z.le_gt_cases 0 e) as [He|He]; destruct (Z.le_gt_cases 0 e') as [He'|He'].
  - rewrite !Z.max_l, !Z.max_r in * by lia.
    assert (2 ^ e' <= 2 ^ e) by (apply Z.pow_le_mono_r; lia).
    assert (0 < 2 ^ e') by (apply Z.pow_pos_nonneg; lia). nia.
  - rewrite (Z.max_l e), (Z.max_r (- e)) in H by lia.
    rewrite (Z.max_r e'), (Z.max_l (- e')) by lia.
    assert (1 <= 2 ^ e) by (change 1 with (2 ^ 0); apply Z.pow_le_mono_r; lia).
    assert (1 <= 2 ^ (- e')) by (change 1 with (2 ^ 0); apply Z.pow_le_mono_r; lia).
    change (2 ^ 0) with 1 in *. nia.
  - lia.
  - rewrite !Z.max_r, !Z.max_l in * by lia.
    assert (2 ^ (- e) <= 2 ^ (- e')) by (apply Z.pow_le_mono_r; lia).
    change (2 ^ 0) with 1 in *. nia.
Qed.

Lemma scaled_le_scale k q e p : 0 < k -> scaled_le (k * q) e (k * p) <-> scaled_le q e p.
Proof. unfold scaled_le. intros Hk. split; intros H; nia. Qed.

Lemma log2_bounds p : 0 < p -> 0 <= Z.log2 p /\ 2 ^ Z.log2 p <= p < 2 ^ (Z.log2 p + 1).
Proof.
  intros Hp. split; [apply Z.log2_nonneg|].
  pose proof (Z.log2_spec p Hp) as L. now rewrite <- Z.add_1_r in L.
Qed.

Lemma floor_log2_ratio_spec p q :
  0 < p -> 0 < q ->
  scaled_le q (strconv.floor_log2_ratio p q) p
  /\ ~ scaled_le q (strconv.floor_log2_ratio p q + 1) p.
Proof.
  intros Hp Hq. unfold strconv.floor_log2_ratio.
  destruct (log2_bounds p Hp) as [Lp0 [Lp1 Lp2]].
  destruct (log2_bounds q Hq) as [Lq0 [Lq1 Lq2]].
  set (lp := Z.log2 p) in *. set (lq := Z.log2 q) in *.
  assert (A : scaled_le q (lp - lq - 1) p).
  { unfold scaled_le. destruct (Z.le_gt_cases 0 (lp - lq - 1)) as [He|He].
    - rewrite Z.max_l, Z.max_r by lia. change (2 ^ 0) with 1.
      assert (E : 2 ^ (lq + 1) * 2 ^ (lp - lq - 1) = 2 ^ lp)
        by (rewrite <- Z.pow_add_r by lia; f_equal; lia).
      assert (0 < 2 ^ (lp - lq - 1)) by (apply Z.pow_pos_nonneg; lia). nia.
    - rewrite Z.max_r, Z.max_l by lia. change (2 ^ 0) with 1.
      assert (E : 2 ^ lp * 2 ^ (- (lp - lq - 1)) = 2 ^ (lq + 1))
        by (rewrite <- Z.pow_add_r by lia; f_equal; lia).
      assert (0 < 2 ^ (- (lp - lq - 1))) by (apply Z.pow_pos_nonneg; lia). nia. }
  assert (B : ~ scaled_le q (lp - lq + 1) p).
  { unfold scaled_le. destruct (Z.le_gt_cases 0 (lp - lq + 1)) as [He|He].
    - rewrite Z.max_l, Z.max_r by lia. change (2 ^ 0) with 1.
      assert (E : 2 ^ lq * 2 ^ (lp - lq + 1) = 2 ^ (lp + 1))
        by (rewrite <- Z.pow_add_r by lia; f_equal; lia).
      assert (0 < 2 ^ (lp - lq + 1)) by (apply Z.pow_pos_nonneg; lia). nia.
    - rewrite Z.max_r, Z.max_l by lia. change (2 ^ 0) with 1.
      assert (E : 2 ^ (lp + 1) * 2 ^ (- (lp - lq + 1)) = 2 ^ lq)
        by (rewrite <- Z.pow_add_r by lia; f_equal; lia).
      assert (0 < 2 ^ (- (lp - lq + 1))) by (apply Z.pow_pos_nonneg; lia). nia. }
  destruct (strconv.le_scaled q (lp - lq) p) eqn:E.
  - apply le_scaled_spec in E. split; [exact E|exact B].
  - split; [exact A|]. replace (lp - lq - 1 + 1) with (lp - lq) by lia.
    intros H. apply le_scaled_spec in H. congruence.
Qed.

Lemma floor_log2_unique p q b :
  0 < p -> 0 < q ->
  scaled_le q b p -> ~ scaled_le q (b + 1) p ->
  strconv.floor_log2_ratio p q = b.
Proof.
  intros Hp Hq H1 H2.
  destruct (floor_log2_ratio_spec p q Hp Hq) as [G1 G2].
  set (b' := strconv.floor_log2_ratio p q) in *.
  destruct (Z.lt_trichotomy b' b) as [L|[E|L]]; [|exact E|]; exfalso.
  - apply G2. eapply scaled_le_mono; [| |exact H1|]; lia.
  - apply H2. eapply scaled_le_mono; [| |exact G1|]; lia.
Qed.

Lemma floor_log2_ratio_scale k p q :
  0 < k -> 0 < p -> 0 < q ->
  strconv.floor_log2_ratio (k * p) (k * q) = strconv.floor_log2_ratio p q.
Proof.
  intros Hk Hp Hq.
  destruct (floor_log2_ratio_spec p q Hp Hq) as [G1 G2].
  apply floor_log2_unique; try nia.
  - now apply scaled_le_scale.
  - intros H. apply G2. now apply scaled_le_scale in H.
Qed.

Lemma round_ratio_scale k p q :
  0 < k -> 0 < p -> 0 < q ->
  strconv.round_ratio (k * p) (k * q) = strconv.round_ratio p q.
Proof.
  intros Hk Hp Hq. unfold strconv.round_ratio.
  rewrite floor_log2_ratio_scale by assumption.
  set (ex := Z.max (strconv.floor_log2_ratio p q - 52) (-1074)).
  set (num := if 0 <=? ex then p else p * 2 ^ (- ex)).
  set (den := if 0 <=? ex then q * 2 ^ ex else q).
  assert (Hden : 0 < den).
  { unfold den. destruct (Z.leb_spec 0 ex); [|exact Hq].
    assert (0 < 2 ^ ex) by (apply Z.pow_pos_nonneg; lia). nia. }
  replace (if 0 <=? ex then k * p else k * p * 2 ^ (- ex)) with (k * num)
    by (unfold num; destruct (0 <=? ex); lia).
  replace (if 0 <=? ex then k * q * 2 ^ ex else k * q) with (k * den)
    by (unfold den; destruct (0 <=? ex); lia).
  rewrite Z.div_mul_cancel_l, Z.mul_mod_distr_l by lia.
  set (r := num mod den). set (a := num / den).
  replace (k * den <? 2 * (k * r)) with (den <? 2 * r)
    by (destruct (Z.ltb_spec den (2 * r)); destruct (Z.ltb_spec (k * den) (2 * (k * r)));
        try reflexivity; nia).
  replace (k * den =? 2 * (k * r)) with (den =? 2 * r)
    by (destruct (Z.eqb_spec den (2 * r)); destruct (Z.eqb_spec (k * den) (2 * (k * r)));
        try reflexivity; nia).
  reflexivity.
Qed.

(** The mantissa before rounding, [num / den], against powers of two. *)
Lemma scaled_le_shift q ex p k :
  0 <= k -> 0 < p -> 0 < q ->
  let num := if 0 <=? ex then p else p * 2 ^ (- ex) in
  let den := if 0 <=? ex then q * 2 ^ ex else q in
  scaled_le q (ex + k) p <-> den * 2 ^ k <= num.
Proof.
  intros Hk Hp Hq num den. unfold scaled_le, num, den.
  destruct (Z.leb_spec 0 ex) as [He|He].
  - rewrite Z.max_l, Z.max_r by lia. change (2 ^ 0) with 1.
    rewrite Z.pow_add_r by lia. split; intros; nia.
  - destruct (Z.le_gt_cases 0 (ex + k)) as [Hs|Hs].
    + rewrite Z.max_l, Z.max_r by lia. change (2 ^ 0) with 1.
      assert (E : 2 ^ k = 2 ^ (ex + k) * 2 ^ (- ex))
        by (rewrite <- Z.pow_add_r by lia; f_equal; lia).
      assert (0 < 2 ^ (- ex)) by (apply Z.pow_pos_nonneg; lia).
      rewrite E. split; intros; nia.
    + rewrite Z.max_r, Z.max_l by lia. change (2 ^ 0) with 1.
      assert (E : 2 ^ (- ex) = 2 ^ (- (ex + k)) * 2 ^ k)
        by (rewrite <- Z.pow_add_r by lia; f_equal; lia).
      assert (0 < 2 ^ k) by (apply Z.pow_pos_nonneg; lia).
      rewrite E. split; intros; nia.
Qed.

Lemma round_ratio_canonical p q m e :
  0 < p -> 0 < q -> strconv.round_ratio p q = Some (m, e) -> canonical m e.
Proof.
  intros Hp Hq. unfold strconv.round_ratio.
  destruct (floor_log2_ratio_spec p q Hp Hq) as [G1 G2].
  set (b := strconv.floor_log2_ratio p q) in *.
  set (ex := Z.max (b - 52) (-1074)).
  pose proof (scaled_le_shift q ex p 53 ltac:(lia) Hp Hq) as S53.
  pose proof (scaled_le_shift q ex p 52 ltac:(lia) Hp Hq) as S52.
  cbv zeta in S53, S52.
  set (num := if 0 <=? ex then p else p * 2 ^ (- ex)) in *.
  set (den := if 0 <=? ex then q * 2 ^ ex else q) in *.
  assert (Hden : 0 < den).
  { unfold den. destruct (Z.leb_spec 0 ex); [|exact Hq].
    assert (0 < 2 ^ ex) by (apply Z.pow_pos_nonneg; lia). nia. }
  assert (Hnum : 0 < num).
  { unfold num. destruct (Z.leb_spec 0 ex); [exact Hp|].
    assert (0 < 2 ^ (- ex)) by (apply Z.pow_pos_nonneg; lia). nia. }
  assert (U : num < den * 2 ^ 53).
  { apply Z.nle_gt. intros H. apply S53 in H. apply G2.
    eapply scaled_le_mono; [| |exact H|]; lia. }
  assert (L : ex = b - 52 -> den * 2 ^ 52 <= num).
  { intros E. apply S52. now replace (ex + 52) with b by lia. }
  assert (L' : ex <> b - 52 -> num < den * 2 ^ 52).
  { intros E. apply Z.nle_gt. intros H. apply S52 in H. apply G2.
    eapply scaled_le_mono; [| |exact H|]; lia. }
  set (a := num / den). set (r := num mod den).
  assert (Ha : 0 <= a < 2 ^ 53).
  { split; [apply Z.div_pos; lia|]. apply Z.div_lt_upper_bound; lia. }
  assert (Ha52 : ex = b - 52 -> 2 ^ 52 <= a).
  { intros E. apply Z.div_le_lower_bound; [lia|]. specialize (L E). lia. }
  assert (Ha52' : ex <> b - 52 -> a < 2 ^ 52).
  { intros E. apply Z.div_lt_upper_bound; [lia|]. specialize (L' E). lia. }
  set (m0 := if (den <? 2 * r) || ((den =? 2 * r) && Z.odd a) then a + 1 else a).
  assert (Hm0 : a <= m0 <= a + 1) by (unfold m0; destruct (_ || _); lia).
  unfold canonical.
  destruct (Z.eqb_spec m0 (2 ^ 53)) as [E53|N53].
  - destruct (Z.ltb_spec 971 (ex + 1)); [discriminate|].
    intros [= <- <-]. change (2 ^ 53) with 9007199254740992.
    change (2 ^ 52) with 4503599627370496. lia.
  - destruct (Z.ltb_spec 971 ex); [discriminate|].
    intros [= <- <-]. repeat split; lia.
Qed.

Lemma round_ratio_exact m e :
  canonical m e -> 0 < m ->
  strconv.round_ratio (m * 2 ^ Z.max e 0) (2 ^ Z.max (- e) 0) = Some (m, e).
Proof.
  intros [[M0 M1] [[E0 E1] Sub]] Hm.
  set (p := m * 2 ^ Z.max e 0). set (q := 2 ^ Z.max (- e) 0).
  assert (Hp : 0 < p).
  { unfold p. assert (0 < 2 ^ Z.max e 0) by (apply Z.pow_pos_nonneg; lia). nia. }
  assert (Hq : 0 < q) by (apply Z.pow_pos_nonneg; lia).
  destruct (log2_bounds m Hm) as [L0 [L1 L2]].
  set (lm := Z.log2 m) in *.
  assert (Hlm : lm <= 52).
  { destruct (Z.le_gt_cases lm 52); [assumption|exfalso].
    assert (2 ^ 53 <= 2 ^ lm) by (apply Z.pow_le_mono_r; lia). lia. }
  assert (Hb : strconv.floor_log2_ratio p q = lm + e).
  { apply floor_log2_unique; try assumption; unfold scaled_le, p, q.
    - assert (E : 2 ^ Z.max (- e) 0 * 2 ^ Z.max (lm + e) 0
                  = 2 ^ lm * (2 ^ Z.max e 0 * 2 ^ Z.max (- (lm + e)) 0)).
      { rewrite <- !Z.pow_add_r by lia. f_equal. lia. }
      rewrite E.
      assert (0 < 2 ^ Z.max e 0 * 2 ^ Z.max (- (lm + e)) 0).
      { apply Z.mul_pos_pos; apply Z.pow_pos_nonneg; lia. }
      nia.
    - assert (E : 2 ^ Z.max (- e) 0 * 2 ^ Z.max (lm + e + 1) 0
                  = 2 ^ (lm + 1) * (2 ^ Z.max e 0 * 2 ^ Z.max (- (lm + e + 1)) 0)).
      { rewrite <- !Z.pow_add_r by lia. f_equal. lia. }
      rewrite E.
      assert (0 < 2 ^ Z.max e 0 * 2 ^ Z.max (- (lm + e + 1)) 0).
      { apply Z.mul_pos_pos; apply Z.pow_pos_nonneg; lia. }
      nia. }
  unfold strconv.round_ratio. rewrite Hb.
  assert (Hex : Z.max (lm + e - 52) (-1074) = e).
  { destruct (Z.lt_ge_cases m (2 ^ 52)) as [Hs|Hn].
    - specialize (Sub Hs). subst e.
      assert (lm < 52); [|lia].
      destruct (Z.lt_ge_cases lm 52); [assumption|exfalso].
      assert (2 ^ 52 <= 2 ^ lm) by (apply Z.pow_le_mono_r; lia). lia.
    - assert (52 <= lm); [|lia].
      destruct (Z.le_gt_cases 52 lm); [assumption|exfalso].
      assert (2 ^ (lm + 1) <= 2 ^ 52) by (apply Z.pow_le_mono_r; lia). lia. }
  rewrite Hex.
  assert (ND : exists d, 0 < d
             /\ (if 0 <=? e then p else p * 2 ^ (- e)) = m * d
             /\ (if 0 <=? e then q * 2 ^ e else q) = d).
  { unfold p, q. destruct (Z.leb_spec 0 e) as [He|He].
    - exists (2 ^ e). rewrite Z.max_l, Z.max_r by lia. change (2 ^ 0) with 1.
      split; [apply Z.pow_pos_nonneg; lia|]. split; lia.
    - exists (2 ^ (- e)). rewrite Z.max_r, Z.max_l by lia. change (2 ^ 0) with 1.
      split; [apply Z.pow_pos_nonneg; lia|]. split; lia. }
  destruct ND as [d [Hd [-> ->]]].
  rewrite Z.div_mul, Z.mod_mul by lia.
  replace (d <? 2 * 0) with false by (symmetry; apply Z.ltb_ge; lia).
  replace (d =? 2 * 0) with false by (symmetry; apply Z.eqb_neq; lia).
  cbn [orb andb].
  replace (m =? 2 ^ 53) with false by (symmetry; apply Z.eqb_neq; lia).
  replace (971 <? e) with false by (symmetry; apply Z.ltb_ge; lia).
  reflexivity.
Qed.

(** ** floatBits *)

Lemma pow10_pos k : 0 <= k -> 0 < 10 ^ k.
Proof. intros. apply Z.pow_pos_nonneg; lia. Qed.

Lemma floatBits_scale c x j :
  0 < c -> 0 <= j -> strconv.floatBits (c * 10 ^ j) (x - j) = strconv.floatBits c x.
Proof.
  intros Hc Hj. unfold strconv.floatBits.
  pose proof (pow10_pos j Hj) as Pj.
  replace (c * 10 ^ j =? 0) with false by (symmetry; apply Z.eqb_neq; nia).
  replace (c =? 0) with false by (symmetry; apply Z.eqb_neq; lia).
  rewrite num_digits_scale by assumption.
  replace (strconv.num_digits c + j + (x - j)) with (strconv.num_digits c + x) by lia.
  destruct (310 <? strconv.num_digits c + x); [reflexivity|].
  destruct (strconv.num_digits c + x <? -330); [reflexivity|].
  destruct (Z.leb_spec 0 (x - j)) as [H1|H1]; destruct (Z.leb_spec 0 x) as [H2|H2]; try lia.
  - f_equal. rewrite <- Z.mul_assoc, <- Z.pow_add_r by lia. do 2 f_equal. lia.
  - pose proof (pow10_pos x H2) as Px.
    rewrite <- (round_ratio_scale (10 ^ (- (x - j))) (c * 10 ^ x) 1);
      [| apply pow10_pos; lia | nia | lia].
    f_equal; [|lia].
    replace (10 ^ j) with (10 ^ (- (x - j)) * 10 ^ x)
      by (rewrite <- Z.pow_add_r by lia; f_equal; lia).
    lia.
  - rewrite <- (round_ratio_scale (10 ^ j) c (10 ^ (- x)));
      [| assumption | assumption | apply pow10_pos; lia].
    f_equal; [lia|]. rewrite <- Z.pow_add_r by lia. f_equal. lia.
Qed.

Lemma trim_fuel_spec fuel : forall c x c' x',
  0 < c -> strconv.trim_fuel fuel c x = (c', x') ->
  0 < c' /\ x <= x' /\ c = c' * 10 ^ (x' - x).
Proof.
  induction fuel as [|fuel IH]; intros c x c' x' Hc; cbn [strconv.trim_fuel].
  - intros [= <- <-]. rewrite Z.sub_diag. change (10 ^ 0) with 1. lia.
  - destruct ((c mod 10 =? 0) && negb (c =? 0)) eqn:E.
    + apply andb_prop in E. destruct E as [E _]. apply Z.eqb_eq in E.
      intros H. apply IH in H.
      * destruct H as [H1 [H2 H3]]. split; [exact H1|]. split; [lia|].
        replace (x' - x) with (Z.succ (x' - (x + 1))) by lia.
        rewrite Z.pow_succ_r by lia. pose proof (Z.div_mod c 10). lia.
      * apply Z.div_str_pos. pose proof (Z.div_mod c 10).
        pose proof (Z.mod_pos_bound c 10). lia.
    + intros [= <- <-]. rewrite Z.sub_diag. change (10 ^ 0) with 1. lia.
Qed.

Lemma trim_spec c x c' x' :
  0 < c -> strconv.trim c x = (c', x') ->
  0 < c' /\ x <= x' /\ c = c' * 10 ^ (x' - x).
Proof. apply trim_fuel_spec. Qed.

Lemma floatBits_trim c x c' x' :
  0 < c -> strconv.trim c x = (c', x') -> strconv.floatBits c' x' = strconv.floatBits c x.
Proof.
  intros Hc H. destruct (trim_spec c x c' x' Hc H) as [H1 [H2 H3]].
  rewrite H3. rewrite <- (floatBits_scale c' x' (x' - x)) by lia.
  f_equal. lia.
Qed.

Lemma floatBits_canonical c x m e :
  0 <= c -> strconv.floatBits c x = Some (m, e) -> canonical m e.
Proof.
  intros Hc. unfold strconv.floatBits.
  assert (Z0 : canonical 0 (-1074)).
  { unfold canonical. change (2 ^ 53) with 9007199254740992.
    change (2 ^ 52) with 4503599627370496. lia. }
  destruct (Z.eqb_spec c 0); [now intros [= <- <-]|].
  destruct (310 <? _); [discriminate|].
  destruct (_ <? -330); [now intros [= <- <-]|].
  destruct (Z.leb_spec 0 x).
  - apply round_ratio_canonical; [|lia]. pose proof (pow10_pos x). nia.
  - apply round_ratio_canonical; [lia|]. apply pow10_pos. lia.
Qed.

(** When the result is not zero, the decimal point is within the early
    exits of floatBits. *)
Lemma floatBits_point c x m e :
  0 < c -> strconv.floatBits c x = Some (m, e) -> m <> 0 ->
  -330 <= strconv.num_digits c + x <= 310.
Proof.
  intros Hc. unfold strconv.floatBits.
  replace (c =? 0) with false by (symmetry; apply Z.eqb_neq; lia).
  destruct (Z.ltb_spec 310 (strconv.num_digits c + x)); [discriminate|].
  destruct (Z.ltb_spec (strconv.num_digits c + x) (-330)); [|lia].
  intros [= <- <-]. congruence.
Qed.

Lemma num_digits_le c k : 0 < c -> c < 10 ^ k -> strconv.num_digits c <= k.
Proof.
  intros Hc Hk.
  destruct (digits_of_spec c ltac:(lia)) as [_ [_ [_ [B _]]]]. specialize (B Hc).
  destruct (Z.le_gt_cases (strconv.num_digits c) k) as [|G]; [assumption|exfalso].
  assert (0 <= k).
  { destruct (Z.le_gt_cases 0 k); [assumption|].
    rewrite (Z.pow_neg_r 10 k) in Hk by lia. lia. }
  assert (10 ^ k <= 10 ^ (strconv.num_digits c - 1)) by (apply Z.pow_le_mono_r; lia).
  lia.
Qed.

Lemma num_digits_ge c k : 0 < c -> 10 ^ (k - 1) <= c -> k <= strconv.num_digits c.
Proof.
  intros Hc Hk.
  destruct (digits_of_spec c ltac:(lia)) as [_ [_ [_ [B _]]]]. specialize (B Hc).
  pose proof (num_digits_pos c ltac:(lia)).
  destruct (Z.le_gt_cases k (strconv.num_digits c)) as [|G]; [assumption|exfalso].
  assert (10 ^ strconv.num_digits c <= 10 ^ (k - 1)) by (apply Z.pow_le_mono_r; lia).
  lia.
Qed.

Lemma pow2_1024_lt_pow10_309 : 2 ^ 1024 < 10 ^ 309.
Proof. vm_compute. reflexivity. Qed.

Lemma pow2_743_le_pow5_331 : 2 ^ 743 <= 5 ^ 331.
Proof. vm_compute. discriminate. Qed.

Lemma pow10_split k : 0 <= k -> 10 ^ k = 5 ^ k * 2 ^ k.
Proof. intros Hk. rewrite <- Z.pow_mul_l. reflexivity. Qed.

(** The exact decimal expansion of a float reads back as that float. *)
Lemma floatBits_exact m e D x0 :
  canonical m e -> 0 < m ->
  strconv.exact_decimal m e = (D, x0) ->
  0 < D /\ strconv.floatBits D x0 = Some (m, e).
Proof.
  intros Can Hm. pose proof (round_ratio_exact m e Can Hm) as R.
  destruct Can as [[M0 M1] [[E0 E1] Sub]].
  unfold strconv.exact_decimal.
  destruct (Z.leb_spec 0 e) as [He|He]; intros T.
  - assert (Hc : 0 < m * 2 ^ e) by (pose proof (Z.pow_pos_nonneg 2 e); nia).
    destruct (trim_spec _ _ _ _ Hc T) as [HD _]. split; [exact HD|].
    rewrite (floatBits_trim _ _ _ _ Hc T).
    unfold strconv.floatBits.
    replace (m * 2 ^ e =? 0) with false by (symmetry; apply Z.eqb_neq; lia).
    assert (ND : strconv.num_digits (m * 2 ^ e) <= 309).
    { apply num_digits_le; [exact Hc|].
      eapply Z.lt_trans; [|exact pow2_1024_lt_pow10_309].
      assert (2 ^ e <= 2 ^ 971) by (apply Z.pow_le_mono_r; lia).
      change (2 ^ 1024) with (2 ^ 53 * 2 ^ 971).
      assert (0 < 2 ^ e) by (apply Z.pow_pos_nonneg; lia). nia. }
    pose proof (num_digits_pos (m * 2 ^ e) ltac:(lia)).
    replace (310 <? _) with false by (symmetry; apply Z.ltb_ge; lia).
    replace (_ <? -330) with false by (symmetry; apply Z.ltb_ge; lia).
    cbn [Z.leb]. change (10 ^ 0) with 1.
    rewrite Z.max_l, Z.max_r in R by lia. change (2 ^ 0) with 1 in R.
    now rewrite Z.mul_1_r.
  - set (n := - e) in *.
    assert (P5 : 0 < 5 ^ n) by (apply Z.pow_pos_nonneg; lia).
    assert (P2 : 0 < 2 ^ n) by (apply Z.pow_pos_nonneg; lia).
    assert (Hc : 0 < m * 5 ^ n) by nia.
    destruct (trim_spec _ _ _ _ Hc T) as [HD _]. split; [exact HD|].
    rewrite (floatBits_trim _ _ _ _ Hc T).
    unfold strconv.floatBits.
    replace (m * 5 ^ n =? 0) with false by (symmetry; apply Z.eqb_neq; lia).
    assert (ND1 : strconv.num_digits (m * 5 ^ n) <= 16 + n).
    { apply num_digits_le; [exact Hc|].
      rewrite Z.pow_add_r by lia. rewrite (pow10_split n) by lia.
      assert (2 ^ 53 < 10 ^ 16) by (vm_compute; reflexivity).
      assert (1 <= 2 ^ n) by lia. nia. }
    assert (ND2 : n - 330 <= strconv.num_digits (m * 5 ^ n)).
    { destruct (Z.le_gt_cases n 331) as [Hs|Hl].
      - pose proof (num_digits_pos (m * 5 ^ n) ltac:(lia)). lia.
      - apply num_digits_ge; [exact Hc|].
        replace (n - 330 - 1) with (n - 331) by lia.
        rewrite (pow10_split (n - 331)) by lia.
        assert (E5 : 5 ^ n = 5 ^ (n - 331) * 5 ^ 331)
          by (rewrite <- Z.pow_add_r by lia; f_equal; lia).
        assert (2 ^ (n - 331) <= 2 ^ 743) by (apply Z.pow_le_mono_r; lia).
        pose proof pow2_743_le_pow5_331.
        assert (0 < 5 ^ (n - 331)) by (apply Z.pow_pos_nonneg; lia).
        rewrite E5. nia. }
    replace (310 <? _) with false by (symmetry; apply Z.ltb_ge; lia).
    replace (_ <? -330) with false by (symmetry; apply Z.ltb_ge; lia).
    replace (0 <=? e) with false by (symmetry; apply Z.leb_gt; lia).
    fold n. rewrite Z.max_r, Z.max_l in R by lia. change (2 ^ 0) with 1 in R.
    rewrite Z.mul_1_r in R. fold n in R.
    rewrite <- R. rewrite <- (round_ratio_scale (5 ^ n) m (2 ^ n)) by lia.
    f_equal; [lia|]. now rewrite pow10_split by lia.
Qed.

(** ** The shortest decimal of a float reads back as that float *)

Lemma rounds_to_spec c x m e :
  strconv.rounds_to c x m e = true -> strconv.floatBits c x = Some (m, e).
Proof.
  unfold strconv.rounds_to. destruct (strconv.floatBits c x) as [[m' e']|]; [|discriminate].
  intros H. apply andb_prop in H. destruct H as [H1 H2].
  apply Z.eqb_eq in H1, H2. congruence.
Qed.

Lemma rounds_to_nonzero c x m e :
  0 < m -> strconv.rounds_to c x m e = true -> c <> 0.
Proof.
  intros Hm H ->. apply rounds_to_spec in H. cbn in H. injection H as <- _. lia.
Qed.

Lemma roundShortest_spec m e D x0 :
  0 < m -> 0 < D -> strconv.floatBits D x0 = Some (m, e) ->
  forall k c x, strconv.roundShortest k m e D x0 = (c, x) ->
  0 < c /\ strconv.floatBits c x = Some (m, e).
Proof.
  intros Hm HD HF k.
  induction k as [|k IH]; intros c x; cbn [strconv.roundShortest];
    set (p := 10 ^ Z.of_nat _);
    assert (Hp : 0 < p) by (apply pow10_pos; lia);
    assert (Hlo : 0 <= D / p) by (apply Z.div_pos; lia);
    destruct (strconv.rounds_to (D / p) _ m e) eqn:Ed;
    destruct (strconv.rounds_to (D / p + 1) _ m e) eqn:Eu;
    cbn [andb];
    try (pose proof (rounds_to_nonzero _ _ _ _ Hm Ed));
    try (apply rounds_to_spec in Ed);
    try (apply rounds_to_spec in Eu);
    try (destruct (_ || _));
    try (intros [= <- <-]; split; [lia | assumption]).
  apply IH.
Qed.

Lemma shortest_spec m e c x :
  canonical m e -> 0 < m -> strconv.shortest m e = (c, x) ->
  0 < c /\ strconv.floatBits c x = Some (m, e).
Proof.
  intros Can Hm. unfold strconv.shortest.
  destruct (strconv.exact_decimal m e) as [D x0] eqn:ED.
  destruct (floatBits_exact m e D x0 Can Hm ED) as [HD HF].
  destruct (strconv.roundShortest _ m e D x0) as [c1 x1] eqn:RS.
  destruct (roundShortest_spec m e D x0 Hm HD HF _ _ _ RS) as [Hc1 HF1].
  intros T. destruct (trim_spec _ _ _ _ Hc1 T) as [Hc _]. split; [exact Hc|].
  rewrite (floatBits_trim _ _ _ _ Hc1 T). exact HF1.
Qed.

(** ** Number literals: reading and scanning *)

Lemma span_digits_all ds : forall rest,
  all_digits ds ->
  match rest with String c _ => is_digit c = false | EmptyString => True end ->
  span_digits (ds ++ rest) = (ds, rest).
Proof.
  induction ds as [|c ds IH]; intros rest Hd Hr.
  - cbn. destruct rest as [|c r]; [reflexivity|]. cbn. now rewrite Hr.
  - apply all_digits_inv in Hd. destruct Hd as [Hc Hd].
    cbn. rewrite Hc, (IH rest Hd Hr). reflexivity.
Qed.

Lemma span_digits_digits s ds rest : span_digits s = (ds, rest) -> all_digits ds.
Proof.
  revert ds rest. induction s as [|c s IH]; cbn; intros ds rest H.
  - injection H as <- _. apply all_digits_nil.
  - destruct (is_digit c) eqn:Ec.
    + destruct (span_digits s) as [ds' rest']. injection H as <- _.
      apply all_digits_cons; [exact Ec|]. eapply IH. reflexivity.
    + injection H as <- _. apply all_digits_nil.
Qed.

Lemma well_formed_number_head ip fp ex :
  well_formed_number ip fp ex ->
  exists c r, ip = String c r /\ is_digit c = true /\ all_digits r.
Proof.
  intros [Hi [Hh _]].
  destruct ip as [|c r].
  - destruct Hh as [Hh|[c [r [Hh _]]]]; discriminate.
  - exists c, r. apply all_digits_inv in Hi. tauto.
Qed.

Lemma is_digit_not c x : is_digit c = true -> is_digit x = false -> (c =? x)%char = false.
Proof. intros Hc Hx. apply Ascii.eqb_neq. intros ->. congruence. Qed.

Lemma read_exponent_text (ex : option (bool * string)) :
  match ex with
  | None => True
  | Some (_, ed) => all_digits ed /\ ed <> EmptyString
  end ->
  strconv.read_exponent
    match ex with
    | None => EmptyString
    | Some (eneg, ed) => String "e" (String (if eneg then "-" else "+")%char ed)
    end
  = Some (exponent_of ex).
Proof.
  destruct ex as [[eneg ed]|]; [|reflexivity].
  intros [Hd Hn]. unfold strconv.read_exponent, exponent_of.
  change ("e" =? "e")%char with true. cbn [orb].
  assert (Hs : strconv.read_sign (String (if eneg then "-" else "+")%char ed) = (eneg, ed))
    by (destruct eneg; reflexivity).
  rewrite Hs.
  pose proof (span_digits_all ed EmptyString Hd I) as E.
  rewrite append_nil_r in E. rewrite E.
  destruct ed as [|c r]; [congruence|reflexivity].
Qed.

Lemma read_decimal_number_text sg ip fp ex :
  well_formed_number ip fp ex ->
  strconv.read_decimal (number_text sg ip fp ex)
  = Some (sg, strconv.digits_value 0 (ip ++ fp),
          exponent_of ex - Z.of_nat (String.length fp)).
Proof.
  intros W. destruct (well_formed_number_head ip fp ex W) as [c0 [r0 [Ei [Hc0 Hr0]]]].
  destruct W as [Hi [_ [Hf He]]].
  unfold strconv.read_decimal, number_text.
  set (expo := match ex with
               | None => EmptyString
               | Some (eneg, ed) => String "e" (String (if eneg then "-" else "+")%char ed)
               end).
  set (frac := match fp with EmptyString => EmptyString | String _ _ => String "." fp end).
  assert (Hs : strconv.read_sign ((if sg then "-" else "") ++ ip ++ frac ++ expo)
               = (sg, ip ++ frac ++ expo)).
  { destruct sg; [reflexivity|]. rewrite Ei. cbn [String.append strconv.read_sign].
    rewrite (is_digit_not c0 "-"), (is_digit_not c0 "+") by (assumption || reflexivity).
    reflexivity. }
  rewrite Hs.
  assert (Hexpo : match expo with String c _ => is_digit c = false | EmptyString => True end).
  { subst expo. destruct ex as [[eneg ed]|]; [reflexivity|exact I]. }
  assert (Hip : span_digits (ip ++ frac ++ expo) = (ip, frac ++ expo)).
  { apply span_digits_all; [exact Hi|].
    subst frac. destruct fp; [|reflexivity]. exact Hexpo. }
  rewrite Hip.
  assert (Hfp : match frac ++ expo with
                | String c r => if (c =? ".")%char then span_digits r
                                else (EmptyString, frac ++ expo)
                | EmptyString => (EmptyString, frac ++ expo)
                end = (fp, expo)).
  { subst frac. destruct fp as [|d fp'].
    - cbn [String.append]. subst expo. destruct ex as [[eneg ed]|]; reflexivity.
    - cbn [String.append]. change ("." =? ".")%char with true. cbv iota.
      change (String d (fp' ++ expo)) with (String d fp' ++ expo).
      now apply span_digits_all. }
  rewrite Hfp. rewrite Ei. cbn [String.append].
  subst expo. rewrite (read_exponent_text ex He). reflexivity.
Qed.

Lemma ends_number_spec rest :
  ends_number rest = true ->
  match rest with
  | String c _ =>
    is_digit c = false /\ (c =? ".")%char = false
    /\ (c =? "e")%char = false /\ (c =? "E")%char = false
  | EmptyString => True
  end.
Proof.
  destruct rest as [|c r]; [trivial|]. cbn [ends_number]. intros H.
  apply negb_true_iff in H. repeat (apply orb_false_elim in H; destruct H as [H ?]).
  auto.
Qed.

Lemma scan_number_number_text sg ip fp ex rest :
  well_formed_number ip fp ex -> ends_number rest = true ->
  json.scan_number (number_text sg ip fp ex ++ rest)
  = Some (number_text sg ip fp ex, rest).
Proof.
  intros W Hr. apply ends_number_spec in Hr.
  destruct (well_formed_number_head ip fp ex W) as [c0 [r0 [Ei [Hc0 Hr0]]]].
  destruct W as [Hi [Hh [Hf He]]].
  unfold number_text.
  set (expo := match ex with
               | None => EmptyString
               | Some (eneg, ed) => String "e" (String (if eneg then "-" else "+")%char ed)
               end).
  set (frac := match fp with EmptyString => EmptyString | String _ _ => String "." fp end).
  rewrite !append_assoc. unfold json.scan_number.
  assert (Hs : match (if sg then "-" else "") ++ ip ++ frac ++ expo ++ rest with
               | String c r => if (c =? "-")%char then ("-", r)
                               else (EmptyString, (if sg then "-" else "") ++ ip ++ frac ++ expo ++ rest)
               | EmptyString => (EmptyString, (if sg then "-" else "") ++ ip ++ frac ++ expo ++ rest)
               end = (if sg then "-" else "", ip ++ frac ++ expo ++ rest)).
  { destruct sg; [reflexivity|]. rewrite Ei. cbn [String.append].
    rewrite (is_digit_not c0 "-") by (assumption || reflexivity). reflexivity. }
  rewrite Hs. clear Hs.
  assert (Hrest : match rest with String c _ => is_digit c = false | EmptyString => True end).
  { destruct rest; tauto. }
  assert (Hexpo : match expo ++ rest with
                  | String c _ => is_digit c = false | EmptyString => True end).
  { subst expo. destruct ex as [[eneg ed]|]; [reflexivity|exact Hrest]. }
  assert (Hfrac : match frac ++ expo ++ rest with
                  | String c _ => is_digit c = false | EmptyString => True end).
  { subst frac. destruct fp; [exact Hexpo|reflexivity]. }
  assert (Hint : json.scan_int (ip ++ frac ++ expo ++ rest) = Some (ip, frac ++ expo ++ rest)).
  { destruct Hh as [->|[c [r [-> Hc]]]]; [reflexivity|].
    cbn [String.append json.scan_int].
    apply all_digits_inv in Hi. destruct Hi as [Hd Hr'].
    replace (c =? "0")%char with false by (symmetry; now apply Ascii.eqb_neq).
    rewrite Hd, (span_digits_all r _ Hr' Hfrac). reflexivity. }
  rewrite Hint.
  assert (Hfr : json.scan_frac (frac ++ expo ++ rest) = Some (frac, expo ++ rest)).
  { subst frac. destruct fp as [|d fp'].
    - cbn [String.append]. unfold json.scan_frac.
      destruct (expo ++ rest) as [|c r] eqn:E; [reflexivity|].
      replace (c =? ".")%char with false; [reflexivity|].
      subst expo. destruct ex as [[eneg ed]|].
      + cbn in E. now injection E as <- _.
      + cbn in E. subst rest. symmetry. tauto.
    - cbn [String.append json.scan_frac]. change ("." =? ".")%char with true. cbv iota.
      change (String d (fp' ++ expo ++ rest)) with (String d fp' ++ expo ++ rest).
      rewrite (span_digits_all (String d fp') _ Hf Hexpo). reflexivity. }
  rewrite Hfr.
  assert (Hex : json.scan_exp (expo ++ rest) = Some (expo, rest)).
  { subst expo. destruct ex as [[eneg ed]|].
    - destruct He as [Hd Hn]. cbn [String.append json.scan_exp].
      change ("e" =? "e")%char with true. cbn [orb].
      replace (((if eneg then "-" else "+") =? "+") || ((if eneg then "-" else "+") =? "-"))%char
        with true by (destruct eneg; reflexivity).
      rewrite (span_digits_all ed _ Hd Hrest).
      destruct ed as [|c r]; [congruence|reflexivity].
    - cbn [String.append]. unfold json.scan_exp.
      destruct rest as [|c r]; [reflexivity|].
      destruct Hr as [_ [_ [H1 H2]]]. rewrite H1, H2. reflexivity. }
  rewrite Hex. reflexivity.
Qed.

(** ** The layout of a formatted float *)

Lemma take_all n : forall s, (String.length s <= n)%nat -> take n s = s.
Proof.
  induction n as [|n IH]; intros [|c s] H; cbn in *; try reflexivity; try lia.
  rewrite IH by lia. reflexivity.
Qed.

Lemma digit_at_neg digs j : j < 0 -> strconv.digit_at digs j = "0"%char.
Proof.
  intros H. unfold strconv.digit_at.
  replace (0 <=? j) with false by (symmetry; apply Z.leb_gt; lia). reflexivity.
Qed.

Lemma digit_at_0 c r : strconv.digit_at (String c r) 0 = c.
Proof. unfold strconv.digit_at. cbn [String.length]. cbn. 
  replace (0 <? Z.pos (Pos.of_succ_nat (String.length r))) with true by (symmetry; apply Z.ltb_lt; lia).
  reflexivity.
Qed.

Lemma digit_at_succ c r j : 0 <= j -> strconv.digit_at (String c r) (j + 1) = strconv.digit_at r j.
Proof.
  intros H. unfold strconv.digit_at. cbn [String.length].
  replace (Z.to_nat (j + 1)) with (S (Z.to_nat j)) by lia. cbn [String.get].
  replace (0 <=? j + 1) with true by (symmetry; apply Z.leb_le; lia).
  replace (0 <=? j) with true by (symmetry; apply Z.leb_le; lia).
  cbn [andb].
  destruct (Z.ltb_spec j (Z.of_nat (String.length r)));
    destruct (Z.ltb_spec (j + 1) (Z.of_nat (S (String.length r)))); try lia; reflexivity.
Qed.

Lemma digits_from_succ c r n : forall j,
  0 <= j -> strconv.digits_from (String c r) (j + 1) n = strconv.digits_from r j n.
Proof.
  induction n as [|n IH]; intros j H; cbn [strconv.digits_from]; [reflexivity|].
  rewrite digit_at_succ, IH by lia. reflexivity.
Qed.

Lemma digits_from_all digs : strconv.digits_from digs 0 (String.length digs) = digs.
Proof.
  induction digs as [|c r IH]; [reflexivity|].
  cbn [String.length strconv.digits_from].
  rewrite digit_at_0, (digits_from_succ c r _ 0), IH by lia. reflexivity.
Qed.

Lemma digits_from_drop j : forall digs,
  (j <= String.length digs)%nat ->
  strconv.digits_from digs (Z.of_nat j) (String.length digs - j) = drop j digs.
Proof.
  induction j as [|j IH]; intros digs H.
  - rewrite Nat.sub_0_r. apply digits_from_all.
  - destruct digs as [|c r]; [cbn in H; lia|].
    cbn [String.length drop] in *.
    replace (Z.of_nat (S j)) with (Z.of_nat j + 1) by lia.
    rewrite digits_from_succ by lia. apply IH. lia.
Qed.

Lemma digits_from_zeros digs k : forall m,
  strconv.digits_from digs (- Z.of_nat k) (k + m)
  = repeat_string k "0" ++ strconv.digits_from digs 0 m.
Proof.
  induction k as [|k IH]; intros m; [reflexivity|].
  cbn [Nat.add strconv.digits_from repeat_string].
  rewrite digit_at_neg by lia.
  replace (- Z.of_nat (S k) + 1) with (- Z.of_nat k) by lia.
  rewrite IH. reflexivity.
Qed.

Lemma number_text_sign sg ip fp ex :
  number_text sg ip fp ex = (if sg then "-" else "") ++ number_text false ip fp ex.
Proof. reflexivity. Qed.

Lemma fmtF_shape c x :
  0 < c ->
  exists ip fp,
    strconv.fmtF (strconv.digits_of c) (strconv.num_digits c + x)
    = number_text false ip fp None
    /\ well_formed_number ip fp None
    /\ strconv.floatBits (strconv.digits_value 0 (ip ++ fp))
         (exponent_of None - Z.of_nat (String.length fp))
       = strconv.floatBits c x.
Proof.
  intros Hc.
  destruct (digits_of_spec c ltac:(lia)) as [Hd [Hv [Hne _]]].
  destruct (digits_of_head c Hc) as [d0 [r0 [Ed Hd0]]].
  unfold strconv.num_digits, strconv.fmtF.
  set (digs := strconv.digits_of c) in *.
  set (nd := String.length digs).
  assert (Hnd : (1 <= nd)%nat) by (subst nd; rewrite Ed; cbn; lia).
  replace (Z.of_nat nd - (Z.of_nat nd + x)) with (- x) by lia.
  destruct (Z.ltb_spec 0 (Z.of_nat nd + x)) as [Hdp|Hdp].
  - destruct (Z.le_gt_cases 0 x) as [Hx|Hx].
    + (* an integer *)
      exists (digs ++ repeat_string (Z.to_nat x) "0"), EmptyString.
      rewrite Z.max_r by lia. cbn [Z.to_nat].
      rewrite take_all by (fold nd; lia).
      replace (Z.to_nat (Z.of_nat nd + x) - nd)%nat with (Z.to_nat x) by lia.
      split; [|split].
      * unfold number_text. cbn [String.append]. now rewrite !append_nil_r.
      * split; [apply all_digits_app; [exact Hd|apply all_digits_zeros]|].
        split; [right; exists d0, (r0 ++ repeat_string (Z.to_nat x) "0");
                split; [now rewrite Ed|exact Hd0]|].
        split; [apply all_digits_nil|exact I].
      * rewrite append_nil_r, digits_value_app, Hv, digits_value_zeros,
          length_repeat_string.
        cbn [exponent_of String.length]. rewrite Z.add_0_r, Z2Nat.id by lia.
        rewrite <- (floatBits_scale c x x) by lia. f_equal. lia.
    + (* digits on both sides of the point *)
      set (n := Z.to_nat (Z.of_nat nd + x)).
      assert (Hn : (0 < n < nd)%nat) by lia.
      exists (take n digs), (drop n digs).
      rewrite Z.max_l by lia.
      replace (Z.to_nat (- x)) with (nd - n)%nat by lia.
      replace (n - nd)%nat with 0%nat by lia.
      replace (Z.of_nat nd + x) with (Z.of_nat n) by lia.
      rewrite digits_from_drop by (fold nd; lia).
      assert (Hl : String.length (drop n digs) = (nd - n)%nat) by apply length_drop.
      split; [|split].
      * unfold number_text. cbn [repeat_string String.append].
        rewrite !append_nil_r.
        destruct (nd - n)%nat eqn:E; [lia|].
        destruct (drop n digs); [discriminate|reflexivity].
      * pose proof (take_drop n digs) as TD.
        rewrite <- TD in Hd. apply all_digits_app_inv in Hd. destruct Hd as [H1 H2].
        split; [exact H1|]. split; [|split; [exact H2|exact I]].
        right. exists d0, (take (Nat.pred n) r0). split; [|exact Hd0].
        rewrite Ed. destruct n; [lia|reflexivity].
      * rewrite take_drop, Hv, Hl. cbn [exponent_of]. f_equal. lia.
  - (* below one *)
    set (k := Z.to_nat (- (Z.of_nat nd + x))).
    exists "0"%string, (repeat_string k "0" ++ digs).
    rewrite Z.max_l by lia.
    replace (Z.to_nat (- x)) with (k + nd)%nat by lia.
    replace (Z.of_nat nd + x) with (- Z.of_nat k) by lia.
    rewrite digits_from_zeros. subst nd. rewrite digits_from_all.
    split; [|split].
    + unfold number_text. rewrite append_nil_r.
      destruct (k + String.length digs)%nat eqn:E; [lia|].
      destruct (repeat_string k "0" ++ digs) eqn:E2; [|reflexivity].
      apply (f_equal String.length) in E2. rewrite length_append in E2. cbn [String.length] in E2. lia.
    + split; [apply all_digits_cons; [reflexivity|apply all_digits_nil]|].
      split; [now left|].
      split; [apply all_digits_app; [apply all_digits_zeros|exact Hd]|exact I].
    + cbn [String.append]. 
      change (strconv.digits_value 0 (String "0" (repeat_string k "0" ++ digs)))
        with (strconv.digits_value 0 (repeat_string k "0" ++ digs)).
      rewrite digits_value_app, digits_value_zeros, Hv, length_append,
        length_repeat_string.
      cbn [exponent_of]. f_equal; lia.
Qed.

Lemma clean_exp_cons c r :
  (c =? "e")%char = false -> json.clean_exp (String c r) = String c (json.clean_exp r).
Proof.
  intros H. cbn [json.clean_exp]. rewrite H. cbn [andb].
  destruct r as [|m [|z [|d [|]]]]; reflexivity.
Qed.

Lemma clean_exp_digits ds tail :
  all_digits ds -> json.clean_exp (ds ++ tail) = ds ++ json.clean_exp tail.
Proof.
  induction ds as [|c ds IH]; intros H; [reflexivity|].
  apply all_digits_inv in H. destruct H as [Hc H].
  cbn [String.append]. rewrite clean_exp_cons, IH by (auto using is_digit_not).
  reflexivity.
Qed.

Lemma digit_char_nonzero a : 1 <= a <= 9 -> (strconv.digit_char a =? "0")%char = false.
Proof.
  intros H. apply Ascii.eqb_neq. intros E.
  apply (f_equal strconv.digit_val) in E. rewrite digit_val_char in E by lia.
  cbn in E. lia.
Qed.

(** The exponent of the e format, after the clean-up. *)
Lemma clean_exp_exponent (eneg : bool) aex :
  0 <= aex < 1000 ->
  exists ed,
    json.clean_exp
      (String "e" (String (if eneg then "-"%char else "+"%char)
         (if aex <? 10 then String "0" (String (strconv.digit_char aex) EmptyString)
          else if aex <? 100 then
            String (strconv.digit_char (aex / 10))
              (String (strconv.digit_char (aex mod 10)) EmptyString)
          else
            String (strconv.digit_char (aex / 100))
              (String (strconv.digit_char ((aex / 10) mod 10))
                (String (strconv.digit_char (aex mod 10)) EmptyString)))))
    = String "e" (String (if eneg then "-" else "+")%char ed)
    /\ all_digits ed /\ ed <> EmptyString /\ strconv.exp_value 0 ed = aex.
Proof.
  intros H.
  assert (D0 : forall a, 0 <= a <= 9 ->
             all_digits (String (strconv.digit_char a) EmptyString)).
  { intros a Ha. apply all_digits_cons; [now apply digit_char_is_digit|apply all_digits_nil]. }
  destruct (Z.ltb_spec aex 10) as [H1|H1]; [|destruct (Z.ltb_spec aex 100) as [H2|H2]].
  - destruct eneg.
    + exists (String (strconv.digit_char aex) EmptyString).
      split; [reflexivity|]. split; [apply D0; lia|]. split; [discriminate|].
      cbn [strconv.exp_value]. rewrite digit_val_char by lia. reflexivity.
    + exists (String "0" (String (strconv.digit_char aex) EmptyString)).
      split; [reflexivity|].
      split; [apply all_digits_cons; [reflexivity|apply D0; lia]|].
      split; [discriminate|].
      cbn [strconv.exp_value]. rewrite digit_val_char by lia. reflexivity.
  - assert (1 <= aex / 10 <= 9) by (Z.to_euclidean_division_equations; lia).
    pose proof (Z.mod_pos_bound aex 10 ltac:(lia)).
    exists (String (strconv.digit_char (aex / 10))
              (String (strconv.digit_char (aex mod 10)) EmptyString)).
    split.
    { destruct eneg; cbn [json.clean_exp]; [|reflexivity].
      rewrite digit_char_nonzero by assumption. reflexivity. }
    split; [apply all_digits_cons; [apply digit_char_is_digit; lia|apply D0; lia]|].
    split; [discriminate|].
    cbn [strconv.exp_value]. rewrite !digit_val_char by lia.
    cbn [Z.ltb Z.compare Z.mul Z.add].
    replace (aex / 10 <? 10000) with true by (symmetry; apply Z.ltb_lt; lia).
    pose proof (Z.div_mod aex 10 ltac:(lia)). lia.
  - assert (1 <= aex / 100 <= 9) by (Z.to_euclidean_division_equations; lia).
    pose proof (Z.mod_pos_bound aex 10 ltac:(lia)).
    pose proof (Z.mod_pos_bound (aex / 10) 10 ltac:(lia)).
    exists (String (strconv.digit_char (aex / 100))
              (String (strconv.digit_char ((aex / 10) mod 10))
                (String (strconv.digit_char (aex mod 10)) EmptyString))).
    split; [destruct eneg; reflexivity|].
    split; [apply all_digits_cons; [apply digit_char_is_digit; lia|
            apply all_digits_cons; [apply digit_char_is_digit; lia|apply D0; lia]]|].
    split; [discriminate|].
    cbn [strconv.exp_value]. rewrite !digit_val_char by lia.
    cbn [Z.ltb Z.compare Z.mul Z.add].
    replace (aex / 100 <? 10000) with true by (symmetry; apply Z.ltb_lt; lia).
    replace (aex / 100 * 10 + (aex / 10) mod 10 <? 10000) with true
      by (symmetry; apply Z.ltb_lt; lia).
    pose proof (Z.div_mod aex 10 ltac:(lia)).
    pose proof (Z.div_mod (aex / 10) 10 ltac:(lia)).
    replace (aex / 100) with (aex / 10 / 10) in * by (rewrite Z.div_div by lia; reflexivity).
    lia.
Qed.

Lemma fmtE_shape (sg : bool) c x :
  0 < c -> -1000 < strconv.num_digits c + x - 1 < 1000 ->
  exists ip fp ex,
    json.clean_exp ((if sg then "-" else "")
                    ++ strconv.fmtE (strconv.digits_of c) (strconv.num_digits c + x))
    = number_text sg ip fp ex
    /\ well_formed_number ip fp ex
    /\ strconv.floatBits (strconv.digits_value 0 (ip ++ fp))
         (exponent_of ex - Z.of_nat (String.length fp))
       = strconv.floatBits c x.
Proof.
  intros Hc Hb.
  destruct (digits_of_spec c ltac:(lia)) as [Hd [Hv [Hne _]]].
  destruct (digits_of_head c Hc) as [d0 [r0 [Ed Hd0]]].
  unfold strconv.num_digits in *. unfold strconv.fmtE.
  rewrite Ed in *. cbn [String.length Nat.eqb Nat.pred drop] in *.
  rewrite digit_at_0.
  set (ex := Z.of_nat (S (String.length r0)) + x - 1) in *.
  apply all_digits_inv in Hd. destruct Hd as [Hd0' Hr0].
  destruct (clean_exp_exponent (ex <? 0) (Z.abs ex) ltac:(lia)) as [ed [Ec [Hed [Hen Hev]]]].
  exists (String d0 EmptyString), r0, (Some (ex <? 0, ed)).
  split; [|split].
  - assert (Hpre : forall t,
      json.clean_exp ((if sg then "-" else "") ++ String d0 t)
      = (if sg then "-" else "") ++ String d0 (json.clean_exp t)).
    { intros t. destruct sg; cbn [String.append].
      - rewrite !clean_exp_cons by (auto using is_digit_not). reflexivity.
      - rewrite clean_exp_cons by (auto using is_digit_not). reflexivity. }
    rewrite Hpre. unfold number_text. cbn [String.append]. do 2 f_equal.
    destruct r0 as [|d1 r1]; cbn [String.length String.append].
    + exact Ec.
    + rewrite clean_exp_cons by reflexivity.
      change (String d1 (r1 ++ ?t)) with (String d1 r1 ++ t).
      rewrite clean_exp_digits by exact Hr0. cbn [String.append]. now rewrite Ec.
  - split; [apply all_digits_cons; [exact Hd0'|apply all_digits_nil]|].
    split; [right; exists d0, EmptyString; auto|].
    split; [exact Hr0|]. split; assumption.
  - cbn [String.append]. rewrite Hv. f_equal. cbn [exponent_of]. rewrite Hev.
    destruct (Z.ltb_spec ex 0); lia.
Qed.

(** ** Numbers: reading what was encoded *)

Lemma encode_float_shape f :
  valid_float f ->
  exists ip fp ex,
    json.encode_float f = number_text (strconv.neg f) ip fp ex
    /\ well_formed_number ip fp ex
    /\ strconv.floatBits (strconv.digits_value 0 (ip ++ fp))
         (exponent_of ex - Z.of_nat (String.length fp))
       = Some (strconv.mant f, strconv.exp f).
Proof.
  destruct f as [sg m e]. unfold valid_float. cbn [strconv.mant strconv.exp strconv.neg].
  intros Can. unfold json.encode_float, strconv.FormatFloat, strconv.shortest_digits.
  cbn [strconv.mant strconv.exp strconv.neg].
  destruct (Z.eqb_spec m 0) as [->|Hm].
  - exists "0"%string, EmptyString, None.
    split; [destruct sg; reflexivity|].
    split.
    + split; [apply all_digits_cons; [reflexivity|apply all_digits_nil]|].
      split; [now left|]. split; [apply all_digits_nil|exact I].
    + destruct Can as [_ [_ He]]. rewrite He; [reflexivity|].
      change (2 ^ 52) with 4503599627370496. lia.
  - assert (Hpos : 0 < m) by (destruct Can; lia).
    destruct (strconv.shortest m e) as [c x] eqn:Es.
    destruct (shortest_spec m e c x Can Hpos Es) as [Hc HF].
    pose proof (floatBits_point c x m e Hc HF Hm) as Hp.
    cbn [negb andb].
    destruct (_ || _).
    + change ("e" =? "e")%char with true. cbv iota.
      destruct (fmtE_shape sg c x Hc ltac:(lia)) as [ip [fp [ex [E [W V]]]]].
      exists ip, fp, ex. split; [exact E|]. split; [exact W|]. now rewrite V.
    + change ("f" =? "e")%char with false. cbv iota.
      destruct (fmtF_shape c x Hc) as [ip [fp [E [W V]]]].
      exists ip, fp, None. split; [|split; [exact W|now rewrite V]].
      rewrite E. reflexivity.
Qed.

Lemma ParseFloat_encode_float f :
  valid_float f -> strconv.ParseFloat (json.encode_float f) = Ok f.
Proof.
  intros Hf. destruct (encode_float_shape f Hf) as [ip [fp [ex [E [W V]]]]].
  unfold strconv.ParseFloat. rewrite E, (read_decimal_number_text _ _ _ _ W), V.
  now destruct f.
Qed.

Lemma scan_number_encode_float f rest :
  valid_float f -> ends_number rest = true ->
  json.scan_number (json.encode_float f ++ rest) = Some (json.encode_float f, rest).
Proof.
  intros Hf Hr. destruct (encode_float_shape f Hf) as [ip [fp [ex [E [W V]]]]].
  rewrite E. now apply scan_number_number_text.
Qed.

Lemma encode_float_head f :
  valid_float f ->
  exists c r, json.encode_float f = String c r
    /\ ((c =? "-")%char || is_digit c) = true.
Proof.
  intros Hf. destruct (encode_float_shape f Hf) as [ip [fp [ex [E [W V]]]]].
  destruct (well_formed_number_head ip fp ex W) as [c0 [r0 [Ei [Hc0 _]]]].
  rewrite E. unfold number_text. destruct (strconv.neg f).
  - eexists _, _. split; [reflexivity|reflexivity].
  - rewrite Ei. eexists _, _. split; [reflexivity|]. rewrite Hc0. apply orb_true_r.
Qed.

(** What [ParseFloat] returns is a float64 in canonical form. *)
Lemma ParseFloat_valid s f : strconv.ParseFloat s = Ok f -> valid_float f.
Proof.
  unfold strconv.ParseFloat, strconv.read_decimal.
  destruct (strconv.read_sign s) as [sg s1].
  destruct (span_digits s1) as [ip s2] eqn:E1.
  destruct (match s2 with
            | String c r => if (c =? ".")%char then span_digits r else (EmptyString, s2)
            | EmptyString => (EmptyString, s2)
            end) as [fp s3] eqn:E2.
  assert (Hfp : all_digits fp).
  { destruct s2 as [|c r].
    - injection E2 as <- _. apply all_digits_nil.
    - destruct (c =? ".")%char.
      + eapply span_digits_digits; eauto.
      + injection E2 as <- _. apply all_digits_nil. }
  apply span_digits_digits in E1.
  destruct (ip ++ fp) eqn:E3; [discriminate|]. rewrite <- E3.
  destruct (strconv.read_exponent s3) as [ev|]; [|discriminate].
  destruct (strconv.floatBits _ _) as [[m e]|] eqn:EF; [|discriminate].
  intros [= <-]. unfold valid_float. cbn [strconv.mant strconv.exp].
  eapply floatBits_canonical; [|exact EF].
  apply digits_value_nonneg. now apply all_digits_app.
Qed.

(** ** Scanning what was encoded: scalars *)

Lemma value_start_spec c :
  value_start c = true ->
  json.isSpace c = false /\ (c =? "]")%char = false /\ (c =? "}")%char = false.
Proof.
  destruct c as [b0 b1 b2 b3 b4 b5 b6 b7].
  destruct b0, b1, b2, b3, b4, b5, b6, b7; vm_compute; intros H;
    try discriminate H; repeat split.
Qed.

Lemma number_start_spec c :
  ((c =? "-")%char || is_digit c) = true ->
  (c =? "{")%char = false /\ (c =? "[")%char = false /\ (c =? dquote)%char = false
  /\ value_start c = true.
Proof.
  destruct c as [b0 b1 b2 b3 b4 b5 b6 b7].
  destruct b0, b1, b2, b3, b4, b5, b6, b7; vm_compute; intros H;
    try discriminate H; repeat split.
Qed.

Lemma skip_space_start c r :
  value_start c = true -> json.skip_space (String c r) = String c r.
Proof.
  intros H. apply value_start_spec in H. destruct H as [H _].
  cbn [json.skip_space]. now rewrite H.
Qed.

Lemma length_encode_string_body s :
  utf8_valid s -> forall fe,
    (String.length s <= fe)%nat ->
    (String.length s <= String.length (json.encode_string_body fe s))%nat.
Proof.
  induction 1 as [|c s Hc Hs IH|r s Hr Hs IH]; intros fe Hfe.
  - cbn. lia.
  - destruct fe as [|fe]; [cbn in Hfe; lia|].
    cbn [String.length] in Hfe. cbn [json.encode_string_body String.length].
    replace (code c <? utf8.RuneSelf)%N with true by (symmetry; now apply N.ltb_lt).
    rewrite length_append. specialize (IH fe ltac:(lia)).
    assert (1 <= String.length (if json.htmlSafe c then String c EmptyString
                                else json.escape_byte c))%nat.
    { destruct (json.htmlSafe c); [cbn; lia|]. unfold json.escape_byte. cbn. lia. }
    lia.
  - rewrite length_append in Hfe.
    destruct (EncodeRune_decode r s Hr) as [c [p [n [E [Hc [Hn [H2 D]]]]]]].
    destruct fe as [|fe]; [lia|].
    rewrite (encode_rune_piece r fe s Hr), !length_append.
    specialize (IH fe ltac:(lia)).
    assert (String.length (utf8.EncodeRune r) <= 4)%nat.
    { unfold utf8.EncodeRune.
      repeat match goal with |- context [if ?b then _ else _] => destruct b end;
        cbn; lia. }
    destruct ((r =? 8232) || (r =? 8233))%N.
    + change (String.length (String backslash "u202"
                             ++ String (json.hex_digit (N.land r 15)) EmptyString))
        with 6%nat.
      lia.
    + lia.
Qed.

Lemma scan_encoded_key s rest :
  utf8_valid s ->
  exists r0,
    json.encode_string s ++ rest = String dquote r0
    /\ json.scan_string (String.length r0) r0 = Some (s, rest).
Proof.
  intros Hs. unfold json.encode_string.
  exists (json.encode_string_body (String.length s) s ++ String dquote rest).
  split; [cbn [String.append]; now rewrite append_assoc|].
  apply scan_encoded_string; [exact Hs|lia|].
  rewrite length_append. cbn [String.length].
  pose proof (length_encode_string_body s Hs (String.length s) ltac:(lia)). lia.
Qed.

Lemma reads_back_nil : reads_back json.VNil.
Proof. intros d rest _ _. exists 1%nat, json.ANull. repeat split. Qed.

Lemma reads_back_bool b : reads_back (json.VBool b).
Proof.
  intros d rest _ _. exists 1%nat, (json.ABool b).
  destruct b; repeat split.
Qed.

Lemma reads_back_string s : utf8_valid s -> reads_back (json.VString s).
Proof.
  intros Hs d rest _ _. exists 1%nat, (json.AStr s).
  split; [|reflexivity].
  destruct (scan_encoded_key s rest Hs) as [r0 [E Sc]].
  cbn [json.encode]. rewrite E. cbn [json.scan_value].
  change (dquote =? "{")%char with false. change (dquote =? "[")%char with false.
  rewrite Ascii.eqb_refl. cbv iota. now rewrite Sc.
Qed.

Lemma reads_back_float f : valid_float f -> reads_back (json.VFloat64 f).
Proof.
  intros Hf d rest _ Hr. exists 1%nat, (json.ANum (json.encode_float f)).
  split.
  - cbn [json.encode].
    pose proof (scan_number_encode_float f rest Hf Hr) as Sc.
    destruct (encode_float_head f Hf) as [c [r [E Hc]]].
    rewrite E in *. cbn [String.append json.scan_value] in *.
    destruct (number_start_spec c Hc) as [H1 [H2 [H3 _]]].
    rewrite H1, H2, H3, Hc. cbv iota.
    change (String c (r ++ rest)) with (String c r ++ rest) in Sc.
    cbn [String.append] in Sc. now rewrite Sc.
  - cbn [json.to_value norm]. now rewrite ParseFloat_encode_float.
Qed.

Lemma encode_head v :
  valid_value v ->
  exists c r, json.encode v = String c r /\ value_start c = true.
Proof.
  intros V. inversion V as [ | b | f Hf | s Hs | xs Hxs | m Hnd Hm]; subst.
  - eexists _, _. split; reflexivity.
  - destruct b; eexists _, _; split; reflexivity.
  - destruct (encode_float_head f Hf) as [c [r [E Hc]]].
    exists c, r. split; [exact E|]. now apply number_start_spec.
  - eexists _, _. split; reflexivity.
  - rewrite encode_slice. eexists _, _. split; reflexivity.
  - rewrite encode_map. eexists _, _. split; reflexivity.
Qed.

(** ** Scanning what was encoded: arrays *)

Lemma join_cons sep (x y : string) r :
  json.join sep (x :: y :: r) = x ++ sep ++ json.join sep (y :: r).
Proof. reflexivity. Qed.

Lemma join_encode_head y r t :
  valid_value y ->
  exists c r0,
    json.join "," (List.map json.encode (y :: r)) ++ t = String c r0
    /\ value_start c = true.
Proof.
  intros V. destruct (encode_head y V) as [c [r0 [E Hc]]].
  cbn [List.map]. destruct r as [|z r].
  - cbn [List.map json.join]. rewrite E. eexists _, _. split; [reflexivity|exact Hc].
  - cbn [List.map]. rewrite join_cons, E. eexists _, _. split; [reflexivity|exact Hc].
Qed.

Lemma nesting_in x xs :
  In x xs -> (nesting x <= fold_right (fun y acc => N.max (nesting y) acc) 0 xs)%N.
Proof.
  induction xs as [|y xs IH]; [contradiction|].
  cbn [fold_right]. intros [->|H]; [lia|]. specialize (IH H). lia.
Qed.

Lemma ends_number_comma r : ends_number (String "," r) = true.
Proof. reflexivity. Qed.

Lemma ends_number_bracket r : ends_number (String "]" r) = true.
Proof. reflexivity. Qed.

Lemma ends_number_brace r : ends_number (String "}" r) = true.
Proof. reflexivity. Qed.

Lemma scan_elems_encoded xs :
  Forall valid_value xs -> Forall reads_back xs -> xs <> [] ->
  forall d rest,
    (forall x, In x xs -> (d + nesting x <= json.maxNestingDepth)%N) ->
    exists f asts,
      json.scan_elems f d (json.join "," (List.map json.encode xs) ++ String "]" rest)
      = Some (asts, rest)
      /\ json.to_values asts = Ok (List.map norm xs).
Proof.
  induction xs as [|x xs IH]; intros V R Hne d rest Hd; [congruence|].
  inversion V as [|? ? Vx Vxs]; subst. inversion R as [|? ? Rx Rxs]; subst.
  destruct xs as [|y r].
  - destruct (Rx d (String "]" rest) (Hd x (or_introl eq_refl)) (ends_number_bracket rest))
      as [f [a [Sc Tv]]].
    exists (S f), [a]. cbn [List.map json.join].
    split.
    + cbn [json.scan_elems]. rewrite Sc. reflexivity.
    + cbn [json.to_values]. now rewrite Tv.
  - destruct (IH Vxs Rxs ltac:(discriminate) d rest
                ltac:(intros z Hz; apply Hd; now right))
      as [f2 [asts [Sc2 Tv2]]].
    set (tail := json.join "," (List.map json.encode (y :: r)) ++ String "]" rest) in *.
    destruct (Rx d (String "," tail) (Hd x (or_introl eq_refl)) (ends_number_comma tail))
      as [f1 [a [Sc1 Tv1]]].
    exists (S (Nat.max f1 f2)), (a :: asts).
    split.
    + cbn [List.map]. rewrite join_cons, !append_assoc.
      change (("," ++ json.join "," (json.encode y :: List.map json.encode r))
              ++ String "]" rest) with (String "," tail).
      cbn [json.scan_elems].
      rewrite (scan_value_mono _ _ _ _ _ Sc1) by lia.
      destruct (join_encode_head y r (String "]" rest) ltac:(now inversion Vxs))
        as [c [r0 [E Hc]]].
      fold tail in E.
      cbn [json.skip_space json.isSpace]. change ("," =? ",")%char with true.
      cbn [orb]. 
      change (json.isSpace ",") with false. cbv iota.
      rewrite E, (skip_space_start c r0 Hc), <- E.
      rewrite (scan_elems_mono _ _ _ _ _ Sc2) by lia. reflexivity.
    + cbn [json.to_values List.map] in *. now rewrite Tv1, Tv2.
Qed.

Lemma reads_back_slice xs :
  Forall valid_value xs -> Forall reads_back xs -> reads_back (json.VSlice xs).
Proof.
  intros V R d rest Hd Hr. cbn [nesting] in Hd.
  assert (Hlt : (d <? json.maxNestingDepth)%N = true) by (apply N.ltb_lt; lia).
  rewrite encode_slice.
  destruct xs as [|x xs].
  - exists 1%nat, (json.AArr []).
    split; [|reflexivity].
    cbn [List.map json.join String.append json.scan_value].
    change ("[" =? "{")%char with false. change ("[" =? "[")%char with true. cbv iota.
    rewrite Hlt. reflexivity.
  - destruct (scan_elems_encoded (x :: xs) V R ltac:(discriminate) (d + 1)%N rest)
      as [f [asts [Sc Tv]]].
    { intros z Hz. pose proof (nesting_in z (x :: xs) Hz). lia. }
    exists (S f), (json.AArr asts).
    split.
    + rewrite !append_assoc. cbn [String.append json.scan_value].
      change ("[" =? "{")%char with false. change ("[" =? "[")%char with true. cbv iota.
      rewrite Hlt.
      destruct (join_encode_head x xs (String "]" rest) ltac:(now inversion V))
        as [c [r0 [E Hc]]].
      rewrite E in *. rewrite (skip_space_start c r0 Hc).
      destruct (value_start_spec c Hc) as [_ [Hb _]]. rewrite Hb, Sc. reflexivity.
    + rewrite to_value_arr, Tv. reflexivity.
Qed.

(** ** Scanning what was encoded: objects *)

Lemma insert_by_key_map {A B : Type} (g : string * A -> string * B) e l :
  (forall x, fst (g x) = fst x) ->
  json.insert_by_key (g e) (List.map g l) = List.map g (json.insert_by_key e l).
Proof.
  intros Hg. induction l as [|e' l IH]; [reflexivity|].
  cbn [List.map json.insert_by_key]. rewrite !Hg.
  destruct (String.ltb (fst e) (fst e')); [reflexivity|].
  cbn [List.map]. now rewrite IH.
Qed.

Lemma sort_by_key_map {A B : Type} (g : string * A -> string * B) l :
  (forall x, fst (g x) = fst x) ->
  json.sort_by_key (List.map g l) = List.map g (json.sort_by_key l).
Proof.
  intros Hg. induction l as [|e l IH]; [reflexivity|].
  cbn [List.map json.sort_by_key]. rewrite IH. now apply insert_by_key_map.
Qed.

Lemma sort_by_key_idem {A : Type} (l : list (string * A)) :
  NoDup (List.map fst l) -> json.sort_by_key (json.sort_by_key l) = json.sort_by_key l.
Proof.
  intros Hnd. apply sort_by_key_unique.
  - eapply Permutation_NoDup; [|exact Hnd].
    apply Permutation_map. symmetry. apply sort_by_key_perm.
  - apply sort_by_key_perm.
Qed.

Lemma map_set_fresh m k v :
  ~ In k (List.map fst m) -> json.map_set m k v = (m ++ [(k, v)])%list.
Proof.
  induction m as [|[k' v'] m IH]; cbn [json.map_set List.map fst In app]; intros H;
    [reflexivity|].
  destruct (String.eqb_spec k' k) as [->|Hk]; [tauto|].
  rewrite IH by tauto. reflexivity.
Qed.

Lemma fold_map_set_fresh l : forall acc,
  NoDup (List.map fst (acc ++ l)%list) ->
  fold_left (fun a e => json.map_set a (fst e) (snd e)) l acc = (acc ++ l)%list.
Proof.
  induction l as [|[k v] l IH]; intros acc H; cbn [fold_left fst snd].
  - now rewrite app_nil_r.
  - rewrite map_app in H. cbn [List.map fst] in H.
    rewrite map_set_fresh.
    + rewrite IH; rewrite <- app_assoc; [reflexivity|].
      rewrite map_app. exact H.
    + apply NoDup_remove_2 in H. intros Hin. apply H. apply in_or_app. now left.
Qed.

Lemma nesting_in_map (e : string * json.value) m :
  In e m ->
  (nesting (snd e) <= fold_right (fun y acc => N.max (nesting (snd y)) acc) 0 m)%N.
Proof.
  induction m as [|y m IH]; [contradiction|].
  cbn [fold_right]. intros [->|H]; [lia|]. specialize (IH H). lia.
Qed.

Lemma members_head (e : string * json.value) r t :
  exists r0,
    json.join ","
      (List.map json.encode_member
         (List.map (fun e : string * json.value => (fst e, json.encode (snd e))) (e :: r))) ++ t
    = String dquote r0.
Proof.
  cbn [List.map]. destruct r as [|z r].
  - cbn [List.map json.join]. eexists. reflexivity.
  - cbn [List.map]. rewrite join_cons. eexists. reflexivity.
Qed.

Lemma scan_member k v tail f a :
  utf8_valid k -> valid_value v ->
  forall d,
    json.scan_value f d (json.encode v ++ tail) = Some (a, tail) ->
    forall ms rest,
      match tail with
      | String c r4 =>
        if (c =? ",")%char then
          exists ms', json.scan_members f d (json.skip_space r4) = Some (ms', rest)
                      /\ ms = ((k, a) :: ms')%list
        else (c =? "}")%char = true /\ r4 = rest /\ ms = [(k, a)]
      | EmptyString => False
      end ->
      json.scan_members (S f) d
        (json.encode_member (k, json.encode v) ++ tail) = Some (ms, rest).
Proof.
  intros Hk Hv d Sc ms rest Ht.
  unfold json.encode_member. cbn [fst snd]. rewrite !append_assoc.
  destruct (scan_encoded_key k (":" ++ json.encode v ++ tail) Hk) as [r0 [E Ss]].
  rewrite E. cbn [json.scan_members]. rewrite Ascii.eqb_refl, Ss.
  cbn [String.append json.skip_space].
  change (json.isSpace ":") with false. cbv iota.
  change (":" =? ":")%char with true. cbv iota.
  destruct (encode_head v Hv) as [c [r [Ev Hc]]].
  assert (Es : json.skip_space (json.encode v ++ tail) = json.encode v ++ tail).
  { rewrite Ev. cbn [String.append]. now apply skip_space_start. }
  rewrite Es, Sc.
  destruct tail as [|c4 r4]; [contradiction|].
  destruct (c4 =? ",")%char eqn:E4.
  - destruct Ht as [ms' [Sm ->]].
    apply Ascii.eqb_eq in E4. subst c4.
    cbn [json.skip_space]. change (json.isSpace ",") with false. cbv iota.
    change ("," =? ",")%char with true. cbv iota. now rewrite Sm.
  - destruct Ht as [Hb [-> ->]]. apply Ascii.eqb_eq in Hb. subst c4.
    reflexivity.
Qed.

Lemma scan_members_encoded (l : list (string * json.value)) :
  Forall (fun e => utf8_valid (fst e) /\ valid_value (snd e)) l ->
  Forall (fun e => reads_back (snd e)) l -> l <> [] ->
  forall d rest,
    (forall e, In e l -> (d + nesting (snd e) <= json.maxNestingDepth)%N) ->
    exists f ms,
      json.scan_members f d
        (json.join ","
           (List.map json.encode_member
              (List.map (fun e => (fst e, json.encode (snd e))) l))
         ++ String "}" rest)
      = Some (ms, rest)
      /\ (forall acc,
            json.to_entries ms acc
            = Ok (fold_left (fun a e => json.map_set a (fst e) (snd e))
                    (List.map (fun e => (fst e, norm (snd e))) l) acc)).
Proof.
  induction l as [|[k v] l IH]; intros V R Hne d rest Hd; [congruence|].
  inversion V as [|? ? [Vk Vv] Vl]; subst. inversion R as [|? ? Rv Rl]; subst.
  cbn [fst snd] in *.
  destruct l as [|y r].
  - destruct (Rv d (String "}" rest) (Hd (k, v) (or_introl eq_refl))
                (ends_number_brace rest)) as [f [a [Sc Tv]]].
    exists (S f), [(k, a)]. cbn [List.map json.join fst snd].
    split.
    + apply (scan_member k v _ f a Vk Vv d Sc). repeat split.
    + intros acc. cbn [json.to_entries fold_left fst snd]. now rewrite Tv.
  - destruct (IH Vl Rl ltac:(discriminate) d rest
                ltac:(intros z Hz; apply Hd; now right))
      as [f2 [ms [Sc2 Tv2]]].
    set (tail := json.join ","
                   (List.map json.encode_member
                      (List.map (fun e => (fst e, json.encode (snd e))) (y :: r)))
                 ++ String "}" rest) in *.
    destruct (Rv d (String "," tail) (Hd (k, v) (or_introl eq_refl))
                (ends_number_comma tail)) as [f1 [a [Sc1 Tv1]]].
    exists (S (Nat.max f1 f2)), ((k, a) :: ms)%list.
    split.
    + cbn [List.map fst snd]. rewrite join_cons, !append_assoc.
      change (("," ++ json.join ","
                 (json.encode_member (fst y, json.encode (snd y))
                  :: List.map json.encode_member
                       (List.map (fun e => (fst e, json.encode (snd e))) r)))
              ++ String "}" rest) with (String "," tail).
      apply (scan_member k v _ (Nat.max f1 f2) a Vk Vv d).
      * eapply scan_value_mono; [exact Sc1|lia].
      * change ("," =? ",")%char with true. cbv iota.
        exists ms. split; [|reflexivity].
        destruct (members_head y r (String "}" rest)) as [r0 E].
        change (tail = String dquote r0) in E.
        change (json.scan_members (Nat.max f1 f2) d (json.skip_space tail)
                = Some (ms, rest)).
        rewrite E.
        rewrite skip_space_start by reflexivity. rewrite <- E.
        eapply scan_members_mono; [exact Sc2|lia].
    + intros acc. cbn [json.to_entries fold_left List.map fst snd] in *.
      now rewrite Tv1, Tv2.
Qed.

Lemma reads_back_map m :
  NoDup (List.map fst m) ->
  Forall (fun e => utf8_valid (fst e) /\ valid_value (snd e)) m ->
  Forall (fun e => reads_back (snd e)) m ->
  reads_back (json.VMap m).
Proof.
  intros Hnd V R d rest Hd Hr. cbn [nesting] in Hd.
  assert (Hlt : (d <? json.maxNestingDepth)%N = true) by (apply N.ltb_lt; lia).
  rewrite encode_map.
  set (g := fun e : string * json.value => (fst e, json.encode (snd e))).
  assert (Hg : forall x, fst (g x) = fst x) by reflexivity.
  rewrite (sort_by_key_map g m Hg).
  pose proof (sort_by_key_perm m) as Hp.
  set (l := json.sort_by_key m) in *.
  assert (Vl : Forall (fun e => utf8_valid (fst e) /\ valid_value (snd e)) l)
    by (eapply Permutation_Forall; [symmetry; exact Hp|exact V]).
  assert (Rl : Forall (fun e => reads_back (snd e)) l)
    by (eapply Permutation_Forall; [symmetry; exact Hp|exact R]).
  assert (Hndl : NoDup (List.map fst l)).
  { eapply Permutation_NoDup; [|exact Hnd]. apply Permutation_map. now symmetry. }
  assert (Hnorm : norm (json.VMap m)
                  = json.VMap (List.map (fun e => (fst e, norm (snd e))) l)).
  { cbn [norm]. unfold l. now rewrite sort_by_key_map. }
  rewrite Hnorm.
  destruct l as [|e l0] eqn:El.
  - exists 1%nat, (json.AObj []).
    split; [|reflexivity].
    cbn [List.map json.join String.append json.scan_value].
    change ("{" =? "{")%char with true. cbv iota. rewrite Hlt. reflexivity.
  - rewrite <- El in *.
    destruct (scan_members_encoded l Vl Rl ltac:(rewrite El; discriminate) (d + 1)%N rest)
      as [f [ms [Sc Tv]]].
    { intros z Hz. assert (Hz' : In z m) by (eapply Permutation_in; eauto).
      pose proof (nesting_in_map z m Hz'). lia. }
    fold g in Sc.
    exists (S f), (json.AObj ms).
    split.
    + rewrite !append_assoc. cbn [String.append json.scan_value].
      change ("{" =? "{")%char with true. cbv iota. rewrite Hlt.
      destruct (members_head e l0 (String "}" rest)) as [r0 E].
      fold g in E. rewrite <- El in E. rewrite E in *.
      rewrite skip_space_start by reflexivity.
      change (dquote =? "}")%char with false. cbv iota. now rewrite Sc.
    + rewrite to_value_obj, Tv, fold_map_set_fresh; [reflexivity|].
      cbn [app]. rewrite map_map. exact Hndl.
Qed.

(** The scanner reads the encoding of every valid value back. *)
Lemma valid_reads_back v : valid_value v -> reads_back v.
Proof.
  induction v as [ | b | f | s | xs IH | m IH] using value_ind';
    intros V; inversion V as [ | | ? Hf | ? Hs | ? Hxs | ? Hnd Hm]; subst.
  - apply reads_back_nil.
  - apply reads_back_bool.
  - now apply reads_back_float.
  - now apply reads_back_string.
  - apply reads_back_slice; [exact Hxs|].
    rewrite Forall_forall in *. auto.
  - apply reads_back_map; [exact Hnd|exact Hm|].
    rewrite Forall_forall in *. intros e He. apply IH; [exact He|].
    now apply Hm.
Qed.

(** ** What Unmarshal produces is valid *)

Lemma scan_valid f :
  (forall d s a rest, json.scan_value f d s = Some (a, rest) -> valid_ast a)
  /\ (forall d s l rest, json.scan_elems f d s = Some (l, rest) -> Forall valid_ast l)
  /\ (forall d s ms rest, json.scan_members f d s = Some (ms, rest) ->
        Forall (fun e => utf8_valid (fst e) /\ valid_ast (snd e)) ms).
Proof.
  induction f as [|f [IHv [IHe IHm]]]; [repeat split; discriminate|].
  repeat split; intros d s a rest H;
    cbn [json.scan_value json.scan_elems json.scan_members] in H.
  - (* value *)
    destruct s as [|c s0]; [discriminate|].
    destruct (c =? "{")%char.
    { destruct (N.ltb d json.maxNestingDepth); [|discriminate].
      destruct (json.skip_space s0) as [|c' r']; [discriminate|].
      destruct (c' =? "}")%char.
      { injection H as <- _. constructor. constructor. }
      destruct (json.scan_members f (d + 1) (String c' r')) as [[ms rest']|] eqn:E;
        [|discriminate].
      injection H as <- _. constructor. eapply IHm; eauto. }
    destruct (c =? "[")%char.
    { destruct (N.ltb d json.maxNestingDepth); [|discriminate].
      destruct (json.skip_space s0) as [|c' r']; [discriminate|].
      destruct (c' =? "]")%char.
      { injection H as <- _. constructor. constructor. }
      destruct (json.scan_elems f (d + 1) (String c' r')) as [[vs rest']|] eqn:E;
        [|discriminate].
      injection H as <- _. constructor. eapply IHe; eauto. }
    destruct (c =? dquote)%char.
    { destruct (json.scan_string (String.length s0) s0) as [[str rest']|] eqn:E;
        [|discriminate].
      injection H as <- _. constructor. eapply scan_string_valid; eauto. }
    destruct ((c =? "-")%char || is_digit c).
    { destruct (json.scan_number (String c s0)) as [[lit rest']|]; [|discriminate].
      injection H as <- _. constructor. }
    unfold json.scan_literal in H.
    destruct (c =? "t")%char.
    { destruct (json.strip_prefix "true" (String c s0)); [|discriminate].
      injection H as <- _. constructor. }
    destruct (c =? "f")%char.
    { destruct (json.strip_prefix "false" (String c s0)); [|discriminate].
      injection H as <- _. constructor. }
    destruct (c =? "n")%char; [|discriminate].
    destruct (json.strip_prefix "null" (String c s0)); [|discriminate].
    injection H as <- _. constructor.
  - (* elements *)
    destruct (json.scan_value f d s) as [[v r0]|] eqn:E; [|discriminate].
    apply IHv in E.
    destruct (json.skip_space r0) as [|c r']; [discriminate|].
    destruct (c =? ",")%char.
    + destruct (json.scan_elems f d (json.skip_space r')) as [[vs rest']|] eqn:E';
        [|discriminate].
      injection H as <- _. constructor; [exact E|]. eapply IHe; eauto.
    + destruct (c =? "]")%char; [|discriminate].
      injection H as <- _. constructor; [exact E|constructor].
  - (* members *)
    destruct s as [|q r0]; [discriminate|].
    destruct (q =? dquote)%char; [|discriminate].
    destruct (json.scan_string (String.length r0) r0) as [[k r1]|] eqn:Ek; [|discriminate].
    apply scan_string_valid in Ek.
    destruct (json.skip_space r1) as [|col r2]; [discriminate|].
    destruct (col =? ":")%char; [|discriminate].
    destruct (json.scan_value f d (json.skip_space r2)) as [[v r3]|] eqn:E; [|discriminate].
    apply IHv in E.
    destruct (json.skip_space r3) as [|c r4]; [discriminate|].
    destruct (c =? ",")%char.
    + destruct (json.scan_members f d (json.skip_space r4)) as [[ms rest']|] eqn:E';
        [|discriminate].
      injection H as <- _. constructor; [split; assumption|]. eapply IHm; eauto.
    + destruct (c =? "}")%char; [|discriminate].
      injection H as <- _. constructor; [split; assumption|constructor].
Qed.

Lemma scan_text_valid s a : json.scan_text s = Some a -> valid_ast a.
Proof.
  unfold json.scan_text.
  destruct (json.scan_value _ 0 (json.skip_space s)) as [[a' rest]|] eqn:E; [|discriminate].
  destruct (json.skip_space rest); [|discriminate].
  intros [= <-]. eapply (proj1 (scan_valid _)); eauto.
Qed.

Lemma map_set_valid m k v :
  utf8_valid k -> valid_value v ->
  Forall (fun e => utf8_valid (fst e) /\ valid_value (snd e)) m ->
  Forall (fun e => utf8_valid (fst e) /\ valid_value (snd e)) (json.map_set m k v).
Proof.
  intros Hk Hv Hm. induction Hm as [|[k0 v0] m H0 Hm IH]; cbn [json.map_set].
  - repeat constructor; assumption.
  - destruct (k0 =? k)%string; constructor; auto.
Qed.

Lemma to_values_valid xs :
  Forall (fun a => forall v, json.to_value a = Ok v -> valid_value v) xs ->
  forall vs, json.to_values xs = Ok vs -> Forall valid_value vs.
Proof.
  induction 1 as [|a xs Ha Hxs IH]; cbn [json.to_values]; intros vs H.
  - injection H as <-. constructor.
  - destruct (json.to_value a) as [v|] eqn:Ev; [|discriminate].
    destruct (json.to_values xs) as [vs'|]; [|discriminate].
    injection H as <-. constructor; auto.
Qed.

Lemma to_entries_valid ms :
  Forall (fun e => utf8_valid (fst e)
                   /\ forall v, json.to_value (snd e) = Ok v -> valid_value v) ms ->
  forall acc m,
    NoDup (List.map fst acc) ->
    Forall (fun e => utf8_valid (fst e) /\ valid_value (snd e)) acc ->
    json.to_entries ms acc = Ok m ->
    NoDup (List.map fst m)
    /\ Forall (fun e => utf8_valid (fst e) /\ valid_value (snd e)) m.
Proof.
  induction 1 as [|[k a] ms [Hk Ha] Hms IH]; cbn [json.to_entries fst snd] in *;
    intros acc m Hnd Hv H.
  - injection H as <-. auto.
  - destruct (json.to_value a) as [v|] eqn:Ev; [|discriminate].
    eapply IH; [| |exact H].
    + now apply map_set_nodup.
    + apply map_set_valid; auto.
Qed.

Lemma to_value_valid a :
  valid_ast a -> forall v, json.to_value a = Ok v -> valid_value v.
Proof.
  induction a as [ | b | l | s | xs IH | ms IH] using ast_ind'; intros Va v H;
    inversion Va as [ | | | ? Hs | ? Hxs | ? Hms]; subst.
  - injection H as <-. constructor.
  - injection H as <-. constructor.
  - cbn [json.to_value] in H.
    destruct (strconv.ParseFloat l) as [f|] eqn:E; [|discriminate].
    injection H as <-. constructor. exact (ParseFloat_valid _ _ E).
  - injection H as <-. now constructor.
  - rewrite to_value_arr in H.
    destruct (json.to_values xs) as [vs|] eqn:E; [|discriminate].
    injection H as <-. constructor.
    eapply to_values_valid; [|exact E].
    rewrite Forall_forall in *. intros x Hx. apply IH; auto.
  - rewrite to_value_obj in H.
    destruct (json.to_entries ms []) as [m|] eqn:E; [|discriminate].
    injection H as <-.
    destruct (to_entries_valid ms) with (acc := @nil (string * json.value)) (m := m)
      as [Hnd Hv]; try assumption; try constructor; try assumption.
    rewrite Forall_forall in *. intros e He. split; [now apply Hms|].
    apply IH; [exact He|]. now apply Hms.
Qed.

Lemma Unmarshal_valid text v : json.Unmarshal text = Ok v -> valid_value v.
Proof.
  unfold json.Unmarshal. destruct (json.scan_text text) as [a|] eqn:E; [|discriminate].
  apply to_value_valid. eapply scan_text_valid; eauto.
Qed.

Lemma Unmarshal_map_valid text m :
  json.Unmarshal_map text = Ok (Some m) -> valid_value (json.VMap m).
Proof.
  intros H. apply (Unmarshal_valid text). now apply Unmarshal_map_Unmarshal.
Qed.

(** ** The timestamp and the signature are ASCII *)

Lemma all_digits_valid s : all_digits s -> utf8_valid s.
Proof.
  induction s as [|c s IH]; intros H; [constructor|].
  apply all_digits_inv in H. destruct H as [Hc Hs].
  constructor; [|auto].
  unfold is_digit in Hc. apply andb_prop in Hc. destruct Hc as [_ Hc].
  apply N.leb_le in Hc. lia.
Qed.

Lemma appendInt_digits n w : all_digits (time.appendInt n w).
Proof.
  unfold time.appendInt. apply all_digits_app; [apply all_digits_zeros|].
  apply digits_of_spec. lia.
Qed.

Lemma trim_right_zeros_digits s : all_digits s -> all_digits (time.trim_right_zeros s).
Proof.
  induction s as [|c s IH]; intros H; [exact H|].
  apply all_digits_inv in H. destruct H as [Hc Hs]. specialize (IH Hs).
  cbn [time.trim_right_zeros].
  destruct (time.trim_right_zeros s) as [|c' r'].
  - destruct (c =? "0")%char; [apply all_digits_nil|].
    apply all_digits_cons; [exact Hc|apply all_digits_nil].
  - now apply all_digits_cons.
Qed.

Lemma RFC3339Nano_valid t : utf8_valid (time.RFC3339Nano t).
Proof.
  unfold time.RFC3339Nano, time.appendNano.
  repeat first
    [ apply utf8_valid_app; [apply all_digits_valid, appendInt_digits|]
    | apply (utf8_valid_ascii "-"); [reflexivity|]
    | apply (utf8_valid_ascii ":"); [reflexivity|]
    | apply (utf8_valid_ascii "T"); [reflexivity|] ].
  apply utf8_valid_app.
  - destruct (time.Nanosecond t =? 0)%N; [constructor|].
    apply (utf8_valid_ascii "."); [reflexivity|].
    apply all_digits_valid, trim_right_zeros_digits, appendInt_digits.
  - apply (utf8_valid_ascii "Z"); [reflexivity|constructor].
Qed.

Lemma encode_char_ascii v : (code (base64.encode_char v) < 128)%N.
Proof.
  unfold base64.encode_char.
  assert (H : forall s n c,
             forallb (fun x => (code x <? 128)%N) (list_ascii_of_string s) = true ->
             String.get n s = Some c -> (code c < 128)%N).
  { induction s as [|x s IH]; intros n c Hs Hg; [discriminate|].
    cbn [list_ascii_of_string forallb] in Hs. apply andb_prop in Hs. destruct Hs as [Hx Hs].
    destruct n as [|n]; cbn [String.get] in Hg.
    - injection Hg as <-. now apply N.ltb_lt.
    - eapply IH; eauto. }
  destruct (String.get (N.to_nat v) base64.encodeStd) as [c|] eqn:E.
  - eapply H; [|exact E]. vm_compute. reflexivity.
  - vm_compute. reflexivity.
Qed.

Lemma EncodeToString_valid m : utf8_valid (base64.EncodeToString m).
Proof.
  assert (P : (code base64.padChar < 128)%N) by (vm_compute; reflexivity).
  induction m as [|a|a b|a b c r IH] using string_ind3;
    cbn [base64.EncodeToString]; unfold base64.sextet;
    repeat (constructor; [apply encode_char_ascii || exact P|]);
    try constructor; assumption.
Qed.

(** ** The nesting of the payload with its timestamp *)

Lemma nesting_map_set m k v :
  (fold_right (fun e acc => N.max (nesting (snd e)) acc) 0 (json.map_set m k v)
   <= N.max (fold_right (fun e acc => N.max (nesting (snd e)) acc) 0 m) (nesting v))%N.
Proof.
  induction m as [|[k0 v0] m IH]; cbn [json.map_set fold_right snd].
  - lia.
  - destruct (k0 =? k)%string; cbn [fold_right snd]; lia.
Qed.

Lemma nesting_timestamp m s :
  (nesting (json.VMap (json.map_set m "timestamp" (json.VString s)))
   <= nesting (json.VMap m))%N.
Proof.
  cbn [nesting]. pose proof (nesting_map_set m "timestamp" (json.VString s)) as H.
  cbn [nesting] in H. lia.
Qed.

(** ** Canonical bytes are read back as they are *)

Lemma skip_space_encode v rest :
  valid_value v -> json.skip_space (json.encode v ++ rest) = json.encode v ++ rest.
Proof.
  intros V. destruct (encode_head v V) as [c [r [E Hc]]].
  rewrite E. cbn [String.append]. now apply skip_space_start.
Qed.

Lemma Unmarshal_norm v :
  valid_value v -> (nesting v <= json.maxNestingDepth)%N ->
  json.Unmarshal (json.encode v) = Ok (norm v).
Proof.
  intros V Hn.
  destruct (valid_reads_back v V 0%N EmptyString ltac:(lia) eq_refl)
    as [f [a [Sc Tv]]].
  unfold json.Unmarshal, json.scan_text.
  pose proof (skip_space_encode v EmptyString V) as Hs.
  rewrite append_nil_r in *. rewrite Hs.
  rewrite (scan_value_length_fuel _ _ _ _ Sc) by lia.
  exact Tv.
Qed.

Lemma encode_norm v : valid_value v -> json.encode (norm v) = json.encode v.
Proof.
  induction v as [ | b | f | s | xs IH | m IH] using value_ind';
    intros V; inversion V as [ | | ? Hf | ? Hs | ? Hxs | ? Hnd Hm]; subst;
    try reflexivity.
  - cbn [norm]. rewrite !encode_slice, map_map. do 3 f_equal.
    apply map_ext_in. intros x Hx. rewrite Forall_forall in *. auto.
  - cbn [norm]. rewrite !encode_map.
    set (g := fun e : string * json.value => (fst e, json.encode (snd e))).
    set (g' := fun e : string * json.value => (fst e, norm (snd e))).
    assert (Hg : forall x, fst (g x) = fst x) by reflexivity.
    rewrite <- (sort_by_key_map g (List.map g' m) Hg).
    rewrite sort_by_key_idem by (rewrite !map_map; exact Hnd).
    rewrite map_map. do 5 f_equal.
    apply map_ext_in. intros e He. unfold g, g'. cbn [fst snd]. f_equal.
    rewrite Forall_forall in *. apply IH; [exact He|now apply Hm].
Qed.

Lemma Unmarshal_encode v :
  valid_value v -> (nesting v <= json.maxNestingDepth)%N ->
  exists v', json.Unmarshal (json.encode v) = Ok v' /\ json.encode v' = json.encode v.
Proof.
  intros V Hn. exists (norm v). split; [now apply Unmarshal_norm|now apply encode_norm].
Qed.

Lemma canonicalize_encode v :
  valid_value v -> (nesting v <= json.maxNestingDepth)%N ->
  canonicalize (json.encode v) = Ok (json.encode v).
Proof.
  intros V Hn. destruct (Unmarshal_encode v V Hn) as [v' [U E]].
  unfold canonicalize, json.Marshal. now rewrite U, E.
Qed.

(** ** The envelope of signHandler, decoded by verifyHandler *)

Lemma envelope_encoding p sig :
  json.Encode (json.VMap [("payload", p); ("signature", json.VString sig)])
  = String "{"
      (json.encode_member ("payload", json.encode p)
       ++ String ","
            (json.encode_member ("signature", json.encode_string sig)
             ++ String "}" newline)).
Proof.
  unfold json.Encode. rewrite encode_map.
  cbn [List.map fst snd json.sort_by_key json.insert_by_key].
  change (String.ltb "payload" "signature") with true. cbv iota.
  cbn [List.map json.join json.encode]. fold newline.
  cbn [String.append]. now rewrite !append_assoc.
Qed.

Lemma scan_value_string s d rest :
  utf8_valid s ->
  json.scan_value 1 d (json.encode_string s ++ rest) = Some (json.AStr s, rest).
Proof.
  intros Hs. destruct (scan_encoded_key s rest Hs) as [r0 [E Sc]].
  rewrite E. cbn [json.scan_value].
  change (dquote =? "{")%char with false. change (dquote =? "[")%char with false.
  rewrite Ascii.eqb_refl. cbv iota. now rewrite Sc.
Qed.

(** One member of the request object: the raw text handed to
    [store_field] is the text of the value. *)
Lemma decode_member k text a tail f0 f req :
  utf8_valid k ->
  (exists c r, text = String c r /\ value_start c = true) ->
  json.scan_value f0 1 (text ++ tail) = Some (a, tail) ->
  decode_members (S f) (json.encode_member (k, text) ++ tail) req
  = match json.skip_space tail with
    | String c r4 =>
      if (c =? ",")%char then
        match store_field req k text a with
        | Err e => Err e
        | Ok req' => decode_members f (json.skip_space r4) req'
        end
      else if (c =? "}")%char then store_field req k text a
      else syntax_error
    | EmptyString => syntax_error
    end.
Proof.
  intros Hk [c [r [Et Hc]]] Sc.
  unfold json.encode_member. cbn [fst snd]. rewrite !append_assoc.
  destruct (scan_encoded_key k (":" ++ text ++ tail) Hk) as [r0 [E Ss]].
  rewrite E. cbn [decode_members]. rewrite Ascii.eqb_refl, Ss.
  cbn [String.append json.skip_space].
  change (json.isSpace ":") with false. cbv iota.
  change (":" =? ":")%char with true. cbv iota.
  assert (Es : json.skip_space (text ++ tail) = text ++ tail).
  { rewrite Et. cbn [String.append]. now apply skip_space_start. }
  rewrite Es.
  rewrite (scan_value_length_fuel _ _ _ _ Sc) by lia.
  rewrite length_append, Nat.add_sub, take_app. reflexivity.
Qed.

Lemma decode_envelope r v sig tail :
  valid_value v -> (1 + nesting v <= json.maxNestingDepth)%N -> utf8_valid sig ->
  Body r = String "{"
             (json.encode_member ("payload", json.encode v)
              ++ String ","
                   (json.encode_member ("signature", json.encode_string sig)
                    ++ String "}" tail)) ->
  decode_request r = Ok {| Payload := json.encode v; Signature := sig |}.
Proof.
  intros V Hn Hsig Hb. unfold decode_request. rewrite Hb.
  set (second := json.encode_member ("signature", json.encode_string sig)
                 ++ String "}" tail).
  destruct (valid_reads_back v V 1%N (String "," second) Hn eq_refl)
    as [f1 [a [Sc _]]].
  cbn [json.skip_space]. change (json.isSpace "{") with false. cbv iota.
  change ("{" =? "{")%char with true. cbv iota.
  assert (P : utf8_valid "payload") by (repeat constructor).
  assert (S' : utf8_valid "signature") by (repeat constructor).
  assert (Hhead : exists r1,
            json.encode_member ("payload", json.encode v) ++ String "," second
            = String dquote (String "p" r1)).
  { assert (Ep : json.encode_string "payload"
                 = String dquote (String "p" ("ayload" ++ String dquote EmptyString)))
      by reflexivity.
    unfold json.encode_member. cbn [fst snd]. rewrite Ep.
    cbn [String.append]. eexists. reflexivity. }
  destruct Hhead as [r1 Hhead].
  assert (Hskip : json.skip_space
                    (json.encode_member ("payload", json.encode v) ++ String "," second)
                  = json.encode_member ("payload", json.encode v) ++ String "," second).
  { rewrite Hhead. reflexivity. }
  rewrite Hskip.
  pose proof Hhead as Hlen. apply (f_equal String.length) in Hlen.
  cbn [String.length] in Hlen.
  rewrite Hhead at 1. change (dquote =? "}")%char with false. cbv iota.
  rewrite <- Hhead. rewrite Hlen.
  rewrite (decode_member "payload" (json.encode v) a (String "," second) f1 _ zero_request
             P (encode_head v V) Sc).
  cbn [json.skip_space]. change (json.isSpace ",") with false. cbv iota.
  change ("," =? ",")%char with true. cbv iota.
  change (store_field zero_request "payload" (json.encode v) a)
    with (Ok {| Payload := json.encode v; Signature := EmptyString |}).
  cbv iota.
  assert (Hs2 : json.skip_space second = second) by reflexivity.
  rewrite Hs2. subst second.
  assert (Hf : exists f, String.length r1 = S f).
  { apply (f_equal String.length) in Hhead.
    destruct r1 as [|x r1]; [|exists (String.length r1); reflexivity].
    exfalso. unfold json.encode_member in Hhead. cbn [fst snd] in Hhead.
    rewrite !length_append in Hhead. cbn in Hhead. lia. }
  destruct Hf as [f Hf]. rewrite Hf.
  rewrite (decode_member "signature" (json.encode_string sig) (json.AStr sig)
             (String "}" tail) 1 _ _ S'
             ltac:(eexists _, _; split; reflexivity)
             (scan_value_string sig 1 _ Hsig)).
  reflexivity.
Qed.

(** ** Signing, then verifying *)

Lemma timestamped_valid m now :
  valid_value (json.VMap m) ->
  valid_value (json.VMap (json.map_set m "timestamp"
                            (json.VString (time.RFC3339Nano now)))).
Proof.
  intros V. inversion V as [ | | | | | ? Hnd Hm]; subst.
  constructor; [now apply map_set_nodup|].
  apply map_set_valid; [repeat constructor| |exact Hm].
  constructor. apply RFC3339Nano_valid.
Qed.

(** The envelope that signHandler returns, sent to verifyHandler: the
    data given to MacVerify are the canonical bytes of the payload and
    the MAC is the one that was encoded. *)
Lemma verify_envelope kms name v mac r' :
  valid_value v -> (nesting v < json.maxNestingDepth)%N ->
  Method r' = MethodPost ->
  Body r' = json.Encode (json.VMap [("payload", v);
                                    ("signature", json.VString (base64.EncodeToString mac))]) ->
  verifyHandler kms name r'
  = match MacVerify kms name (json.encode v) mac with
    | Err err =>
      (response 500 (error_body ("Error verificando: " ++ err)),
       [EvReadBody; EvMacVerify name (json.encode v) mac])
    | Ok success =>
      (response 200 (json.VMap [("valid", json.VBool success)]),
       [EvReadBody; EvMacVerify name (json.encode v) mac])
    end.
Proof.
  intros V Hn Hm Hb. rewrite envelope_encoding in Hb.
  rewrite verifyHandler_eq, Hm, String.eqb_refl. cbn [negb].
  rewrite (decode_envelope r' v (base64.EncodeToString mac) newline V ltac:(lia)
             (EncodeToString_valid mac) Hb).
  cbn [Payload Signature].
  destruct (Unmarshal_encode v V ltac:(lia)) as [v' [U E]].
  rewrite U, DecodeString_EncodeToString, E. reflexivity.
Qed.

(** X1.  When signHandler answers 200 to a request whose payload nests arrays
    and objects less than 10000 deep, and the service verifies what it
    signed, verifyHandler answers the returned envelope with
    {"valid":true}; the data it gives to MacVerify are byte for byte the
    data that signHandler gave to MacSign. *)
Theorem sign_then_verify kms name now r m resp t r' :
  signHandler kms name now r = (Responded resp, t) ->
  Status resp = StatusOK ->
  json.Unmarshal_map (Body r) = Ok (Some m) ->
  (nesting (json.VMap m) < json.maxNestingDepth)%N ->
  (forall data mac, MacSign kms name data = Ok mac ->
                    MacVerify kms name data mac = Ok true) ->
  Method r' = MethodPost ->
  Body r' = ResponseBody resp ->
  exists data mac,
    t = [EvReadBody; EvMacSign name data]
    /\ MacSign kms name data = Ok mac
    /\ verifyHandler kms name r'
       = (response StatusOK (json.VMap [("valid", json.VBool true)]),
          [EvReadBody; EvMacVerify name data mac]).
Proof.
  intros Hs Hst Hu Hn Hkms Hm' Hb'.
  rewrite signHandler_eq in Hs.
  destruct (negb (Method r =? MethodPost)%string).
  { injection Hs as <- _. discriminate Hst. }
  destruct (BodyFails r).
  { injection Hs as <- _. discriminate Hst. }
  rewrite Hu in Hs. cbv zeta in Hs.
  set (m' := json.map_set m "timestamp" (json.VString (time.RFC3339Nano now))) in *.
  destruct (MacSign kms name (json.encode (json.VMap m'))) as [mac|err] eqn:Es.
  2:{ injection Hs as <- _. discriminate Hst. }
  injection Hs as <- <-.
  exists (json.encode (json.VMap m')), mac.
  split; [reflexivity|]. split; [exact Es|].
  assert (V : valid_value (json.VMap m'))
    by (apply timestamped_valid; eapply Unmarshal_map_valid; eauto).
  assert (N' : (nesting (json.VMap m') < json.maxNestingDepth)%N).
  { pose proof (nesting_timestamp m (time.RFC3339Nano now)). fold m' in H. lia. }
  rewrite (verify_envelope kms name (json.VMap m') mac r' V N' Hm' Hb').
  now rewrite (Hkms _ _ Es).
Qed.

Lemma sign_then_verify_witness :
  exists data mac,
    [EvReadBody; EvMacSign toy_name (js "{'timestamp':'2024-01-02T15:04:05.123456Z','x':1}")]
    = [EvReadBody; EvMacSign toy_name data]
    /\ MacSign toy_kms toy_name data = Ok mac
    /\ verifyHandler toy_kms toy_name
         (post (js "{'payload':{'timestamp':'2024-01-02T15:04:05.123456Z','x':1},'signature':'cHJvamVjdHMvcC9sb2NhdGlvbnMvZ2xvYmFsL2tleVJpbmdzL0V6ZUtleVJpbmcvY3J5cHRvS2V5cy9FemVLZXkvY3J5cHRvS2V5VmVyc2lvbnMvMTp7InRpbWVzdGFtcCI6IjIwMjQtMDEtMDJUMTU6MDQ6MDUuMTIzNDU2WiIsIngiOjF9'}"
                ++ newline))
       = (response StatusOK (json.VMap [("valid", json.VBool true)]),
          [EvReadBody; EvMacVerify toy_name data mac]).
Proof.
  refine (sign_then_verify toy_kms toy_name toy_now (post (js "{'x':1}"))
            [("x", json.VFloat64 (strconv.Float false 4503599627370496 (-52)))]
            {| Status := 200;
               ContentType := "application/json";
               ResponseBody :=
                 js "{'payload':{'timestamp':'2024-01-02T15:04:05.123456Z','x':1},'signature':'cHJvamVjdHMvcC9sb2NhdGlvbnMvZ2xvYmFsL2tleVJpbmdzL0V6ZUtleVJpbmcvY3J5cHRvS2V5cy9FemVLZXkvY3J5cHRvS2V5VmVyc2lvbnMvMTp7InRpbWVzdGFtcCI6IjIwMjQtMDEtMDJUMTU6MDQ6MDUuMTIzNDU2WiIsIngiOjF9'}"
                 ++ newline |}
            _ (post _) _ _ _ _ _ _ _).
  - vm_compute. reflexivity.
  - reflexivity.
  - vm_compute. reflexivity.
  - vm_compute. reflexivity.
  - intros data mac H. injection H as <-. cbn [toy_kms MacVerify].
    now rewrite String.eqb_refl.
  - reflexivity.
  - reflexivity.
Defined.

(** ** The nesting of what the scanner accepts *)

Lemma fold_max_bound {A : Type} (g : A -> N) (l : list A) (k M : N) :
  (k <= M)%N -> Forall (fun x => (k + g x <= M)%N) l ->
  (k + fold_right (fun x acc => N.max (g x) acc) 0 l <= M)%N.
Proof.
  intros Hk. induction 1 as [|x l Hx Hl IH]; cbn [fold_right]; lia.
Qed.

Lemma scan_nesting f :
  (forall d s a rest, (d <= json.maxNestingDepth)%N ->
     json.scan_value f d s = Some (a, rest) ->
     (d + ast_nesting a <= json.maxNestingDepth)%N)
  /\ (forall d s l rest, (d <= json.maxNestingDepth)%N ->
        json.scan_elems f d s = Some (l, rest) ->
        Forall (fun x => (d + ast_nesting x <= json.maxNestingDepth)%N) l)
  /\ (forall d s ms rest, (d <= json.maxNestingDepth)%N ->
        json.scan_members f d s = Some (ms, rest) ->
        Forall (fun e : string * json.ast =>
                  (d + ast_nesting (snd e) <= json.maxNestingDepth)%N) ms).
Proof.
  induction f as [|f [IHv [IHe IHm]]]; [repeat split; discriminate|].
  repeat split; intros d s a rest Hd H;
    cbn [json.scan_value json.scan_elems json.scan_members] in H.
  - (* value *)
    destruct s as [|c s0]; [discriminate|].
    destruct (c =? "{")%char.
    { destruct (N.ltb_spec d json.maxNestingDepth) as [Hlt|]; [|discriminate].
      destruct (json.skip_space s0) as [|c' r']; [discriminate|].
      destruct (c' =? "}")%char.
      { injection H as <- _. cbn [ast_nesting fold_right]. lia. }
      destruct (json.scan_members f (d + 1) (String c' r')) as [[ms rest']|] eqn:E;
        [|discriminate].
      injection H as <- _. cbn [ast_nesting]. apply IHm in E; [|lia].
      pose proof (fold_max_bound (fun e : string * json.ast => ast_nesting (snd e))
                    ms (d + 1)%N json.maxNestingDepth ltac:(lia) E).
      lia. }
    destruct (c =? "[")%char.
    { destruct (N.ltb_spec d json.maxNestingDepth) as [Hlt|]; [|discriminate].
      destruct (json.skip_space s0) as [|c' r']; [discriminate|].
      destruct (c' =? "]")%char.
      { injection H as <- _. cbn [ast_nesting fold_right]. lia. }
      destruct (json.scan_elems f (d + 1) (String c' r')) as [[vs rest']|] eqn:E;
        [|discriminate].
      injection H as <- _. cbn [ast_nesting]. apply IHe in E; [|lia].
      pose proof (fold_max_bound ast_nesting vs (d + 1)%N json.maxNestingDepth
                    ltac:(lia) E).
      lia. }
    destruct (c =? dquote)%char.
    { destruct (json.scan_string (String.length s0) s0) as [[str rest']|];
        [|discriminate].
      injection H as <- _. cbn [ast_nesting]. lia. }
    destruct ((c =? "-")%char || is_digit c).
    { destruct (json.scan_number (String c s0)) as [[lit rest']|]; [|discriminate].
      injection H as <- _. cbn [ast_nesting]. lia. }
    unfold json.scan_literal in H.
    destruct (c =? "t")%char.
    { destruct (json.strip_prefix "true" (String c s0)); [|discriminate].
      injection H as <- _. cbn [ast_nesting]. lia. }
    destruct (c =? "f")%char.
    { destruct (json.strip_prefix "false" (String c s0)); [|discriminate].
      injection H as <- _. cbn [ast_nesting]. lia. }
    destruct (c =? "n")%char; [|discriminate].
    destruct (json.strip_prefix "null" (String c s0)); [|discriminate].
    injection H as <- _. cbn [ast_nesting]. lia.
  - (* elements *)
    destruct (json.scan_value f d s) as [[v r0]|] eqn:E; [|discriminate].
    apply IHv in E; [|exact Hd].
    destruct (json.skip_space r0) as [|c r']; [discriminate|].
    destruct (c =? ",")%char.
    + destruct (json.scan_elems f d (json.skip_space r')) as [[vs rest']|] eqn:E';
        [|discriminate].
      injection H as <- _. constructor; [exact E|]. eapply IHe; eauto.
    + destruct (c =? "]")%char; [|discriminate].
      injection H as <- _. constructor; [exact E|constructor].
  - (* members *)
    destruct s as [|q r0]; [discriminate|].
    destruct (q =? dquote)%char; [|discriminate].
    destruct (json.scan_string (String.length r0) r0) as [[k r1]|]; [|discriminate].
    destruct (json.skip_space r1) as [|col r2]; [discriminate|].
    destruct (col =? ":")%char; [|discriminate].
    destruct (json.scan_value f d (json.skip_space r2)) as [[v r3]|] eqn:E; [|discriminate].
    apply IHv in E; [|exact Hd].
    destruct (json.skip_space r3) as [|c r4]; [discriminate|].
    destruct (c =? ",")%char.
    + destruct (json.scan_members f d (json.skip_space r4)) as [[ms rest']|] eqn:E';
        [|discriminate].
      injection H as <- _. constructor; [exact E|]. eapply IHm; eauto.
    + destruct (c =? "}")%char; [|discriminate].
      injection H as <- _. constructor; [exact E|constructor].
Qed.

Lemma scan_text_nesting s a :
  json.scan_text s = Some a -> (ast_nesting a <= json.maxNestingDepth)%N.
Proof.
  unfold json.scan_text.
  destruct (json.scan_value _ 0 (json.skip_space s)) as [[a' rest]|] eqn:E; [|discriminate].
  destruct (json.skip_space rest); [|discriminate].
  intros [= <-]. apply (proj1 (scan_nesting _)) in E; [|unfold json.maxNestingDepth]; lia.
Qed.

Lemma to_values_nesting xs :
  Forall (fun a => forall v, json.to_value a = Ok v -> (nesting v <= ast_nesting a)%N) xs ->
  forall vs, json.to_values xs = Ok vs ->
    (fold_right (fun x acc => N.max (nesting x) acc) 0 vs
     <= fold_right (fun x acc => N.max (ast_nesting x) acc) 0 xs)%N.
Proof.
  induction 1 as [|a xs Ha Hxs IH]; cbn [json.to_values]; intros vs H.
  - injection H as <-. cbn. lia.
  - destruct (json.to_value a) as [v|] eqn:Ev; [|discriminate].
    destruct (json.to_values xs) as [vs'|] eqn:E; [|discriminate].
    injection H as <-. cbn [fold_right].
    specialize (Ha v eq_refl). specialize (IH vs' eq_refl). lia.
Qed.

Lemma to_entries_nesting ms :
  Forall (fun e => forall v, json.to_value (snd e) = Ok v ->
                             (nesting v <= ast_nesting (snd e))%N) ms ->
  forall acc m, json.to_entries ms acc = Ok m ->
    (fold_right (fun e acc => N.max (nesting (snd e)) acc) 0 m
     <= N.max (fold_right (fun e acc => N.max (nesting (snd e)) acc) 0 acc)
              (fold_right (fun e acc => N.max (ast_nesting (snd e)) acc) 0 ms))%N.
Proof.
  induction 1 as [|[k a] ms Ha Hms IH]; cbn [json.to_entries fst snd] in *; intros acc m H.
  - injection H as <-. cbn [fold_right]. lia.
  - destruct (json.to_value a) as [v|] eqn:Ev; [|discriminate].
    specialize (Ha v eq_refl). specialize (IH _ _ H).
    pose proof (nesting_map_set acc k v). cbn [fold_right snd]. lia.
Qed.

Lemma to_value_nesting a :
  forall v, json.to_value a = Ok v -> (nesting v <= ast_nesting a)%N.
Proof.
  induction a as [ | b | l | s | xs IH | ms IH] using ast_ind'; intros v H.
  - injection H as <-. cbn. lia.
  - injection H as <-. cbn. lia.
  - cbn [json.to_value] in H. destruct (strconv.ParseFloat l); [|discriminate].
    injection H as <-. cbn. lia.
  - injection H as <-. cbn. lia.
  - rewrite to_value_arr in H.
    destruct (json.to_values xs) as [vs|] eqn:E; [|discriminate].
    injection H as <-. cbn [nesting ast_nesting].
    pose proof (to_values_nesting xs IH vs E). lia.
  - rewrite to_value_obj in H.
    destruct (json.to_entries ms []) as [m|] eqn:E; [|discriminate].
    injection H as <-. cbn [nesting ast_nesting].
    pose proof (to_entries_nesting ms IH [] m E) as B. cbn [fold_right] in B. lia.
Qed.

Lemma Unmarshal_nesting text v :
  json.Unmarshal text = Ok v -> (nesting v <= json.maxNestingDepth)%N.
Proof.
  unfold json.Unmarshal. destruct (json.scan_text text) as [a|] eqn:E; [|discriminate].
  intros H. apply to_value_nesting in H. apply scan_text_nesting in E. lia.
Qed.

(** X2.  Canonical bytes are a fixed point of the canonicalization:
    what parsing and marshalling a text produces is itself accepted,
    and parsing and marshalling it again gives the same bytes. *)
Theorem canonicalize_idempotent text data :
  canonicalize text = Ok data -> canonicalize data = Ok data.
Proof.
  unfold canonicalize at 1.
  destruct (json.Unmarshal text) as [v|] eqn:U; [|discriminate].
  intros [= <-].
  apply canonicalize_encode; [eapply Unmarshal_valid|eapply Unmarshal_nesting]; eauto.
Qed.

Lemma canonicalize_idempotent_witness :
  canonicalize (js "{'b': [1.50, 'a<b'], 'a': 1e2}")
  = Ok (js "{'a':100,'b':[1.5,'a\u003cb']}")
  /\ canonicalize (js "{'a':100,'b':[1.5,'a\u003cb']}")
     = Ok (js "{'a':100,'b':[1.5,'a\u003cb']}").
Proof.
  assert (H : canonicalize (js "{'b': [1.50, 'a<b'], 'a': 1e2}")
              = Ok (js "{'a':100,'b':[1.5,'a\u003cb']}")) by (vm_compute; reflexivity).
  split; [exact H|]. exact (canonicalize_idempotent _ _ H).
Defined.

(** ** The response of signHandler *)

Lemma encode_string_body_safe s : forall fe,
  forallb json.htmlSafe (list_ascii_of_string s) = true ->
  (String.length s <= fe)%nat ->
  json.encode_string_body fe s = s.
Proof.
  induction s as [|c s IH]; intros fe H Hfe.
  - destruct fe; reflexivity.
  - destruct fe as [|fe]; [cbn in Hfe; lia|].
    cbn [list_ascii_of_string forallb] in H. apply andb_prop in H. destruct H as [Hc Hs].
    cbn [String.length] in Hfe. cbn [json.encode_string_body].
    assert (Hlt : (code c <? utf8.RuneSelf)%N = true).
    { unfold json.htmlSafe in Hc. apply andb_prop in Hc. destruct Hc as [Hc _].
      apply andb_prop in Hc. exact (proj2 Hc). }
    rewrite Hlt, Hc, IH by (assumption || lia). reflexivity.
Qed.

Lemma encode_char_safe v : json.htmlSafe (base64.encode_char v) = true.
Proof.
  unfold base64.encode_char.
  assert (H : forall s n c,
             forallb json.htmlSafe (list_ascii_of_string s) = true ->
             String.get n s = Some c -> json.htmlSafe c = true).
  { induction s as [|x s IH]; intros n c Hs Hg; [discriminate|].
    cbn [list_ascii_of_string forallb] in Hs. apply andb_prop in Hs. destruct Hs as [Hx Hs].
    destruct n as [|n]; cbn [String.get] in Hg.
    - now injection Hg as <-.
    - eapply IH; eauto. }
  destruct (String.get (N.to_nat v) base64.encodeStd) as [c|] eqn:E.
  - eapply H; [|exact E]. vm_compute. reflexivity.
  - vm_compute. reflexivity.
Qed.

Lemma EncodeToString_safe m :
  forallb json.htmlSafe (list_ascii_of_string (base64.EncodeToString m)) = true.
Proof.
  assert (P : json.htmlSafe base64.padChar = true) by (vm_compute; reflexivity).
  induction m as [|a|a b|a b c r IH] using string_ind3;
    cbn [base64.EncodeToString list_ascii_of_string forallb]; unfold base64.sextet;
    rewrite ?encode_char_safe, ?P, ?IH; reflexivity.
Qed.

Lemma encode_string_base64 m :
  json.encode_string (base64.EncodeToString m)
  = String dquote (base64.EncodeToString m ++ String dquote EmptyString).
Proof.
  unfold json.encode_string.
  rewrite encode_string_body_safe; [reflexivity|apply EncodeToString_safe|lia].
Qed.

(** X3.  A 200 response of signHandler carries the signed bytes: its
    body is the object with the member payload, whose text is byte for
    byte the data that were given to MacSign, and the member signature,
    the standard base64 text of the MAC that MacSign returned, followed
    by a newline; its content type is application/json. *)
Theorem sign_response_body kms name now r resp t :
  signHandler kms name now r = (Responded resp, t) ->
  Status resp = StatusOK ->
  exists data mac,
    t = [EvReadBody; EvMacSign name data]
    /\ MacSign kms name data = Ok mac
    /\ ContentType resp = "application/json"
    /\ ResponseBody resp
       = js "{'payload':" ++ data ++ js ",'signature':'"
         ++ base64.EncodeToString mac ++ js "'}" ++ newline.
Proof.
  intros Hs Hst. rewrite signHandler_eq in Hs.
  destruct (negb (Method r =? MethodPost)%string).
  { injection Hs as <- _. discriminate Hst. }
  destruct (BodyFails r).
  { injection Hs as <- _. discriminate Hst. }
  destruct (json.Unmarshal_map (Body r)) as [[m|]|e].
  3:{ injection Hs as <- _. discriminate Hst. }
  2:{ discriminate Hs. }
  cbv zeta in Hs.
  set (m' := json.map_set m "timestamp" (json.VString (time.RFC3339Nano now))) in *.
  destruct (MacSign kms name (json.encode (json.VMap m'))) as [mac|err] eqn:Es.
  2:{ injection Hs as <- _. discriminate Hst. }
  injection Hs as <- <-.
  exists (json.encode (json.VMap m')), mac.
  split; [reflexivity|]. split; [exact Es|]. split; [reflexivity|].
  cbn [response ResponseBody]. rewrite envelope_encoding.
  unfold json.encode_member. cbn [fst snd].
  rewrite encode_string_base64.
  change (json.encode_string "payload") with (js "'payload'").
  change (json.encode_string "signature") with (js "'signature'").
  cbn [js String.append].
  change ("'" =? "'")%char with true. cbv iota.
  repeat (rewrite ?append_assoc; cbn [String.append]; f_equal).
Qed.

Lemma sign_response_body_witness :
  exists data mac,
    [EvReadBody; EvMacSign toy_name (js "{'timestamp':'2024-01-02T15:04:05.123456Z','x':1}")]
    = [EvReadBody; EvMacSign toy_name data]
    /\ MacSign toy_kms toy_name data = Ok mac
    /\ "application/json" = "application/json"
    /\ js "{'payload':{'timestamp':'2024-01-02T15:04:05.123456Z','x':1},'signature':'cHJvamVjdHMvcC9sb2NhdGlvbnMvZ2xvYmFsL2tleVJpbmdzL0V6ZUtleVJpbmcvY3J5cHRvS2V5cy9FemVLZXkvY3J5cHRvS2V5VmVyc2lvbnMvMTp7InRpbWVzdGFtcCI6IjIwMjQtMDEtMDJUMTU6MDQ6MDUuMTIzNDU2WiIsIngiOjF9'}"
       ++ newline
       = js "{'payload':" ++ data ++ js ",'signature':'"
         ++ base64.EncodeToString mac ++ js "'}" ++ newline.
Proof.
  refine (sign_response_body toy_kms toy_name toy_now (post (js "{'x':1}"))
            {| Status := 200;
               ContentType := "application/json";
               ResponseBody :=
                 js "{'payload':{'timestamp':'2024-01-02T15:04:05.123456Z','x':1},'signature':'cHJvamVjdHMvcC9sb2NhdGlvbnMvZ2xvYmFsL2tleVJpbmdzL0V6ZUtleVJpbmcvY3J5cHRvS2V5cy9FemVLZXkvY3J5cHRvS2V5VmVyc2lvbnMvMTp7InRpbWVzdGFtcCI6IjIwMjQtMDEtMDJUMTU6MDQ6MDUuMTIzNDU2WiIsIngiOjF9'}"
                 ++ newline |}
            _ _ _).
  - vm_compute. reflexivity.
  - reflexivity.
Defined.

(** ** What the handlers do and answer, whatever the request *)

(** X4.  Whatever the request, a handler reads the body at most once
    and calls the key-management service at most once, after the read
    and with the configured key name: signHandler calls MacSign only,
    verifyHandler calls MacVerify only. *)
Theorem service_calls kms name now r :
  (snd (signHandler kms name now r) = []
   \/ snd (signHandler kms name now r) = [EvReadBody]
   \/ exists data, snd (signHandler kms name now r) = [EvReadBody; EvMacSign name data])
  /\ (snd (verifyHandler kms name r) = []
      \/ snd (verifyHandler kms name r) = [EvReadBody]
      \/ exists data mac,
           snd (verifyHandler kms name r) = [EvReadBody; EvMacVerify name data mac]).
Proof.
  split.
  - rewrite signHandler_eq.
    destruct (negb (Method r =? MethodPost)%string); [now left|].
    destruct (BodyFails r); [now right; left|].
    destruct (json.Unmarshal_map (Body r)) as [[m|]|e]; [|now right; left..].
    cbv zeta. destruct (MacSign kms name _); right; right; eexists; reflexivity.
  - rewrite verifyHandler_eq.
    destruct (negb (Method r =? MethodPost)%string); [now left|].
    destruct (decode_request r) as [req|e]; [|now right; left].
    destruct (json.Unmarshal (Payload req)) as [obj|e]; [|now right; left].
    destruct (base64.DecodeString (Signature req)) as [mac|e]; [|now right; left].
    destruct (MacVerify kms name _ mac); right; right; eexists _, _; reflexivity.
Qed.

(** X5.  Every response of either handler is written by writeJSON: the
    content type is application/json and the body is one JSON object
    followed by a newline.  With a status other than 200 (which is then
    400, 405 or 500) the object is the error object with one message;
    with status 200 it is the envelope of signHandler or the verdict of
    verifyHandler. *)
Theorem response_shapes kms name now r resp t :
  signHandler kms name now r = (Responded resp, t)
  \/ verifyHandler kms name r = (Responded resp, t) ->
  ContentType resp = "application/json"
  /\ ((Status resp = 200
       /\ exists v, ResponseBody resp = json.Encode (json.VMap v)
                    /\ (List.map fst v = ["payload"; "signature"]
                        \/ List.map fst v = ["valid"]))
      \/ (In (Status resp) [400; 405; 500]
          /\ exists msg, ResponseBody resp = json.Encode (error_body msg))).
Proof.
  assert (E : forall st msg resp' (t' t'' : list event),
             (response st (error_body msg), t') = (Responded resp', t'') ->
             In st [400; 405; 500] ->
             ContentType resp' = "application/json"
             /\ ((Status resp' = 200
                  /\ exists v, ResponseBody resp' = json.Encode (json.VMap v)
                               /\ (List.map fst v = ["payload"; "signature"]
                                   \/ List.map fst v = ["valid"]))
                 \/ (In (Status resp') [400; 405; 500]
                     /\ exists msg', ResponseBody resp' = json.Encode (error_body msg')))).
  { intros st msg resp' t' t'' H Hst. injection H as <- _.
    split; [reflexivity|]. right. split; [exact Hst|]. now exists msg. }
  assert (S : forall v resp' (t' t'' : list event),
             (response 200 (json.VMap v), t') = (Responded resp', t'') ->
             List.map fst v = ["payload"; "signature"] \/ List.map fst v = ["valid"] ->
             ContentType resp' = "application/json"
             /\ ((Status resp' = 200
                  /\ exists v', ResponseBody resp' = json.Encode (json.VMap v')
                                /\ (List.map fst v' = ["payload"; "signature"]
                                    \/ List.map fst v' = ["valid"]))
                 \/ (In (Status resp') [400; 405; 500]
                     /\ exists msg', ResponseBody resp' = json.Encode (error_body msg')))).
  { intros v resp' t' t'' H Hv. injection H as <- _.
    split; [reflexivity|]. left. split; [reflexivity|]. now exists v. }
  intros [H|H].
  - rewrite signHandler_eq in H.
    destruct (negb (Method r =? MethodPost)%string);
      [eapply E; [exact H|cbn; tauto]|].
    destruct (BodyFails r); [eapply E; [exact H|cbn; tauto]|].
    destruct (json.Unmarshal_map (Body r)) as [[m|]|e];
      [|discriminate H|eapply E; [exact H|cbn; tauto]].
    cbv zeta in H. destruct (MacSign kms name _);
      [eapply S; [exact H|now left]|eapply E; [exact H|cbn; tauto]].
  - rewrite verifyHandler_eq in H.
    destruct (negb (Method r =? MethodPost)%string);
      [eapply E; [exact H|cbn; tauto]|].
    destruct (decode_request r) as [req|e]; [|eapply E; [exact H|cbn; tauto]].
    destruct (json.Unmarshal (Payload req)) as [obj|e];
      [|eapply E; [exact H|cbn; tauto]].
    destruct (base64.DecodeString (Signature req)) as [mac|e];
      [|eapply E; [exact H|cbn; tauto]].
    destruct (MacVerify kms name _ mac);
      [eapply S; [exact H|now right]|eapply E; [exact H|cbn; tauto]].
Qed.

Lemma response_shapes_witness :
  ContentType (Build_Response 400 "application/json"
                 (json.Encode (error_body "JSON inválido")))
  = "application/json"
  /\ ((Status (Build_Response 400 "application/json"
                 (json.Encode (error_body "JSON inválido"))) = 200
       /\ exists v,
           ResponseBody (Build_Response 400 "application/json"
                           (json.Encode (error_body "JSON inválido")))
           = json.Encode (json.VMap v)
           /\ (List.map fst v = ["payload"; "signature"] \/ List.map fst v = ["valid"]))
      \/ (In (Status (Build_Response 400 "application/json"
                        (json.Encode (error_body "JSON inválido")))) [400; 405; 500]
          /\ exists msg,
              ResponseBody (Build_Response 400 "application/json"
                              (json.Encode (error_body "JSON inválido")))
              = json.Encode (error_body msg))).
Proof.
  refine (response_shapes toy_kms toy_name toy_now (post "not json")
            (Build_Response 400 "application/json"
               (json.Encode (error_body "JSON inválido")))
            [EvReadBody] (or_introl _)).
  vm_compute. reflexivity.
Defined.

(** ** Configuration *)

Lemma getEnv_cases environ key def :
  (getEnv environ key def = EmptyString
   <-> environ key = EmptyString /\ def = EmptyString)
  /\ (getEnv environ key def = environ key \/ getEnv environ key def = def).
Proof.
  unfold getEnv. destruct (environ key) as [|c v].
  - split; [|now right]. split; [auto|]. now intros [_ ->].
  - split; [|now left]. split; [discriminate|]. now intros [H _].
Qed.

Lemma getEnv_nonempty environ key def :
  def <> EmptyString -> getEnv environ key def <> EmptyString.
Proof.
  intros Hd H. apply (proj1 (getEnv_cases environ key def)) in H. tauto.
Qed.

(** X6.  getEnv returns either the variable or the default, and its
    result is empty exactly when the variable is unset or empty and the
    default is empty too. *)
Theorem getEnv_empty_iff environ key def :
  (getEnv environ key def = EmptyString
   <-> environ key = EmptyString /\ def = EmptyString)
  /\ (getEnv environ key def = environ key \/ getEnv environ key def = def).
Proof. apply getEnv_cases. Qed.

(** X7.  When init does not exit, the client is the one that was
    created, the project variable is set, and the key name is the
    resource path of a CryptoKeyVersion none of whose five identifiers
    is empty: the project is the variable, each other identifier is its
    variable or its default. *)
Theorem init_name environ newClient client name :
  init environ newClient = Ok (client, name) ->
  newClient = Ok client
  /\ environ "GOOGLE_CLOUD_PROJECT" <> EmptyString
  /\ exists l kr k v,
       l <> EmptyString /\ kr <> EmptyString /\ k <> EmptyString /\ v <> EmptyString
       /\ (l = environ "KMS_LOCATION" \/ l = "global")
       /\ (kr = environ "KMS_KEY_RING" \/ kr = "EzeKeyRing")
       /\ (k = environ "KMS_KEY" \/ k = "EzeKey")
       /\ (v = environ "KMS_KEY_VERSION" \/ v = "1")
       /\ name = "projects/" ++ environ "GOOGLE_CLOUD_PROJECT"
                 ++ "/locations/" ++ l ++ "/keyRings/" ++ kr
                 ++ "/cryptoKeys/" ++ k ++ "/cryptoKeyVersions/" ++ v.
Proof.
  unfold init. destruct newClient as [c|e]; [|discriminate].
  destruct (String.eqb_spec (environ "GOOGLE_CLOUD_PROJECT") "") as [|Hp]; [discriminate|].
  intros [= <- <-]. split; [reflexivity|]. split; [exact Hp|].
  exists (getEnv environ "KMS_LOCATION" "global"),
         (getEnv environ "KMS_KEY_RING" "EzeKeyRing"),
         (getEnv environ "KMS_KEY" "EzeKey"),
         (getEnv environ "KMS_KEY_VERSION" "1").
  repeat split;
    try (apply getEnv_nonempty; discriminate);
    try (apply getEnv_cases).
Qed.

Lemma init_name_witness :
  Ok toy_kms = Ok toy_kms
  /\ (fun key => if (key =? "GOOGLE_CLOUD_PROJECT")%string then "p" else "")
       "GOOGLE_CLOUD_PROJECT" <> EmptyString
  /\ exists l kr k v,
       l <> EmptyString /\ kr <> EmptyString /\ k <> EmptyString /\ v <> EmptyString
       /\ (l = (fun key => if (key =? "GOOGLE_CLOUD_PROJECT")%string then "p" else "")
                 "KMS_LOCATION" \/ l = "global")
       /\ (kr = (fun key => if (key =? "GOOGLE_CLOUD_PROJECT")%string then "p" else "")
                  "KMS_KEY_RING" \/ kr = "EzeKeyRing")
       /\ (k = (fun key => if (key =? "GOOGLE_CLOUD_PROJECT")%string then "p" else "")
                 "KMS_KEY" \/ k = "EzeKey")
       /\ (v = (fun key => if (key =? "GOOGLE_CLOUD_PROJECT")%string then "p" else "")
                 "KMS_KEY_VERSION" \/ v = "1")
       /\ toy_name
          = "projects/"
            ++ (fun key => if (key =? "GOOGLE_CLOUD_PROJECT")%string then "p" else "")
                 "GOOGLE_CLOUD_PROJECT"
            ++ "/locations/" ++ l ++ "/keyRings/" ++ kr
            ++ "/cryptoKeys/" ++ k ++ "/cryptoKeyVersions/" ++ v.
Proof.
  refine (init_name
            (fun key => if (key =? "GOOGLE_CLOUD_PROJECT")%string then "p" else "")
            (Ok toy_kms) toy_kms toy_name _).
  vm_compute. reflexivity.
Defined.

(** ** Round trips of the encodings the handlers rely on *)

(** X8.  The number that Marshal writes for a float64 is a JSON number
    literal, which the scanner takes whole when it is followed by
    nothing or by a byte that cannot continue a number, and Unmarshal
    reads it back as the same float64: sign, mantissa and exponent. *)
Theorem float64_round_trip f rest :
  valid_float f -> ends_number rest = true ->
  json.scan_number (json.encode_float f ++ rest) = Some (json.encode_float f, rest)
  /\ strconv.ParseFloat (json.encode_float f) = Ok f.
Proof.
  intros Hf Hr. split.
  - now apply scan_number_encode_float.
  - now apply ParseFloat_encode_float.
Qed.

Lemma float64_round_trip_witness :
  json.scan_number
    (json.encode_float (strconv.Float true 7205759403792794 (-56)) ++ ",2]")
  = Some (json.encode_float (strconv.Float true 7205759403792794 (-56)), ",2]")
  /\ strconv.ParseFloat (json.encode_float (strconv.Float true 7205759403792794 (-56)))
     = Ok (strconv.Float true 7205759403792794 (-56)).
Proof.
  refine (float64_round_trip (strconv.Float true 7205759403792794 (-56)) ",2]" _ _).
  - unfold valid_float, canonical. cbn [strconv.mant strconv.exp].
    change (2 ^ 53) with 9007199254740992. change (2 ^ 52) with 4503599627370496. lia.
  - reflexivity.
Defined.

(** X9.  The signature text of signHandler decodes, in verifyHandler,
    to the MAC it was made from: DecodeString after EncodeToString is
    the identity on every byte string. *)
Theorem base64_round_trip mac :
  base64.DecodeString (base64.EncodeToString mac) = Ok mac.
Proof. apply DecodeString_EncodeToString. Qed.

(** X10.  A string that is valid UTF-8 and is written by Marshal, with
    its escapes for quotes, backslashes, control bytes, the HTML
    characters and the line separators, is read back by the scanner as
    the same string, whatever follows it. *)
Theorem string_round_trip s d rest :
  utf8_valid s ->
  json.scan_value 1 d (json.encode_string s ++ rest) = Some (json.AStr s, rest).
Proof. apply scan_value_string. Qed.

Lemma string_round_trip_witness :
  json.scan_value 1 0 (json.encode_string "a<b>&" ++ "]")
  = Some (json.AStr "a<b>&", "]").
Proof.
  refine (string_round_trip "a<b>&" 0%N "]" _). repeat constructor.
Defined.

(** X11.  Whatever text Unmarshal accepts, the value it returns is
    valid: its strings and keys are valid UTF-8 (the scanner replaces
    invalid bytes and lone surrogates), its numbers are float64 in
    canonical form, and the keys of each of its maps are distinct. *)
Theorem unmarshal_output_valid text v :
  json.Unmarshal text = Ok v -> valid_value v.
Proof. apply Unmarshal_valid. Qed.

Lemma unmarshal_output_valid_witness :
  valid_value
    (json.VMap [("a", json.VFloat64 (strconv.Float false 4503599627370496 (-51)));
                ("s", json.VString (utf8.EncodeRune utf8.RuneError))]).
Proof.
  refine (unmarshal_output_valid
            (js "{'a':1,'s':'" ++ String (chr 255) (js "','a':2}")) _ _).
  vm_compute. reflexivity.
Defined.

(** ** Beyond the nesting limit *)

Lemma scan_value_fun f1 f2 d s r1 r2 :
  json.scan_value f1 d s = Some r1 -> json.scan_value f2 d s = Some r2 -> r1 = r2.
Proof.
  intros H1 H2.
  apply (scan_value_mono _ (Nat.max f1 f2)) in H1; [|lia].
  apply (scan_value_mono _ (Nat.max f1 f2)) in H2; [|lia].
  congruence.
Qed.

Lemma fold_max_exists {A : Type} (g : A -> N) (l : list A) (k : N) :
  (k < fold_right (fun x acc => N.max (g x) acc) 0 l)%N ->
  exists x, In x l /\ (k < g x)%N.
Proof.
  induction l as [|x l IH]; cbn [fold_right]; intros H; [lia|].
  destruct (N.lt_ge_cases k (g x)) as [Hx|Hx].
  - exists x. split; [now left|exact Hx].
  - destruct IH as [y [Hy Hk]]; [lia|]. exists y. split; [now right|exact Hk].
Qed.

Lemma scan_elems_too_deep xs :
  Forall valid_value xs ->
  Forall (fun v => forall d rest f,
            (d <= json.maxNestingDepth < d + nesting v)%N ->
            json.scan_value f d (json.encode v ++ rest) = None) xs ->
  forall d rest f,
    (d <= json.maxNestingDepth)%N ->
    (exists x, In x xs /\ (json.maxNestingDepth < d + nesting x)%N) ->
    json.scan_elems f d (json.join "," (List.map json.encode xs) ++ String "]" rest) = None.
Proof.
  induction xs as [|x xs IH]; intros V D d rest f Hd [z [Hz Hdeep]]; [contradiction|].
  inversion V as [|? ? Vx Vxs]; subst. inversion D as [|? ? Dx Dxs]; subst.
  destruct f as [|f]; [reflexivity|].
  destruct xs as [|y r].
  - destruct Hz as [<-|[]]. cbn [List.map json.join json.scan_elems].
    now rewrite Dx by lia.
  - set (tail := json.join "," (List.map json.encode (y :: r)) ++ String "]" rest) in *.
    cbn [List.map]. rewrite join_cons, !append_assoc.
    change (json.scan_elems (S f) d (json.encode x ++ String "," tail) = None).
    cbn [json.scan_elems].
    destruct (N.lt_ge_cases json.maxNestingDepth (d + nesting x)) as [Hx|Hx].
    { now rewrite Dx by lia. }
    destruct (json.scan_value f d (json.encode x ++ String "," tail)) as [[a r0]|] eqn:E;
      [|reflexivity].
    destruct (valid_reads_back x Vx d (String "," tail) Hx eq_refl)
      as [f0 [a0 [Sc _]]].
    pose proof (scan_value_fun _ _ _ _ _ _ E Sc) as Er. injection Er as -> ->.
    cbn [json.skip_space]. change (json.isSpace ",") with false. cbv iota.
    change ("," =? ",")%char with true. cbv iota.
    destruct (join_encode_head y r (String "]" rest) ltac:(now inversion Vxs))
      as [c [r1 [Eh Hc]]].
    change (tail = String c r1) in Eh.
    rewrite Eh, (skip_space_start c r1 Hc), <- Eh.
    assert (T0 : json.scan_elems f d tail = None).
    { apply (IH Vxs Dxs d rest f Hd). destruct Hz as [<-|Hz]; [lia|]. now exists z. }
    now rewrite T0.
Qed.

Lemma scan_members_too_deep (l : list (string * json.value)) :
  Forall (fun e => utf8_valid (fst e) /\ valid_value (snd e)) l ->
  Forall (fun e => forall d rest f,
            (d <= json.maxNestingDepth < d + nesting (snd e))%N ->
            json.scan_value f d (json.encode (snd e) ++ rest) = None) l ->
  forall d rest f,
    (d <= json.maxNestingDepth)%N ->
    (exists e, In e l /\ (json.maxNestingDepth < d + nesting (snd e))%N) ->
    json.scan_members f d
      (json.join ","
         (List.map json.encode_member
            (List.map (fun e => (fst e, json.encode (snd e))) l))
       ++ String "}" rest) = None.
Proof.
  induction l as [|[k v] l IH]; intros V D d rest f Hd [z [Hz Hdeep]]; [contradiction|].
  inversion V as [|? ? [Vk Vv] Vl]; subst. inversion D as [|? ? Dv Dl]; subst.
  cbn [fst snd] in *.
  destruct f as [|f]; [reflexivity|].
  assert (Step : forall tail,
            json.scan_members (S f) d (json.encode_member (k, json.encode v) ++ tail)
            = match json.scan_value f d (json.encode v ++ tail) with
              | None => None
              | Some (a, r3) =>
                match json.skip_space r3 with
                | String c r4 =>
                  if (c =? ",")%char then
                    match json.scan_members f d (json.skip_space r4) with
                    | Some (ms, rest') => Some ((k, a) :: ms, rest')
                    | None => None
                    end
                  else if (c =? "}")%char then Some ([(k, a)], r4)
                  else None
                | EmptyString => None
                end
              end).
  { intros tail. unfold json.encode_member. cbn [fst snd]. rewrite !append_assoc.
    destruct (scan_encoded_key k (":" ++ json.encode v ++ tail) Vk) as [r0 [E Ss]].
    rewrite E. cbn [json.scan_members]. rewrite Ascii.eqb_refl, Ss.
    cbn [String.append json.skip_space].
    change (json.isSpace ":") with false. cbv iota.
    change (":" =? ":")%char with true. cbv iota.
    now rewrite skip_space_encode. }
  destruct l as [|y r].
  - destruct Hz as [<-|[]]. cbn [List.map json.join fst snd].
    rewrite Step. cbn [snd] in Hdeep. now rewrite Dv by lia.
  - set (tail := json.join ","
                   (List.map json.encode_member
                      (List.map (fun e => (fst e, json.encode (snd e))) (y :: r)))
                 ++ String "}" rest) in *.
    cbn [List.map fst snd]. rewrite join_cons, !append_assoc.
    change (json.scan_members (S f) d
              (json.encode_member (k, json.encode v) ++ String "," tail) = None).
    rewrite Step.
    destruct (N.lt_ge_cases json.maxNestingDepth (d + nesting v)) as [Hx|Hx].
    { now rewrite Dv by lia. }
    destruct (json.scan_value f d (json.encode v ++ String "," tail)) as [[a r0]|] eqn:E;
      [|reflexivity].
    destruct (valid_reads_back v Vv d (String "," tail) Hx eq_refl)
      as [f0 [a0 [Sc _]]].
    pose proof (scan_value_fun _ _ _ _ _ _ E Sc) as Er. injection Er as -> ->.
    cbn [json.skip_space]. change (json.isSpace ",") with false. cbv iota.
    change ("," =? ",")%char with true. cbv iota.
    destruct (members_head y r (String "}" rest)) as [r1 Eh].
    change (tail = String dquote r1) in Eh.
    rewrite Eh, skip_space_start by reflexivity. rewrite <- Eh.
    assert (T0 : json.scan_members f d tail = None).
    { apply (IH Vl Dl d rest f Hd).
      destruct Hz as [<-|Hz]; [cbn [snd] in Hdeep; lia|]. now exists z. }
    now rewrite T0.
Qed.

(** The scanner refuses the encoding of a value that nests deeper than
    the limit allows where it stands. *)
Lemma scan_too_deep v :
  valid_value v ->
  forall d rest f,
    (d <= json.maxNestingDepth < d + nesting v)%N ->
    json.scan_value f d (json.encode v ++ rest) = None.
Proof.
  induction v as [ | b | x | s | xs IH | m IH] using value_ind';
    intros V d rest f Hd; inversion V as [ | | ? Hf | ? Hs | ? Hxs | ? Hnd Hm]; subst;
    try (cbn [nesting] in Hd; lia).
  - (* arrays *)
    cbn [nesting] in Hd. destruct f as [|f]; [reflexivity|].
    rewrite encode_slice, !append_assoc. cbn [String.append json.scan_value].
    change ("[" =? "{")%char with false. change ("[" =? "[")%char with true. cbv iota.
    destruct (N.ltb_spec d json.maxNestingDepth) as [Hlt|]; [|reflexivity].
    destruct (fold_max_exists nesting xs (json.maxNestingDepth - (d + 1))%N ltac:(lia))
      as [z [Hz Hdeep]].
    destruct xs as [|x xs]; [contradiction|].
    destruct (join_encode_head x xs (String "]" rest) ltac:(now inversion Hxs))
      as [c [r0 [E Hc]]].
    assert (T : json.scan_elems f (d + 1)
                  (json.join "," (List.map json.encode (x :: xs)) ++ String "]" rest)
                = None).
    { apply (scan_elems_too_deep (x :: xs) Hxs);
        [|lia|exists z; split; [exact Hz|lia]].
      rewrite Forall_forall in *. intros y Hy d' rest' f' Hd'. apply IH; auto. }
    rewrite E in *. rewrite (skip_space_start c r0 Hc).
    destruct (value_start_spec c Hc) as [_ [Hb _]]. now rewrite Hb, T.
  - (* objects *)
    cbn [nesting] in Hd. destruct f as [|f]; [reflexivity|].
    rewrite encode_map.
    set (g := fun e : string * json.value => (fst e, json.encode (snd e))).
    assert (Hg : forall x, fst (g x) = fst x) by reflexivity.
    rewrite (sort_by_key_map g m Hg), !append_assoc.
    cbn [String.append json.scan_value].
    change ("{" =? "{")%char with true. cbv iota.
    destruct (N.ltb_spec d json.maxNestingDepth) as [Hlt|]; [|reflexivity].
    destruct (fold_max_exists (fun e : string * json.value => nesting (snd e)) m
                (json.maxNestingDepth - (d + 1))%N ltac:(lia)) as [z [Hz Hdeep]].
    pose proof (sort_by_key_perm m) as Hp.
    set (l := json.sort_by_key m) in *.
    assert (Vl : Forall (fun e => utf8_valid (fst e) /\ valid_value (snd e)) l)
      by (eapply Permutation_Forall; [symmetry; exact Hp|exact Hm]).
    assert (Hzl : In z l) by (eapply Permutation_in; [symmetry; exact Hp|exact Hz]).
    assert (T : json.scan_members f (d + 1)
                  (json.join "," (List.map json.encode_member (List.map g l))
                   ++ String "}" rest) = None).
    { apply (scan_members_too_deep l Vl);
        [|lia|exists z; split; [exact Hzl|lia]].
      rewrite Forall_forall in *. intros y Hy d' rest' f' Hd'.
      assert (Hym : In y m) by (eapply Permutation_in; eauto).
      apply IH; [exact Hym|now apply Hm|exact Hd']. }
    destruct l as [|e l0] eqn:El; [contradiction|]. rewrite <- El in *.
    destruct (members_head e l0 (String "}" rest)) as [r0 E].
    fold g in E. rewrite <- El in E. rewrite E in *.
    rewrite skip_space_start by reflexivity.
    change (dquote =? "}")%char with false. cbv iota. now rewrite T.
Qed.

Lemma decode_member_fails k text tail f req :
  utf8_valid k ->
  (exists c r, text = String c r /\ value_start c = true) ->
  (forall f0, json.scan_value f0 1 (text ++ tail) = None) ->
  decode_members (S f) (json.encode_member (k, text) ++ tail) req = syntax_error.
Proof.
  intros Hk [c [r [Et Hc]]] Sc.
  unfold json.encode_member. cbn [fst snd]. rewrite !append_assoc.
  destruct (scan_encoded_key k (":" ++ text ++ tail) Hk) as [r0 [E Ss]].
  rewrite E. cbn [decode_members]. rewrite Ascii.eqb_refl, Ss.
  cbn [String.append json.skip_space].
  change (json.isSpace ":") with false. cbv iota.
  change (":" =? ":")%char with true. cbv iota.
  assert (Es : json.skip_space (text ++ tail) = text ++ tail).
  { rewrite Et. cbn [String.append]. now apply skip_space_start. }
  now rewrite Es, Sc.
Qed.

Lemma decode_envelope_too_deep r v sig tail :
  valid_value v -> (json.maxNestingDepth < 1 + nesting v)%N ->
  Body r = String "{"
             (json.encode_member ("payload", json.encode v)
              ++ String ","
                   (json.encode_member ("signature", json.encode_string sig)
                    ++ String "}" tail)) ->
  decode_request r = syntax_error.
Proof.
  intros V Hn Hb. unfold decode_request. rewrite Hb.
  set (second := json.encode_member ("signature", json.encode_string sig)
                 ++ String "}" tail).
  cbn [json.skip_space]. change (json.isSpace "{") with false. cbv iota.
  change ("{" =? "{")%char with true. cbv iota.
  assert (Hhead : exists r1,
            json.encode_member ("payload", json.encode v) ++ String "," second
            = String dquote (String "p" r1)).
  { assert (Ep : json.encode_string "payload"
                 = String dquote (String "p" ("ayload" ++ String dquote EmptyString)))
      by reflexivity.
    unfold json.encode_member. cbn [fst snd]. rewrite Ep.
    cbn [String.append]. eexists. reflexivity. }
  destruct Hhead as [r1 Hhead].
  assert (Hskip : json.skip_space
                    (json.encode_member ("payload", json.encode v) ++ String "," second)
                  = json.encode_member ("payload", json.encode v) ++ String "," second).
  { rewrite Hhead. reflexivity. }
  rewrite Hskip.
  pose proof Hhead as Hlen. apply (f_equal String.length) in Hlen.
  cbn [String.length] in Hlen.
  rewrite Hhead at 1. change (dquote =? "}")%char with false. cbv iota.
  rewrite <- Hhead. rewrite Hlen.
  apply decode_member_fails; [repeat constructor|now apply encode_head|].
  intros f0. apply scan_too_deep; [exact V|]. unfold json.maxNestingDepth in *. lia.
Qed.

(** The nesting limit of the scanner cuts the round trip at the
    top: when signHandler answers 200 and the payload it returns, with
    its timestamp, nests arrays and objects 10000 deep, which the
    scanner still accepts in a request to signHandler, then
    verifyHandler refuses the returned envelope, in which the payload
    stands one level deeper, with status 400 and "JSON inválido",
    before it calls the service. *)
Theorem envelope_beyond_nesting_limit kms name now r m resp t r' :
  signHandler kms name now r = (Responded resp, t) ->
  Status resp = StatusOK ->
  json.Unmarshal_map (Body r) = Ok (Some m) ->
  nesting (json.VMap (json.map_set m "timestamp"
                        (json.VString (time.RFC3339Nano now))))
  = json.maxNestingDepth ->
  Method r' = MethodPost ->
  Body r' = ResponseBody resp ->
  verifyHandler kms name r'
  = (response StatusBadRequest (error_body "JSON inválido"), [EvReadBody]).
Proof.
  intros Hs Hst Hu Hn Hm' Hb'.
  rewrite signHandler_eq in Hs.
  destruct (negb (Method r =? MethodPost)%string).
  { injection Hs as <- _. discriminate Hst. }
  destruct (BodyFails r).
  { injection Hs as <- _. discriminate Hst. }
  rewrite Hu in Hs. cbv zeta in Hs.
  set (m' := json.map_set m "timestamp" (json.VString (time.RFC3339Nano now))) in *.
  destruct (MacSign kms name (json.encode (json.VMap m'))) as [mac|err] eqn:Es.
  2:{ injection Hs as <- _. discriminate Hst. }
  injection Hs as <- <-.
  assert (V : valid_value (json.VMap m'))
    by (apply timestamped_valid; eapply Unmarshal_map_valid; eauto).
  cbn [response ResponseBody] in Hb'. rewrite envelope_encoding in Hb'.
  rewrite verifyHandler_eq, Hm', String.eqb_refl. cbn [negb].
  rewrite (decode_envelope_too_deep r' (json.VMap m') _ newline V ltac:(lia) Hb').
  reflexivity.
Qed.

(** X12.  A payload at the nesting limit, that is a valid value that
    nests arrays and objects exactly 10000 deep: its canonical text is
    accepted on its own, where signHandler parses a body, and is its
    own canonical form; inside the envelope it stands one level deeper,
    and verifyHandler refuses the envelope with status 400 and
    "JSON inválido" before it looks at the signature or calls the
    service. *)
Theorem payload_at_nesting_limit kms name v sig r' :
  valid_value v ->
  nesting v = json.maxNestingDepth ->
  Method r' = MethodPost ->
  Body r' = json.Encode (json.VMap [("payload", v); ("signature", json.VString sig)]) ->
  canonicalize (json.encode v) = Ok (json.encode v)
  /\ verifyHandler kms name r'
     = (response StatusBadRequest (error_body "JSON inválido"), [EvReadBody]).
Proof.
  intros V Hn Hm Hb. split.
  - apply canonicalize_encode; [exact V|lia].
  - rewrite envelope_encoding in Hb.
    rewrite verifyHandler_eq, Hm, String.eqb_refl. cbn [negb].
    rewrite (decode_envelope_too_deep r' v sig newline V ltac:(lia) Hb).
    reflexivity.
Qed.

Lemma payload_at_nesting_limit_witness :
  canonicalize (json.encode (Nat.iter (N.to_nat 9999) (fun v => json.VSlice [v]) (json.VSlice [])))
  = Ok (json.encode (Nat.iter (N.to_nat 9999) (fun v => json.VSlice [v]) (json.VSlice [])))
  /\ verifyHandler toy_kms toy_name
       (post (json.Encode
                (json.VMap
                   [("payload", Nat.iter (N.to_nat 9999) (fun v => json.VSlice [v]) (json.VSlice []));
                    ("signature", json.VString "AAAA")])))
     = (response StatusBadRequest (error_body "JSON inválido"), [EvReadBody]).
Proof.
  refine (payload_at_nesting_limit toy_kms toy_name
            (Nat.iter (N.to_nat 9999) (fun v => json.VSlice [v]) (json.VSlice [])) "AAAA"
            (post _) _ _ _ _).
  - generalize (N.to_nat 9999). intros n. induction n as [|n IH]; cbn [Nat.iter].
    + repeat constructor.
    + constructor. constructor; [exact IH|constructor].
  - vm_compute. reflexivity.
  - reflexivity.
  - reflexivity.
Defined.

(** ** A well-formed envelope, whatever the payload *)

(** X13.  verifyHandler on a well-formed envelope: for every valid
    value, an object or not, that nests less than 10000 deep and every
    MAC, the envelope with the encoding of the value as payload and the
    base64 text of the MAC as signature is decoded, the service is
    called once, with the canonical bytes of the value and that MAC,
    and the answer is its verdict with status 200, or status 500 with
    its error. *)
Theorem verify_well_formed_envelope kms name v mac r :
  valid_value v -> (nesting v < json.maxNestingDepth)%N ->
  Method r = MethodPost ->
  Body r = json.Encode (json.VMap [("payload", v);
                                   ("signature", json.VString (base64.EncodeToString mac))]) ->
  verifyHandler kms name r
  = match MacVerify kms name (json.encode v) mac with
    | Err err =>
      (response 500 (error_body ("Error verificando: " ++ err)),
       [EvReadBody; EvMacVerify name (json.encode v) mac])
    | Ok success =>
      (response 200 (json.VMap [("valid", json.VBool success)]),
       [EvReadBody; EvMacVerify name (json.encode v) mac])
    end.
Proof. apply verify_envelope. Qed.

Lemma verify_well_formed_envelope_witness :
  verifyHandler failing_kms toy_name
    (post (json.Encode
             (json.VMap
                [("payload", json.VSlice [json.VNil; json.VString "a<b"]);
                 ("signature", json.VString (base64.EncodeToString "mac"))])))
  = match MacVerify failing_kms toy_name
            (json.encode (json.VSlice [json.VNil; json.VString "a<b"])) "mac" with
    | Err err =>
      (response 500 (error_body ("Error verificando: " ++ err)),
       [EvReadBody;
        EvMacVerify toy_name
          (json.encode (json.VSlice [json.VNil; json.VString "a<b"])) "mac"])
    | Ok success =>
      (response 200 (json.VMap [("valid", json.VBool success)]),
       [EvReadBody;
        EvMacVerify toy_name
          (json.encode (json.VSlice [json.VNil; json.VString "a<b"])) "mac"])
    end.
Proof.
  refine (verify_well_formed_envelope failing_kms toy_name
            (json.VSlice [json.VNil; json.VString "a<b"]) "mac" (post _) _ _ _ _).
  - repeat constructor.
  - vm_compute. reflexivity.
  - reflexivity.
  - reflexivity.
Defined.

(** ** The order of the members that Marshal writes *)

(** X14.  Marshal writes the members of a map in the strictly
    increasing bytewise order of their keys, each entry once, with
    nothing between them but the commas: the text is the brace, the
    members key:value of a permutation of the entries that is sorted by
    key, joined by commas, and the closing brace. *)
Theorem marshal_sorts_keys m :
  NoDup (List.map fst m) ->
  exists l,
    Permutation l m
    /\ StronglySorted (fun a b => String.ltb (fst a) (fst b) = true) l
    /\ json.encode (json.VMap m)
       = "{" ++ json.join ","
                  (List.map (fun e => json.encode_string (fst e) ++ ":"
                                      ++ json.encode (snd e)) l)
             ++ "}".
Proof.
  intros Hnd. exists (json.sort_by_key m).
  split; [apply sort_by_key_perm|]. split; [now apply sort_by_key_sorted|].
  rewrite encode_map.
  rewrite (sort_by_key_map (fun e : string * json.value => (fst e, json.encode (snd e))))
    by reflexivity.
  rewrite map_map. reflexivity.
Qed.

Lemma marshal_sorts_keys_witness :
  exists l,
    Permutation l [("b", json.VNil); ("a", json.VBool true); ("B", json.VNil)]
    /\ StronglySorted (fun a b => String.ltb (fst a) (fst b) = true) l
    /\ json.encode (json.VMap [("b", json.VNil); ("a", json.VBool true); ("B", json.VNil)])
       = "{" ++ json.join ","
                  (List.map (fun e => json.encode_string (fst e) ++ ":"
                                      ++ json.encode (snd e)) l)
             ++ "}".
Proof.
  refine (marshal_sorts_keys [("b", json.VNil); ("a", json.VBool true); ("B", json.VNil)] _).
  repeat constructor; cbn; intuition discriminate.
Defined.

(** ** Repeated keys *)

Lemma to_entries_app ms1 : forall ms2 acc m,
  json.to_entries (ms1 ++ ms2) acc = Ok m ->
  exists acc1, json.to_entries ms1 acc = Ok acc1 /\ json.to_entries ms2 acc1 = Ok m.
Proof.
  induction ms1 as [|[k a] ms1 IH]; intros ms2 acc m H; cbn [app json.to_entries] in *.
  - exists acc. auto.
  - destruct (json.to_value a) as [v|]; [|discriminate]. now apply IH.
Qed.

Lemma to_entries_other ms : forall acc m k,
  json.to_entries ms acc = Ok m -> ~ In k (List.map fst ms) ->
  json.map_get m k = json.map_get acc k.
Proof.
  induction ms as [|[k0 a] ms IH]; intros acc m k H Hk; cbn [json.to_entries] in H.
  - now injection H as <-.
  - destruct (json.to_value a) as [v|]; [|discriminate].
    cbn [List.map fst In] in Hk.
    rewrite (IH _ _ _ H) by tauto. apply map_get_set_neq. intros ->. tauto.
Qed.

(** X15.  When the JSON object of a sign request repeats a key,
    Unmarshal keeps the value of its last occurrence: the map holds,
    under each key, the value of the last member with that key. *)
Theorem repeated_key_keeps_last text m ms1 k a ms2 :
  json.scan_text text = Some (json.AObj (ms1 ++ (k, a) :: ms2)) ->
  json.Unmarshal_map text = Ok (Some m) ->
  ~ In k (List.map fst ms2) ->
  exists v, json.to_value a = Ok v /\ json.map_get m k = Some v.
Proof.
  unfold json.Unmarshal_map. intros -> H Hk.
  destruct (json.to_entries (ms1 ++ (k, a) :: ms2) []) as [m0|] eqn:E; [|discriminate].
  injection H as ->.
  apply to_entries_app in E. destruct E as [acc1 [_ E]].
  cbn [json.to_entries] in E.
  destruct (json.to_value a) as [v|]; [|discriminate].
  exists v. split; [reflexivity|].
  rewrite (to_entries_other _ _ _ k E Hk). apply map_get_set_eq.
Qed.

Lemma repeated_key_keeps_last_witness :
  exists v,
    json.to_value (json.ANum "2") = Ok v
    /\ json.map_get
         [("a", json.VFloat64 (strconv.Float false 4503599627370496 (-51)));
          ("b", json.VNil)] "a"
       = Some v.
Proof.
  refine (repeated_key_keeps_last (js "{'a':1,'b':null,'a':2}")
            _ [("a", json.ANum "1"); ("b", json.ANull)] "a" (json.ANum "2") [] _ _ _).
  - vm_compute. reflexivity.
  - vm_compute. reflexivity.
  - intros [].
Defined.

(** ** The layout of the timestamp *)

Lemma appendInt_spec n w :
  (1 <= w)%nat -> Z.of_N n < 10 ^ Z.of_nat w ->
  all_digits (time.appendInt n w)
  /\ String.length (time.appendInt n w) = w
  /\ strconv.digits_value 0 (time.appendInt n w) = Z.of_N n.
Proof.
  intros Hw Hn. split; [apply appendInt_digits|].
  unfold time.appendInt.
  destruct (digits_of_spec (Z.of_N n) ltac:(lia)) as [Hd [Hv [Hne [Hb H0]]]].
  assert (Hlen : (String.length (strconv.digits_of (Z.of_N n)) <= w)%nat).
  { destruct (Z.eq_dec (Z.of_N n) 0) as [E|E].
    - rewrite (H0 E). cbn. lia.
    - pose proof (num_digits_le (Z.of_N n) (Z.of_nat w) ltac:(lia) Hn) as L.
      unfold strconv.num_digits in L. lia. }
  split.
  - rewrite length_append, length_repeat_string. lia.
  - rewrite digits_value_app, digits_value_zeros, Hv. lia.
Qed.

Lemma trim_right_zeros_spec s :
  exists k,
    s = time.trim_right_zeros s ++ repeat_string k "0"
    /\ forall p, time.trim_right_zeros s <> p ++ "0".
Proof.
  induction s as [|c r [k [E N]]].
  - exists 0%nat. split; [reflexivity|]. intros [|x p]; discriminate.
  - cbn [time.trim_right_zeros].
    destruct (time.trim_right_zeros r) as [|c' r'] eqn:T.
    + cbn [String.append] in E. destruct (Ascii.eqb_spec c "0") as [->|Hc].
      * exists (S k). split; [cbn [String.append repeat_string]; f_equal; exact E|].
        intros [|x p]; discriminate.
      * exists k. split; [cbn [String.append]; f_equal; exact E|].
        intros [|x [|y p]]; cbn; intros H; try discriminate.
        injection H as ->. congruence.
    + exists k. split; [cbn [String.append]; f_equal; exact E|].
      intros [|x p]; cbn [String.append]; intros H; [discriminate|].
      injection H as _ H. exact (N p H).
Qed.

Lemma appendNano_spec ns :
  (ns <> 0)%N -> Z.of_N ns < 10 ^ 9 ->
  exists ds,
    time.appendNano ns = String "." ds
    /\ all_digits ds
    /\ (1 <= String.length ds <= 9)%nat
    /\ strconv.digits_value 0 ds * 10 ^ (9 - Z.of_nat (String.length ds)) = Z.of_N ns
    /\ forall p, ds <> p ++ "0".
Proof.
  intros H0 Hn. unfold time.appendNano.
  replace (ns =? 0)%N with false by (symmetry; now apply N.eqb_neq).
  destruct (appendInt_spec ns 9 ltac:(lia) Hn) as [Hd [Hl Hv]].
  destruct (trim_right_zeros_spec (time.appendInt ns 9)) as [k [E N]].
  set (ds := time.trim_right_zeros (time.appendInt ns 9)) in *.
  exists ds. split; [reflexivity|].
  assert (Hds : all_digits ds) by now apply trim_right_zeros_digits.
  assert (Hk : (String.length ds + k = 9)%nat).
  { apply (f_equal String.length) in E.
    rewrite length_append, length_repeat_string, Hl in E. lia. }
  assert (Hval : strconv.digits_value 0 ds * 10 ^ Z.of_nat k = Z.of_N ns).
  { apply (f_equal (strconv.digits_value 0)) in E.
    rewrite digits_value_app, digits_value_zeros, length_repeat_string, Hv in E. lia. }
  split; [exact Hds|]. split; [|split; [|exact N]].
  - destruct ds; [cbn in Hval; lia|cbn [String.length] in *; lia].
  - replace (9 - Z.of_nat (String.length ds)) with (Z.of_nat k) by lia. exact Hval.
Qed.

(** X16.  The timestamp that signHandler injects, for an instant whose
    calendar fields are in range, is YYYY-MM-DDTHH:MM:SS, an optional
    fraction and Z: the six fields are digits of the fixed widths 4, 2,
    2, 2, 2, 2 that read as the fields of the instant; with zero
    nanoseconds there is no fraction and the text is 20 bytes long,
    otherwise the fraction is a point and one to nine digits that do not
    end in 0 and read, padded with zeros to nine digits, as the
    nanoseconds.  So the instant can be read back from the text, and
    the width of the text varies with the instant. *)
Theorem timestamp_layout t :
  (time.Year t < 10000)%N -> (time.Month t < 100)%N -> (time.Day t < 100)%N ->
  (time.Hour t < 100)%N -> (time.Minute t < 100)%N -> (time.Second t < 100)%N ->
  (time.Nanosecond t < 1000000000)%N ->
  exists y mo d h mi s frac,
    time.RFC3339Nano t
    = y ++ "-" ++ mo ++ "-" ++ d ++ "T" ++ h ++ ":" ++ mi ++ ":" ++ s ++ frac ++ "Z"
    /\ Forall (fun p => all_digits (fst (fst p))
                        /\ String.length (fst (fst p)) = snd (fst p)
                        /\ strconv.digits_value 0 (fst (fst p)) = Z.of_N (snd p))
         [(y, 4%nat, time.Year t); (mo, 2%nat, time.Month t); (d, 2%nat, time.Day t);
          (h, 2%nat, time.Hour t); (mi, 2%nat, time.Minute t); (s, 2%nat, time.Second t)]
    /\ (time.Nanosecond t = 0%N -> frac = EmptyString)
    /\ (time.Nanosecond t <> 0%N ->
        exists ds,
          frac = String "." ds
          /\ all_digits ds
          /\ (1 <= String.length ds <= 9)%nat
          /\ strconv.digits_value 0 ds * 10 ^ (9 - Z.of_nat (String.length ds))
             = Z.of_N (time.Nanosecond t)
          /\ forall p, ds <> p ++ "0").
Proof.
  intros Hy Hmo Hd Hh Hmi Hs Hns.
  exists (time.appendInt (time.Year t) 4), (time.appendInt (time.Month t) 2),
         (time.appendInt (time.Day t) 2), (time.appendInt (time.Hour t) 2),
         (time.appendInt (time.Minute t) 2), (time.appendInt (time.Second t) 2),
         (time.appendNano (time.Nanosecond t)).
  split; [reflexivity|]. split; [|split].
  - repeat constructor; cbn [fst snd];
      try apply appendInt_digits;
      apply appendInt_spec; try lia;
      (change (10 ^ Z.of_nat 4) with 10000 || change (10 ^ Z.of_nat 2) with 100); lia.
  - intros E. unfold time.appendNano. now rewrite E.
  - intros E. apply appendNano_spec; [exact E|].
    change (10 ^ 9) with 1000000000. lia.
Qed.

Lemma timestamp_layout_witness :
  exists y mo d h mi s frac,
    time.RFC3339Nano toy_now
    = y ++ "-" ++ mo ++ "-" ++ d ++ "T" ++ h ++ ":" ++ mi ++ ":" ++ s ++ frac ++ "Z"
    /\ Forall (fun p => all_digits (fst (fst p))
                        /\ String.length (fst (fst p)) = snd (fst p)
                        /\ strconv.digits_value 0 (fst (fst p)) = Z.of_N (snd p))
         [(y, 4%nat, time.Year toy_now); (mo, 2%nat, time.Month toy_now);
          (d, 2%nat, time.Day toy_now); (h, 2%nat, time.Hour toy_now);
          (mi, 2%nat, time.Minute toy_now); (s, 2%nat, time.Second toy_now)]
    /\ (time.Nanosecond toy_now = 0%N -> frac = EmptyString)
    /\ (time.Nanosecond toy_now <> 0%N ->
        exists ds,
          frac = String "." ds
          /\ all_digits ds
          /\ (1 <= String.length ds <= 9)%nat
          /\ strconv.digits_value 0 ds * 10 ^ (9 - Z.of_nat (String.length ds))
             = Z.of_N (time.Nanosecond toy_now)
          /\ forall p, ds <> p ++ "0").
Proof.
  refine (timestamp_layout toy_now _ _ _ _ _ _ _); reflexivity.
Defined.

(** ** The signature of a verify request *)

Lemma store_field_signature req k raw a :
  field_type_ok (k, a) = true ->
  exists req', store_field req k raw a = Ok req'
    /\ Signature req'
       = (if is_payload_field k then Signature req
          else if is_signature_field k then
            match a with
            | json.AStr x => x
            | _ => Signature req
            end
          else Signature req).
Proof.
  unfold field_type_ok, store_field. cbn [fst snd].
  destruct (is_payload_field k).
  - intros _. eexists. split; reflexivity.
  - destruct (is_signature_field k).
    + destruct a; try discriminate; intros _; eexists; split; reflexivity.
    + intros _. eexists. split; reflexivity.
Qed.

Lemma decode_members_signature f : forall s ms rest,
  json.scan_members f 1 s = Some (ms, rest) ->
  forallb field_type_ok ms = true ->
  forall f' req,
    (String.length s <= f')%nat ->
    exists req', decode_members f' s req = Ok req'
      /\ Signature req' = expected_signature ms (Signature req).
Proof.
  induction f as [|f IH]; intros s ms rest H Hty f' req Hf; [discriminate|].
  cbn [json.scan_members] in H.
  destruct s as [|q r0]; [discriminate|].
  destruct f' as [|f']; [cbn in Hf; lia|].
  cbn [decode_members].
  destruct (q =? dquote)%char; [|discriminate].
  destruct (json.scan_string (String.length r0) r0) as [[k r1]|] eqn:Ek; [|discriminate].
  pose proof (scan_string_length _ _ _ _ Ek) as Lk.
  pose proof (skip_space_length r1) as Hsp1.
  destruct (json.skip_space r1) as [|col r2] eqn:Es1; [discriminate|].
  destruct (col =? ":")%char; [|discriminate].
  pose proof (skip_space_length r2) as Hsp2.
  destruct (json.scan_value f 1 (json.skip_space r2)) as [[v r3]|] eqn:E; [|discriminate].
  destruct (proj1 (scan_consumed f) _ _ _ _ E) as [L3 _].
  rewrite (scan_value_length_fuel _ _ _ _ E (S (String.length (json.skip_space r2))))
    by lia.
  pose proof (skip_space_length r3) as Hsp3.
  destruct (json.skip_space r3) as [|c r4] eqn:Es3; [discriminate|].
  cbn [String.length] in *.
  destruct (c =? ",")%char.
  - destruct (json.scan_members f 1 (json.skip_space r4)) as [[ms' rest']|] eqn:E';
      [|discriminate].
    injection H as <- <-. cbn [forallb] in Hty. apply andb_prop in Hty.
    destruct Hty as [Hty1 Hty2].
    destruct (store_field_signature req k
                (take (String.length (json.skip_space r2) - String.length r3)
                   (json.skip_space r2)) v Hty1) as [req1 [-> Hreq1]].
    pose proof (skip_space_length r4) as Hsp4.
    cbn [expected_signature]. rewrite <- Hreq1.
    eapply (IH _ _ _ E' Hty2 f' req1). lia.
  - destruct (c =? "}")%char; [|discriminate].
    injection H as <- <-. cbn [forallb] in Hty. apply andb_prop in Hty.
    destruct Hty as [Hty1 _].
    destruct (store_field_signature req k
                (take (String.length (json.skip_space r2) - String.length r3)
                   (json.skip_space r2)) v Hty1) as [req1 [-> Hreq1]].
    eexists. split; [reflexivity|].
    cbn [expected_signature]. exact Hreq1.
Qed.

Lemma decode_request_signature r ms :
  json.scan_text (Body r) = Some (json.AObj ms) ->
  forallb field_type_ok ms = true ->
  exists req, decode_request r = Ok req
    /\ Signature req = expected_signature ms EmptyString.
Proof.
  unfold json.scan_text, decode_request. intros H Hty.
  destruct (json.scan_value _ 0 (json.skip_space (Body r))) as [[a rest]|] eqn:E;
    [|discriminate].
  destruct (json.skip_space rest); [|discriminate].
  injection H as ->.
  pose proof (skip_space_length (Body r)) as Hsp.
  apply scan_object_shape in E.
  destruct E as [f0 [r0 [Hf [Hs E]]]]. rewrite Hs in *.
  rewrite Ascii.eqb_refl.
  pose proof (skip_space_length r0) as Hsp0.
  destruct (json.skip_space r0) as [|c' r'] eqn:Es; [contradiction|].
  destruct (c' =? "}")%char.
  - destruct E as [-> _]. exists zero_request. split; reflexivity.
  - eapply (decode_members_signature _ _ _ _ E Hty _ zero_request). exact Hsp0.
Qed.

Lemma expected_signature_none ms s :
  forallb (fun e => negb (is_signature_field (fst e))) ms = true ->
  expected_signature ms s = s.
Proof.
  revert s.
  induction ms as [|[k a] ms IH]; cbn [forallb expected_signature fst]; intros s H;
    [reflexivity|].
  apply andb_prop in H. destruct H as [Hk H].
  destruct (is_signature_field k); [discriminate|].
  destruct (is_payload_field k); auto.
Qed.

(** X17.  A verify request without a signature is not refused by the
    handler.  When the body is a JSON object with no member signature
    (in any letter case) and its payload parses, the signature field
    keeps its zero value, the empty string decodes to the empty MAC, and
    MacVerify is called with the canonical payload and the empty MAC;
    the answer is its verdict. *)
Theorem missing_signature_is_empty_mac kms name r ms :
  Method r = MethodPost ->
  json.scan_text (Body r) = Some (json.AObj ms) ->
  forallb (fun e => negb (is_signature_field (fst e))) ms = true ->
  exists req,
    decode_request r = Ok req
    /\ Signature req = EmptyString
    /\ forall obj, json.Unmarshal (Payload req) = Ok obj ->
         snd (verifyHandler kms name r)
         = [EvReadBody; EvMacVerify name (json.encode obj) EmptyString]
         /\ forall b, MacVerify kms name (json.encode obj) EmptyString = Ok b ->
              fst (verifyHandler kms name r)
              = response StatusOK (json.VMap [("valid", json.VBool b)]).
Proof.
  intros Hm Hs Hno.
  assert (Hty : forallb field_type_ok ms = true).
  { clear Hs. induction ms as [|[k a] ms IH]; [reflexivity|].
    cbn [forallb fst] in *. apply andb_prop in Hno. destruct Hno as [Hk Hno].
    rewrite (IH Hno), andb_true_r. unfold field_type_ok. cbn [fst snd].
    destruct (is_payload_field k); [reflexivity|].
    destruct (is_signature_field k); [discriminate|reflexivity]. }
  destruct (decode_request_signature r ms Hs Hty) as [req [Hd Hsig]].
  rewrite expected_signature_none in Hsig by exact Hno.
  exists req. split; [exact Hd|]. split; [exact Hsig|].
  intros obj Hu. rewrite verifyHandler_eq, Hm, Hd, Hu, Hsig, String.eqb_refl.
  cbn [negb]. change (base64.DecodeString EmptyString) with (Ok EmptyString).
  cbv iota.
  destruct (MacVerify kms name (json.encode obj) EmptyString) as [b|e].
  - split; [reflexivity|]. now intros b' [= <-].
  - split; [reflexivity|]. discriminate.
Qed.

Lemma missing_signature_is_empty_mac_witness :
  exists req,
    decode_request (post (js "{'payload':{'x':1}}")) = Ok req
    /\ Signature req = EmptyString
    /\ forall obj, json.Unmarshal (Payload req) = Ok obj ->
         snd (verifyHandler toy_kms toy_name (post (js "{'payload':{'x':1}}")))
         = [EvReadBody; EvMacVerify toy_name (json.encode obj) EmptyString]
         /\ forall b, MacVerify toy_kms toy_name (json.encode obj) EmptyString = Ok b ->
              fst (verifyHandler toy_kms toy_name (post (js "{'payload':{'x':1}}")))
              = response StatusOK (json.VMap [("valid", json.VBool b)]).
Proof.
  refine (missing_signature_is_empty_mac toy_kms toy_name (post (js "{'payload':{'x':1}}"))
            [("payload", json.AObj [("x", json.ANum "1")])] _ _ _);
    vm_compute; reflexivity.
Defined.

(** ** Canonical bytes hold no <, > or & *)

Lemma html_free_app a b : html_free (a ++ b) = html_free a && html_free b.
Proof. unfold html_free. now rewrite list_ascii_app, forallb_app. Qed.

Lemma html_free_cons c s :
  html_free (String c s)
  = negb ((c =? "<") || (c =? ">") || (c =? "&"))%char && html_free s.
Proof. reflexivity. Qed.

Lemma html_free_high c : (128 <= code c)%N -> forall s, html_free (String c s) = html_free s.
Proof.
  intros Hc s. rewrite html_free_cons.
  rewrite !(not_ascii_char c) by (assumption || (vm_compute; reflexivity)).
  reflexivity.
Qed.

Lemma html_free_digits s : all_digits s -> html_free s = true.
Proof.
  induction s as [|c s IH]; intros H; [reflexivity|].
  apply all_digits_inv in H. destruct H as [Hc Hs].
  rewrite html_free_cons, (IH Hs), andb_true_r.
  rewrite !(is_digit_not c) by (assumption || reflexivity). reflexivity.
Qed.

Lemma html_free_ascii_piece c :
  (code c < 128)%N ->
  html_free (if json.htmlSafe c then String c EmptyString else json.escape_byte c) = true.
Proof.
  destruct c as [b0 b1 b2 b3 b4 b5 b6 b7]. intros Hc.
  destruct b7.
  - exfalso. destruct b0, b1, b2, b3, b4, b5, b6; vm_compute in Hc; discriminate.
  - destruct b0, b1, b2, b3, b4, b5, b6; reflexivity.
Qed.

Lemma high_byte n : (128 <= n < 256)%N -> (128 <= code (chr n))%N.
Proof. intros H. rewrite code_chr by apply H. apply H. Qed.

Lemma html_free_EncodeRune r : scalar r = true -> html_free (utf8.EncodeRune r) = true.
Proof.
  unfold scalar. intros H. apply andb_prop in H. destruct H as [H Hs].
  apply andb_prop in H. destruct H as [H1 H2].
  apply N.leb_le in H1, H2. unfold utf8.MaxRune in *.
  apply negb_true_iff in Hs.
  assert (C : forall x, (128 <= N.lor 128 (N.land x 63) < 256)%N).
  { intros x. rewrite continuation_byte. euclid. }
  unfold utf8.EncodeRune, utf8.encode3, utf8.MaxRune. rewrite Hs.
  replace (r <=? 127)%N with false by (symmetry; apply N.leb_gt; lia).
  replace (1114111 <? r)%N with false by (symmetry; apply N.ltb_ge; lia).
  cbn [orb].
  destruct (N.leb_spec r 2047); [|destruct (N.leb_spec r 65535)];
    repeat (rewrite html_free_high;
            [|apply high_byte; first
                [ apply C
                | rewrite (lead_byte 192 5), N.shiftr_div_pow2;
                  [|reflexivity|rewrite N.shiftr_div_pow2];
                  change (2 ^ 6)%N with 64%N; change (2 ^ 5)%N with 32%N; euclid
                | rewrite (lead_byte 224 4), N.shiftr_div_pow2;
                  [|reflexivity|rewrite N.shiftr_div_pow2];
                  change (2 ^ 12)%N with 4096%N; change (2 ^ 4)%N with 16%N; euclid
                | rewrite (lead_byte 240 3), N.shiftr_div_pow2;
                  [|reflexivity|rewrite N.shiftr_div_pow2];
                  change (2 ^ 18)%N with 262144%N; change (2 ^ 3)%N with 8%N; euclid ]]);
    reflexivity.
Qed.

Lemma html_free_string_body s :
  utf8_valid s -> forall fe, html_free (json.encode_string_body fe s) = true.
Proof.
  induction 1 as [|c s Hc Hs IH|r s Hr Hs IH]; intros fe.
  - destruct fe; reflexivity.
  - destruct fe as [|fe]; [reflexivity|].
    cbn [json.encode_string_body].
    replace (code c <? utf8.RuneSelf)%N with true by (symmetry; now apply N.ltb_lt).
    now rewrite html_free_app, html_free_ascii_piece, IH.
  - destruct fe as [|fe]; [reflexivity|].
    rewrite (encode_rune_piece r fe s Hr), html_free_app, IH, andb_true_r.
    destruct ((r =? 8232) || (r =? 8233))%N eqn:Eu.
    + apply orb_prop in Eu. destruct Eu as [Eu|Eu]; apply N.eqb_eq in Eu; subst r;
        reflexivity.
    + now apply html_free_EncodeRune.
Qed.

Lemma html_free_encode_string s : utf8_valid s -> html_free (json.encode_string s) = true.
Proof.
  intros Hs. unfold json.encode_string.
  rewrite html_free_cons, html_free_app, html_free_string_body by exact Hs.
  reflexivity.
Qed.

Lemma html_free_encode_float f : valid_float f -> html_free (json.encode_float f) = true.
Proof.
  intros Hf. destruct (encode_float_shape f Hf) as [ip [fp [ex [E [W _]]]]].
  destruct W as [Hi [_ [Hp He]]].
  rewrite E. unfold number_text.
  rewrite !html_free_app, (html_free_digits ip Hi).
  assert (H1 : html_free (if strconv.neg f then "-" else "") = true)
    by (destruct (strconv.neg f); reflexivity).
  assert (H2 : html_free match fp with
                         | EmptyString => EmptyString
                         | String _ _ => String "." fp
                         end = true).
  { destruct fp as [|c r]; [reflexivity|].
    rewrite html_free_cons. now rewrite (html_free_digits _ Hp). }
  assert (H3 : html_free match ex with
                         | None => EmptyString
                         | Some (eneg, ed) =>
                           String "e" (String (if eneg then "-" else "+")%char ed)
                         end = true).
  { destruct ex as [[eneg ed]|]; [|reflexivity].
    destruct He as [Hd _]. rewrite !html_free_cons, (html_free_digits _ Hd).
    destruct eneg; reflexivity. }
  now rewrite H1, H2, H3.
Qed.

Lemma html_free_join l :
  Forall (fun s => html_free s = true) l -> html_free (json.join "," l) = true.
Proof.
  induction 1 as [|x l Hx Hl IH]; [reflexivity|].
  destruct l as [|y r]; [exact Hx|].
  rewrite join_cons, !html_free_app, Hx, IH. reflexivity.
Qed.

Lemma html_free_encode v : valid_value v -> html_free (json.encode v) = true.
Proof.
  induction v as [ | b | f | s | xs IH | m IH] using value_ind';
    intros V; inversion V as [ | | ? Hf | ? Hs | ? Hxs | ? Hnd Hm]; subst.
  - reflexivity.
  - destruct b; reflexivity.
  - now apply html_free_encode_float.
  - now apply html_free_encode_string.
  - rewrite encode_slice, !html_free_app, html_free_join; [reflexivity|].
    rewrite Forall_map, Forall_forall in *. auto.
  - rewrite encode_map, !html_free_app, html_free_join; [reflexivity|].
    rewrite Forall_map.
    eapply Permutation_Forall; [symmetry; apply sort_by_key_perm|].
    rewrite Forall_map, Forall_forall in *. intros e He.
    unfold json.encode_member. cbn [fst snd].
    rewrite !html_free_app, html_free_encode_string by now apply Hm.
    rewrite IH; [reflexivity|exact He|now apply Hm].
Qed.

(** X18.  The canonical bytes never hold one of the characters <, >
    and &: Marshal escapes them in strings and keys (as the six bytes
    of \u003c, \u003e and \u0026) and writes none elsewhere.  Whoever computes the MAC
    over a payload outside this service has to escape them the same
    way. *)
Theorem canonical_bytes_html_free text data :
  canonicalize text = Ok data -> html_free data = true.
Proof.
  unfold canonicalize, json.Marshal.
  destruct (json.Unmarshal text) as [v|] eqn:U; [|discriminate].
  intros [= <-]. apply html_free_encode. eapply Unmarshal_valid; eauto.
Qed.

Lemma canonical_bytes_html_free_witness :
  html_free (js "{'a\u0026b':['\u003c/script\u003e']}") = true.
Proof.
  refine (canonical_bytes_html_free (js "{ 'a&b' : [ '</script>' ] }") _ _).
  vm_compute. reflexivity.
Defined.

(** ** Different values have different canonical bytes *)




(** ** What follows the first value of a text *)

Lemma drop_app_le n : forall s t,
  (n <= String.length s)%nat -> drop n (s ++ t) = drop n s ++ t.
Proof.
  induction n as [|n IH]; intros [|c s] t H; cbn in *; try reflexivity; try lia.
  apply IH. lia.
Qed.

Lemma take_app_le n : forall s t,
  (n <= String.length s)%nat -> take n (s ++ t) = take n s.
Proof.
  induction n as [|n IH]; intros [|c s] t H; cbn in *; try reflexivity; try lia.
  rewrite IH by lia. reflexivity.
Qed.

Lemma skip_space_app s t :
  json.skip_space s <> EmptyString -> json.skip_space (s ++ t) = json.skip_space s ++ t.
Proof.
  induction s as [|c s IH]; cbn [json.skip_space String.append]; intros H; [congruence|].
  destruct (json.isSpace c); [now apply IH|reflexivity].
Qed.

Lemma skip_space_blank s t :
  json.skip_space s = EmptyString -> json.skip_space (s ++ t) = json.skip_space t.
Proof.
  induction s as [|c s IH]; cbn [json.skip_space String.append]; intros H; [reflexivity|].
  destruct (json.isSpace c); [now apply IH|discriminate].
Qed.

Lemma getu4_app_some s t n : json.getu4 s = Some n -> json.getu4 (s ++ t) = Some n.
Proof.
  destruct s as [|c0 [|c1 [|c2 [|c3 [|c4 [|c5 s]]]]]]; cbn; try discriminate. auto.
Qed.

Lemma getu4_start s n :
  json.getu4 s = Some n -> exists r, s = String backslash (String "u" r).
Proof.
  destruct s as [|c0 [|c1 [|c2 [|c3 [|c4 [|c5 s]]]]]]; cbn [json.getu4]; try discriminate.
  destruct (Ascii.eqb_spec c0 backslash) as [->|]; [|discriminate].
  destruct (Ascii.eqb_spec c1 "u") as [->|]; [|discriminate].
  intros _. eexists. reflexivity.
Qed.

(** A text of bytes from 128 on holds no closing quote. *)
Lemma scan_string_high f : forall s,
  forallb (fun c => (128 <=? code c)%N) (list_ascii_of_string s) = true ->
  json.scan_string f s = None.
Proof.
  induction f as [|f IH]; intros s H; [reflexivity|].
  destruct s as [|c r]; [reflexivity|].
  pose proof H as H0. cbn [list_ascii_of_string forallb] in H0.
  apply andb_prop in H0. destruct H0 as [Hc Hr]. apply N.leb_le in Hc.
  cbn [json.scan_string].
  rewrite (not_ascii_char c dquote Hc), (not_ascii_char c backslash Hc)
    by (vm_compute; reflexivity).
  replace (code c <? 32)%N with false by (symmetry; apply N.ltb_ge; lia).
  replace (code c <? utf8.RuneSelf)%N with false
    by (symmetry; apply N.ltb_ge; unfold utf8.RuneSelf; lia).
  destruct (utf8.DecodeRune (String c r)) as [rr size] eqn:D.
  rewrite IH; [reflexivity|].
  clear - H. revert size. generalize (String c r) H. clear.
  intros s H size. revert s H. induction size as [|n IH]; intros s H; [exact H|].
  destruct s as [|c s]; [reflexivity|].
  cbn [list_ascii_of_string forallb] in H. apply andb_prop in H.
  cbn [drop]. apply IH. tauto.
Qed.

Lemma first_low b sz lo hi : utf8.first b = Some (sz, lo, hi) -> (128 <= lo)%N.
Proof.
  unfold utf8.first.
  repeat match goal with
         | |- context [if ?c then _ else _] => destruct c
         end; intros [= <- <- <-] || discriminate; lia.
Qed.

(** The rune at the front of a text does not depend on what is appended
    to the text, unless the text is a truncated sequence, which holds
    bytes from 128 on only. *)
Lemma DecodeRune_app s t :
  utf8.DecodeRune (s ++ t) = utf8.DecodeRune s
  \/ forallb (fun c => (128 <=? code c)%N) (list_ascii_of_string s) = true.
Proof.
  destruct s as [|c0 s]; [now right|].
  unfold utf8.DecodeRune. cbn [String.append].
  destruct (N.ltb_spec (code c0) utf8.RuneSelf) as [|H0]; [now left|].
  unfold utf8.RuneSelf in H0.
  destruct (utf8.first (code c0)) as [[[sz lo] hi]|] eqn:F; [|now left].
  apply first_low in F.
  assert (B0 : (128 <=? code c0)%N = true) by now apply N.leb_le.
  destruct s as [|c1 s]; [right; cbn; now rewrite B0|].
  cbn [String.append].
  destruct ((code c1 <? lo) || (hi <? code c1))%N eqn:R1; [now left|].
  apply orb_false_elim in R1. destruct R1 as [R1 _]. apply N.ltb_ge in R1.
  assert (B1 : (128 <=? code c1)%N = true) by (apply N.leb_le; lia).
  destruct (sz =? 2)%N; [now left|].
  destruct s as [|c2 s]; [right; cbn; now rewrite B0, B1|].
  cbn [String.append].
  destruct (utf8.continuation (code c2)) eqn:R2; cbn [negb]; [|now left].
  assert (B2 : (128 <=? code c2)%N = true).
  { unfold utf8.continuation in R2. apply andb_prop in R2. tauto. }
  destruct (sz =? 3)%N; [now left|].
  destruct s as [|c3 s]; [right; cbn; now rewrite B0, B1, B2|].
  now left.
Qed.

Lemma prepend_app p (x : option (string * string)) str rest t :
  json.prepend p x = Some (str, rest) ->
  forall y, (forall str' , x = Some (str', rest) -> y = Some (str', rest ++ t)) ->
  json.prepend p y = Some (str, rest ++ t).
Proof.
  intros H y Hy. apply prepend_some in H. destruct H as [str' [-> ->]].
  rewrite (Hy str' eq_refl). reflexivity.
Qed.

Lemma scan_string_app f : forall s str rest,
  json.scan_string f s = Some (str, rest) ->
  forall t f', (f <= f')%nat ->
    json.scan_string f' (s ++ t) = Some (str, rest ++ t).
Proof.
  induction f as [|f IH]; intros s str rest H t f' Hf; [discriminate|].
  destruct f' as [|f']; [lia|]. assert (Hf' : (f <= f')%nat) by lia.
  destruct s as [|c r]; [discriminate|].
  pose proof H as H0.
  cbn [json.scan_string] in H. cbn [String.append json.scan_string].
  destruct (c =? dquote)%char.
  { now injection H as <- <-. }
  destruct (c =? backslash)%char eqn:Ec.
  { apply Ascii.eqb_eq in Ec. subst c.
    destruct r as [|e r']; [discriminate|]. cbn [String.append].
    destruct (json.simple_escape e) as [x|].
    { eapply prepend_app; [exact H|]. intros str' E. eapply IH; eauto. }
    destruct (e =? "u")%char eqn:Eu; [|discriminate].
    apply Ascii.eqb_eq in Eu. subst e.
    change (String backslash (String "u" (r' ++ t)))
      with (String backslash (String "u" r') ++ t).
    set (s := String backslash (String "u" r')) in *.
    destruct (json.getu4 s) as [rr|] eqn:G; [|discriminate].
    rewrite (getu4_app_some s t rr G).
    pose proof (getu4_length s rr G) as L6.
    rewrite (drop_app_le 6 s t) by lia.
    destruct (utf16.IsSurrogate rr).
    - destruct (json.getu4 (drop 6 s)) as [rr1|] eqn:G1.
      + rewrite (getu4_app_some _ t rr1 G1).
        pose proof (getu4_length _ rr1 G1) as L12.
        destruct (utf16.DecodeRune rr rr1 =? utf8.RuneError)%N.
        * eapply prepend_app; [exact H|]. intros str' E. eapply IH; eauto.
        * rewrite (drop_app_le 6 (drop 6 s) t) by lia.
          eapply prepend_app; [exact H|]. intros str' E. eapply IH; eauto.
      + assert (G1' : json.getu4 (drop 6 s ++ t) = None).
        { destruct (json.getu4 (drop 6 s ++ t)) as [x|] eqn:Gx; [|reflexivity].
          exfalso. apply prepend_some in H. destruct H as [str' [H _]].
          apply getu4_start in Gx. destruct Gx as [rx Ex].
          destruct f as [|f0]; [discriminate|].
          destruct (drop 6 s) as [|d0 [|d1 ds]] eqn:Ed.
          - discriminate H.
          - cbn [String.append] in Ex. injection Ex as -> _.
            cbn [json.scan_string] in H.
            change (backslash =? dquote)%char with false in H.
            rewrite Ascii.eqb_refl in H. discriminate H.
          - cbn [String.append] in Ex. injection Ex as -> -> _.
            cbn [json.scan_string] in H.
            change (backslash =? dquote)%char with false in H.
            rewrite Ascii.eqb_refl in H.
            change (json.simple_escape "u") with (@None ascii) in H.
            change ("u" =? "u")%char with true in H. cbv iota in H.
            rewrite G1 in H. discriminate H. }
        rewrite G1'.
        eapply prepend_app; [exact H|]. intros str' E. eapply IH; eauto.
    - eapply prepend_app; [exact H|]. intros str' E. eapply IH; eauto. }
  destruct (code c <? 32)%N; [discriminate|].
  destruct (code c <? utf8.RuneSelf)%N.
  { eapply prepend_app; [exact H|]. intros str' E. eapply IH; eauto. }
  change (String c (r ++ t)) with (String c r ++ t).
  destruct (DecodeRune_app (String c r) t) as [D|Hhigh].
  - rewrite D. destruct (utf8.DecodeRune (String c r)) as [rr size] eqn:Dr.
    pose proof (DecodeRune_size (String c r) ltac:(discriminate)) as Sz.
    rewrite Dr in Sz. cbn [snd] in Sz.
    rewrite (drop_app_le size (String c r) t) by lia.
    eapply prepend_app; [exact H|]. intros str' E. eapply IH; eauto.
  - rewrite (scan_string_high (S f) _ Hhigh) in H0. discriminate H0.
Qed.

Lemma span_digits_suffix s : forall ds r t,
  span_digits s = (ds, r) -> r <> EmptyString -> span_digits (s ++ t) = (ds, r ++ t).
Proof.
  induction s as [|c s IH]; intros ds r t H Hr; cbn [span_digits String.append] in *.
  - injection H as <- <-. congruence.
  - destruct (is_digit c).
    + destruct (span_digits s) as [ds' r'] eqn:E. injection H as <- <-.
      now rewrite (IH _ _ t eq_refl Hr).
    + now injection H as <- <-.
Qed.

Lemma strip_prefix_suffix p : forall s r t,
  json.strip_prefix p s = Some r -> json.strip_prefix p (s ++ t) = Some (r ++ t).
Proof.
  induction p as [|a p IH]; intros [|b s] r t; cbn; try discriminate.
  - now intros [= <-].
  - now intros [= <-].
  - destruct (a =? b)%char; [apply IH|discriminate].
Qed.

Lemma app_nonempty_r a b : b <> EmptyString -> a ++ b <> EmptyString.
Proof. destruct a; [auto|discriminate]. Qed.

Lemma scan_number_suffix s lit rest t :
  json.scan_number s = Some (lit, rest) -> rest <> EmptyString ->
  json.scan_number (s ++ t) = Some (lit, rest ++ t).
Proof.
  unfold json.scan_number. intros H Hr.
  assert (Hs : s <> EmptyString).
  { intros ->. discriminate H. }
  destruct s as [|c r]; [congruence|]. cbn [String.append].
  set (s1 := if (c =? "-")%char then r else String c r).
  assert (E1 : (if (c =? "-")%char then ("-", r) else (EmptyString, String c r))
               = (if (c =? "-")%char then "-" else EmptyString, s1))
    by (subst s1; destruct (c =? "-")%char; reflexivity).
  assert (E2 : (if (c =? "-")%char then ("-", r ++ t) else (EmptyString, String c (r ++ t)))
               = (if (c =? "-")%char then "-" else EmptyString, s1 ++ t))
    by (subst s1; destruct (c =? "-")%char; reflexivity).
  rewrite E1 in H. rewrite E2. clear E1 E2.
  destruct (json.scan_int s1) as [[i s2]|] eqn:Ei; [|discriminate].
  destruct (json.scan_frac s2) as [[fr s3]|] eqn:Ef; [|discriminate].
  destruct (json.scan_exp s3) as [[ex s4]|] eqn:Ee; [|discriminate].
  injection H as <- <-.
  pose proof (scan_frac_app _ _ _ Ef) as A2. pose proof (scan_exp_app _ _ _ Ee) as A3.
  assert (N3 : s3 <> EmptyString) by (rewrite A3; now apply app_nonempty_r).
  assert (N2 : s2 <> EmptyString) by (rewrite A2; now apply app_nonempty_r).
  assert (Ii : json.scan_int (s1 ++ t) = Some (i, s2 ++ t)).
  { unfold json.scan_int in *. destruct s1 as [|c1 r1]; [discriminate|].
    cbn [String.append]. destruct (c1 =? "0")%char; [now injection Ei as <- <-|].
    destruct (is_digit c1); [|discriminate].
    destruct (span_digits r1) as [ds r'] eqn:E. injection Ei as <- <-.
    now rewrite (span_digits_suffix _ _ _ t E N2). }
  assert (If : json.scan_frac (s2 ++ t) = Some (fr, s3 ++ t)).
  { unfold json.scan_frac in *. destruct s2 as [|c2 r2]; [congruence|].
    cbn [String.append]. destruct (c2 =? ".")%char.
    - destruct (span_digits r2) as [ds r'] eqn:E.
      destruct ds as [|d ds]; [discriminate|]. injection Ef as <- <-.
      now rewrite (span_digits_suffix _ _ _ t E N3).
    - now injection Ef as <- <-. }
  assert (Ie : json.scan_exp (s3 ++ t) = Some (ex, s4 ++ t)).
  { unfold json.scan_exp in *. destruct s3 as [|c3 r3]; [congruence|].
    cbn [String.append]. destruct ((c3 =? "e") || (c3 =? "E"))%char.
    - destruct r3 as [|g r'].
      + cbn in Ee. discriminate Ee.
      + cbn [String.append]. destruct ((g =? "+") || (g =? "-"))%char.
        * destruct (span_digits r') as [ds r''] eqn:E.
          destruct ds as [|d ds]; [discriminate|]. injection Ee as <- <-.
          now rewrite (span_digits_suffix _ _ _ t E Hr).
        * destruct (span_digits (String g r')) as [ds r''] eqn:E.
          destruct ds as [|d ds]; [discriminate|]. injection Ee as <- <-.
          change (String g (r' ++ t)) with (String g r' ++ t).
          now rewrite (span_digits_suffix _ _ _ t E Hr).
    - now injection Ee as <- <-. }
  now rewrite Ii, If, Ie.
Qed.

(** The scanner reads a value the same way when something is appended to
    the text, provided the value does not end with the text, as a number
    could then go on. *)
Lemma scan_suffix f :
  (forall d s a rest, json.scan_value f d s = Some (a, rest) ->
     rest <> EmptyString \/ (forall lit, a <> json.ANum lit) ->
     forall t, json.scan_value f d (s ++ t) = Some (a, rest ++ t))
  /\ (forall d s l rest, json.scan_elems f d s = Some (l, rest) ->
        forall t, json.scan_elems f d (s ++ t) = Some (l, rest ++ t))
  /\ (forall d s ms rest, json.scan_members f d s = Some (ms, rest) ->
        forall t, json.scan_members f d (s ++ t) = Some (ms, rest ++ t)).
Proof.
  induction f as [|f [IHv [IHe IHm]]]; [repeat split; discriminate|].
  assert (NE : forall r c r', json.skip_space r = String c r' -> r <> EmptyString).
  { intros r c r' H ->. discriminate H. }
  assert (SK : forall r c r' t, json.skip_space r = String c r' ->
                 json.skip_space (r ++ t) = String c (r' ++ t)).
  { intros r c r' t H. rewrite skip_space_app by (rewrite H; discriminate).
    now rewrite H. }
  split; [|split].
  - (* value *)
    intros d s a rest H Hr t.
    cbn [json.scan_value] in H. destruct s as [|c s0]; [discriminate|].
    cbn [String.append json.scan_value].
    destruct (c =? "{")%char.
    { destruct (N.ltb d json.maxNestingDepth); [|discriminate].
      destruct (json.skip_space s0) as [|c' r'] eqn:Es; [discriminate|].
      rewrite (SK _ _ _ t Es).
      destruct (c' =? "}")%char; [now injection H as <- <-|].
      destruct (json.scan_members f (d + 1) (String c' r')) as [[ms rest']|] eqn:E;
        [|discriminate].
      injection H as <- <-.
      change (String c' (r' ++ t)) with (String c' r' ++ t).
      now rewrite (IHm _ _ _ _ E t). }
    destruct (c =? "[")%char.
    { destruct (N.ltb d json.maxNestingDepth); [|discriminate].
      destruct (json.skip_space s0) as [|c' r'] eqn:Es; [discriminate|].
      rewrite (SK _ _ _ t Es).
      destruct (c' =? "]")%char; [now injection H as <- <-|].
      destruct (json.scan_elems f (d + 1) (String c' r')) as [[vs rest']|] eqn:E;
        [|discriminate].
      injection H as <- <-.
      change (String c' (r' ++ t)) with (String c' r' ++ t).
      now rewrite (IHe _ _ _ _ E t). }
    destruct (c =? dquote)%char.
    { destruct (json.scan_string (String.length s0) s0) as [[str rest']|] eqn:E;
        [|discriminate].
      injection H as <- <-.
      rewrite (scan_string_app _ _ _ _ E t (String.length (s0 ++ t)));
        [reflexivity|rewrite length_append; lia]. }
    destruct ((c =? "-")%char || is_digit c).
    { destruct (json.scan_number (String c s0)) as [[lit rest']|] eqn:E; [|discriminate].
      injection H as <- <-.
      destruct Hr as [Hr|Hr]; [|exfalso; eapply Hr; reflexivity].
      change (String c (s0 ++ t)) with (String c s0 ++ t).
      now rewrite (scan_number_suffix _ _ _ t E Hr). }
    unfold json.scan_literal in *.
    change (String c (s0 ++ t)) with (String c s0 ++ t).
    destruct (c =? "t")%char.
    { destruct (json.strip_prefix "true" (String c s0)) eqn:E; [|discriminate].
      injection H as <- <-. now rewrite (strip_prefix_suffix _ _ _ t E). }
    destruct (c =? "f")%char.
    { destruct (json.strip_prefix "false" (String c s0)) eqn:E; [|discriminate].
      injection H as <- <-. now rewrite (strip_prefix_suffix _ _ _ t E). }
    destruct (c =? "n")%char; [|discriminate].
    destruct (json.strip_prefix "null" (String c s0)) eqn:E; [|discriminate].
    injection H as <- <-. now rewrite (strip_prefix_suffix _ _ _ t E).
  - (* elements *)
    intros d s l rest H t. cbn [json.scan_elems] in *.
    destruct (json.scan_value f d s) as [[v r0]|] eqn:E; [|discriminate].
    destruct (json.skip_space r0) as [|c r'] eqn:Es; [discriminate|].
    rewrite (IHv _ _ _ _ E (or_introl (NE _ _ _ Es)) t), (SK _ _ _ t Es).
    destruct (c =? ",")%char.
    + destruct (json.scan_elems f d (json.skip_space r')) as [[vs rest']|] eqn:E';
        [|discriminate].
      injection H as <- <-.
      assert (Hn : json.skip_space r' <> EmptyString).
      { intros Hn. rewrite Hn in E'. destruct f as [|[|f0]]; discriminate E'. }
      now rewrite (skip_space_app _ t Hn), (IHe _ _ _ _ E' t).
    + destruct (c =? "]")%char; [|discriminate]. now injection H as <- <-.
  - (* members *)
    intros d s ms rest H t. cbn [json.scan_members] in *.
    destruct s as [|q r0]; [discriminate|]. cbn [String.append].
    destruct (q =? dquote)%char; [|discriminate].
    destruct (json.scan_string (String.length r0) r0) as [[k r1]|] eqn:Ek; [|discriminate].
    rewrite (scan_string_app _ _ _ _ Ek t (String.length (r0 ++ t)))
      by (rewrite length_append; lia).
    destruct (json.skip_space r1) as [|col r2] eqn:Es1; [discriminate|].
    rewrite (SK _ _ _ t Es1).
    destruct (col =? ":")%char; [|discriminate].
    destruct (json.scan_value f d (json.skip_space r2)) as [[v r3]|] eqn:E; [|discriminate].
    assert (Hn2 : json.skip_space r2 <> EmptyString).
    { intros Hn. rewrite Hn in E. destruct f; discriminate E. }
    destruct (json.skip_space r3) as [|c r4] eqn:Es3; [discriminate|].
    rewrite (skip_space_app _ t Hn2), (IHv _ _ _ _ E (or_introl (NE _ _ _ Es3)) t),
      (SK _ _ _ t Es3).
    destruct (c =? ",")%char.
    + destruct (json.scan_members f d (json.skip_space r4)) as [[ms' rest']|] eqn:E';
        [|discriminate].
      injection H as <- <-.
      assert (Hn : json.skip_space r4 <> EmptyString).
      { intros Hn. rewrite Hn in E'. destruct f; discriminate E'. }
      now rewrite (skip_space_app _ t Hn), (IHm _ _ _ _ E' t).
    + destruct (c =? "}")%char; [|discriminate]. now injection H as <- <-.
Qed.


Lemma decode_members_step f s req :
  decode_members (S f) s req
  = match s with
    | String q r0 =>
      if (q =? dquote)%char then
        match json.scan_string (String.length r0) r0 with
        | None => syntax_error
        | Some (key, r1) =>
          match json.skip_space r1 with
          | String col r2 =>
            if (col =? ":")%char then
              match json.scan_value (S (String.length (json.skip_space r2))) 1
                      (json.skip_space r2) with
              | None => syntax_error
              | Some (a, r3) =>
                match json.skip_space r3 with
                | String c r4 =>
                  if (c =? ",")%char then
                    match store_field req key
                            (take (String.length (json.skip_space r2) - String.length r3)
                               (json.skip_space r2)) a with
                    | Err e => Err e
                    | Ok req' => decode_members f (json.skip_space r4) req'
                    end
                  else if (c =? "}")%char then
                    store_field req key
                      (take (String.length (json.skip_space r2) - String.length r3)
                         (json.skip_space r2)) a
                  else syntax_error
                | EmptyString => syntax_error
                end
              end
            else syntax_error
          | EmptyString => syntax_error
          end
        end
      else syntax_error
    | EmptyString => syntax_error
    end.
Proof. reflexivity. Qed.

Lemma decode_members_suffix f : forall s req req',
  decode_members f s req = Ok req' ->
  forall t f', (f <= f')%nat -> decode_members f' (s ++ t) req = Ok req'.
Proof.
  induction f as [|f IH]; intros s req req' H t f' Hf; [discriminate|].
  destruct f' as [|f']; [lia|].
  rewrite decode_members_step in H. rewrite decode_members_step.
  destruct s as [|q r0]; [discriminate|]. cbn [String.append].
  destruct (q =? dquote)%char; [|discriminate].
  destruct (json.scan_string (String.length r0) r0) as [[k r1]|] eqn:Ek; [|discriminate].
  rewrite (scan_string_app _ _ _ _ Ek t (String.length (r0 ++ t)))
    by (rewrite length_append; lia).
  destruct (json.skip_space r1) as [|col r2] eqn:Es1; [discriminate|].
  rewrite (skip_space_app r1 t) by (rewrite Es1; discriminate).
  rewrite Es1. cbn [String.append].
  destruct (col =? ":")%char; [|discriminate].
  destruct (json.scan_value (S (String.length (json.skip_space r2))) 1
              (json.skip_space r2)) as [[a r3]|] eqn:E; [|discriminate].
  assert (Hn2 : json.skip_space r2 <> EmptyString).
  { intros Hn. rewrite Hn in E. discriminate E. }
  destruct (json.skip_space r3) as [|c r4] eqn:Es3; [discriminate|].
  assert (Hn3 : r3 <> EmptyString) by (intros ->; discriminate Es3).
  destruct (proj1 (scan_consumed _) _ _ _ _ E) as [L3 _].
  rewrite (skip_space_app r2 t Hn2).
  pose proof (proj1 (scan_suffix _) _ _ _ _ E (or_introl Hn3) t) as E'.
  rewrite (scan_value_mono _ (S (String.length (json.skip_space r2 ++ t))) _ _ _ E')
    by (rewrite length_append; lia).
  rewrite (skip_space_app r3 t) by (rewrite Es3; discriminate).
  rewrite Es3. cbn [String.append].
  replace (String.length (json.skip_space r2 ++ t) - String.length (r3 ++ t))%nat
    with (String.length (json.skip_space r2) - String.length r3)%nat
    by (rewrite !length_append; lia).
  rewrite take_app_le by lia.
  destruct (c =? ",")%char.
  - destruct (store_field req k _ a) as [req1|]; [|discriminate].
    assert (Hn4 : json.skip_space r4 <> EmptyString).
    { intros Hn. rewrite Hn in H. destruct f; discriminate H. }
    rewrite (skip_space_app r4 t Hn4). eapply IH; [exact H|lia].
  - destruct (c =? "}")%char; [exact H|discriminate].
Qed.

Lemma decode_request_suffix r r' req t :
  decode_request r = Ok req ->
  BodyFails r' = BodyFails r ->
  Body r' = Body r ++ t ->
  decode_request r' = Ok req.
Proof.
  unfold decode_request. intros H Hf ->.
  destruct (json.skip_space (Body r)) as [|c r0] eqn:Es; [discriminate|].
  rewrite skip_space_app, Es by (rewrite Es; discriminate). cbn [String.append].
  destruct (c =? "{")%char.
  - destruct (json.skip_space r0) as [|c' r1] eqn:Es0; [discriminate|].
    rewrite skip_space_app, Es0 by (rewrite Es0; discriminate). cbn [String.append].
    destruct (c' =? "}")%char; [exact H|].
    change (String c' (r1 ++ t)) with (String c' r1 ++ t).
    eapply decode_members_suffix; [exact H|]. rewrite length_append. lia.
  - destruct (json.scan_value (S (String.length (String c r0))) 0 (String c r0))
      as [[a rest]|] eqn:E; [|discriminate].
    assert (Ha : a = json.ANull) by (destruct a; try discriminate H; reflexivity).
    subst a.
    assert (Hl : forall lit, json.ANull <> json.ANum lit) by discriminate.
    pose proof (proj1 (scan_suffix _) _ _ _ _ E (or_intror Hl) t) as E'.
    apply (scan_value_mono _ (S (String.length (String c r0 ++ t)))) in E';
      [|rewrite length_append; lia].
    change (String c (r0 ++ t)) with (String c r0 ++ t).
    rewrite E'.
    destruct rest as [|x rest]; cbn [String.append].
    + rewrite Hf. destruct (BodyFails r); [discriminate|].
      destruct t; exact H.
    + exact H.
Qed.

(** X20.  verifyHandler looks at the first JSON value of the body only:
    when the request is decoded, anything appended to the body, be it
    another value or bytes that are no JSON at all, changes neither the
    answer nor the call to the service. *)
Theorem verify_ignores_trailing_data kms name r r' req t :
  decode_request r = Ok req ->
  Method r' = Method r ->
  BodyFails r' = BodyFails r ->
  Body r' = Body r ++ t ->
  verifyHandler kms name r' = verifyHandler kms name r.
Proof.
  intros Hd Hm Hf Hb.
  rewrite !verifyHandler_eq, Hm, Hd, (decode_request_suffix r r' req t Hd Hf Hb).
  reflexivity.
Qed.

Lemma verify_ignores_trailing_data_witness :
  verifyHandler toy_kms toy_name
    (post (js "{'payload':{'x':1},'signature':'AAAA'}" ++ "} not JSON"))
  = verifyHandler toy_kms toy_name (post (js "{'payload':{'x':1},'signature':'AAAA'}")).
Proof.
  refine (verify_ignores_trailing_data toy_kms toy_name
            (post (js "{'payload':{'x':1},'signature':'AAAA'}"))
            (post (js "{'payload':{'x':1},'signature':'AAAA'}" ++ "} not JSON"))
            {| Payload := js "{'x':1}"; Signature := "AAAA" |} "} not JSON" _ _ _ _).
  - vm_compute. reflexivity.
  - reflexivity.
  - reflexivity.
  - reflexivity.
Defined.

(** X21.  signHandler, on the contrary, takes the whole body as one
    JSON value: when a body is accepted, the same body followed by
    anything but white space is refused with status 400 and
    "JSON inválido", and the service is not called. *)
Theorem sign_rejects_trailing_data kms name now r r' m t :
  Method r' = MethodPost ->
  BodyFails r' = false ->
  json.Unmarshal_map (Body r) = Ok (Some m) ->
  json.skip_space t <> EmptyString ->
  Body r' = Body r ++ t ->
  signHandler kms name now r'
  = (response StatusBadRequest (error_body "JSON inválido"), [EvReadBody]).
Proof.
  intros Hm Hf Hu Ht Hb.
  rewrite signHandler_eq, Hm, Hf, String.eqb_refl. cbn [negb].
  assert (E : json.scan_text (Body r') = None).
  { unfold json.Unmarshal_map in Hu. rewrite Hb.
    unfold json.scan_text in *.
    destruct (json.scan_value _ 0 (json.skip_space (Body r))) as [[a rest]|] eqn:E;
      [|discriminate].
    destruct (json.skip_space rest) eqn:Er; [|discriminate].
    assert (Hn : json.skip_space (Body r) <> EmptyString).
    { intros Hn. rewrite Hn in E. discriminate E. }
    assert (Ha : forall lit, a <> json.ANum lit).
    { intros lit ->. discriminate Hu. }
    pose proof (proj1 (scan_suffix _) _ _ _ _ E (or_intror Ha) t) as E'.
    rewrite (skip_space_app _ t Hn).
    rewrite (scan_value_mono _ (S (String.length (Body r ++ t))) _ _ _ E')
      by (rewrite length_append; lia).
    rewrite (skip_space_blank _ t Er).
    destruct (json.skip_space t); [congruence|reflexivity]. }
  unfold json.Unmarshal_map. rewrite E. reflexivity.
Qed.

Lemma sign_rejects_trailing_data_witness :
  signHandler toy_kms toy_name toy_now (post (js "{'x':1}" ++ " {}"))
  = (response StatusBadRequest (error_body "JSON inválido"), [EvReadBody]).
Proof.
  refine (sign_rejects_trailing_data toy_kms toy_name toy_now
            (post (js "{'x':1}")) (post (js "{'x':1}" ++ " {}"))
            [("x", json.VFloat64 (strconv.Float false 4503599627370496 (-52)))]
            " {}" _ _ _ _ _).
  - reflexivity.
  - reflexivity.
  - vm_compute. reflexivity.
  - vm_compute. discriminate.
  - reflexivity.
Defined.

(** ** The decoder against what the text says *)

Lemma to_values_denotes xs :
  Forall (fun a => forall v, json.to_value a = Ok v -> denotes a v) xs ->
  forall vs, json.to_values xs = Ok vs -> Forall2 denotes xs vs.
Proof.
  induction 1 as [|a xs Ha Hxs IH]; cbn; intros vs H.
  - injection H as <-. constructor.
  - destruct (json.to_value a) as [v|] eqn:Ev; [|discriminate].
    destruct (json.to_values xs) as [vs'|]; [|discriminate].
    injection H as <-. constructor; auto.
Qed.

(** What [to_value] returns is the value that the syntax tree denotes. *)
Lemma to_value_denotes a : forall v, json.to_value a = Ok v -> denotes a v.
Proof.
  induction a as [ | b | l | s | xs IH | ms IH] using ast_ind'; intros v H.
  - injection H as <-. constructor.
  - injection H as <-. constructor.
  - cbn in H. destruct (strconv.ParseFloat l) as [f|] eqn:E; [|discriminate].
    injection H as <-. now constructor.
  - injection H as <-. constructor.
  - rewrite to_value_arr in H.
    destruct (json.to_values xs) as [vs|] eqn:E; [|discriminate].
    injection H as <-. constructor. now apply to_values_denotes.
  - rewrite to_value_obj in H.
    destruct (json.to_entries ms []) as [m|] eqn:E; [|discriminate].
    injection H as <-. constructor.
    + assert (W : wf_value (json.VMap m)).
      { apply (to_value_wf (json.AObj ms)). rewrite to_value_obj, E. reflexivity. }
      now inversion W.
    + intros k Hk. now rewrite (to_entries_other _ _ _ k E Hk).
    + intros ms1 k a ms2 -> Hk.
      apply Forall_app in IH. destruct IH as [_ IH].
      inversion IH as [|? ? Ha _]; subst. cbn [snd] in Ha.
      apply to_entries_app in E. destruct E as [acc1 [_ E]].
      cbn [json.to_entries] in E.
      destruct (json.to_value a) as [v|] eqn:Ev; [|discriminate].
      exists v. split; [|now apply Ha].
      rewrite (to_entries_other _ _ _ k E Hk). apply map_get_set_eq.
Qed.

Lemma Unmarshal_map_members text m :
  json.Unmarshal_map text = Ok (Some m) ->
  exists ms, json.scan_text text = Some (json.AObj ms)
             /\ json.to_value (json.AObj ms) = Ok (json.VMap m).
Proof.
  unfold json.Unmarshal_map.
  destruct (json.scan_text text) as [[ | | | | | ms]|]; try discriminate.
  intros H. exists ms. split; [reflexivity|]. rewrite to_value_obj.
  destruct (json.to_entries ms []); [|discriminate].
  now injection H as ->.
Qed.

(** ** Timestamp injection *)

Lemma RFC3339Nano_layout t :
  (time.Year t < 10000)%N -> (time.Month t < 100)%N -> (time.Day t < 100)%N ->
  (time.Hour t < 100)%N -> (time.Minute t < 100)%N -> (time.Second t < 100)%N ->
  (time.Nanosecond t < 1000000000)%N ->
  rfc3339nano t (time.RFC3339Nano t).
Proof.
  intros Hy Hmo Hd Hh Hmi Hs Hns.
  exists (time.appendInt (time.Year t) 4), (time.appendInt (time.Month t) 2),
         (time.appendInt (time.Day t) 2), (time.appendInt (time.Hour t) 2),
         (time.appendInt (time.Minute t) 2), (time.appendInt (time.Second t) 2),
         (time.appendNano (time.Nanosecond t)).
  split; [reflexivity|].
  repeat (split; [apply appendInt_spec; try lia;
                  (change (10 ^ Z.of_nat 4) with 10000
                   || change (10 ^ Z.of_nat 2) with 100); lia|]).
  split.
  - intros E. unfold time.appendNano. now rewrite E.
  - intros E. apply appendNano_spec; [exact E|].
    change (10 ^ 9) with 1000000000. lia.
Qed.

(** A 200 response of signHandler is the one of its last branch. *)
Lemma sign_answer kms name now r resp t :
  signHandler kms name now r = (Responded resp, t) ->
  Status resp = StatusOK ->
  exists m mac,
    json.Unmarshal_map (Body r) = Ok (Some m)
    /\ MacSign kms name
         (json.encode (json.VMap (json.map_set m "timestamp"
                                    (json.VString (time.RFC3339Nano now))))) = Ok mac
    /\ t = [EvReadBody;
            EvMacSign name
              (json.encode (json.VMap (json.map_set m "timestamp"
                                         (json.VString (time.RFC3339Nano now)))))]
    /\ Responded resp
       = response StatusOK
           (json.VMap [("payload",
                        json.VMap (json.map_set m "timestamp"
                                     (json.VString (time.RFC3339Nano now))));
                       ("signature", json.VString (base64.EncodeToString mac))]).
Proof.
  intros Hs Hst. rewrite signHandler_eq in Hs.
  destruct (negb (Method r =? MethodPost)%string).
  { injection Hs as <- _. discriminate Hst. }
  destruct (BodyFails r).
  { injection Hs as <- _. discriminate Hst. }
  destruct (json.Unmarshal_map (Body r)) as [[m|]|e].
  3:{ injection Hs as <- _. discriminate Hst. }
  2:{ discriminate Hs. }
  cbv zeta in Hs.
  destruct (MacSign kms name _) as [mac|err] eqn:Es.
  2:{ injection Hs as <- _. discriminate Hst. }
  exists m, mac. split; [reflexivity|]. split; [exact Es|].
  injection Hs as <- <-. split; reflexivity.
Qed.

(** C7, as the code has it.  Take a request that signHandler answers
    with status 200, at an instant [now] whose calendar fields are in
    range.  Then the body is one JSON object, and the payload in the
    response is a map with distinct keys in which: "timestamp" is a
    string, the instant [now] in the layout RFC3339 with nanoseconds,
    whatever the client sent under that key; every other key of the
    object is mapped to the value that the last member of the body with
    this key denotes, where a number, at any depth, denotes the float64
    nearest to it; and a key that the object does not have, other than
    "timestamp", is absent. *)
Theorem timestamp_injection kms name now r resp t :
  (time.Year now < 10000)%N -> (time.Month now < 100)%N -> (time.Day now < 100)%N ->
  (time.Hour now < 100)%N -> (time.Minute now < 100)%N -> (time.Second now < 100)%N ->
  (time.Nanosecond now < 1000000000)%N ->
  signHandler kms name now r = (Responded resp, t) ->
  Status resp = StatusOK ->
  exists ms m' mac ts,
    json.scan_text (Body r) = Some (json.AObj ms)
    /\ Responded resp
       = response StatusOK
           (json.VMap [("payload", json.VMap m');
                       ("signature", json.VString (base64.EncodeToString mac))])
    /\ NoDup (List.map fst m')
    /\ json.map_get m' "timestamp" = Some (json.VString ts)
    /\ rfc3339nano now ts
    /\ (forall k, k <> "timestamp" -> ~ In k (List.map fst ms) ->
          json.map_get m' k = None)
    /\ (forall ms1 k a ms2,
          k <> "timestamp" ->
          ms = (ms1 ++ (k, a) :: ms2)%list -> ~ In k (List.map fst ms2) ->
          exists v, json.map_get m' k = Some v /\ denotes a v).
Proof.
  intros Hy Hmo Hd Hh Hmi Hsec Hns Hs Hst.
  destruct (sign_answer _ _ _ _ _ _ Hs Hst) as [m [mac [Hu [_ [_ Hr]]]]].
  destruct (Unmarshal_map_members _ _ Hu) as [ms [Hscan Hv]].
  apply to_value_denotes in Hv.
  inversion Hv as [ | | | | |? ? Hnd Hnone Hlast]; subst.
  exists ms, (json.map_set m "timestamp" (json.VString (time.RFC3339Nano now))),
         mac, (time.RFC3339Nano now).
  split; [exact Hscan|]. split; [exact Hr|].
  split; [now apply map_set_nodup|].
  split; [apply map_get_set_eq|].
  split; [now apply RFC3339Nano_layout|].
  split.
  - intros k Hk Hin. rewrite map_get_set_neq by exact Hk. now apply Hnone.
  - intros ms1 k a ms2 Hk E Hin.
    rewrite map_get_set_neq by exact Hk. eapply Hlast; eauto.
Qed.

Lemma timestamp_injection_witness :
  exists ms m' mac ts,
    json.scan_text (Body (post (js "{'x':1,'timestamp':'old','x':[2.50]}")))
    = Some (json.AObj ms)
    /\ Responded
         {| Status := 200;
            ContentType := "application/json";
            ResponseBody :=
              js "{'payload':{'timestamp':'2024-01-02T15:04:05.123456Z','x':[2.5]},'signature':'cHJvamVjdHMvcC9sb2NhdGlvbnMvZ2xvYmFsL2tleVJpbmdzL0V6ZUtleVJpbmcvY3J5cHRvS2V5cy9FemVLZXkvY3J5cHRvS2V5VmVyc2lvbnMvMTp7InRpbWVzdGFtcCI6IjIwMjQtMDEtMDJUMTU6MDQ6MDUuMTIzNDU2WiIsIngiOlsyLjVdfQ=='}"
              ++ newline |}
       = response StatusOK
           (json.VMap [("payload", json.VMap m');
                       ("signature", json.VString (base64.EncodeToString mac))])
    /\ NoDup (List.map fst m')
    /\ json.map_get m' "timestamp" = Some (json.VString ts)
    /\ rfc3339nano toy_now ts
    /\ (forall k, k <> "timestamp" -> ~ In k (List.map fst ms) ->
          json.map_get m' k = None)
    /\ (forall ms1 k a ms2,
          k <> "timestamp" ->
          ms = (ms1 ++ (k, a) :: ms2)%list -> ~ In k (List.map fst ms2) ->
          exists v, json.map_get m' k = Some v /\ denotes a v).
Proof.
  refine (timestamp_injection toy_kms toy_name toy_now
            (post (js "{'x':1,'timestamp':'old','x':[2.50]}"))
            {| Status := 200;
               ContentType := "application/json";
               ResponseBody :=
                 js "{'payload':{'timestamp':'2024-01-02T15:04:05.123456Z','x':[2.5]},'signature':'cHJvamVjdHMvcC9sb2NhdGlvbnMvZ2xvYmFsL2tleVJpbmdzL0V6ZUtleVJpbmcvY3J5cHRvS2V5cy9FemVLZXkvY3J5cHRvS2V5VmVyc2lvbnMvMTp7InRpbWVzdGFtcCI6IjIwMjQtMDEtMDJUMTU6MDQ6MDUuMTIzNDU2WiIsIngiOlsyLjVdfQ=='}"
                 ++ newline |}
            [EvReadBody;
             EvMacSign toy_name (js "{'timestamp':'2024-01-02T15:04:05.123456Z','x':[2.5]}")]
            _ _ _ _ _ _ _ _ _);
    [reflexivity .. | vm_compute; reflexivity | reflexivity].
Defined.

(** C7 as it is stated fails for a number that is not a float64: the
    body {"n":9007199254740993} is accepted, and the payload that comes
    back maps n to the float64 2^53, written 9007199254740992, which is
    not the number that the input payload has under n. *)
Lemma timestamp_injection_counterexample :
  json.scan_text (Body (post (js "{'n':9007199254740993}")))
  = Some (json.AObj [("n", json.ANum "9007199254740993")])
  /\ signHandler toy_kms toy_name toy_now (post (js "{'n':9007199254740993}"))
     = (response 200
          (json.VMap
             [("payload",
               json.VMap [("n", json.VFloat64 (strconv.Float false 4503599627370496 1));
                          ("timestamp", json.VString "2024-01-02T15:04:05.123456Z")]);
              ("signature",
               json.VString "cHJvamVjdHMvcC9sb2NhdGlvbnMvZ2xvYmFsL2tleVJpbmdzL0V6ZUtleVJpbmcvY3J5cHRvS2V5cy9FemVLZXkvY3J5cHRvS2V5VmVyc2lvbnMvMTp7Im4iOjkwMDcxOTkyNTQ3NDA5OTIsInRpbWVzdGFtcCI6IjIwMjQtMDEtMDJUMTU6MDQ6MDUuMTIzNDU2WiJ9")]),
        [EvReadBody;
         EvMacSign toy_name
           (js "{'n':9007199254740992,'timestamp':'2024-01-02T15:04:05.123456Z'}")])
  /\ body_of (fst (signHandler toy_kms toy_name toy_now (post (js "{'n':9007199254740993}"))))
     = Some (js "{'payload':{'n':9007199254740992,'timestamp':'2024-01-02T15:04:05.123456Z'},'signature':'cHJvamVjdHMvcC9sb2NhdGlvbnMvZ2xvYmFsL2tleVJpbmdzL0V6ZUtleVJpbmcvY3J5cHRvS2V5cy9FemVLZXkvY3J5cHRvS2V5VmVyc2lvbnMvMTp7Im4iOjkwMDcxOTkyNTQ3NDA5OTIsInRpbWVzdGFtcCI6IjIwMjQtMDEtMDJUMTU6MDQ6MDUuMTIzNDU2WiJ9'}"
             ++ newline)
  /\ 4503599627370496 * 2 ^ 1 = 9007199254740992
  /\ 9007199254740992 <> 9007199254740993.
Proof.
  repeat split; try (vm_compute; reflexivity).
  discriminate.
Qed.

(** ** Numeric normalization *)

Lemma same_numbers_to_values xs ys :
  Forall2 same_numbers xs ys ->
  Forall (fun a1 => forall a2, same_numbers a1 a2 ->
            exists v, json.to_value a1 = Ok v /\ json.to_value a2 = Ok v) xs ->
  exists vs, json.to_values xs = Ok vs /\ json.to_values ys = Ok vs.
Proof.
  induction 1 as [|x y xs ys Hxy F IHF]; intros IH.
  - exists []. auto.
  - inversion IH as [|? ? Hx Hxs]; subst.
    destruct (Hx _ Hxy) as [v [E1 E2]].
    destruct (IHF Hxs) as [vs [F1 F2]].
    exists (v :: vs). cbn [json.to_values]. rewrite E1, E2, F1, F2. auto.
Qed.

Lemma same_numbers_to_entries ms1 ms2 :
  Forall2 (fun e1 e2 : string * json.ast =>
             fst e1 = fst e2 /\ same_numbers (snd e1) (snd e2)) ms1 ms2 ->
  Forall (fun e : string * json.ast =>
            forall a2, same_numbers (snd e) a2 ->
              exists v, json.to_value (snd e) = Ok v /\ json.to_value a2 = Ok v) ms1 ->
  forall acc, exists m,
    json.to_entries ms1 acc = Ok m /\ json.to_entries ms2 acc = Ok m.
Proof.
  induction 1 as [|[k1 x] [k2 y] ms1 ms2 [Hk Hxy] F IHF]; intros IH acc.
  - exists acc. auto.
  - cbn [fst snd] in Hk, Hxy. subst k2.
    inversion IH as [|? ? Hx Hxs]; subst. cbn [snd] in Hx.
    destruct (Hx _ Hxy) as [v [E1 E2]].
    cbn [json.to_entries]. rewrite E1, E2. now apply IHF.
Qed.

(** Two syntax trees that differ in the spelling of their numbers only
    are decoded, both of them, and to the same value. *)
Lemma same_numbers_to_value a1 : forall a2,
  same_numbers a1 a2 ->
  exists v, json.to_value a1 = Ok v /\ json.to_value a2 = Ok v.
Proof.
  induction a1 as [ | b | l | s | xs IH | ms IH] using ast_ind'; intros a2 H;
    inversion H; subst.
  - exists json.VNil. auto.
  - exists (json.VBool b). auto.
  - exists (json.VFloat64 f). cbn.
    match goal with
    | H1 : strconv.ParseFloat l = _, H2 : strconv.ParseFloat l2 = _ |- _ =>
      rewrite H1, H2
    end. auto.
  - exists (json.VString s). auto.
  - destruct (same_numbers_to_values xs ys) as [vs [E1 E2]]; auto.
    exists (json.VSlice vs). rewrite !to_value_arr, E1, E2. auto.
  - destruct (same_numbers_to_entries ms ms2) with (acc := @nil (string * json.value))
      as [m [E1 E2]]; auto.
    exists (json.VMap m). rewrite !to_value_obj, E1, E2. auto.
Qed.

Lemma same_numbers_Unmarshal_map t1 t2 a1 a2 :
  json.scan_text t1 = Some a1 -> json.scan_text t2 = Some a2 ->
  same_numbers a1 a2 ->
  json.Unmarshal_map t1 = json.Unmarshal_map t2.
Proof.
  intros H1 H2 S. unfold json.Unmarshal_map. rewrite H1, H2.
  destruct (same_numbers_to_value a1 a2 S) as [v [E1 E2]].
  inversion S; subst; try reflexivity.
  rewrite to_value_obj in E1, E2.
  destruct (json.to_entries ms1 []) as [m1|]; [|discriminate].
  destruct (json.to_entries ms2 []) as [m2|]; [|discriminate].
  congruence.
Qed.

Lemma same_numbers_canonicalize t1 t2 a1 a2 :
  json.scan_text t1 = Some a1 -> json.scan_text t2 = Some a2 ->
  same_numbers a1 a2 ->
  exists v,
    denotes a1 v /\ denotes a2 v
    /\ canonicalize t1 = Ok (json.encode v)
    /\ canonicalize t2 = Ok (json.encode v)
    /\ json.Unmarshal (json.encode v) = Ok (norm v).
Proof.
  intros H1 H2 S.
  destruct (same_numbers_to_value a1 a2 S) as [v [E1 E2]].
  assert (U1 : json.Unmarshal t1 = Ok v) by (unfold json.Unmarshal; now rewrite H1).
  assert (U2 : json.Unmarshal t2 = Ok v) by (unfold json.Unmarshal; now rewrite H2).
  exists v. repeat split.
  - now apply to_value_denotes.
  - now apply to_value_denotes.
  - unfold canonicalize. now rewrite U1.
  - unfold canonicalize. now rewrite U2.
  - apply Unmarshal_norm; [eapply Unmarshal_valid|eapply Unmarshal_nesting]; eauto.
Qed.

(** C10.  The canonical bytes of a text are written from the float64
    that its numbers denote, wherever the numbers stand.  Take two JSON
    texts that are the same but for the spelling of their numbers, each
    number of the one being read as the same float64 as the number in
    its place in the other, inside arrays and objects at any depth.
    Then both texts are accepted; there is one value that both denote,
    number by number the float64 nearest to the literal; the canonical
    bytes of both texts are the encoding of this value, so they are
    identical; these bytes read back as this value, with the keys of
    its maps in order; and signHandler answers two requests with these
    bodies alike, event by event, so it signs the same data for both.
    So 1e2, 100 and 1.0, 1 are conflated inside an object, and the
    integer 2^53 + 1 in an object comes back as 2^53, not as its
    original text. *)
Theorem numeric_normalization :
  (forall t1 t2 a1 a2,
     json.scan_text t1 = Some a1 -> json.scan_text t2 = Some a2 ->
     same_numbers a1 a2 ->
     (exists v,
        denotes a1 v /\ denotes a2 v
        /\ canonicalize t1 = Ok (json.encode v)
        /\ canonicalize t2 = Ok (json.encode v)
        /\ json.Unmarshal (json.encode v) = Ok (norm v))
     /\ forall kms name now r1 r2,
          Method r1 = Method r2 -> BodyFails r1 = BodyFails r2 ->
          Body r1 = t1 -> Body r2 = t2 ->
          signHandler kms name now r1 = signHandler kms name now r2)
  /\ canonicalize (js "{'m':[1e2,{'k':1.0}]}") = Ok (js "{'m':[100,{'k':1}]}")
  /\ canonicalize (js "{'m':[100,{'k':1}]}") = Ok (js "{'m':[100,{'k':1}]}")
  /\ canonicalize (js "{'n':9007199254740993}") = Ok (js "{'n':9007199254740992}")
  /\ canonicalize (js "{'n':9007199254740992}") = Ok (js "{'n':9007199254740992}").
Proof.
  split.
  - intros t1 t2 a1 a2 H1 H2 S. split.
    + now apply same_numbers_canonicalize.
    + intros kms name now r1 r2 Hm Hf <- <-.
      rewrite !signHandler_eq, Hm, Hf.
      now rewrite (same_numbers_Unmarshal_map _ _ _ _ H1 H2 S).
  - repeat split; vm_compute; reflexivity.
Qed.

Lemma numeric_normalization_witness :
  (exists v,
     denotes (json.AObj [("n", json.AArr [json.ANum "9007199254740993"; json.ANum "1e2"]);
                         ("s", json.AStr "x")]) v
     /\ denotes (json.AObj [("n", json.AArr [json.ANum "9007199254740992"; json.ANum "100.0"]);
                            ("s", json.AStr "x")]) v
     /\ canonicalize (js "{'n':[9007199254740993,1e2],'s':'x'}") = Ok (json.encode v)
     /\ canonicalize (js "{'n':[9007199254740992,100.0],'s':'x'}") = Ok (json.encode v)
     /\ json.Unmarshal (json.encode v) = Ok (norm v))
  /\ forall kms name now r1 r2,
       Method r1 = Method r2 -> BodyFails r1 = BodyFails r2 ->
       Body r1 = js "{'n':[9007199254740993,1e2],'s':'x'}" ->
       Body r2 = js "{'n':[9007199254740992,100.0],'s':'x'}" ->
       signHandler kms name now r1 = signHandler kms name now r2.
Proof.
  refine (proj1 numeric_normalization
            (js "{'n':[9007199254740993,1e2],'s':'x'}")
            (js "{'n':[9007199254740992,100.0],'s':'x'}")
            (json.AObj [("n", json.AArr [json.ANum "9007199254740993"; json.ANum "1e2"]);
                        ("s", json.AStr "x")])
            (json.AObj [("n", json.AArr [json.ANum "9007199254740992"; json.ANum "100.0"]);
                        ("s", json.AStr "x")]) _ _ _).
  - vm_compute. reflexivity.
  - vm_compute. reflexivity.
  - repeat (constructor; cbn [fst snd]);
      try (eapply same_numbers_num; vm_compute; reflexivity).
Defined.

(** The sign path conflates literals in the same way. *)
Example sign_normalizes_numbers :
  snd (signHandler toy_kms toy_name toy_now (post (js "{'n':9007199254740993,'m':1e2}")))
  = [EvReadBody;
     EvMacSign toy_name
       (js "{'m':100,'n':9007199254740992,'timestamp':'2024-01-02T15:04:05.123456Z'}")].
Proof. vm_compute. reflexivity. Qed.

(** ** Signing, then verifying, whatever the nesting *)

(** C2, as the code has it.  Take a request that signHandler answers
    with status 200, and a service whose MacVerify accepts what its
    MacSign signed.  The response holds a payload, a map, and the base64
    text of the MAC that MacSign returned for the encoding of this map;
    the payload nests arrays and objects at most 10000 deep.  When the
    response body is sent as it is to verifyHandler: if the payload
    nests less than 10000 deep, MacVerify is called with byte for byte
    the data that were given to MacSign and with that MAC, and the
    answer is 200 with valid true; if it nests exactly 10000 deep, the
    envelope is refused with status 400 and "JSON inválido", and the
    service is not called. *)
Theorem round_trip_verify kms name now r resp t r' :
  signHandler kms name now r = (Responded resp, t) ->
  Status resp = StatusOK ->
  (forall data mac, MacSign kms name data = Ok mac ->
                    MacVerify kms name data mac = Ok true) ->
  Method r' = MethodPost ->
  Body r' = ResponseBody resp ->
  exists m' mac,
    Responded resp
    = response StatusOK
        (json.VMap [("payload", json.VMap m');
                    ("signature", json.VString (base64.EncodeToString mac))])
    /\ t = [EvReadBody; EvMacSign name (json.encode (json.VMap m'))]
    /\ MacSign kms name (json.encode (json.VMap m')) = Ok mac
    /\ (nesting (json.VMap m') <= json.maxNestingDepth)%N
    /\ ((nesting (json.VMap m') < json.maxNestingDepth)%N ->
        verifyHandler kms name r'
        = (response StatusOK (json.VMap [("valid", json.VBool true)]),
           [EvReadBody; EvMacVerify name (json.encode (json.VMap m')) mac]))
    /\ (nesting (json.VMap m') = json.maxNestingDepth ->
        verifyHandler kms name r'
        = (response StatusBadRequest (error_body "JSON inválido"), [EvReadBody])).
Proof.
  intros Hs Hst Hkms Hm' Hb'.
  destruct (sign_answer _ _ _ _ _ _ Hs Hst) as [m [mac [Hu [Es [Ht Hr]]]]].
  set (m' := json.map_set m "timestamp" (json.VString (time.RFC3339Nano now))) in *.
  assert (V : valid_value (json.VMap m'))
    by (apply timestamped_valid; eapply Unmarshal_map_valid; eauto).
  assert (Hb : Body r' = json.Encode
                 (json.VMap [("payload", json.VMap m');
                             ("signature", json.VString (base64.EncodeToString mac))])).
  { rewrite Hb'. injection Hr as ->. reflexivity. }
  exists m', mac.
  split; [exact Hr|]. split; [exact Ht|]. split; [exact Es|].
  split; [|split].
  - pose proof (nesting_timestamp m (time.RFC3339Nano now)) as L. fold m' in L.
    apply Unmarshal_map_Unmarshal, Unmarshal_nesting in Hu. lia.
  - intros Hn.
    rewrite (verify_envelope kms name (json.VMap m') mac r' V Hn Hm' Hb).
    now rewrite (Hkms _ _ Es).
  - intros Hn. rewrite envelope_encoding in Hb.
    rewrite verifyHandler_eq, Hm', String.eqb_refl. cbn [negb].
    rewrite (decode_envelope_too_deep r' (json.VMap m') _ newline V ltac:(lia) Hb).
    reflexivity.
Qed.

Lemma round_trip_verify_witness :
  exists m' mac,
    Responded
      {| Status := 200;
         ContentType := "application/json";
         ResponseBody :=
           js "{'payload':{'timestamp':'2024-01-02T15:04:05.123456Z','x':1},'signature':'cHJvamVjdHMvcC9sb2NhdGlvbnMvZ2xvYmFsL2tleVJpbmdzL0V6ZUtleVJpbmcvY3J5cHRvS2V5cy9FemVLZXkvY3J5cHRvS2V5VmVyc2lvbnMvMTp7InRpbWVzdGFtcCI6IjIwMjQtMDEtMDJUMTU6MDQ6MDUuMTIzNDU2WiIsIngiOjF9'}"
           ++ newline |}
    = response StatusOK
        (json.VMap [("payload", json.VMap m');
                    ("signature", json.VString (base64.EncodeToString mac))])
    /\ [EvReadBody; EvMacSign toy_name (js "{'timestamp':'2024-01-02T15:04:05.123456Z','x':1}")]
       = [EvReadBody; EvMacSign toy_name (json.encode (json.VMap m'))]
    /\ MacSign toy_kms toy_name (json.encode (json.VMap m')) = Ok mac
    /\ (nesting (json.VMap m') <= json.maxNestingDepth)%N
    /\ ((nesting (json.VMap m') < json.maxNestingDepth)%N ->
        verifyHandler toy_kms toy_name
          (post (js "{'payload':{'timestamp':'2024-01-02T15:04:05.123456Z','x':1},'signature':'cHJvamVjdHMvcC9sb2NhdGlvbnMvZ2xvYmFsL2tleVJpbmdzL0V6ZUtleVJpbmcvY3J5cHRvS2V5cy9FemVLZXkvY3J5cHRvS2V5VmVyc2lvbnMvMTp7InRpbWVzdGFtcCI6IjIwMjQtMDEtMDJUMTU6MDQ6MDUuMTIzNDU2WiIsIngiOjF9'}"
                 ++ newline))
        = (response StatusOK (json.VMap [("valid", json.VBool true)]),
           [EvReadBody; EvMacVerify toy_name (json.encode (json.VMap m')) mac]))
    /\ (nesting (json.VMap m') = json.maxNestingDepth ->
        verifyHandler toy_kms toy_name
          (post (js "{'payload':{'timestamp':'2024-01-02T15:04:05.123456Z','x':1},'signature':'cHJvamVjdHMvcC9sb2NhdGlvbnMvZ2xvYmFsL2tleVJpbmdzL0V6ZUtleVJpbmcvY3J5cHRvS2V5cy9FemVLZXkvY3J5cHRvS2V5VmVyc2lvbnMvMTp7InRpbWVzdGFtcCI6IjIwMjQtMDEtMDJUMTU6MDQ6MDUuMTIzNDU2WiIsIngiOjF9'}"
                 ++ newline))
        = (response StatusBadRequest (error_body "JSON inválido"), [EvReadBody])).
Proof.
  refine (round_trip_verify toy_kms toy_name toy_now (post (js "{'x':1}"))
            {| Status := 200;
               ContentType := "application/json";
               ResponseBody :=
                 js "{'payload':{'timestamp':'2024-01-02T15:04:05.123456Z','x':1},'signature':'cHJvamVjdHMvcC9sb2NhdGlvbnMvZ2xvYmFsL2tleVJpbmdzL0V6ZUtleVJpbmcvY3J5cHRvS2V5cy9FemVLZXkvY3J5cHRvS2V5VmVyc2lvbnMvMTp7InRpbWVzdGFtcCI6IjIwMjQtMDEtMDJUMTU6MDQ6MDUuMTIzNDU2WiIsIngiOjF9'}"
                 ++ newline |}
            _ (post _) _ _ _ _ _).
  - vm_compute. reflexivity.
  - reflexivity.
  - intros data mac H. injection H as <-. cbn [toy_kms MacVerify].
    now rewrite String.eqb_refl.
  - reflexivity.
  - reflexivity.
Defined.

(** Arrays in arrays. *)
Lemma nested_arrays_valid n :
  valid_value (Nat.iter n (fun v => json.VSlice [v]) (json.VSlice [])).
Proof.
  induction n as [|n IH].
  - repeat constructor.
  - rewrite Nat.iter_succ. constructor. constructor; [exact IH|constructor].
Qed.

Lemma nested_arrays_nesting n :
  nesting (Nat.iter n (fun v => json.VSlice [v]) (json.VSlice [])) = (N.of_nat n + 1)%N.
Proof.
  induction n as [|n IH]; [reflexivity|].
  rewrite Nat.iter_succ.
  assert (E : forall v, nesting (json.VSlice [v]) = (1 + N.max (nesting v) 0)%N)
    by reflexivity.
  rewrite E, IH. lia.
Qed.

Lemma nested_arrays_norm n :
  norm (Nat.iter n (fun v => json.VSlice [v]) (json.VSlice []))
  = Nat.iter n (fun v => json.VSlice [v]) (json.VSlice []).
Proof.
  induction n as [|n IH]; [reflexivity|].
  rewrite Nat.iter_succ.
  assert (E : forall v, norm (json.VSlice [v]) = json.VSlice [norm v]) by reflexivity.
  now rewrite E, IH.
Qed.

Lemma repeat_string_end k s : repeat_string k s ++ s = s ++ repeat_string k s.
Proof.
  induction k as [|k IH]; cbn [repeat_string String.append].
  - symmetry. apply append_nil_r.
  - rewrite append_assoc, IH. reflexivity.
Qed.

Lemma nested_arrays_encode n :
  json.encode (Nat.iter n (fun v => json.VSlice [v]) (json.VSlice []))
  = repeat_string (S n) "[" ++ repeat_string (S n) "]".
Proof.
  induction n as [|n IH]; [reflexivity|].
  rewrite Nat.iter_succ, encode_slice.
  change (json.join "," (List.map json.encode [?v])) with (json.encode v).
  rewrite IH.
  change (repeat_string (S (S n)) "[") with ("[" ++ repeat_string (S n) "[").
  change (repeat_string (S (S n)) "]") with ("]" ++ repeat_string (S n) "]").
  rewrite <- (repeat_string_end (S n) "]"), !append_assoc. reflexivity.
Qed.

Lemma Unmarshal_Unmarshal_map text m :
  json.Unmarshal text = Ok (json.VMap m) -> json.Unmarshal_map text = Ok (Some m).
Proof.
  unfold json.Unmarshal, json.Unmarshal_map.
  destruct (json.scan_text text) as [[ | b | l | s | xs | ms]|]; try discriminate.
  - cbn. destruct (strconv.ParseFloat l); discriminate.
  - rewrite to_value_arr. destruct (json.to_values xs); discriminate.
  - rewrite to_value_obj. destruct (json.to_entries ms []); [|discriminate].
    now intros [= ->].
Qed.

(** A payload with one member whose value nests 9999 deep: signHandler
    accepts it, verifyHandler refuses what signHandler returned. *)
Lemma deep_payload_round_trip d :
  valid_value d -> norm d = d -> nesting d = 9999%N ->
  signHandler toy_kms toy_name toy_now (post (json.encode (json.VMap [("a", d)])))
  = (response StatusOK
       (json.VMap
          [("payload",
            json.VMap [("a", d); ("timestamp", json.VString "2024-01-02T15:04:05.123456Z")]);
           ("signature",
            json.VString
              (base64.EncodeToString
                 (toy_mac toy_name
                    (json.encode
                       (json.VMap [("a", d);
                                   ("timestamp",
                                    json.VString "2024-01-02T15:04:05.123456Z")])))))]),
     [EvReadBody;
      EvMacSign toy_name
        (json.encode
           (json.VMap [("a", d);
                       ("timestamp", json.VString "2024-01-02T15:04:05.123456Z")]))])
  /\ verifyHandler toy_kms toy_name
       (post (json.Encode
                (json.VMap
                   [("payload",
                     json.VMap [("a", d);
                                ("timestamp", json.VString "2024-01-02T15:04:05.123456Z")]);
                    ("signature",
                     json.VString
                       (base64.EncodeToString
                          (toy_mac toy_name
                             (json.encode
                                (json.VMap [("a", d);
                                            ("timestamp",
                                             json.VString
                                               "2024-01-02T15:04:05.123456Z")])))))])))
     = (response StatusBadRequest (error_body "JSON inválido"), [EvReadBody]).
Proof.
  intros V Hnorm Hn.
  assert (Va : valid_value (json.VMap [("a", d)])).
  { constructor.
    - repeat constructor. intros [].
    - constructor; [|constructor]. split; [|exact V].
      apply utf8_valid_ascii; [reflexivity|constructor]. }
  assert (Na : nesting (json.VMap [("a", d)]) = 10000%N).
  { cbn [nesting fold_right snd]. rewrite Hn. reflexivity. }
  assert (Hu : json.Unmarshal_map (json.encode (json.VMap [("a", d)]))
               = Ok (Some [("a", d)])).
  { apply Unmarshal_Unmarshal_map.
    rewrite Unmarshal_norm; [|exact Va|rewrite Na; discriminate].
    cbn [norm List.map fst snd]. rewrite Hnorm. reflexivity. }
  set (ts := json.VString "2024-01-02T15:04:05.123456Z").
  assert (Hs : signHandler toy_kms toy_name toy_now
                 (post (json.encode (json.VMap [("a", d)])))
               = (response StatusOK
                    (json.VMap
                       [("payload", json.VMap [("a", d); ("timestamp", ts)]);
                        ("signature",
                         json.VString
                           (base64.EncodeToString
                              (toy_mac toy_name
                                 (json.encode (json.VMap [("a", d); ("timestamp", ts)])))))]),
                  [EvReadBody;
                   EvMacSign toy_name
                     (json.encode (json.VMap [("a", d); ("timestamp", ts)]))])).
  { rewrite signHandler_eq. cbn [post Method BodyFails Body].
    change (negb ("POST" =? MethodPost)%string) with false. cbv iota.
    rewrite Hu. reflexivity. }
  split; [exact Hs|].
  assert (Vm : valid_value (json.VMap [("a", d); ("timestamp", ts)])).
  { pose proof (timestamped_valid [("a", d)] toy_now Va) as T. exact T. }
  assert (Nm : nesting (json.VMap [("a", d); ("timestamp", ts)]) = 10000%N).
  { cbn [nesting fold_right snd ts]. rewrite Hn. reflexivity. }
  rewrite verifyHandler_eq. cbn [post Method].
  change (negb ("POST" =? MethodPost)%string) with false. cbv iota.
  rewrite (decode_envelope_too_deep _ (json.VMap [("a", d); ("timestamp", ts)])
             (base64.EncodeToString
                (toy_mac toy_name (json.encode (json.VMap [("a", d); ("timestamp", ts)]))))
             newline Vm).
  - reflexivity.
  - rewrite Nm. reflexivity.
  - cbn [post Body]. apply envelope_encoding.
Qed.

(** C2 as it is stated fails at the nesting limit of encoding/json.
    The body {"a":[[...]]} with 9999 arrays, one inside the other, nests
    10000 deep: signHandler accepts it and answers 200 with the payload,
    now with its timestamp, and the signature.  The service accepts the
    signed data with this signature.  But in the response the payload
    stands one level deeper, and verifyHandler refuses the response body
    with status 400 and "JSON inválido"; it does not answer valid
    true. *)
Lemma round_trip_verify_counterexample :
  json.encode
    (json.VMap [("a", Nat.iter (N.to_nat 9998) (fun v => json.VSlice [v]) (json.VSlice []))])
  = js "{'a':" ++ repeat_string (N.to_nat 9999) "[" ++ repeat_string (N.to_nat 9999) "]" ++ "}"
  /\ signHandler toy_kms toy_name toy_now
       (post (json.encode
                (json.VMap
                   [("a", Nat.iter (N.to_nat 9998) (fun v => json.VSlice [v]) (json.VSlice []))])))
     = (response StatusOK
          (json.VMap
             [("payload",
               json.VMap
                 [("a", Nat.iter (N.to_nat 9998) (fun v => json.VSlice [v]) (json.VSlice []));
                  ("timestamp", json.VString "2024-01-02T15:04:05.123456Z")]);
              ("signature",
               json.VString
                 (base64.EncodeToString
                    (toy_mac toy_name
                       (json.encode
                          (json.VMap
                             [("a", Nat.iter (N.to_nat 9998) (fun v => json.VSlice [v])
                                      (json.VSlice []));
                              ("timestamp",
                               json.VString "2024-01-02T15:04:05.123456Z")])))))]),
        [EvReadBody;
         EvMacSign toy_name
           (json.encode
              (json.VMap
                 [("a", Nat.iter (N.to_nat 9998) (fun v => json.VSlice [v]) (json.VSlice []));
                  ("timestamp", json.VString "2024-01-02T15:04:05.123456Z")]))])
  /\ (forall data mac, MacSign toy_kms toy_name data = Ok mac ->
                       MacVerify toy_kms toy_name data mac = Ok true)
  /\ verifyHandler toy_kms toy_name
       (post (json.Encode
                (json.VMap
                   [("payload",
                     json.VMap
                       [("a", Nat.iter (N.to_nat 9998) (fun v => json.VSlice [v])
                                (json.VSlice []));
                        ("timestamp", json.VString "2024-01-02T15:04:05.123456Z")]);
                    ("signature",
                     json.VString
                       (base64.EncodeToString
                          (toy_mac toy_name
                             (json.encode
                                (json.VMap
                                   [("a", Nat.iter (N.to_nat 9998) (fun v => json.VSlice [v])
                                            (json.VSlice []));
                                    ("timestamp",
                                     json.VString
                                       "2024-01-02T15:04:05.123456Z")])))))])))
     = (response StatusBadRequest (error_body "JSON inválido"), [EvReadBody]).
Proof.
  assert (V := nested_arrays_valid (N.to_nat 9998)).
  assert (Hnorm := nested_arrays_norm (N.to_nat 9998)).
  assert (Hn : nesting (Nat.iter (N.to_nat 9998) (fun v => json.VSlice [v]) (json.VSlice []))
               = 9999%N).
  { rewrite nested_arrays_nesting, N2Nat.id. reflexivity. }
  assert (He := nested_arrays_encode (N.to_nat 9998)).
  assert (E9 : S (N.to_nat 9998) = N.to_nat 9999) by (vm_compute; reflexivity).
  rewrite E9 in He. clear E9.
  revert V Hnorm Hn He.
  generalize (Nat.iter (N.to_nat 9998) (fun v => json.VSlice [v]) (json.VSlice [])).
  generalize (N.to_nat 9999).
  intros n d V Hnorm Hn He.
  destruct (deep_payload_round_trip d V Hnorm Hn) as [Hs Hv].
  split; [|split; [exact Hs|split; [|exact Hv]]].
  - rewrite encode_map.
    change (json.join ","
              (List.map json.encode_member
                 (json.sort_by_key
                    (List.map (fun e => (fst e, json.encode (snd e))) [("a", d)]))))
      with (js "'a':" ++ json.encode d).
    rewrite He. cbn [js String.append]. rewrite !append_assoc. reflexivity.
  - intros data mac H. injection H as <-. cbn [toy_kms MacVerify].
    now rewrite String.eqb_refl.
Qed.
